(** * up-to-ynab: the reconciliation engine, embedded and verified

    A shallow embedding of the Up Bank -> YNAB sync worker:
    [fetchUpTransactionsByAccount], [syncToYNAB], [deleteFromYNAB] and
    [performResyncAll], with the two remote ledgers seen through an
    explicit interface ([Api]) whose every call may succeed or throw.

    A [string] is a sequence of UTF-16 code units below 256, one
    [ascii] per code unit.  A JavaScript number is a [JS.number]: an
    IEEE 754 double, whose arithmetic rounds to the nearest double,
    ties to even ([JS.toDouble]). *)

From Stdlib Require Import String Ascii List Bool Arith ZArith QArith Qround Lia.
From Stdlib Require Import Qabs Lqa.
From Stdlib Require Strings.Byte.
From Stdlib Require OrderedTypeEx.
Import ListNotations.
Close Scope Q_scope.
Local Open Scope string_scope.
Local Open Scope list_scope.

(* ================================================================== *)
(** ** JavaScript values used by the worker *)
(* ================================================================== *)

Module JS.

(** [s.substring(indexStart, indexEnd)] *)
Definition substring (s : string) (indexStart indexEnd : nat) : string :=
  let lo := Nat.min indexStart indexEnd in
  let hi := Nat.max indexStart indexEnd in
  String.substring lo (hi - lo) s.

(** [s.startsWith(p)] *)
Definition startsWith (s p : string) : bool := String.prefix p s.

Fixpoint drop (n : nat) (s : string) : string :=
  match n, s with
  | O, _ => s
  | S _, EmptyString => EmptyString
  | S n', String _ s' => drop n' s'
  end.

(** [s.replace(pat, rep)] with a string pattern: only the first
    occurrence is replaced. *)
Fixpoint replace (s pat rep : string) : string :=
  if String.prefix pat s then rep ++ drop (String.length pat) s
  else match s with
       | EmptyString => EmptyString
       | String c s' => String c (replace s' pat rep)
       end.

(** Truthiness of a possibly absent string: [undefined], [null] and
    the empty string are falsy. *)
Definition truthy (o : option string) : bool :=
  match o with
  | Some (String _ _) => true
  | _ => false
  end.

(** [o || d] where [d] is a string *)
Definition or_str (o : option string) (d : string) : string :=
  match o with
  | Some (String c s) => String c s
  | _ => d
  end.

(** [o || undefined] *)
Definition or_undefined (o : option string) : option string :=
  match o with
  | Some (String c s) => Some (String c s)
  | _ => None
  end.

(** [a < b] on strings *)
Definition lt (a b : string) : bool := String.ltb a b.

(** *** [Map] with string keys: insertion ordered, [set] on a present
    key keeps its position. *)
Definition Map (V : Type) : Type := list (string * V).

Fixpoint set {V : Type} (m : Map V) (k : string) (v : V) : Map V :=
  match m with
  | [] => [(k, v)]
  | (k', v') :: r =>
      if (k' =? k)%string then (k', v) :: r else (k', v') :: set r k v
  end.

Fixpoint get {V : Type} (m : Map V) (k : string) : option V :=
  match m with
  | [] => None
  | (k', v') :: r => if (k' =? k)%string then Some v' else get r k
  end.

Definition mapHas {V : Type} (m : Map V) (k : string) : bool :=
  match get m k with Some _ => true | None => false end.

(** [new Map(entries)] *)
Definition newMap {V : Type} (entries : list (string * V)) : Map V :=
  fold_left (fun m kv => set m (fst kv) (snd kv)) entries [].

(** *** [Set<string>] *)
Definition StrSet : Type := list string.

Definition has (s : StrSet) (x : string) : bool :=
  existsb (String.eqb x) s.

Definition add (s : StrSet) (x : string) : StrSet :=
  if has s x then s else s ++ [x].

(** [arr.includes(x)] *)
Definition includes (arr : list string) (x : string) : bool :=
  existsb (String.eqb x) arr.

(** *** Numbers

    A Number is an IEEE 754 double (binary64).  A finite double is
    held as the rational it denotes, in lowest terms; the two zeros
    are one value, which is what [JSON.stringify] writes of them. *)
Inductive number : Type :=
| NaN
| Infinity (negative : bool)
| Num (q : Q).

(** The integer nearest to [num / den], for [den] positive; of two
    that are as near, the even one. *)
Definition nearestEven (num den : Z) : Z :=
  let m := (num / den)%Z in
  match (2 * (num mod den) ?= den)%Z with
  | Lt => m
  | Gt => (m + 1)%Z
  | Eq => if Z.even m then m else (m + 1)%Z
  end.

(** The Number value for the real [q]: the double nearest to it, ties
    to the even significand.  A double is [m * 2^e] with [m] below
    [2^53] and [e] from -1074 to 971; [e] is taken so that [m] has 53
    bits, or is -1074 for a subnormal; what rounds to [2^1024] or
    above is an infinity. *)
Definition toDouble (q : Q) : number :=
  let a := Z.abs (Qnum q) in
  let d := Zpos (Qden q) in
  if (a =? 0)%Z then Num 0
  else
    let e0 := (Z.log2 a - Z.log2 d - 52)%Z in
    let e1 :=
      if (2 ^ 52 * (d * 2 ^ Z.max 0 e0) <=? a * 2 ^ Z.max 0 (- e0))%Z
      then e0 else (e0 - 1)%Z in
    let e := Z.max e1 (-1074) in
    let m := nearestEven (a * 2 ^ Z.max 0 (- e)) (d * 2 ^ Z.max 0 e) in
    let negative := (Qnum q <? 0)%Z in
    if (2 ^ 1024 <=? m * 2 ^ e)%Z then Infinity negative
    else
      Num (Qred (Qmake ((if negative then - m else m) * 2 ^ Z.max 0 e)
                   (Z.to_pos (2 ^ Z.max 0 (- e))))).

(** [x * k] for an integer [k] that is a double *)
Definition times (x : number) (k : Z) : number :=
  match x with
  | NaN => NaN
  | Infinity neg =>
      if (k =? 0)%Z then NaN else Infinity (if (k <? 0)%Z then negb neg else neg)
  | Num q => toDouble (q * inject_Z k)
  end.

(** [x / k] for a positive integer [k] that is a double *)
Definition divide (x : number) (k : positive) : number :=
  match x with
  | NaN => NaN
  | Infinity neg => Infinity neg
  | Num q => toDouble (q / inject_Z (Zpos k))
  end.

(** [Math.round]: the nearest integer, ties towards +Infinity.  The
    integer nearest to a double is a double: a double of magnitude
    [2^52] or more is an integer already. *)
Definition round (x : number) : number :=
  match x with
  | Num q => Num (inject_Z (Qfloor (q + (1 # 2))))
  | other => other
  end.

(** An integer of magnitude at most [2^53], as a Number *)
Definition ofZ (z : Z) : number := Num (inject_Z z).

(** **** [parseFloat] *)

(** The code units that [parseFloat] skips at the start
    (StrWhiteSpaceChar): TAB, LF, VT, FF, CR, SP, NBSP, the other space
    separators of Unicode, LS, PS and ZWNBSP. *)
Definition isWhiteSpaceUnit (u : N) : bool :=
  existsb (N.eqb u)
    [9; 10; 11; 12; 13; 32; 160; 5760; 8192; 8193; 8194; 8195; 8196; 8197;
     8198; 8199; 8200; 8201; 8202; 8232; 8233; 8239; 8287; 12288; 65279]%N.

(** Of these, a [string] can hold the seven below 256. *)
Definition isWhiteSpace (c : ascii) : bool := isWhiteSpaceUnit (N_of_ascii c).

Fixpoint trimStart (s : string) : string :=
  match s with
  | String c s' => if isWhiteSpace c then trimStart s' else s
  | EmptyString => EmptyString
  end.

Definition digitOf (c : ascii) : option Z :=
  let n := nat_of_ascii c in
  if ((48 <=? n) && (n <=? 57))%nat then Some (Z.of_nat (n - 48)) else None.

(** Reads the longest run of decimal digits: their count, the value
    of [acc] extended by them, and the rest of the input. *)
Fixpoint digits (s : string) (acc : Z) : nat * Z * string :=
  match s with
  | String c s' =>
      match digitOf c with
      | Some d =>
          let '(n, v, r) := digits s' (10 * acc + d)%Z in (S n, v, r)
      | None => (O, acc, s)
      end
  | EmptyString => (O, acc, s)
  end.

(** Optional sign: [true] when negative. *)
Definition sign (s : string) : bool * string :=
  match s with
  | String "-" s' => (true, s')
  | String "+" s' => (false, s')
  | _ => (false, s)
  end.

(** ExponentPart: [e] or [E], an optional sign, at least one digit;
    0 when there is none. *)
Definition exponent (s : string) : Z :=
  match s with
  | String c s' =>
      if ((c =? "e") || (c =? "E"))%char then
        let '(neg, s'') := sign s' in
        let '(n, v, _) := digits s'' 0%Z in
        match n with
        | O => 0%Z
        | S _ => if neg then (- v)%Z else v
        end
      else 0%Z
  | EmptyString => 0%Z
  end.

(** The real [m * 10^e] *)
Definition scale (m e : Z) : Q :=
  if (0 <=? e)%Z then inject_Z (m * 10 ^ e)
  else Qred (Qmake m (Z.to_pos (10 ^ (- e)))).

Definition parseFloat (input : string) : number :=
  let '(neg, s) := sign (trimStart input) in
  if String.prefix "Infinity" s then Infinity neg
  else
    let '(ni, vi, r) := digits s 0%Z in
    let '(nf, v, r') :=
      match r with
      | String "." r1 => digits r1 vi
      | _ => (O, vi, r)
      end in
    match ni, nf with
    | O, O => NaN
    | _, _ =>
        let e := (exponent r' - Z.of_nat nf)%Z in
        toDouble (scale (if neg then (- v)%Z else v) e)
    end.

End JS.

(* ================================================================== *)
(** ** Data model *)
(* ================================================================== *)

(** *** Up Bank (source ledger) *)

Record MoneyObject : Type := {
  currencyCode : string;
  value : string;
  valueInBaseUnits : Z
}.

(** The attributes of a [TransactionResource] the worker reads.  The
    worker reads every one of them through [?.] and [||], so each may
    be absent; [status] is kept as the string received, which may be
    neither [HELD] nor [SETTLED]. *)
Record Attributes : Type := {
  status : option string;
  description : option string;
  message : option string;
  amount : option MoneyObject;
  settledAt : option string;
  createdAt : option string
}.

Record TransactionResource : Type := {
  tx_id : string;
  attributes : option Attributes
}.

(** [upTx.attributes?.f] *)
Definition attr {A : Type} (f : Attributes -> option A)
    (upTx : TransactionResource) : option A :=
  match attributes upTx with
  | Some a => f a
  | None => None
  end.

(** [upTx.attributes?.amount?.value] *)
Definition amountValue (upTx : TransactionResource) : option string :=
  match attr amount upTx with
  | Some m => Some (value m)
  | None => None
  end.

(** The reply of the Up Bank API to a listing, page after page: each
    page carries [data] and a [links.next] that is either [null] or
    leads to the next page; a request may also be answered by a
    non-ok response or fail altogether. *)
Inductive PageChain : Type :=
| LastPage (data : list TransactionResource)
| NextPage (data : list TransactionResource) (next : PageChain)
| HttpError (httpStatus statusText : string)
| NetworkError (error : string).

(** *** YNAB (target ledger) *)

Inductive TransactionClearedStatus : Type := Cleared | Uncleared | Reconciled.

Definition cleared_eqb (a b : TransactionClearedStatus) : bool :=
  match a, b with
  | Cleared, Cleared | Uncleared, Uncleared | Reconciled, Reconciled => true
  | _, _ => false
  end.

(** A transaction as YNAB returns it. *)
Record TransactionDetail : Type := {
  td_id : string;
  td_account_id : string;
  td_date : string;
  td_amount : JS.number;
  td_payee_name : option string;
  td_cleared : TransactionClearedStatus;
  td_import_id : option string;
  td_deleted : bool
}.

(** A transaction as the worker submits it for creation. *)
Record SaveTransaction : Type := {
  sv_account_id : string;
  sv_date : string;
  sv_amount : JS.number;
  sv_payee_name : string;
  sv_memo : option string;
  sv_cleared : TransactionClearedStatus;
  sv_approved : bool;
  sv_import_id : option string
}.

Record SaveTransactionsResponse : Type := {
  created_transactions : option (list TransactionDetail);
  duplicate_import_ids : option (list string)
}.

Record UpdateTransaction : Type := {
  ut_id : string;
  ut_cleared : option TransactionClearedStatus
}.

(** *** Results of the worker *)

Record AccountSyncResult : Type := {
  imported : Z;
  duplicates : Z;
  total : Z
}.

Record DeleteResult : Type := {
  deleted : bool;
  notFound : bool
}.

Record OrphanedTransaction : Type := {
  ynabId : string;
  orphan_upId : string;
  orphan_payee : string;
  orphan_amount : JS.number;
  orphan_date : string
}.

Record RestoredTransaction : Type := {
  restored_upId : string;
  restored_payee : string;
  restored_amount : JS.number;
  restored_date : string
}.

Record AccountResult : Type := {
  upAccountId : string;
  ynabAccountId : string;
  acc_imported : Z;
  acc_duplicates : Z
}.

Inductive ResyncMessage : Type :=
| NothingToResync        (* No existing transactions found in YNAB, nothing to resync *)
| DryRunComplete         (* Dry run complete - no changes made *)
| FullResyncComplete.    (* Full resync complete *)

Record ResyncAllResult : Type := {
  resync_message : ResyncMessage;
  resync_dryRun : bool;
  resync_earliestDate : option string;
  resync_imported : Z;
  resync_duplicates : Z;
  resync_total : Z;
  orphanedDeleted : nat;
  orphanedTransactions : list OrphanedTransaction;
  restoredCount : nat;
  restoredTransactions : list RestoredTransaction;
  resync_accounts : list AccountResult
}.

(** The entry of [ynabTransactionsByAccount]. *)
Record UpBankTransaction : Type := {
  ub_id : string;
  ub_import_id : string;
  ub_payee_name : string;
  ub_amount : JS.number;
  ub_date : string
}.

(* ================================================================== *)
(** ** Effects: remote calls that may throw, and what was called *)
(* ================================================================== *)

(** A thrown [Error], by its message. *)
Definition Error : Type := string.

(** [inl e]: [e] was thrown; [inr a]: returned [a]. *)
Definition Result (A : Type) : Type := (Error + A)%type.

Inductive Call : Type :=
| GetTransactionsByAccount (accountId : string)
| GetTransactions
| CreateTransactions (transactions : list SaveTransaction)
| UpdateTransactions (transactions : list UpdateTransaction)
| DeleteTransaction (transactionId : string)
| UpGet (accountId sinceDate : string) (page : nat).

(** What a run leaves behind: every remote call with whether it
    returned ([true]) or threw, and every [console.warn] about an
    unexpected status. *)
Inductive Event : Type :=
| Called (c : Call) (ok : bool)
| Warned (upStatus : option string) (transactionId : string).

(** The two remote services and the clock, over a state [W] of the
    outside world. *)
Record Api (W : Type) : Type := {
  getTransactionsByAccount : string -> W -> Result (list TransactionDetail) * W;
  getTransactions : W -> Result (list TransactionDetail) * W;
  createTransactions : list SaveTransaction -> W -> Result SaveTransactionsResponse * W;
  updateTransactions :
    list UpdateTransaction -> W -> Result (option (list TransactionDetail)) * W;
  deleteTransaction : string -> W -> Result unit * W;
  upTransactions : string -> string -> W -> PageChain * W;
  toISOString : W -> string
}.

Arguments getTransactionsByAccount {W}.
Arguments getTransactions {W}.
Arguments createTransactions {W}.
Arguments updateTransactions {W}.
Arguments deleteTransaction {W}.
Arguments upTransactions {W}.
Arguments toISOString {W}.

(** An [async] computation: from a world, a result or a thrown error,
    the world after, and the events of the run in order. *)
Definition M (W A : Type) : Type := W -> Result A * W * list Event.

Definition ret {W A : Type} (a : A) : M W A := fun w => (inr a, w, []).

Definition throw {W A : Type} (e : Error) : M W A := fun w => (inl e, w, []).

Definition bind {W A B : Type} (m : M W A) (f : A -> M W B) : M W B :=
  fun w =>
    match m w with
    | (inl e, w1, t1) => (inl e, w1, t1)
    | (inr a, w1, t1) =>
        let '(r, w2, t2) := f a w1 in (r, w2, t1 ++ t2)
    end.

(** [try { m } catch (e) { h e }] *)
Definition try_catch {W A : Type} (m : M W A) (h : Error -> M W A) : M W A :=
  fun w =>
    match m w with
    | (inl e, w1, t1) =>
        let '(r, w2, t2) := h e w1 in (r, w2, t1 ++ t2)
    | (inr a, w1, t1) => (inr a, w1, t1)
    end.

Definition isOk {A : Type} (r : Result A) : bool :=
  match r with inr _ => true | inl _ => false end.

(** [await] of one remote call *)
Definition call {W A : Type} (c : Call) (h : W -> Result A * W) : M W A :=
  fun w => let '(r, w1) := h w in (r, w1, [Called c (isOk r)]).

Definition emit {W : Type} (e : Event) : M W unit := fun w => (inr tt, w, [e]).

Definition now {W : Type} (api : Api W) : M W string :=
  fun w => (inr (toISOString api w), w, []).

Declare Scope async_scope.
Delimit Scope async_scope with async.
Notation "x <- m ;; k" := (bind m (fun x => k))
  (at level 61, m at next level, right associativity) : async_scope.
Notation "' p <- m ;; k" := (bind m (fun p => k))
  (at level 61, p pattern, m at next level, right associativity) : async_scope.
Notation "m ;;; k" := (bind m (fun _ => k))
  (at level 61, right associativity) : async_scope.

(** [for (const a of l) { acc = f acc a }] with awaits in the body *)
Fixpoint forOf {W A B : Type} (f : B -> A -> M W B) (l : list A) (acc : B)
    : M W B :=
  match l with
  | [] => ret acc
  | a :: rest => bind (f acc a) (forOf f rest)
  end.

(* ================================================================== *)
(** ** The worker *)
(* ================================================================== *)

Local Open Scope async_scope.

(** [`UPBANK:${id}`.substring(0, 36)] *)
Definition importIdOf (upTransactionId : string) : string :=
  JS.substring ("UPBANK:" ++ upTransactionId) 0 36.

Definition statusIs (upStatus : option string) (s : string) : bool :=
  match upStatus with
  | Some x => (x =? s)%string
  | None => false
  end.

(** index.ts 558-563 *)
Definition clearedStatusOf (upStatus : option string) : TransactionClearedStatus :=
  if statusIs upStatus "HELD" then Uncleared
  else if statusIs upStatus "SETTLED" then Cleared
  else Uncleared.

(** index.ts 576: [upStatus !== 'HELD' && upStatus !== 'SETTLED'] *)
Definition unexpectedStatus (upStatus : option string) : bool :=
  negb (statusIs upStatus "HELD") && negb (statusIs upStatus "SETTLED").

(** [Math.round(parseFloat(upTx.attributes?.amount?.value || '0') * 1000)] *)
Definition amountInMilliunits (upTx : TransactionResource) : JS.number :=
  JS.round (JS.times (JS.parseFloat (JS.or_str (amountValue upTx) "0")) 1000).

(** [settledAt || createdAt || fallback] *)
Definition dateOf (upTx : TransactionResource) (fallback : string) : string :=
  JS.or_str (attr settledAt upTx) (JS.or_str (attr createdAt upTx) fallback).

(** The callback of [upTransactions.map] in [syncToYNAB] (index.ts
    547-590); [isoNow] is [new Date().toISOString()]. *)
Definition toYnabTransaction (accountId isoNow : string)
    (upTx : TransactionResource) : SaveTransaction :=
  let importId := importIdOf (tx_id upTx) in
  let upStatus := attr status upTx in
  let clearedStatus := clearedStatusOf upStatus in
  {| sv_account_id := accountId;
     sv_date := JS.substring (dateOf upTx isoNow) 0 10;
     sv_amount := amountInMilliunits upTx;
     sv_payee_name := JS.or_str (attr description upTx) "Unknown";
     sv_memo := JS.or_undefined (attr message upTx);
     sv_cleared := clearedStatus;
     sv_approved := false;
     sv_import_id := Some importId |}.

(** The callback of [upTxs.map] in the restoration of
    [performResyncAll] (up_types.ts 1515-1526). *)
Definition toRestoredYnabTransaction (ynabAccountId isoNow : string)
    (upTx : TransactionResource) : SaveTransaction :=
  {| sv_account_id := ynabAccountId;
     sv_date := JS.substring (dateOf upTx isoNow) 0 10;
     sv_amount := amountInMilliunits upTx;
     sv_payee_name := JS.or_str (attr description upTx) "Unknown";
     sv_memo := JS.or_undefined (attr message upTx);
     sv_cleared :=
       if statusIs (attr status upTx) "HELD" then Uncleared else Cleared;
     sv_approved := false;
     sv_import_id := None |}.

(** The [console.warn] of the callback of [syncToYNAB], for each
    transaction in turn. *)
Definition statusWarnings (upTransactions : list TransactionResource)
    : list Event :=
  flat_map
    (fun upTx =>
       if unexpectedStatus (attr status upTx)
       then [Warned (attr status upTx) (tx_id upTx)]
       else [])
    upTransactions.

(** [tx.import_id === importId] *)
Definition importIdIs (importId : string) (tx : TransactionDetail) : bool :=
  match td_import_id tx with
  | Some k => (k =? importId)%string
  | None => false
  end.

(** [tx.import_id?.startsWith('UPBANK:')] *)
Definition isUpBank (tx : TransactionDetail) : bool :=
  match td_import_id tx with
  | Some k => JS.startsWith k "UPBANK:"
  | None => false
  end.

(** [result.data.duplicate_import_ids?.length || 0] *)
Definition duplicateCountOf (result : SaveTransactionsResponse) : nat :=
  match duplicate_import_ids result with
  | Some l => length l
  | None => 0
  end.

(** index.ts 636-640: import_id -> desired cleared status *)
Definition desiredClearedStatusOf (duplicateImportIds : list string)
    (ynabTransactions : list SaveTransaction)
    : JS.Map TransactionClearedStatus :=
  JS.newMap
    (map (fun tx => (JS.or_str (sv_import_id tx) "", sv_cleared tx))
       (filter
          (fun tx =>
             match sv_import_id tx with
             | Some k => JS.includes duplicateImportIds k
             | None => false
             end)
          ynabTransactions)).

(** index.ts 651-659 *)
Definition transactionsToUpdateOf
    (desiredClearedStatus : JS.Map TransactionClearedStatus)
    (existingTransactions : list TransactionDetail) : list UpdateTransaction :=
  map
    (fun tx =>
       {| ut_id := td_id tx;
          ut_cleared :=
            JS.get desiredClearedStatus (JS.or_str (td_import_id tx) "") |})
    (filter
       (fun tx =>
          match JS.get desiredClearedStatus (JS.or_str (td_import_id tx) "") with
          | Some desiredStatus => negb (cleared_eqb (td_cleared tx) desiredStatus)
          | None => false
          end)
       existingTransactions).

Section Worker.

Context {W : Type} (api : Api W).

(** The [while (nextUrl)] loop of [fetchUpTransactionsByAccount],
    along the pages the API answers with. *)
Fixpoint followPages (accountId sinceDate : string) (page : nat)
    (chain : PageChain) (transactions : list TransactionResource)
    : Result (list TransactionResource) * list Event :=
  match chain with
  | LastPage data =>
      (inr (transactions ++ data),
       [Called (UpGet accountId sinceDate page) true])
  | NextPage data next =>
      let '(r, evs) :=
        followPages accountId sinceDate (S page) next (transactions ++ data) in
      (r, Called (UpGet accountId sinceDate page) true :: evs)
  | HttpError httpStatus statusText =>
      (inl ("Up Bank API error: " ++ httpStatus ++ " " ++ statusText)%string,
       [Called (UpGet accountId sinceDate page) false])
  | NetworkError e =>
      (inl e, [Called (UpGet accountId sinceDate page) false])
  end.

(** index.ts 485-533 *)
Definition fetchUpTransactionsByAccount (accountId sinceDate : string)
    : M W (list TransactionResource) :=
  try_catch
    (fun w =>
       let '(chain, w1) := upTransactions api accountId sinceDate w in
       let '(r, evs) := followPages accountId sinceDate 0 chain [] in
       (r, w1, evs))
    (fun error => throw error).

(** index.ts 632-679: the body of the inner [try] *)
Definition updateDuplicates (accountId : string)
    (duplicateImportIds : list string)
    (ynabTransactions : list SaveTransaction) : M W unit :=
  let desiredClearedStatus :=
    desiredClearedStatusOf duplicateImportIds ynabTransactions in
  existingTransactions <-
    call (GetTransactionsByAccount accountId)
         (getTransactionsByAccount api accountId) ;;
  let transactionsToUpdate :=
    transactionsToUpdateOf desiredClearedStatus existingTransactions in
  if (0 <? length transactionsToUpdate)%nat then
    call (UpdateTransactions transactionsToUpdate)
         (updateTransactions api transactionsToUpdate) ;;;
    ret tt
  else ret tt.

(** index.ts 627-688: the cleared-status update for duplicates, inside
    its own [try] *)
Definition reconcileDuplicates (accountId : string)
    (result : SaveTransactionsResponse)
    (ynabTransactions : list SaveTransaction) : M W unit :=
  match duplicate_import_ids result with
  | Some duplicateImportIds =>
      if (0 <? duplicateCountOf result)%nat then
        try_catch
          (updateDuplicates accountId duplicateImportIds ynabTransactions)
          (fun updateError => ret tt)
      else ret tt
  | None => ret tt
  end.

(** index.ts 538-707 *)
Definition syncToYNAB (accountId : string)
    (upTransactions : list TransactionResource) : M W AccountSyncResult :=
  isoNow <- now api ;;
  let ynabTransactions := map (toYnabTransaction accountId isoNow) upTransactions in
  forOf (fun _ e => emit e) (statusWarnings upTransactions) tt ;;;
  if (length ynabTransactions =? 0)%nat then
    ret {| imported := 0; duplicates := 0; total := 0 |}
  else
    try_catch
      (result <-
         call (CreateTransactions ynabTransactions)
              (createTransactions api ynabTransactions) ;;
       let duplicateCount := duplicateCountOf result in
       let importedCount :=
         (Z.of_nat (length ynabTransactions) - Z.of_nat duplicateCount)%Z in
       reconcileDuplicates accountId result ynabTransactions ;;;
       ret {| imported := importedCount;
              duplicates := Z.of_nat duplicateCount;
              total := Z.of_nat (length ynabTransactions) |})
      (fun error => throw error).

(** up_types.ts 1283-1305: the loop over [Object.values(accountMapping)];
    [Some r] from the body is its [return r]. *)
Fixpoint searchAccounts (importId : string) (accounts : list string)
    : M W DeleteResult :=
  match accounts with
  | [] => ret {| deleted := false; notFound := true |}
  | ynabAccountId :: rest =>
      returned <-
        try_catch
          (transactions <-
             call (GetTransactionsByAccount ynabAccountId)
                  (getTransactionsByAccount api ynabAccountId) ;;
           match find (importIdIs importId) transactions with
           | Some transaction =>
               call (DeleteTransaction (td_id transaction))
                    (deleteTransaction api (td_id transaction)) ;;;
               ret (Some {| deleted := true; notFound := false |})
           | None => ret None
           end)
          (fun error => ret None) ;;
      match returned with
      | Some r => ret r
      | None => searchAccounts importId rest
      end
  end.

(** up_types.ts 1271-1309; [accountMapping] is given by its entries,
    in the order of [Object.entries]. *)
Definition deleteFromYNAB (accountMapping : list (string * string))
    (upTransactionId : string) : M W DeleteResult :=
  let importId := importIdOf upTransactionId in
  searchAccounts importId (map snd accountMapping).

(** *** [performResyncAll] *)

(** up_types.ts 1363-1371 *)
Definition upBankTransactionsOf (transactions : list TransactionDetail)
    : list UpBankTransaction :=
  map
    (fun tx =>
       {| ub_id := td_id tx;
          ub_import_id := JS.or_str (td_import_id tx) "";
          ub_payee_name := JS.or_str (td_payee_name tx) "Unknown";
          ub_amount := td_amount tx;
          ub_date := td_date tx |})
    (filter (fun tx => isUpBank tx && negb (td_deleted tx)) transactions).

(** up_types.ts 1376-1378:
    [if (!tx.deleted && (!earliestDate || tx.date < earliestDate))] *)
Definition updateEarliest (earliestDate : option string)
    (tx : TransactionDetail) : option string :=
  if negb (td_deleted tx)
     && (negb (JS.truthy earliestDate)
         || JS.lt (td_date tx) (JS.or_str earliestDate ""))
  then Some (td_date tx)
  else earliestDate.

(** up_types.ts 1360-1379: the body of the first loop *)
Definition collectAccount
    (acc : JS.Map (list UpBankTransaction) * option string)
    (ynabAccountId : string)
    : M W (JS.Map (list UpBankTransaction) * option string) :=
  let '(ynabTransactionsByAccount, earliestDate) := acc in
  transactions <-
    call (GetTransactionsByAccount ynabAccountId)
         (getTransactionsByAccount api ynabAccountId) ;;
  ret (JS.set ynabTransactionsByAccount ynabAccountId
         (upBankTransactionsOf transactions),
       fold_left updateEarliest transactions earliestDate).

(** up_types.ts 1359-1380: the first loop, over
    [Object.values(accountMapping)]. *)
Definition collectYnabTransactions (accounts : list string)
    : M W (JS.Map (list UpBankTransaction) * option string) :=
  forOf collectAccount accounts ([], None).

(** up_types.ts 1414-1420: the body of the loop over all transactions,
    on (deleted, active) import ids *)
Definition partitionStep (sets : JS.StrSet * JS.StrSet)
    (tx : TransactionDetail) : JS.StrSet * JS.StrSet :=
  let '(deletedUpbankImportIds, activeUpbankImportIds) := sets in
  if isUpBank tx then
    if td_deleted tx
    then (JS.add deletedUpbankImportIds (JS.or_str (td_import_id tx) ""),
          activeUpbankImportIds)
    else (deletedUpbankImportIds,
          JS.add activeUpbankImportIds (JS.or_str (td_import_id tx) ""))
  else (deletedUpbankImportIds, activeUpbankImportIds).

(** up_types.ts 1410-1421 *)
Definition partitionImportIds (transactions : list TransactionDetail)
    : JS.StrSet * JS.StrSet :=
  fold_left partitionStep transactions ([], []).

(** up_types.ts 1425-1427 *)
Definition restorableOf (sets : JS.StrSet * JS.StrSet) : JS.StrSet :=
  let '(deletedUpbankImportIds, activeUpbankImportIds) := sets in
  filter (fun id => negb (JS.has activeUpbankImportIds id))
    deletedUpbankImportIds.

(** up_types.ts 1402-1427 *)
Definition findRestorableImportIds : M W JS.StrSet :=
  allTransactions <- call GetTransactions (getTransactions api) ;;
  ret (restorableOf (partitionImportIds allTransactions)).

(** up_types.ts 1448-1459: the inner loop over the fetched
    transactions of one mapping. *)
Definition noteUpTransactions (restorableImportIds : JS.StrSet)
    (ynabAccountId : string)
    (acc : JS.StrSet * list (TransactionResource * string))
    (upTransactions : list TransactionResource)
    : JS.StrSet * list (TransactionResource * string) :=
  fold_left
    (fun '(upBankIds, transactionsToRestore) tx =>
       let truncatedId := JS.substring (tx_id tx) 0 29 in
       let importId := importIdOf (tx_id tx) in
       (JS.add upBankIds truncatedId,
        if JS.has restorableImportIds importId
        then transactionsToRestore ++ [(tx, ynabAccountId)]
        else transactionsToRestore))
    upTransactions acc.

(** up_types.ts 1444-1459: the body of the loop over the mappings *)
Definition noteAccount (earliestDate : string) (restorableImportIds : JS.StrSet)
    (acc : JS.StrSet * list (TransactionResource * string))
    (entry : string * string)
    : M W (JS.StrSet * list (TransactionResource * string)) :=
  let '(upAccountId, ynabAccountId) := entry in
  upTransactions <- fetchUpTransactionsByAccount upAccountId earliestDate ;;
  ret (noteUpTransactions restorableImportIds ynabAccountId acc upTransactions).

(** up_types.ts 1443-1460: the loop over [Object.entries(accountMapping)] *)
Definition collectUpBankIds (accountMapping : list (string * string))
    (earliestDate : string) (restorableImportIds : JS.StrSet)
    : M W (JS.StrSet * list (TransactionResource * string)) :=
  forOf (noteAccount earliestDate restorableImportIds) accountMapping ([], []).

(** up_types.ts 1467-1482 *)
Definition findOrphans
    (ynabTransactionsByAccount : JS.Map (list UpBankTransaction))
    (upBankIds : JS.StrSet) : list OrphanedTransaction :=
  flat_map
    (fun '(_, ynabTxs) =>
       flat_map
         (fun tx =>
            let upId := JS.replace (ub_import_id tx) "UPBANK:" "" in
            if negb (JS.has upBankIds upId) then
              [{| ynabId := ub_id tx;
                  orphan_upId := upId;
                  orphan_payee := ub_payee_name tx;
                  orphan_amount := JS.divide (ub_amount tx) 1000;
                  orphan_date := ub_date tx |}]
            else [])
         ynabTxs)
    ynabTransactionsByAccount.

(** up_types.ts 1490-1496: the body of the deletion loop *)
Definition deleteOrphan (orphanedDeleted : nat) (orphan : OrphanedTransaction)
    : M W nat :=
  try_catch
    (call (DeleteTransaction (ynabId orphan))
          (deleteTransaction api (ynabId orphan)) ;;;
     ret (S orphanedDeleted))
    (fun error => ret orphanedDeleted).

(** up_types.ts 1489-1497: one delete per orphan, each in its own [try] *)
Definition deleteOrphans (orphans : list OrphanedTransaction) : M W nat :=
  forOf deleteOrphan orphans 0.

(** up_types.ts 1508-1512 *)
Definition groupByAccount
    (transactionsToRestore : list (TransactionResource * string))
    : JS.Map (list TransactionResource) :=
  fold_left
    (fun byAccount '(upTx, ynabAccountId) =>
       let byAccount' :=
         if negb (JS.mapHas byAccount ynabAccountId)
         then JS.set byAccount ynabAccountId []
         else byAccount in
       match JS.get byAccount' ynabAccountId with
       | Some upTxs => JS.set byAccount' ynabAccountId (upTxs ++ [upTx])
       | None => byAccount'
       end)
    transactionsToRestore [].

(** up_types.ts 1534-1539 and 1549-1554 *)
Definition restoredRecord (upTx : TransactionResource) : RestoredTransaction :=
  {| restored_upId := tx_id upTx;
     restored_payee := JS.or_str (attr description upTx) "Unknown";
     restored_amount := JS.parseFloat (JS.or_str (amountValue upTx) "0");
     restored_date := JS.substring (dateOf upTx "") 0 10 |}.

(** up_types.ts 1515-1544: the body of the loop over [byAccount] *)
Definition restoreGroup (acc : nat * list RestoredTransaction)
    (group : string * list TransactionResource)
    : M W (nat * list RestoredTransaction) :=
  let '(restoredCount, restoredTransactions) := acc in
  let '(ynabAccountId, upTxs) := group in
  isoNow <- now api ;;
  let restoredTxs := map (toRestoredYnabTransaction ynabAccountId isoNow) upTxs in
  try_catch
    (call (CreateTransactions restoredTxs)
          (createTransactions api restoredTxs) ;;;
     ret (restoredCount + length restoredTxs,
          restoredTransactions ++ map restoredRecord upTxs))
    (fun error => ret (restoredCount, restoredTransactions)).

(** up_types.ts 1514-1545: one batched create per target account, each
    in its own [try] *)
Definition restoreDeleted
    (transactionsToRestore : list (TransactionResource * string))
    : M W (nat * list RestoredTransaction) :=
  forOf restoreGroup (groupByAccount transactionsToRestore) (0, []).

(** up_types.ts 1568-1575 (and index.ts 398-407): fetch, then sync *)
Definition syncAccount (upAccountId ynabAccountId sinceDate : string)
    : M W AccountSyncResult :=
  upTransactions <- fetchUpTransactionsByAccount upAccountId sinceDate ;;
  syncToYNAB ynabAccountId upTransactions.

(** up_types.ts 1566-1588: the body of the sync loop *)
Definition syncMapping (earliestDate : string)
    (acc : list AccountResult * (Z * Z * Z)) (entry : string * string)
    : M W (list AccountResult * (Z * Z * Z)) :=
  let '(accountResults, (totalImported, totalDuplicates, totalTransactions)) :=
    acc in
  let '(upAccountId, ynabAccountId) := entry in
  result <- syncAccount upAccountId ynabAccountId earliestDate ;;
  ret (accountResults ++
         [{| upAccountId := upAccountId;
             ynabAccountId := ynabAccountId;
             acc_imported := imported result;
             acc_duplicates := duplicates result |}],
       ((totalImported + imported result)%Z,
        (totalDuplicates + duplicates result)%Z,
        (totalTransactions + total result)%Z)).

(** up_types.ts 1565-1589 *)
Definition syncAllAccounts (accountMapping : list (string * string))
    (earliestDate : string) : M W (list AccountResult * (Z * Z * Z)) :=
  forOf (syncMapping earliestDate) accountMapping ([], (0%Z, 0%Z, 0%Z)).

(** up_types.ts 1348-1618; [accountMapping] is
    [JSON.parse(env.ACCOUNT_MAPPING)], given by its entries. *)
Definition performResyncAll (accountMapping : list (string * string))
    (dryRun : bool) : M W ResyncAllResult :=
  '(ynabTransactionsByAccount, earliestDate) <-
    collectYnabTransactions (map snd accountMapping) ;;
  if negb (JS.truthy earliestDate) then
    ret {| resync_message := NothingToResync;
           resync_dryRun := dryRun;
           resync_earliestDate := None;
           resync_imported := 0;
           resync_duplicates := 0;
           resync_total := 0;
           orphanedDeleted := 0;
           orphanedTransactions := [];
           restoredCount := 0;
           restoredTransactions := [];
           resync_accounts := [] |}
  else
    let earliest := JS.or_str earliestDate "" in
    restorableImportIds <- findRestorableImportIds ;;
    '(upBankIds, transactionsToRestore) <-
      collectUpBankIds accountMapping earliest restorableImportIds ;;
    let orphaned := findOrphans ynabTransactionsByAccount upBankIds in
    deletedCount <-
      (if negb dryRun && (0 <? length orphaned)%nat
       then deleteOrphans orphaned
       else ret 0) ;;
    '(restoredCnt, restored) <-
      (if negb dryRun && (0 <? length transactionsToRestore)%nat
       then restoreDeleted transactionsToRestore
       else if (0 <? length transactionsToRestore)%nat
       then ret (0, map (fun '(upTx, _) => restoredRecord upTx) transactionsToRestore)
       else ret (0, [])) ;;
    '(accountResults, (totalImported, totalDuplicates, totalTransactions)) <-
      (if negb dryRun
       then syncAllAccounts accountMapping earliest
       else ret ([], (0%Z, 0%Z, 0%Z))) ;;
    ret {| resync_message := if dryRun then DryRunComplete else FullResyncComplete;
           resync_dryRun := dryRun;
           resync_earliestDate := Some earliest;
           resync_imported := totalImported;
           resync_duplicates := totalDuplicates;
           resync_total := totalTransactions;
           orphanedDeleted := deletedCount;
           orphanedTransactions := orphaned;
           restoredCount := restoredCnt;
           restoredTransactions := restored;
           resync_accounts := accountResults |}.

End Worker.

(* ================================================================== *)
(** ** A reference world: both ledgers, with failures on demand *)
(* ================================================================== *)

Module Ref.

(** Modelled from the spec: the two remote ledgers, which are services
    outside the repository (spec 3, 4.2 step 3, 4.3 step 5, 4.4).  The
    target ledger keeps every transaction, soft-deleted ones included;
    a batched create skips an entry whose [importId] already exists
    (a soft-deleted holder counts: its key cannot be reused) and
    reports the skipped [importId]s as duplicates; listing an account
    shows its non-deleted transactions; the full history shows all;
    delete sets the soft-delete flag and is idempotent; update sets
    [clearedState] by id.  The source ledger lists the transactions of
    an account (its content stands for the window asked for).  Remote
    calls are numbered from 0 as they are answered, and the calls whose
    number is in [failing] fail. *)
Record World : Type := {
  ledger : list TransactionDetail;
  bank : list (string * TransactionResource);
  clock : string;
  served : nat;
  failing : list nat
}.

Definition tick (w : World) : World :=
  {| ledger := ledger w; bank := bank w; clock := clock w;
     served := S (served w); failing := failing w |}.

Definition withLedger (w : World) (l : list TransactionDetail) : World :=
  {| ledger := l; bank := bank w; clock := clock w;
     served := served w; failing := failing w |}.

Definition fails (w : World) : bool :=
  existsb (Nat.eqb (served w)) (failing w).

(** One remote call of the target ledger. *)
Definition attempt {A : Type} (f : World -> A * World) (w : World)
    : Result A * World :=
  if fails w then (inl "YNAB API error", tick w)
  else let '(a, w1) := f w in (inr a, tick w1).

(** A fresh id: one character longer than the longest id present. *)
Definition longestId (l : list TransactionDetail) : string :=
  fold_left
    (fun acc t =>
       if (String.length acc <? String.length (td_id t))%nat then td_id t else acc)
    l "".

Definition freshId (l : list TransactionDetail) : string :=
  String "y" (longestId l).

Definition keyTaken (l : list TransactionDetail) (k : string) : bool :=
  existsb (importIdIs k) l.

Definition stored (l : list TransactionDetail) (t : SaveTransaction)
    : TransactionDetail :=
  {| td_id := freshId l;
     td_account_id := sv_account_id t;
     td_date := sv_date t;
     td_amount := sv_amount t;
     td_payee_name := Some (sv_payee_name t);
     td_cleared := sv_cleared t;
     td_import_id := sv_import_id t;
     td_deleted := false |}.

(** The batch is taken entry by entry: (ledger, created, duplicates). *)
Definition createOne
    (acc : list TransactionDetail * list TransactionDetail * list string)
    (t : SaveTransaction)
    : list TransactionDetail * list TransactionDetail * list string :=
  let '(l, created, dups) := acc in
  match sv_import_id t with
  | Some k =>
      if keyTaken l k then (l, created, dups ++ [k])
      else (l ++ [stored l t], created ++ [stored l t], dups)
  | None => (l ++ [stored l t], created ++ [stored l t], dups)
  end.

Definition create (ts : list SaveTransaction) (w : World)
    : SaveTransactionsResponse * World :=
  let '(l, created, dups) := fold_left createOne ts (ledger w, [], []) in
  ({| created_transactions := Some created;
      duplicate_import_ids := Some dups |},
   withLedger w l).

Definition withCleared (t : TransactionDetail) (c : TransactionClearedStatus)
    : TransactionDetail :=
  {| td_id := td_id t; td_account_id := td_account_id t;
     td_date := td_date t; td_amount := td_amount t;
     td_payee_name := td_payee_name t; td_cleared := c;
     td_import_id := td_import_id t; td_deleted := td_deleted t |}.

Definition setCleared (u : UpdateTransaction) (t : TransactionDetail)
    : TransactionDetail :=
  match ut_cleared u with
  | Some c => if (td_id t =? ut_id u)%string then withCleared t c else t
  | None => t
  end.

Definition applyUpdates (us : list UpdateTransaction)
    (l : list TransactionDetail) : list TransactionDetail :=
  fold_left (fun l u => map (setCleared u) l) us l.

Definition update (us : list UpdateTransaction) (w : World)
    : option (list TransactionDetail) * World :=
  let l := applyUpdates us (ledger w) in
  (Some (filter (fun t => existsb (fun u => (td_id t =? ut_id u)%string) us) l),
   withLedger w l).

Definition softDelete (id : string) (t : TransactionDetail) : TransactionDetail :=
  if (td_id t =? id)%string then
    {| td_id := td_id t; td_account_id := td_account_id t;
       td_date := td_date t; td_amount := td_amount t;
       td_payee_name := td_payee_name t; td_cleared := td_cleared t;
       td_import_id := td_import_id t; td_deleted := true |}
  else t.

Definition delete (id : string) (w : World) : unit * World :=
  (tt, withLedger w (map (softDelete id) (ledger w))).

Definition accountTransactions (accountId : string)
    (l : list TransactionDetail) : list TransactionDetail :=
  filter (fun t => (td_account_id t =? accountId)%string && negb (td_deleted t)) l.

Definition listAccount (accountId : string) (w : World)
    : list TransactionDetail * World :=
  (accountTransactions accountId (ledger w), w).

Definition listAll (w : World) : list TransactionDetail * World :=
  (ledger w, w).

Definition listBank (accountId sinceDate : string) (w : World)
    : PageChain * World :=
  if fails w then (HttpError "500" "Internal Server Error", tick w)
  else
    (LastPage (map snd (filter (fun e => (fst e =? accountId)%string) (bank w))),
     tick w).

Definition api : Api World :=
  {| getTransactionsByAccount := fun a => attempt (listAccount a);
     getTransactions := attempt listAll;
     createTransactions := fun ts => attempt (create ts);
     updateTransactions := fun us => attempt (update us);
     deleteTransaction := fun id => attempt (delete id);
     upTransactions := listBank;
     toISOString := clock |}.

(** *** Sample data *)

Definition upTx (id st : string) : TransactionResource :=
  {| tx_id := id;
     attributes :=
       Some {| status := Some st;
               description := Some "Coffee";
               message := None;
               amount := Some {| currencyCode := "AUD"; value := "-4.50";
                                 valueInBaseUnits := (-450)%Z |};
               settledAt := if (st =? "SETTLED")%string
                            then Some "2024-03-02T09:00:00+11:00" else None;
               createdAt := Some "2024-03-01T09:00:00+11:00" |} |}.

Definition ynabTx (id account importId : string)
    (c : TransactionClearedStatus) (del : bool) : TransactionDetail :=
  {| td_id := id; td_account_id := account; td_date := "2024-03-01";
     td_amount := JS.ofZ (-4500); td_payee_name := Some "Coffee";
     td_cleared := c; td_import_id := Some importId; td_deleted := del |}.

Definition world (l : list TransactionDetail)
    (b : list (string * TransactionResource)) (f : list nat) : World :=
  {| ledger := l; bank := b; clock := "2024-03-05T00:00:00.000Z";
     served := 0; failing := f |}.


End Ref.

(* ================================================================== *)
(** ** Sample worlds *)
(* ================================================================== *)

Module Samples.

Definition mapping1 : list (string * string) := [("U1", "Y1")].

Definition mapping2 : list (string * string) := [("U1", "Y1"); ("U2", "Y2")].

(** One target transaction created while its source was held; the
    source has settled since. *)
Definition settledSince (failing : list nat) : Ref.World :=
  Ref.world
    [Ref.ynabTx "y1" "Y1" "UPBANK:a" Uncleared false]
    [("U1", Ref.upTx "a" "SETTLED")]
    failing.

(** The same key held in two mapped accounts. *)
Definition heldTwice (failing : list nat) : Ref.World :=
  Ref.world
    [Ref.ynabTx "y1" "Y1" "UPBANK:a" Cleared false;
     Ref.ynabTx "y2" "Y2" "UPBANK:a" Cleared false]
    [] failing.

(** A ledger that has drifted: [y1] awaits its settlement, [y2] has
    lost its source, [y3] was deleted in YNAB while its source lives. *)
Definition drifted (failing : list nat) : Ref.World :=
  Ref.world
    [Ref.ynabTx "y1" "Y1" "UPBANK:a" Uncleared false;
     Ref.ynabTx "y2" "Y1" "UPBANK:gone" Cleared false;
     Ref.ynabTx "y3" "Y2" "UPBANK:b" Cleared true]
    [("U1", Ref.upTx "a" "SETTLED"); ("U2", Ref.upTx "b" "SETTLED")]
    failing.

Definition collected (id importId : string) : UpBankTransaction :=
  {| ub_id := id; ub_import_id := importId; ub_payee_name := "Coffee";
     ub_amount := JS.ofZ (-4500); ub_date := "2024-03-01" |}.

End Samples.

(* ================================================================== *)
(** ** Vocabulary of the statements *)
(* ================================================================== *)

Definition result_of {W A : Type} (x : Result A * W * list Event) : Result A :=
  fst (fst x).

Definition world_of {W A : Type} (x : Result A * W * list Event) : W :=
  snd (fst x).

Definition events_of {W A : Type} (x : Result A * W * list Event) : list Event :=
  snd x.

(** A create, update or delete call to the target ledger. *)
Definition isMutation (e : Event) : bool :=
  match e with
  | Called (CreateTransactions _) _ => true
  | Called (UpdateTransactions _) _ => true
  | Called (DeleteTransaction _) _ => true
  | _ => false
  end.

Definition noMutation (evs : list Event) : Prop :=
  forallb (fun e => negb (isMutation e)) evs = true.

(** The ids of the delete calls issued, with their outcome, in order. *)
Definition deleteCalls (evs : list Event) : list (string * bool) :=
  flat_map
    (fun e =>
       match e with
       | Called (DeleteTransaction id) ok => [(id, ok)]
       | _ => []
       end)
    evs.

(** The batches of the create calls issued, with their outcome. *)
Definition createCalls (evs : list Event) : list (list SaveTransaction * bool) :=
  flat_map
    (fun e =>
       match e with
       | Called (CreateTransactions ts) ok => [(ts, ok)]
       | _ => []
       end)
    evs.

Definition updateCalls (evs : list Event) : list (list UpdateTransaction * bool) :=
  flat_map
    (fun e =>
       match e with
       | Called (UpdateTransactions us) ok => [(us, ok)]
       | _ => []
       end)
    evs.

(** The listing calls of the target ledger that threw. *)
Definition failedListings (evs : list Event) : list string :=
  flat_map
    (fun e =>
       match e with
       | Called (GetTransactionsByAccount a) false => [a]
       | _ => []
       end)
    evs.

Definition countTrue {A : Type} (l : list (A * bool)) : nat :=
  length (filter snd l).

(** The error a chain of pages ends in, if any. *)
Fixpoint chainError (chain : PageChain) : option Error :=
  match chain with
  | LastPage _ => None
  | NextPage _ next => chainError next
  | HttpError httpStatus statusText =>
      Some ("Up Bank API error: " ++ httpStatus ++ " " ++ statusText)%string
  | NetworkError e => Some e
  end.

(** The transactions of the pages of a chain, in order. *)
Fixpoint chainData (chain : PageChain) : list TransactionResource :=
  match chain with
  | LastPage data => data
  | NextPage data next => data ++ chainData next
  | HttpError _ _ => []
  | NetworkError _ => []
  end.

(** [evs], then the run [x]. *)
Definition after {W A : Type} (evs : list Event)
    (x : Result A * W * list Event) : Result A * W * list Event :=
  (result_of x, world_of x, evs ++ events_of x).

Definition successfulDelete (e : Event) : bool :=
  match e with
  | Called (DeleteTransaction _) true => true
  | _ => false
  end.

(** The accounts of the target ledger listed, in order. *)
Definition listingCalls (evs : list Event) : list string :=
  flat_map
    (fun e =>
       match e with
       | Called (GetTransactionsByAccount a) _ => [a]
       | _ => []
       end)
    evs.

(** In the reference ledger [l]: the first transaction carrying the
    key [k] of the first of [accounts] that has one. *)
Fixpoint firstMatch (l : list TransactionDetail) (k : string)
    (accounts : list string) : option TransactionDetail :=
  match accounts with
  | [] => None
  | a :: rest =>
      match find (importIdIs k) (Ref.accountTransactions a l) with
      | Some t => Some t
      | None => firstMatch l k rest
      end
  end.

(** The create call [c] submits the group [group] of the restoration,
    mapped for restoration. *)
Definition isRestoreBatchOf (group : string * list TransactionResource)
    (c : list SaveTransaction * bool) : Prop :=
  exists isoNow,
    fst c = map (toRestoredYnabTransaction (fst group) isoNow) (snd group).

(** How many transactions the create calls that returned have submitted. *)
Definition submittedOk (calls : list (list SaveTransaction * bool)) : nat :=
  list_sum
    (map (fun c : list SaveTransaction * bool =>
            if snd c then length (fst c) else 0)
       calls).

(** The transaction to create carries an idempotency key. *)
Definition carriesKey (t : SaveTransaction) : Prop :=
  exists id, sv_import_id t = Some (importIdOf id).

Definition allKeyed (calls : list (list SaveTransaction * bool)) : Prop :=
  Forall (fun c => Forall carriesKey (fst c)) calls.

(** The transactions grouped under [k], none if [k] is not a key. *)
Definition groupOf {V : Type} (m : JS.Map (list V)) (k : string) : list V :=
  match JS.get m k with
  | Some l => l
  | None => []
  end.

(** What steps 1 to 4 of a reconciliation pass establish. *)
Record ResyncPlan : Type := {
  plan_byAccount : JS.Map (list UpBankTransaction);
  plan_earliestDate : string;
  plan_restorable : JS.StrSet;
  plan_upBankIds : JS.StrSet;
  plan_toRestore : list (TransactionResource * string)
}.

Definition plan_orphans (p : ResyncPlan) : list OrphanedTransaction :=
  findOrphans (plan_byAccount p) (plan_upBankIds p).

(** Steps 1 to 4 of [performResyncAll] on their own (up_types.ts
    1359-1482); [None] when there is nothing to resync.
    [performResyncAll_plan] shows that every pass starts by them. *)
Definition resyncPlan {W : Type} (api : Api W)
    (accountMapping : list (string * string)) : M W (option ResyncPlan) :=
  '(ynabTransactionsByAccount, earliestDate) <-
    collectYnabTransactions api (map snd accountMapping) ;;
  if negb (JS.truthy earliestDate) then ret None
  else
    restorableImportIds <- findRestorableImportIds api ;;
    '(upBankIds, transactionsToRestore) <-
      collectUpBankIds api accountMapping (JS.or_str earliestDate "")
        restorableImportIds ;;
    ret (Some {| plan_byAccount := ynabTransactionsByAccount;
                 plan_earliestDate := JS.or_str earliestDate "";
                 plan_restorable := restorableImportIds;
                 plan_upBankIds := upBankIds;
                 plan_toRestore := transactionsToRestore |}).

(** The report of a pass that found no transaction in YNAB. *)
Definition nothingReport (dryRun : bool) : ResyncAllResult :=
  {| resync_message := NothingToResync;
     resync_dryRun := dryRun;
     resync_earliestDate := None;
     resync_imported := 0;
     resync_duplicates := 0;
     resync_total := 0;
     orphanedDeleted := 0;
     orphanedTransactions := [];
     restoredCount := 0;
     restoredTransactions := [];
     resync_accounts := [] |}.

(** The report of a dry run. *)
Definition dryReport (p : ResyncPlan) : ResyncAllResult :=
  {| resync_message := DryRunComplete;
     resync_dryRun := true;
     resync_earliestDate := Some (plan_earliestDate p);
     resync_imported := 0;
     resync_duplicates := 0;
     resync_total := 0;
     orphanedDeleted := 0;
     orphanedTransactions := plan_orphans p;
     restoredCount := 0;
     restoredTransactions :=
       map (fun '(upTx, _) => restoredRecord upTx) (plan_toRestore p);
     resync_accounts := [] |}.

(** The report of a live run, from what its three phases returned. *)
Definition liveReport (p : ResyncPlan) (deletedCount : nat)
    (restored : nat * list RestoredTransaction)
    (synced : list AccountResult * (Z * Z * Z)) : ResyncAllResult :=
  {| resync_message := FullResyncComplete;
     resync_dryRun := false;
     resync_earliestDate := Some (plan_earliestDate p);
     resync_imported := fst (fst (snd synced));
     resync_duplicates := snd (fst (snd synced));
     resync_total := snd (snd synced);
     orphanedDeleted := deletedCount;
     orphanedTransactions := plan_orphans p;
     restoredCount := fst restored;
     restoredTransactions := snd restored;
     resync_accounts := fst synced |}.

(** Steps 5 of a live pass: delete, restore, sync, report. *)
Definition applyPlan {W : Type} (api : Api W)
    (accountMapping : list (string * string)) (p : ResyncPlan)
    : M W ResyncAllResult :=
  deletedCount <- deleteOrphans api (plan_orphans p) ;;
  restored <- restoreDeleted api (plan_toRestore p) ;;
  synced <- syncAllAccounts api accountMapping (plan_earliestDate p) ;;
  ret (liveReport p deletedCount restored synced).

(** The calls of a sync: every create carries keys, nothing is deleted. *)
Definition syncCallsOnly (evs : list Event) : Prop :=
  allKeyed (createCalls evs) /\ deleteCalls evs = [].

(** The fetches of step 3 on their own: per mapping, the target
    account and the source transactions fetched for it. *)
Definition fetchAccount {W : Type} (api : Api W) (earliestDate : string)
    (fetched : list (string * list TransactionResource))
    (entry : string * string)
    : M W (list (string * list TransactionResource)) :=
  let '(upAccountId, ynabAccountId) := entry in
  upTransactions <- fetchUpTransactionsByAccount api upAccountId earliestDate ;;
  ret (fetched ++ [(ynabAccountId, upTransactions)]).

Definition fetchAccounts {W : Type} (api : Api W)
    (accountMapping : list (string * string)) (earliestDate : string)
    : M W (list (string * list TransactionResource)) :=
  forOf (fetchAccount api earliestDate) accountMapping [].

(** What step 3 notes of the transactions fetched. *)
Definition notedOf (restorableImportIds : JS.StrSet)
    (fetched : list (string * list TransactionResource))
    (acc : JS.StrSet * list (TransactionResource * string))
    : JS.StrSet * list (TransactionResource * string) :=
  fold_left
    (fun acc e => noteUpTransactions restorableImportIds (fst e) acc (snd e))
    fetched acc.

(** The orphan record of a collected transaction, its key fragment
    being the import id without its 7-character prefix. *)
Definition orphanOf (tx : UpBankTransaction) : OrphanedTransaction :=
  {| ynabId := ub_id tx;
     orphan_upId := JS.drop 7 (ub_import_id tx);
     orphan_payee := ub_payee_name tx;
     orphan_amount := JS.divide (ub_amount tx) 1000;
     orphan_date := ub_date tx |}.

(** The truncated ids of the source transactions fetched. *)
Definition truncatedIdsOf (fetched : list (string * list TransactionResource))
    : list string :=
  map (fun s => JS.substring (tx_id s) 0 29) (concat (map snd fetched)).

(** The prefixed target transactions whose key fragment is the
    truncated id of no source transaction fetched. *)
Definition orphansAmong (collected : list UpBankTransaction)
    (truncatedIds : list string) : list UpBankTransaction :=
  filter
    (fun tx => negb (JS.includes truncatedIds (JS.drop 7 (ub_import_id tx))))
    collected.

(** What steps 1 to 4 establish on the drifted ledger. *)
Definition driftedPlan : ResyncPlan :=
  {| plan_byAccount :=
       [("Y1", [Samples.collected "y1" "UPBANK:a";
                Samples.collected "y2" "UPBANK:gone"]);
        ("Y2", [])];
     plan_earliestDate := "2024-03-01";
     plan_restorable := ["UPBANK:b"];
     plan_upBankIds := ["a"; "b"];
     plan_toRestore := [(Ref.upTx "b" "SETTLED", "Y2")] |}.

(** How many transactions the groups, or the batches, hold. *)
Definition groupsSize {V : Type} (m : JS.Map (list V)) : nat :=
  list_sum (map (fun e : string * list V => length (snd e)) m).

Definition batchesSize (calls : list (list SaveTransaction * bool)) : nat :=
  list_sum (map (fun c : list SaveTransaction * bool => length (fst c)) calls).

(* ================================================================== *)
(** ** The entry points: the HTTP handler and the cron trigger *)
(* ================================================================== *)

(** *** Platform functions the entry points use *)

Module Web.

(** [s.substring(indexStart)]: up to the end of [s] *)
Definition substringFrom (s : string) (indexStart : nat) : string :=
  JS.substring s indexStart (String.length s).

(** The digit of [n < 16] in [Number.prototype.toString(16)] *)
Definition hexDigit (n : N) : ascii :=
  if (n <? 10)%N then ascii_of_N (48 + n) else ascii_of_N (87 + n).

(** [b.toString(16)] for an element [b] of a [Uint8Array] *)
Definition toString16 (b : Byte.byte) : string :=
  let n := Byte.to_N b in
  if (n <? 16)%N then String (hexDigit n) EmptyString
  else String (hexDigit (n / 16)) (String (hexDigit (n mod 16)) EmptyString).

Fixpoint repeatChar (c : ascii) (n : nat) : string :=
  match n with
  | O => EmptyString
  | S n' => String c (repeatChar c n')
  end.

(** [s.padStart(targetLength, c)] with a one-character filler *)
Definition padStart (s : string) (targetLength : nat) (c : ascii) : string :=
  repeatChar c (targetLength - String.length s) ++ s.

(** [parts.join('')] *)
Definition join (parts : list string) : string := String.concat "" parts.

(** [\d] *)
Definition isDigit (c : ascii) : bool :=
  let n := nat_of_ascii c in ((48 <=? n) && (n <=? 57))%nat.

End Web.

(** What the platform computes for the worker and the worker takes as
    given: the HMAC of [crypto.subtle], [JSON.parse] with the property
    paths the handler reads from its result, and [Date]. *)
Record Platform : Type := {
  (** [crypto.subtle.sign('HMAC', key, body)] with SHA-256, from the
      secret and the body *)
  hmacSha256 : string -> string -> list Byte.byte;
  (** The values [JSON.parse] gives *)
  Json : Type;
  (** [JSON.parse(text)], or its [SyntaxError] *)
  jsonParse : string -> Result Json;
  (** [Object.entries(value)]: the own enumerable properties, whose
      values are strings as the type of the mapping declares, or the
      [TypeError] for [null].  [Object.values(value)] is their second
      components. *)
  entriesOf : Json -> Result (list (string * string));
  (** [value[key]] where the handler reads an account id: the
      [TypeError] for [null]; else the property found on the value or
      on its prototype chain, [None] when there is none or when it is
      falsy and not a string, its string form otherwise *)
  propertyOf : Json -> string -> Result (option string);
  (** [request.json()] of a body: it rejects, or gives [null]
      ([None]), or any other value, of which the handler reads
      [startDate]: [None] when that is missing or falsy and not a
      string, its string form otherwise *)
  syncRequestOf : string -> Result (option (option string));
  (** [JSON.parse(body)], then [event.data.attributes.eventType];
      [None] when that is not a string *)
  eventTypeOf : string -> Result (option string);
  (** [event.data.relationships.transaction.data.id] of the parsed body *)
  transactionIdOf : string -> Result string;
  (** [new Date(s)] as a time value in milliseconds; [None] is an
      Invalid Date *)
  dateOfString : string -> option Z;
  (** [new Date(t).toISOString().split('T')[0]] *)
  isoDateOf : Z -> string
}.

(** [Object.entries(JSON.parse(text))], where nothing happens between
    the two *)
Definition accountMappingOf (platform : Platform) (text : string)
    : Result (list (string * string)) :=
  match jsonParse platform text with
  | inl error => inl error
  | inr value => entriesOf platform value
  end.

Record Env : Type := {
  API_KEY : string;
  UP_WEBHOOK_SECRET : option string;
  ACCOUNT_MAPPING : string;
  SYNC_START_DATE : string;
  BASE_URL : string;
  YNAB_BUDGET_ID : string
}.

(** The parts of a [Request] the handler reads. *)
Record Request : Type := {
  req_method : string;
  req_pathname : string;
  (** [request.headers.get('Authorization')] *)
  req_authorization : option string;
  (** [request.headers.get('x-up-authenticity-signature')] *)
  req_signature : option string;
  (** [await request.text()] *)
  req_body : string
}.

Record UpAccount : Type := {
  account_id : string;
  displayName : string;
  accountType : string;
  balance : MoneyObject
}.

Record UpAccountSummary : Type := {
  summary_id : string;
  summary_name : string;
  summary_type : string;
  summary_balance : string
}.

Record WebhookResource : Type := {
  webhook_id : string;
  secretKey : string
}.

Record BudgetSummary : Type := {
  budget_id : string;
  budget_name : string
}.

Record AccountInfo : Type := {
  info_id : string;
  info_name : string;
  info_type : string;
  on_budget : bool;
  closed : bool
}.

(** The data a response is built from ([JSON.stringify] is applied to
    it), or the text of the plain response. *)
Inductive Body : Type :=
| ErrorBody (error : string)
| UpAccountsBody (accounts : list UpAccountSummary)
| WebhookCreatedBody (webhook_id webhook_url secret_key : string)
| MessageBody (message : string)
| ProcessedBody (imported : Z) (duplicate : bool)
| DeletedBody (deleted notFound : bool)
| EventReceivedBody (type : option string)
| YnabInfoBody (budgets : list BudgetSummary) (configured_budget_id : string)
    (accounts : list AccountInfo)
| ResyncBody (result : ResyncAllResult)
| SyncBody (imported duplicates total : Z) (accounts : list AccountResult)
| TextBody (text : string).

Record Response : Type := {
  res_status : nat;
  res_body : Body
}.

(** The answer to a [fetch] of the Up Bank API: a response that is ok,
    with its JSON, a response that is not (its status, and its status
    text or body), or no response at all. *)
Inductive HttpReply (A : Type) : Type :=
| Replied (data : A)
| NotOk (httpStatus detail : string)
| Failed (error : Error).

Arguments Replied {A}.
Arguments NotOk {A}.
Arguments Failed {A}.

(** The remote calls of the handler besides those of the two ledgers. *)
Inductive ServiceCall : Type :=
| ListUpAccounts
| CreateUpWebhook (url : string)
| GetUpTransaction (transactionId : string)
| GetBudgets
| GetAccounts.

Inductive Activity : Type :=
| Ledger (e : Event)
| Service (c : ServiceCall) (ok : bool).

(** Everything remote an entry point reaches, and the clock. *)
Record Services (W : Type) : Type := {
  ledgers : Api W;
  getUpAccounts : W -> HttpReply (list UpAccount) * W;
  postUpWebhook : string -> W -> HttpReply WebhookResource * W;
  (** [txData.data]: the transaction with the id of its account
      ([relationships.account.data.id]); [None] when [data] is missing *)
  getUpTransaction :
    string -> W -> HttpReply (option (TransactionResource * string)) * W;
  getBudgets : W -> Result (list BudgetSummary) * W;
  getAccounts : W -> Result (list AccountInfo) * W;
  (** [new Date()] as a time value in milliseconds *)
  dateNow : W -> Z
}.

Arguments ledgers {W}.
Arguments getUpAccounts {W}.
Arguments postUpWebhook {W}.
Arguments getUpTransaction {W}.
Arguments getBudgets {W}.
Arguments getAccounts {W}.
Arguments dateNow {W}.

(** An [async] computation of an entry point. *)
Definition Entry (W A : Type) : Type := W -> Result A * W * list Activity.

Definition hret {W A : Type} (a : A) : Entry W A := fun w => (inr a, w, []).

Definition hthrow {W A : Type} (e : Error) : Entry W A := fun w => (inl e, w, []).

Definition hbind {W A B : Type} (m : Entry W A) (f : A -> Entry W B) : Entry W B :=
  fun w =>
    match m w with
    | (inl e, w1, t1) => (inl e, w1, t1)
    | (inr a, w1, t1) =>
        let '(r, w2, t2) := f a w1 in (r, w2, t1 ++ t2)
    end.

Definition hcatch {W A : Type} (m : Entry W A) (h : Error -> Entry W A) : Entry W A :=
  fun w =>
    match m w with
    | (inl e, w1, t1) =>
        let '(r, w2, t2) := h e w1 in (r, w2, t1 ++ t2)
    | (inr a, w1, t1) => (inr a, w1, t1)
    end.

(** A function of the worker, run by an entry point. *)
Definition lift {W A : Type} (m : M W A) : Entry W A :=
  fun w => let '(r, w1, t) := m w in (r, w1, map Ledger t).

(** The outcome of an expression that may throw. *)
Definition evaluated {W A : Type} (r : Result A) : Entry W A := fun w => (r, w, []).

(** [await] of a call of the YNAB client *)
Definition ynabCall {W A : Type} (c : ServiceCall) (h : W -> Result A * W)
    : Entry W A :=
  fun w => let '(r, w1) := h w in (r, w1, [Service c (isOk r)]).

(** [await fetch(...)], [if (!response.ok) throw new Error(notOk ...)],
    [await response.json()] *)
Definition upFetch {W A : Type} (c : ServiceCall) (h : W -> HttpReply A * W)
    (notOk : string -> string -> Error) : Entry W A :=
  fun w =>
    match h w with
    | (Replied data, w1) => (inr data, w1, [Service c true])
    | (NotOk httpStatus detail, w1) =>
        (inl (notOk httpStatus detail), w1, [Service c false])
    | (Failed e, w1) => (inl e, w1, [Service c false])
    end.

Declare Scope handler_scope.
Delimit Scope handler_scope with handler.
Notation "x <- m ;; k" := (hbind m (fun x => k))
  (at level 61, m at next level, right associativity) : handler_scope.
Notation "' p <- m ;; k" := (hbind m (fun p => k))
  (at level 61, p pattern, m at next level, right associativity) : handler_scope.

(** index.ts 35-47 *)
Definition checkAuth (request : Request) (env : Env) : option string :=
  match req_authorization request with
  | Some authHeader =>
      if negb (JS.truthy (Some authHeader))
         || negb (JS.startsWith authHeader "Bearer ")
      then Some "Missing Authorization header"
      else
        let apiKey := Web.substringFrom authHeader 7 in
        if negb (apiKey =? API_KEY env) then Some "Invalid API key"
        else None
  | None => Some "Missing Authorization header"
  end.

(** index.ts 52-57 *)
Definition jsonError (message : string) (status : nat) : Response :=
  {| res_status := status; res_body := ErrorBody message |}.

(** index.ts 62-67 *)
Definition jsonResponse (data : Body) (status : nat) : Response :=
  {| res_status := status; res_body := data |}.

(** index.ts 475-477: the bytes of the signature in hexadecimal *)
Definition computedSignatureOf (signatureBuffer : list Byte.byte) : string :=
  Web.join (map (fun b => Web.padStart (Web.toString16 b) 2 "0") signatureBuffer).

(** index.ts 387: [/^\d{4}-\d{2}-\d{2}$/.test(s)] *)
Definition dateRegexTest (s : string) : bool :=
  match list_ascii_of_string s with
  | [y1; y2; y3; y4; h1; m1; m2; h2; d1; d2] =>
      Web.isDigit y1 && Web.isDigit y2 && Web.isDigit y3 && Web.isDigit y4
      && (h1 =? "-")%char
      && Web.isDigit m1 && Web.isDigit m2
      && (h2 =? "-")%char
      && Web.isDigit d1 && Web.isDigit d2
  | _ => false
  end.

Section EntryPoints.

Context {W : Type} (platform : Platform) (services : Services W).

Local Open Scope handler_scope.

(** index.ts 464-480 *)
Definition verifyWebhookSignature (body signature secret : string) : bool :=
  let signatureBuffer := hmacSha256 platform secret body in
  let computedSignature := computedSignatureOf signatureBuffer in
  (computedSignature =? signature)%string.

(** [const authError = checkAuth(request, env); if (authError) return
    jsonError(authError, 401)], then the route *)
Definition authorized (request : Request) (env : Env) (route : Entry W Response)
    : Entry W Response :=
  match checkAuth request env with
  | Some authError =>
      if JS.truthy (Some authError) then hret (jsonError authError 401)
      else route
  | None => route
  end.

(** [catch (error) { return jsonError(error.message, 500) }]; a thrown
    value that is not an [Error] stands for the message
    ['Unknown error occurred']. *)
Definition internalError (error : Error) : Entry W Response :=
  hret (jsonError error 500).

(** up_types.ts 636-666: GET /up/accounts *)
Definition upAccountsRoute : Entry W Response :=
  hcatch
    (data <-
       upFetch ListUpAccounts (getUpAccounts services)
         (fun httpStatus statusText =>
            "Up Bank API error: " ++ httpStatus ++ " " ++ statusText)%string ;;
     let accounts :=
       map (fun account =>
              {| summary_id := account_id account;
                 summary_name := displayName account;
                 summary_type := accountType account;
                 summary_balance := value (balance account) |})
           data in
     hret (jsonResponse (UpAccountsBody accounts) 200))
    internalError.

(** up_types.ts 669-712: POST /webhook/create *)
Definition createWebhookRoute (env : Env) : Entry W Response :=
  hcatch
    (let webhookUrl := (BASE_URL env ++ "/webhook")%string in
     data <-
       upFetch (CreateUpWebhook webhookUrl) (postUpWebhook services webhookUrl)
         (fun httpStatus errorText =>
            "Up Bank API error: " ++ httpStatus ++ " " ++ errorText)%string ;;
     hret (jsonResponse
             (WebhookCreatedBody (webhook_id data) webhookUrl (secretKey data))
             201))
    internalError.

(** up_types.ts 750-815: TRANSACTION_CREATED and TRANSACTION_SETTLED *)
Definition transactionEvent (request : Request) (env : Env) : Entry W Response :=
  transactionId <- evaluated (transactionIdOf platform (req_body request)) ;;
  data <-
    upFetch (GetUpTransaction transactionId)
      (getUpTransaction services transactionId)
      (fun httpStatus _ => "Failed to fetch transaction: " ++ httpStatus)%string ;;
  match data with
  | None => hthrow "Invalid transaction response: missing data field"
  | Some (transaction, upAccountId) =>
      accountMapping <- evaluated (jsonParse platform (ACCOUNT_MAPPING env)) ;;
      read <- evaluated (propertyOf platform accountMapping upAccountId) ;;
      match JS.or_undefined read with
      | None => hret (jsonResponse (MessageBody "Account not mapped, skipped") 200)
      | Some ynabAccountId =>
          result <- lift (syncToYNAB (ledgers services) ynabAccountId [transaction]) ;;
          hret (jsonResponse
                  (ProcessedBody (imported result) (0 <? duplicates result)%Z)
                  200)
      end
  end.

(** up_types.ts 818-840: TRANSACTION_DELETED *)
Definition deletionEvent (request : Request) (env : Env) : Entry W Response :=
  transactionId <- evaluated (transactionIdOf platform (req_body request)) ;;
  accountMapping <-
    evaluated (accountMappingOf platform (ACCOUNT_MAPPING env)) ;;
  result <- lift (deleteFromYNAB (ledgers services) accountMapping transactionId) ;;
  hret (jsonResponse (DeletedBody (deleted result) (notFound result)) 200).

Definition eventTypeIs (eventType : option string) (s : string) : bool :=
  match eventType with
  | Some x => (x =? s)%string
  | None => false
  end.

(** up_types.ts 715-854: POST /webhook *)
Definition webhookRoute (request : Request) (env : Env) : Entry W Response :=
  hcatch
    (let body := req_body request in
     match JS.or_undefined (req_signature request) with
     | None => hret (jsonError "Missing signature header" 401)
     | Some signature =>
         if JS.truthy (UP_WEBHOOK_SECRET env)
            && negb (verifyWebhookSignature body signature
                       (JS.or_str (UP_WEBHOOK_SECRET env) ""))
         then hret (jsonError "Invalid signature" 401)
         else
           eventType <- evaluated (eventTypeOf platform body) ;;
           if eventTypeIs eventType "TRANSACTION_CREATED"
              || eventTypeIs eventType "TRANSACTION_SETTLED"
           then transactionEvent request env
           else if eventTypeIs eventType "TRANSACTION_DELETED"
           then deletionEvent request env
           else hret (jsonResponse (EventReceivedBody eventType) 200)
     end)
    internalError.

(** up_types.ts 857-892: GET /ynab/info; the budgets and the accounts
    are given by the properties the handler copies. *)
Definition ynabInfoRoute (env : Env) : Entry W Response :=
  hcatch
    (budgets <- ynabCall GetBudgets (getBudgets services) ;;
     accounts <- ynabCall GetAccounts (getAccounts services) ;;
     hret (jsonResponse (YnabInfoBody budgets (YNAB_BUDGET_ID env) accounts) 200))
    internalError.

(** up_types.ts 895-924: POST /resync-all-dryrun and POST /resync-all;
    the account mapping is parsed by [performResyncAll] (up_types.ts 1353). *)
Definition resyncRoute (env : Env) (dryRun : bool) : Entry W Response :=
  hcatch
    (accountMapping <-
       evaluated (accountMappingOf platform (ACCOUNT_MAPPING env)) ;;
     result <- lift (performResyncAll (ledgers services) accountMapping dryRun) ;;
     hret (jsonResponse (ResyncBody result) 200))
    internalError.

(** up_types.ts 951-1013: the [try] of POST /sync *)
Definition syncFrom (env : Env) (startDate : string) : Entry W Response :=
  hcatch
    (accountMapping <-
       evaluated (accountMappingOf platform (ACCOUNT_MAPPING env)) ;;
     '(accountResults, (totalImported, totalDuplicates, totalTransactions)) <-
       lift (syncAllAccounts (ledgers services) accountMapping startDate) ;;
     hret (jsonResponse
             (SyncBody totalImported totalDuplicates totalTransactions
                accountResults)
             200))
    internalError.

(** up_types.ts 927-1014: POST /sync, once authorized *)
Definition syncRoute (request : Request) (env : Env) : Entry W Response :=
  match syncRequestOf platform (req_body request) with
  | inl _ => hret (jsonError "Invalid JSON body" 400)
  | inr None => hthrow "Cannot read properties of null (reading 'startDate')"
  | inr (Some body_startDate) =>
      match JS.or_undefined body_startDate with
      | None => hret (jsonError "Missing required field: startDate" 400)
      | Some startDate =>
          if negb (dateRegexTest startDate)
          then hret (jsonError "startDate must be in YYYY-MM-DD format" 400)
          else syncFrom env startDate
      end
  end.

(** up_types.ts 632-1017: [fetch(request, env, ctx)] *)
Definition fetchHandler (request : Request) (env : Env) : Entry W Response :=
  let at_ (method pathname : string) : bool :=
    ((req_method request =? method) && (req_pathname request =? pathname))%string in
  if at_ "GET" "/up/accounts" then authorized request env upAccountsRoute
  else if at_ "POST" "/webhook/create"
  then authorized request env (createWebhookRoute env)
  else if at_ "POST" "/webhook" then webhookRoute request env
  else if at_ "GET" "/ynab/info" then authorized request env (ynabInfoRoute env)
  else if at_ "POST" "/resync-all-dryrun"
  then authorized request env (resyncRoute env true)
  else if at_ "POST" "/resync-all"
  then authorized request env (resyncRoute env false)
  else if at_ "POST" "/sync" then authorized request env (syncRoute request env)
  else hret {| res_status := 404; res_body := TextBody "Up Bank to YNAB Sync Worker" |}.

(** up_types.ts 579-582: thirty days before [now], but not before
    [SYNC_START_DATE]; a comparison with an Invalid Date is false. *)
Definition cronStartDate (env : Env) (now : Z) : string :=
  let thirtyDaysAgo := (now - 30 * 86400000)%Z in
  let minDate := dateOfString platform (SYNC_START_DATE env) in
  match minDate with
  | Some t => isoDateOf platform (if (thirtyDaysAgo <? t)%Z then t else thirtyDaysAgo)
  | None => isoDateOf platform thirtyDaysAgo
  end.

(** up_types.ts 572-630: [scheduled(controller, env, ctx)].  The
    mapping is parsed before the [try]; its entries are taken by the
    loop, inside it. *)
Definition scheduled (env : Env) : Entry W unit :=
  accountMapping <- evaluated (jsonParse platform (ACCOUNT_MAPPING env)) ;;
  fun w =>
    let startDate := cronStartDate env (dateNow services w) in
    hcatch
      (entries <- evaluated (entriesOf platform accountMapping) ;;
       _ <- lift (syncAllAccounts (ledgers services) entries startDate) ;;
       hret tt)
      (fun error => hret tt)
      w.

(** index.ts 213-327: POST /webhook as [index.ts] has it, where
    TRANSACTION_DELETED is one of the other event types *)
Definition webhookRoute_index (request : Request) (env : Env)
    : Entry W Response :=
  hcatch
    (let body := req_body request in
     match JS.or_undefined (req_signature request) with
     | None => hret (jsonError "Missing signature header" 401)
     | Some signature =>
         if JS.truthy (UP_WEBHOOK_SECRET env)
            && negb (verifyWebhookSignature body signature
                       (JS.or_str (UP_WEBHOOK_SECRET env) ""))
         then hret (jsonError "Invalid signature" 401)
         else
           eventType <- evaluated (eventTypeOf platform body) ;;
           if eventTypeIs eventType "TRANSACTION_CREATED"
              || eventTypeIs eventType "TRANSACTION_SETTLED"
           then transactionEvent request env
           else hret (jsonResponse (EventReceivedBody eventType) 200)
     end)
    internalError.

(** index.ts 130-458: [fetch(request, env, ctx)] as [index.ts] has it,
    without the two resync routes *)
Definition fetchHandler_index (request : Request) (env : Env)
    : Entry W Response :=
  let at_ (method pathname : string) : bool :=
    ((req_method request =? method) && (req_pathname request =? pathname))%string in
  if at_ "GET" "/up/accounts" then authorized request env upAccountsRoute
  else if at_ "POST" "/webhook/create"
  then authorized request env (createWebhookRoute env)
  else if at_ "POST" "/webhook" then webhookRoute_index request env
  else if at_ "GET" "/ynab/info" then authorized request env (ynabInfoRoute env)
  else if at_ "POST" "/sync" then authorized request env (syncRoute request env)
  else hret {| res_status := 404; res_body := TextBody "Up Bank to YNAB Sync Worker" |}.

End EntryPoints.

(** *** The earlier revision of the sync (up_types.ts 2207-2264) *)

(** up_types.ts 2216-2241: the callback of [upTransactions.map] *)
Definition toYnabTransaction_v1 (accountId isoNow : string)
    (upTx : TransactionResource) : SaveTransaction :=
  let importId := importIdOf (tx_id upTx) in
  let clearedStatus :=
    if statusIs (attr status upTx) "HELD" then Uncleared else Cleared in
  {| sv_account_id := accountId;
     sv_date := JS.substring (dateOf upTx isoNow) 0 10;
     sv_amount := amountInMilliunits upTx;
     sv_payee_name := JS.or_str (attr description upTx) "Unknown";
     sv_memo := JS.or_undefined (attr message upTx);
     sv_cleared := clearedStatus;
     sv_approved := false;
     sv_import_id := Some importId |}.

(** up_types.ts 2207-2264 *)
Definition syncToYNAB_v1 {W : Type} (api : Api W) (accountId : string)
    (upTransactions : list TransactionResource) : M W AccountSyncResult :=
  isoNow <- now api ;;
  let ynabTransactions :=
    map (toYnabTransaction_v1 accountId isoNow) upTransactions in
  if (length ynabTransactions =? 0)%nat then
    ret {| imported := 0; duplicates := 0; total := 0 |}
  else
    result <-
      call (CreateTransactions ynabTransactions)
           (createTransactions api ynabTransactions) ;;
    let duplicateCount := duplicateCountOf result in
    let importedCount :=
      (Z.of_nat (length ynabTransactions) - Z.of_nat duplicateCount)%Z in
    ret {| imported := importedCount;
           duplicates := Z.of_nat duplicateCount;
           total := Z.of_nat (length ynabTransactions) |}.

(** *** Vocabulary for the entry points *)

Definition hresult_of {W A : Type} (x : Result A * W * list Activity) : Result A :=
  fst (fst x).

Definition hworld_of {W A : Type} (x : Result A * W * list Activity) : W :=
  snd (fst x).

Definition activity_of {W A : Type} (x : Result A * W * list Activity)
    : list Activity :=
  snd x.

(** The calls to the two ledgers among the activity of an entry point. *)
Definition ledgerEvents (activity : list Activity) : list Event :=
  flat_map
    (fun a =>
       match a with
       | Ledger e => [e]
       | Service _ _ => []
       end)
    activity.

(** The routes behind [checkAuth]. *)
Definition protectedRoutes : list (string * string) :=
  [("GET", "/up/accounts"); ("POST", "/webhook/create"); ("GET", "/ynab/info");
   ("POST", "/resync-all-dryrun"); ("POST", "/resync-all"); ("POST", "/sync")].

Definition routeOf (request : Request) : string * string :=
  (req_method request, req_pathname request).

(** The delivery carries a signature that the webhook route accepts:
    one that verifies, or any signature when no secret is configured. *)
Definition signatureAccepted (platform : Platform) (request : Request)
    (env : Env) : bool :=
  match JS.or_undefined (req_signature request) with
  | Some signature =>
      negb (JS.truthy (UP_WEBHOOK_SECRET env))
      || verifyWebhookSignature platform (req_body request) signature
           (JS.or_str (UP_WEBHOOK_SECRET env) "")
  | None => false
  end.

(** [JSON.parse(env.ACCOUNT_MAPPING)[upAccountId]], as the webhook
    route reads the account a transaction goes to. *)
Definition mappedAccountOf (platform : Platform) (env : Env)
    (upAccountId : string) : Result (option string) :=
  match jsonParse platform (ACCOUNT_MAPPING env) with
  | inl error => inl error
  | inr accountMapping => propertyOf platform accountMapping upAccountId
  end.

(** The event types the webhook route acts on. *)
Definition isTransactionEvent (eventType : option string) : bool :=
  eventTypeIs eventType "TRANSACTION_CREATED"
  || eventTypeIs eventType "TRANSACTION_SETTLED".

Definition isDeletionEvent (eventType : option string) : bool :=
  eventTypeIs eventType "TRANSACTION_DELETED".

(** The sum of a count over the per-account results. *)
Definition sumOf (count : AccountResult -> Z) (accounts : list AccountResult)
    : Z :=
  fold_right (fun a s => (count a + s)%Z) 0%Z accounts.

(** The mapping entry an account result stands for. *)
Definition entryOf (a : AccountResult) : string * string :=
  (upAccountId a, ynabAccountId a).

(** The statuses the handler answers with. *)
Definition statuses : list nat := [200; 201; 400; 401; 404; 500].

(** The status of the response is one of [among]. *)
Definition within (among : list nat) (r : Response) : Prop :=
  In (res_status r) among.

(** The response has one of the statuses of the handler. *)
Definition known (r : Response) : Prop := within statuses r.

(** Every response [m] returns satisfies [P]. *)
Definition answers {W : Type} (P : Response -> Prop) (m : Entry W Response)
    : Prop :=
  forall w r, hresult_of (m w) = inr r -> P r.

(** The calls [m] makes to the two ledgers always satisfy [Q]. *)
Definition keeps {W A : Type} (Q : list Event -> Prop) (m : Entry W A) : Prop :=
  forall w, Q (ledgerEvents (activity_of (m w))).


(** The remote calls one [syncToYNAB] may make for a batch, in order:
    none for an empty batch; else the batched create; after a create
    that returned, possibly the listing of the account; after a
    listing that returned, possibly one update, never empty. *)
Inductive SyncCalls (accountId : string) (batch : list SaveTransaction)
    : list Event -> Prop :=
| NothingToSend : batch = [] -> SyncCalls accountId batch []
| CreateOnly (ok : bool) :
    batch <> [] ->
    SyncCalls accountId batch [Called (CreateTransactions batch) ok]
| CreateThenList (ok : bool) :
    batch <> [] ->
    SyncCalls accountId batch
      [Called (CreateTransactions batch) true;
       Called (GetTransactionsByAccount accountId) ok]
| CreateListUpdate (updates : list UpdateTransaction) (ok : bool) :
    batch <> [] -> updates <> [] ->
    SyncCalls accountId batch
      [Called (CreateTransactions batch) true;
       Called (GetTransactionsByAccount accountId) true;
       Called (UpdateTransactions updates) ok].

(** The listings of step 1 on their own: what each mapped account
    lists, in the order of the mapping. *)
Definition listAccount {W : Type} (api : Api W)
    (listed : list (list TransactionDetail)) (ynabAccountId : string)
    : M W (list (list TransactionDetail)) :=
  bind (call (GetTransactionsByAccount ynabAccountId)
          (getTransactionsByAccount api ynabAccountId))
       (fun transactions => ret (listed ++ [transactions])).

Definition listAccounts {W : Type} (api : Api W) (accounts : list string)
    : M W (list (list TransactionDetail)) :=
  forOf (listAccount api) accounts [].

(** The transactions of the listings that are not deleted. *)
Definition activeOf (listings : list (list TransactionDetail))
    : list TransactionDetail :=
  filter (fun tx => negb (td_deleted tx)) (concat listings).

(** Every fetch from Up Bank among [evs] asks for the transactions
    since [sinceDate]. *)
Definition fetchesSince (sinceDate : string) (evs : list Event) : Prop :=
  Forall
    (fun e =>
       match e with
       | Called (UpGet _ since _) _ => since = sinceDate
       | _ => True
       end)
    evs.

(** The remote call returned (a warning is no call). *)
Definition returned (e : Event) : bool :=
  match e with
  | Called _ ok => ok
  | Warned _ _ => true
  end.

(** The Up Bank accounts whose first page was asked for, in order. *)
Definition fetchedAccounts (evs : list Event) : list string :=
  flat_map
    (fun e =>
       match e with
       | Called (UpGet a _ O) _ => [a]
       | _ => []
       end)
    evs.

(** The decimal digits [ds] as a string, and the number they write
    after [acc]. *)
Definition digitChar (d : nat) : ascii := ascii_of_nat (48 + d).

Fixpoint digitsString (ds : list nat) : string :=
  match ds with
  | [] => EmptyString
  | d :: rest => String (digitChar d) (digitsString rest)
  end.

Definition valueOfDigits (ds : list nat) (acc : Z) : Z :=
  fold_left (fun a d => (10 * a + Z.of_nat d)%Z) ds acc.

(** An amount as Up Bank writes it: an optional minus sign, the
    integer part, a point and the fraction. *)
Definition amountString (negative : bool) (integer fraction : list nat)
    : string :=
  ((if negative then "-" else "")
   ++ digitsString integer ++ "." ++ digitsString fraction)%string.

(** A transaction with the amount [value]. *)
Definition withAmount (id value : string) : TransactionResource :=
  {| tx_id := id;
     attributes :=
       Some {| status := Some "SETTLED"; description := None; message := None;
               amount := Some {| currencyCode := "AUD"; value := value;
                                 valueInBaseUnits := 0%Z |};
               settledAt := None; createdAt := None |} |}.

(** [0-9a-f] *)
Definition isLowerHex (c : ascii) : bool :=
  let n := nat_of_ascii c in
  (((48 <=? n) && (n <=? 57)) || ((97 <=? n) && (n <=? 102)))%nat.

Definition hexValue (c : ascii) : N :=
  let n := N_of_ascii c in
  if (n <? 58)%N then (n - 48)%N else (n - 87)%N.

(** Reads a string of hexadecimal digits back, two digits a byte. *)
Fixpoint bytesOfHex (s : string) : option (list Byte.byte) :=
  match s with
  | EmptyString => Some []
  | String c1 (String c2 rest) =>
      match Byte.of_N (16 * hexValue c1 + hexValue c2), bytesOfHex rest with
      | Some b, Some bs => Some (b :: bs)
      | _, _ => None
      end
  | String _ EmptyString => None
  end.

(** How many requests following a chain of pages takes. *)
Fixpoint pageCount (chain : PageChain) : nat :=
  match chain with
  | NextPage _ next => S (pageCount next)
  | _ => 1
  end.

(** The requests for the pages [first], [first + 1], ... *)
Definition pageRequests (accountId sinceDate : string) (first count : nat)
    (ok : bool) : list Event :=
  map (fun page => Called (UpGet accountId sinceDate page) ok) (seq first count).

(* ================================================================== *)
(** ** A sample platform and sample services for the entry points *)
(* ================================================================== *)

Module RefWeb.

(** Sample data, not a MAC: the bytes of the secret, then of the body. *)
Definition hmac (secret body : string) : list Byte.byte :=
  map byte_of_ascii (list_ascii_of_string (secret ++ body)).

(** The values the sample platform parses: [null] ([None]) and the
    two account mappings. *)
Definition parse (s : string) : Result (option (list (string * string))) :=
  if s =? "null" then inr None
  else if s =? "one" then inr (Some Samples.mapping1)
  else if s =? "two" then inr (Some Samples.mapping2)
  else inl "Unexpected end of JSON input".

Definition entries (value : option (list (string * string)))
    : Result (list (string * string)) :=
  match value with
  | Some own => inr own
  | None => inl "Cannot convert undefined or null to object"
  end.

(** The properties of [Object.prototype], which every object that
    [JSON.parse] gives inherits: the prototype itself and eleven
    functions. *)
Definition inherited (key : string) : option string :=
  if key =? "__proto__" then Some "[object Object]"
  else if key =? "constructor" then Some "function Object() { [native code] }"
  else if JS.includes
            ["__defineGetter__"; "__defineSetter__"; "hasOwnProperty";
             "__lookupGetter__"; "__lookupSetter__"; "isPrototypeOf";
             "propertyIsEnumerable"; "toString"; "valueOf"; "toLocaleString"]
            key
  then Some ("function " ++ key ++ "() { [native code] }")%string
  else None.

Definition property (value : option (list (string * string))) (key : string)
    : Result (option string) :=
  match value with
  | Some own =>
      match JS.get own key with
      | Some found => inr (Some found)
      | None => inr (inherited key)
      end
  | None =>
      inl ("Cannot read properties of null (reading '" ++ key ++ "')")%string
  end.

(** The part of [s] before its first space, and the part after it. *)
Fixpoint words (s : string) : string * option string :=
  match s with
  | EmptyString => (EmptyString, None)
  | String c rest =>
      if (c =? " ")%char then (EmptyString, Some rest)
      else let '(first, second) := words rest in (String c first, second)
  end.

(** Sample bodies: [null], a start date, anything else with a brace. *)
Definition syncBodyOf (s : string) : Result (option (option string)) :=
  if s =? "null" then inr None
  else if s =? "{}" then inr (Some None)
  else if String.prefix "startDate " s then inr (Some (snd (words s)))
  else inl "Unexpected token in JSON".

(** Sample events: the event type, a space, the transaction id. *)
Definition typeOf (s : string) : Result (option string) :=
  if s =? "" then inl "Unexpected end of JSON input"
  else inr (Some (fst (words s))).

Definition idOf (s : string) : Result string :=
  match snd (words s) with
  | Some id => inr id
  | None => inl "Cannot read properties of undefined (reading 'transaction')"
  end.

Definition platform : Platform :=
  {| hmacSha256 := hmac;
     Json := option (list (string * string));
     jsonParse := parse;
     entriesOf := entries;
     propertyOf := property;
     syncRequestOf := syncBodyOf;
     eventTypeOf := typeOf;
     transactionIdOf := idOf;
     dateOfString :=
       fun s => if s =? "2024-01-01" then Some 1704067200000%Z
                else if s =? "2024-03-01" then Some 1709251200000%Z
                else None;
     isoDateOf :=
       fun t => if (t =? 1707004800000)%Z then "2024-02-04"
                else if (t =? 1709251200000)%Z then "2024-03-01"
                else "2024-01-01" |}.

Definition lookUp (transactionId : string) (w : Ref.World)
    : HttpReply (option (TransactionResource * string)) * Ref.World :=
  if Ref.fails w then (Failed "Network connection lost", Ref.tick w)
  else
    match find (fun e => tx_id (snd e) =? transactionId) (Ref.bank w) with
    | Some (upAccountId, transaction) =>
        (Replied (Some (transaction, upAccountId)), Ref.tick w)
    | None => (NotOk "404" "Not Found", Ref.tick w)
    end.

Definition services : Services Ref.World :=
  {| ledgers := Ref.api;
     getUpAccounts :=
       fun w =>
         (Replied
            (map (fun e =>
                    {| account_id := fst e;
                       displayName := "Spending";
                       accountType := "TRANSACTIONAL";
                       balance := {| currencyCode := "AUD"; value := "10.00";
                                     valueInBaseUnits := 1000%Z |} |})
               (Ref.bank w)),
          Ref.tick w);
     postUpWebhook :=
       fun url w =>
         (Replied {| webhook_id := "wh1"; secretKey := "s3" |}, Ref.tick w);
     getUpTransaction := lookUp;
     getBudgets :=
       Ref.attempt
         (fun w => ([{| budget_id := "B1"; budget_name := "Home" |}], w));
     getAccounts :=
       Ref.attempt
         (fun w =>
            ([{| info_id := "Y1"; info_name := "Up"; info_type := "checking";
                 on_budget := true; closed := false |}], w));
     dateNow := fun _ => 1709596800000%Z |}.

Definition env : Env :=
  {| API_KEY := "key";
     UP_WEBHOOK_SECRET := Some "s";
     ACCOUNT_MAPPING := "two";
     SYNC_START_DATE := "2024-01-01";
     BASE_URL := "https://worker.example";
     YNAB_BUDGET_ID := "B1" |}.

(** The same, with an account mapping that is the JSON [null]. *)
Definition nullEnv : Env :=
  {| API_KEY := "key";
     UP_WEBHOOK_SECRET := Some "s";
     ACCOUNT_MAPPING := "null";
     SYNC_START_DATE := "2024-01-01";
     BASE_URL := "https://worker.example";
     YNAB_BUDGET_ID := "B1" |}.

(** A request with the API key of [env]. *)
Definition call (method pathname body : string) : Request :=
  {| req_method := method;
     req_pathname := pathname;
     req_authorization := Some "Bearer key";
     req_signature := None;
     req_body := body |}.

(** A webhook delivery, signed by [signature]. *)
Definition delivery (body signature : string) : Request :=
  {| req_method := "POST";
     req_pathname := "/webhook";
     req_authorization := None;
     req_signature := Some signature;
     req_body := body |}.

End RefWeb.

(* ================================================================== *)
(** ** Proofs *)
(* ================================================================== *)

(** *** The monad *)

Lemma bind_ret_l {W A B : Type} (a : A) (f : A -> M W B) (w : W) :
  bind (ret a) f w = f a w.
Proof.
  unfold bind, ret. destruct (f a w) as [[r w2] t2]. reflexivity.
Qed.

Lemma bind_assoc {W A B C : Type} (m : M W A) (f : A -> M W B)
    (g : B -> M W C) (w : W) :
  bind (bind m f) g w = bind m (fun a => bind (f a) g) w.
Proof.
  unfold bind. destruct (m w) as [[[e|a] w1] t1]; [reflexivity|].
  destruct (f a w1) as [[[e|b] w2] t2]; [reflexivity|].
  destruct (g b w2) as [[r w3] t3]. rewrite app_assoc. reflexivity.
Qed.

Lemma bind_ext {W A B : Type} (m : M W A) (f g : A -> M W B) (w : W) :
  (forall a w', f a w' = g a w') -> bind m f w = bind m g w.
Proof.
  intros H. unfold bind. destruct (m w) as [[[e|a] w1] t1]; [reflexivity|].
  rewrite H. reflexivity.
Qed.

(** *** C5 *)

Lemma substring0_length (n : nat) (s : string) :
  String.length (String.substring 0 n s) = Nat.min n (String.length s).
Proof.
  revert s. induction n as [|n IH]; intros s.
  - destruct s; reflexivity.
  - destruct s as [|c s]; simpl; [reflexivity|]. rewrite IH. reflexivity.
Qed.

Lemma js_substring0 (s : string) (n : nat) :
  JS.substring s 0 n = String.substring 0 n s.
Proof.
  unfold JS.substring. rewrite Nat.min_0_l, Nat.max_0_l, Nat.sub_0_r. reflexivity.
Qed.

Lemma importIdOf_prefix (id : string) :
  importIdOf id = ("UPBANK:" ++ JS.substring id 0 29)%string.
Proof.
  unfold importIdOf. rewrite !js_substring0. reflexivity.
Qed.

(** C5. The idempotency key is ["UPBANK:"] followed by the transaction
    id, cut to 36 characters: it depends on the id alone (two mappings
    of the same id, whatever the account, the clock and the attributes,
    carry the same key), it is what the sync path submits and what the
    deletion path searches for, and it is never longer than 36
    characters. *)
Theorem importId_deterministic_and_bounded :
  forall id : string,
    importIdOf id = JS.substring ("UPBANK:" ++ id) 0 36
    /\ (String.length (importIdOf id) <= 36)%nat
    /\ String.length (importIdOf id) = Nat.min 36 (7 + String.length id)
    /\ (forall accountId isoNow attrs,
          sv_import_id
            (toYnabTransaction accountId isoNow
               {| tx_id := id; attributes := attrs |})
          = Some (importIdOf id))
    /\ (forall accountId1 isoNow1 attrs1 accountId2 isoNow2 attrs2,
          sv_import_id
            (toYnabTransaction accountId1 isoNow1
               {| tx_id := id; attributes := attrs1 |})
          = sv_import_id
              (toYnabTransaction accountId2 isoNow2
                 {| tx_id := id; attributes := attrs2 |}))
    /\ (forall (W : Type) (api : Api W) accountMapping,
          deleteFromYNAB api accountMapping id
          = searchAccounts api (importIdOf id) (map snd accountMapping)).
Proof.
  intros id.
  assert (L : String.length (importIdOf id) = Nat.min 36 (7 + String.length id)).
  { unfold importIdOf. rewrite js_substring0, substring0_length. reflexivity. }
  repeat split; try reflexivity.
  - rewrite L. apply Nat.le_min_l.
  - exact L.
Qed.

(** *** Strings *)

Lemma prefix_cons (a b : ascii) (s1 s2 : string) :
  String.prefix (String a s1) (String b s2)
  = if ascii_dec a b then String.prefix s1 s2 else false.
Proof. reflexivity. Qed.

Lemma prefix_app (p s : string) :
  String.prefix p s = true <-> exists r, s = (p ++ r)%string.
Proof.
  revert s. induction p as [|a p IH]; intros s.
  - split; [intros _; exists s; reflexivity|intros _; destruct s; reflexivity].
  - destruct s as [|b s].
    + split; [discriminate|intros [r Hr]; discriminate].
    + rewrite prefix_cons. destruct (ascii_dec a b) as [->|N].
      * rewrite IH. split; intros [r Hr]; exists r; simpl in *; congruence.
      * split; [discriminate|intros [r Hr]; simpl in Hr; congruence].
Qed.

(** *** C6 *)







(** *** C7 *)

(** C7 at a transaction whose status is neither [HELD] nor [SETTLED]:
    the sync path maps it to [Uncleared] and warns, but the restoration
    path of [performResyncAll] maps it to [Cleared] and warns of
    nothing. *)
Theorem restoration_unknown_status_is_cleared :
  unexpectedStatus (attr status (Ref.upTx "b" "PENDING")) = true
  /\ sv_cleared (toYnabTransaction "Y2" "2024-03-05T00:00:00.000Z"
                   (Ref.upTx "b" "PENDING")) = Uncleared
  /\ statusWarnings [Ref.upTx "b" "PENDING"] = [Warned (Some "PENDING") "b"]
  /\ sv_cleared (toRestoredYnabTransaction "Y2" "2024-03-05T00:00:00.000Z"
                   (Ref.upTx "b" "PENDING")) = Cleared
  /\ events_of
       (restoreDeleted Ref.api [(Ref.upTx "b" "PENDING", "Y2")]
          (Ref.world [] [] []))
     = [Called
          (CreateTransactions
             [toRestoredYnabTransaction "Y2" "2024-03-05T00:00:00.000Z"
                (Ref.upTx "b" "PENDING")])
          true].
Proof.
  repeat split; reflexivity.
Qed.

(** The sync path, for every transaction (the part of C7 that holds). *)
Lemma sync_cleared_status_fail_safe (accountId isoNow : string)
    (upTx : TransactionResource) :
  (attr status upTx = Some "HELD" ->
   sv_cleared (toYnabTransaction accountId isoNow upTx) = Uncleared)
  /\ (attr status upTx = Some "SETTLED" ->
      sv_cleared (toYnabTransaction accountId isoNow upTx) = Cleared)
  /\ (unexpectedStatus (attr status upTx) = true ->
      sv_cleared (toYnabTransaction accountId isoNow upTx) = Uncleared
      /\ In (Warned (attr status upTx) (tx_id upTx)) (statusWarnings [upTx])).
Proof.
  unfold toYnabTransaction, statusWarnings. cbn [sv_cleared flat_map].
  unfold clearedStatusOf, unexpectedStatus.
  split; [|split].
  - intros ->. reflexivity.
  - intros ->. reflexivity.
  - intros H. apply andb_true_iff in H. destruct H as [H1 H2].
    apply negb_true_iff in H1. apply negb_true_iff in H2.
    rewrite H1, H2. split; [reflexivity|].
    simpl. left. reflexivity.
Qed.

(** *** [syncToYNAB], step by step *)

Lemma emit_all {W : Type} (l : list Event) (w : W) :
  forOf (fun (_ : unit) e => emit e) l tt w = (inr tt, w, l).
Proof.
  induction l as [|e l IH]; [reflexivity|].
  cbn [forOf]. unfold bind at 1. unfold emit at 1. rewrite IH. reflexivity.
Qed.

Lemma updateDuplicates_unfold {W : Type} (api : Api W) (accountId : string)
    (dups : list string) (ts : list SaveTransaction) (w : W) :
  updateDuplicates api accountId dups ts w =
  match getTransactionsByAccount api accountId w with
  | (inl e, w1) => (inl e, w1, [Called (GetTransactionsByAccount accountId) false])
  | (inr existing, w1) =>
      let us := transactionsToUpdateOf (desiredClearedStatusOf dups ts) existing in
      if (0 <? length us)%nat then
        match updateTransactions api us w1 with
        | (inl e, w2) =>
            (inl e, w2,
             [Called (GetTransactionsByAccount accountId) true;
              Called (UpdateTransactions us) false])
        | (inr _, w2) =>
            (inr tt, w2,
             [Called (GetTransactionsByAccount accountId) true;
              Called (UpdateTransactions us) true])
        end
      else (inr tt, w1, [Called (GetTransactionsByAccount accountId) true])
  end.
Proof.
  unfold updateDuplicates, bind, call.
  destruct (getTransactionsByAccount api accountId w) as [[e|existing] w1];
    [reflexivity|].
  cbn [isOk].
  destruct (0 <? length (transactionsToUpdateOf (desiredClearedStatusOf dups ts) existing))%nat;
    [|reflexivity].
  destruct (updateTransactions api _ w1) as [[e|r] w2]; reflexivity.
Qed.

(** The update of duplicates never throws. *)
Lemma reconcileDuplicates_returns {W : Type} (api : Api W) (accountId : string)
    (result : SaveTransactionsResponse) (ts : list SaveTransaction) (w : W) :
  result_of (reconcileDuplicates api accountId result ts w) = inr tt.
Proof.
  unfold reconcileDuplicates.
  destruct (duplicate_import_ids result) as [dups|]; [|reflexivity].
  destruct (0 <? duplicateCountOf result)%nat; [|reflexivity].
  unfold try_catch. rewrite updateDuplicates_unfold.
  destruct (getTransactionsByAccount api accountId w) as [[e|existing] w1];
    [reflexivity|].
  cbv zeta.
  destruct (0 <? length _)%nat; [|reflexivity].
  destruct (updateTransactions api _ w1) as [[e|r] w2]; reflexivity.
Qed.

Lemma syncToYNAB_unfold {W : Type} (api : Api W) (accountId : string)
    (upTransactions : list TransactionResource) (w : W) :
  syncToYNAB api accountId upTransactions w =
  let ts := map (toYnabTransaction accountId (toISOString api w)) upTransactions in
  let warns := statusWarnings upTransactions in
  match upTransactions with
  | [] => (inr {| imported := 0; duplicates := 0; total := 0 |}, w, warns)
  | _ :: _ =>
      match createTransactions api ts w with
      | (inl e, w1) => (inl e, w1, warns ++ [Called (CreateTransactions ts) false])
      | (inr result, w1) =>
          let x := reconcileDuplicates api accountId result ts w1 in
          (inr {| imported :=
                    (Z.of_nat (length ts) - Z.of_nat (duplicateCountOf result))%Z;
                  duplicates := Z.of_nat (duplicateCountOf result);
                  total := Z.of_nat (length ts) |},
           world_of x,
           warns ++ Called (CreateTransactions ts) true :: events_of x)
      end
  end.
Proof.
  unfold syncToYNAB, bind at 1, now. cbv zeta.
  unfold bind at 1. rewrite emit_all.
  destruct upTransactions as [|u us].
  - reflexivity.
  - set (ts := map _ (u :: us)).
    assert (L : (length ts =? 0)%nat = false) by reflexivity.
    rewrite L. unfold try_catch, bind at 1, call.
    destruct (createTransactions api ts w) as [[e|result] w1].
    + cbn [isOk]. unfold throw. rewrite !app_nil_r. reflexivity.
    + cbn [isOk]. unfold bind.
      pose proof (reconcileDuplicates_returns api accountId result ts w1) as R.
      destruct (reconcileDuplicates api accountId result ts w1) as [[r w2] evs].
      unfold result_of in R. simpl in R. subst r.
      unfold ret, world_of, events_of. simpl. rewrite app_nil_r. reflexivity.
Qed.

(** *** [fetchUpTransactionsByAccount] *)

Lemma followPages_result (accountId sinceDate : string) (chain : PageChain) :
  forall page acc,
    fst (followPages accountId sinceDate page chain acc)
    = match chainError chain with
      | Some e => inl e
      | None => inr (acc ++ chainData chain)
      end.
Proof.
  induction chain as [data|data next IH|st txt|e]; intros page acc;
    try reflexivity.
  cbn [followPages chainError chainData].
  specialize (IH (S page) (acc ++ data)).
  destruct (followPages accountId sinceDate (S page) next (acc ++ data)) as [r evs].
  cbn [fst] in *. rewrite IH. rewrite <- app_assoc. reflexivity.
Qed.

Lemma fetch_unfold {W : Type} (api : Api W) (accountId sinceDate : string) (w : W) :
  fetchUpTransactionsByAccount api accountId sinceDate w
  = (match chainError (fst (upTransactions api accountId sinceDate w)) with
     | Some e => inl e
     | None => inr (chainData (fst (upTransactions api accountId sinceDate w)))
     end,
     snd (upTransactions api accountId sinceDate w),
     snd (followPages accountId sinceDate 0
            (fst (upTransactions api accountId sinceDate w)) [])).
Proof.
  unfold fetchUpTransactionsByAccount, try_catch.
  destruct (upTransactions api accountId sinceDate w) as [chain w1].
  cbn [fst snd].
  pose proof (followPages_result accountId sinceDate chain 0 []) as R.
  destruct (followPages accountId sinceDate 0 chain []) as [r evs].
  cbn [fst snd] in *. subst r.
  destruct (chainError chain) as [e|].
  - unfold throw. rewrite app_nil_r. reflexivity.
  - reflexivity.
Qed.

(** *** C9 *)

(** C9. Whatever happens while the cleared status of duplicates is
    looked up and updated (the listing or the batched update may
    throw), [syncToYNAB] returns the counts computed from the batched
    create; an error of the batched create, or of the fetch before it,
    is thrown to the caller. *)
Theorem sync_update_errors_are_swallowed :
  forall (W : Type) (api : Api W) (accountId : string)
         (upTxs : list TransactionResource) (w : W),
    upTxs <> [] ->
    let ts := map (toYnabTransaction accountId (toISOString api w)) upTxs in
    (forall result w1,
        createTransactions api ts w = (inr result, w1) ->
        result_of (syncToYNAB api accountId upTxs w)
        = inr {| imported :=
                   (Z.of_nat (length ts) - Z.of_nat (duplicateCountOf result))%Z;
                 duplicates := Z.of_nat (duplicateCountOf result);
                 total := Z.of_nat (length ts) |})
    /\ (forall e w1,
           createTransactions api ts w = (inl e, w1) ->
           result_of (syncToYNAB api accountId upTxs w) = inl e)
    /\ (forall upAccountId sinceDate e,
           chainError (fst (upTransactions api upAccountId sinceDate w)) = Some e ->
           result_of (fetchUpTransactionsByAccount api upAccountId sinceDate w)
           = inl e
           /\ result_of (syncAccount api upAccountId accountId sinceDate w) = inl e).
Proof.
  intros W api accountId upTxs w Hne ts.
  split; [|split].
  - intros result w1 Hc. rewrite syncToYNAB_unfold.
    destruct upTxs as [|u us]; [congruence|].
    cbv zeta. fold ts. rewrite Hc. reflexivity.
  - intros e w1 Hc. rewrite syncToYNAB_unfold.
    destruct upTxs as [|u us]; [congruence|].
    cbv zeta. fold ts. rewrite Hc. reflexivity.
  - intros upAccountId sinceDate e He.
    assert (F : result_of (fetchUpTransactionsByAccount api upAccountId sinceDate w)
                = inl e).
    { rewrite fetch_unfold, He. reflexivity. }
    split; [exact F|].
    unfold syncAccount, bind.
    destruct (fetchUpTransactionsByAccount api upAccountId sinceDate w)
      as [[[e'|txs] w1] evs]; unfold result_of in *; cbn [fst] in *.
    + congruence.
    + discriminate.
Qed.

Lemma sync_update_errors_are_swallowed_witness :
  [Ref.upTx "a" "SETTLED"] <> []
  /\ failedListings
       (events_of
          (syncToYNAB Ref.api "Y1" [Ref.upTx "a" "SETTLED"]
             (Samples.settledSince [1])))
     = ["Y1"]
  /\ result_of
       (syncToYNAB Ref.api "Y1" [Ref.upTx "a" "SETTLED"] (Samples.settledSince [1]))
     = inr {| imported := 0; duplicates := 1; total := 1 |}.
Proof.
  split; [discriminate|].
  split; [reflexivity|].
  destruct (sync_update_errors_are_swallowed Ref.World Ref.api "Y1"
              [Ref.upTx "a" "SETTLED"] (Samples.settledSince [1]))
    as [H _]; [discriminate|].
  exact (H _ _ eq_refl).
Defined.

(** *** C10 *)

Lemma searchAccounts_cons {W : Type} (api : Api W) (k a : string)
    (rest : list string) (w : W) :
  searchAccounts api k (a :: rest) w =
  match getTransactionsByAccount api a w with
  | (inl e, w1) =>
      after [Called (GetTransactionsByAccount a) false]
        (searchAccounts api k rest w1)
  | (inr txs, w1) =>
      match find (importIdIs k) txs with
      | None =>
          after [Called (GetTransactionsByAccount a) true]
            (searchAccounts api k rest w1)
      | Some t =>
          match deleteTransaction api (td_id t) w1 with
          | (inr _, w2) =>
              (inr {| deleted := true; notFound := false |}, w2,
               [Called (GetTransactionsByAccount a) true;
                Called (DeleteTransaction (td_id t)) true])
          | (inl _, w2) =>
              after [Called (GetTransactionsByAccount a) true;
                     Called (DeleteTransaction (td_id t)) false]
                (searchAccounts api k rest w2)
          end
      end
  end.
Proof.
  cbn [searchAccounts]. unfold bind at 1, try_catch, bind at 1, call.
  unfold after, result_of, world_of, events_of.
  destruct (getTransactionsByAccount api a w) as [[e|txs] w1]; cbn [isOk].
  - unfold ret at 1.
    destruct (searchAccounts api k rest w1) as [[r w2] evs]. reflexivity.
  - destruct (find (importIdIs k) txs) as [t|].
    + unfold bind at 1.
      destruct (deleteTransaction api (td_id t) w1) as [[e|u] w2]; cbn [isOk].
      * unfold ret at 1.
        destruct (searchAccounts api k rest w2) as [[r w3] evs]. reflexivity.
      * reflexivity.
    + unfold ret at 1.
      destruct (searchAccounts api k rest w1) as [[r w2] evs]. reflexivity.
Qed.

Lemma result_after {W A : Type} (hd : list Event) (x : Result A * W * list Event) :
  result_of (after hd x) = result_of x.
Proof. reflexivity. Qed.

Lemma events_after {W A : Type} (hd : list Event) (x : Result A * W * list Event) :
  events_of (after hd x) = hd ++ events_of x.
Proof. reflexivity. Qed.

Lemma world_after {W A : Type} (hd : list Event) (x : Result A * W * list Event) :
  world_of (after hd x) = world_of x.
Proof. reflexivity. Qed.

Lemma searchAccounts_shape {W : Type} (api : Api W) (k : string)
    (accounts : list string) :
  forall w,
    let x := searchAccounts api k accounts w in
    (result_of x = inr {| deleted := false; notFound := true |}
     /\ forallb (fun e => negb (successfulDelete e)) (events_of x) = true)
    \/ (result_of x = inr {| deleted := true; notFound := false |}
        /\ exists init id,
            events_of x = init ++ [Called (DeleteTransaction id) true]
            /\ forallb (fun e => negb (successfulDelete e)) init = true).
Proof.
  induction accounts as [|a rest IH]; intros w.
  - left. split; reflexivity.
  - cbv zeta. rewrite searchAccounts_cons.
    assert (K : forall hd w',
               forallb (fun e => negb (successfulDelete e)) hd = true ->
               let x := after hd (searchAccounts api k rest w') in
               (result_of x = inr {| deleted := false; notFound := true |}
                /\ forallb (fun e => negb (successfulDelete e)) (events_of x) = true)
               \/ (result_of x = inr {| deleted := true; notFound := false |}
                   /\ exists init id,
                       events_of x = init ++ [Called (DeleteTransaction id) true]
                       /\ forallb (fun e => negb (successfulDelete e)) init = true)).
    { intros hd w' Hhd. cbv zeta. specialize (IH w'). cbv zeta in IH.
      rewrite result_after, events_after.
      destruct IH as [[R E]|[R [init [id [E F]]]]].
      - left. split; [exact R|]. rewrite forallb_app, Hhd, E. reflexivity.
      - right. split; [exact R|]. exists (hd ++ init), id. split.
        + rewrite E, app_assoc. reflexivity.
        + rewrite forallb_app, Hhd, F. reflexivity. }
    destruct (getTransactionsByAccount api a w) as [[e|txs] w1].
    + apply K. reflexivity.
    + destruct (find (importIdIs k) txs) as [t|].
      * destruct (deleteTransaction api (td_id t) w1) as [[e|u] w2].
        -- apply K. reflexivity.
        -- right. split; [reflexivity|].
           exists [Called (GetTransactionsByAccount a) true], (td_id t).
           split; reflexivity.
      * apply K. reflexivity.
Qed.

Lemma deleteCalls_app (a b : list Event) :
  deleteCalls (a ++ b) = deleteCalls a ++ deleteCalls b.
Proof. unfold deleteCalls. apply flat_map_app. Qed.

Lemma listingCalls_app (a b : list Event) :
  listingCalls (a ++ b) = listingCalls a ++ listingCalls b.
Proof. unfold listingCalls. apply flat_map_app. Qed.

Lemma no_successful_delete_count (evs : list Event) :
  forallb (fun e => negb (successfulDelete e)) evs = true ->
  countTrue (deleteCalls evs) = 0.
Proof.
  induction evs as [|e evs IH]; [reflexivity|].
  cbn [forallb]. intros H. apply andb_true_iff in H. destruct H as [H1 H2].
  change (e :: evs) with ([e] ++ evs). rewrite deleteCalls_app.
  unfold countTrue in *. rewrite filter_app, length_app, (IH H2).
  destruct e as [[] []|]; try reflexivity; discriminate.
Qed.

Lemma stops_after_last (init : list Event) (x : Event) :
  forallb (fun e => negb (successfulDelete e)) init = true ->
  forall pre e post,
    init ++ [x] = pre ++ e :: post -> successfulDelete e = true -> post = [].
Proof.
  induction init as [|i init IH]; intros Hi pre e post E S.
  - destruct pre as [|p pre]; simpl in E.
    + congruence.
    + destruct pre; discriminate.
  - cbn [forallb] in Hi. apply andb_true_iff in Hi. destruct Hi as [Hi1 Hi2].
    destruct pre as [|p pre]; simpl in E.
    + injection E as E1 E2. subst i. rewrite S in Hi1. discriminate.
    + injection E as E1 E2. eapply IH; eauto.
Qed.

Lemma no_successful_delete_in (evs : list Event) :
  forallb (fun e => negb (successfulDelete e)) evs = true ->
  forall pre e post, evs = pre ++ e :: post -> successfulDelete e = false.
Proof.
  intros H pre e post E. subst evs. rewrite forallb_app in H.
  apply andb_true_iff in H. destruct H as [_ H]. cbn [forallb] in H.
  apply andb_true_iff in H. destruct H as [H _].
  apply negb_true_iff in H. exact H.
Qed.

Lemma searchAccounts_listing_prefix {W : Type} (api : Api W) (k : string)
    (accounts : list string) :
  forall w, exists rest,
    accounts = listingCalls (events_of (searchAccounts api k accounts w)) ++ rest.
Proof.
  induction accounts as [|a rest IH]; intros w.
  - exists []. reflexivity.
  - rewrite searchAccounts_cons.
    destruct (getTransactionsByAccount api a w) as [[e|txs] w1].
    + destruct (IH w1) as [r Hr]. exists r.
      rewrite events_after, listingCalls_app.
      cbn. f_equal. exact Hr.
    + destruct (find (importIdIs k) txs) as [t|].
      * destruct (deleteTransaction api (td_id t) w1) as [[e|u] w2].
        -- destruct (IH w2) as [r Hr]. exists r.
           rewrite events_after, listingCalls_app.
           cbn. f_equal. exact Hr.
        -- exists rest. reflexivity.
      * destruct (IH w1) as [r Hr]. exists r.
        rewrite events_after, listingCalls_app.
        cbn. f_equal. exact Hr.
Qed.

(** The reference ledger when no call fails. *)
Lemma ref_list_ok (a : string) (w : Ref.World) :
  Ref.failing w = [] ->
  getTransactionsByAccount Ref.api a w
  = (inr (Ref.accountTransactions a (Ref.ledger w)), Ref.tick w).
Proof.
  intros F. cbn [getTransactionsByAccount Ref.api]. unfold Ref.attempt, Ref.fails.
  rewrite F. reflexivity.
Qed.

Lemma ref_delete_ok (id : string) (w : Ref.World) :
  Ref.failing w = [] ->
  deleteTransaction Ref.api id w
  = (inr tt,
     Ref.tick (Ref.withLedger w (map (Ref.softDelete id) (Ref.ledger w)))).
Proof.
  intros F. cbn [deleteTransaction Ref.api]. unfold Ref.attempt, Ref.fails.
  rewrite F. reflexivity.
Qed.

Lemma searchAccounts_ref (k : string) (accounts : list string) :
  forall w,
    Ref.failing w = [] ->
    let x := searchAccounts Ref.api k accounts w in
    match firstMatch (Ref.ledger w) k accounts with
    | Some t =>
        result_of x = inr {| deleted := true; notFound := false |}
        /\ deleteCalls (events_of x) = [(td_id t, true)]
        /\ Ref.ledger (world_of x)
           = map (Ref.softDelete (td_id t)) (Ref.ledger w)
    | None =>
        result_of x = inr {| deleted := false; notFound := true |}
        /\ deleteCalls (events_of x) = []
        /\ Ref.ledger (world_of x) = Ref.ledger w
    end.
Proof.
  induction accounts as [|a rest IH]; intros w F.
  - repeat split.
  - cbv zeta. rewrite searchAccounts_cons, (ref_list_ok a w F).
    cbn [firstMatch].
    destruct (find (importIdIs k) (Ref.accountTransactions a (Ref.ledger w)))
      as [t|].
    + rewrite ref_delete_ok by exact F. repeat split.
    + rewrite result_after, events_after, world_after, deleteCalls_app.
      specialize (IH (Ref.tick w) F). cbv zeta in IH.
      change (Ref.ledger (Ref.tick w)) with (Ref.ledger w) in IH.
      exact IH.
Qed.

(** C10. Handling a transaction-deleted notification never throws and
    lists the mapped target accounts in the order of the mapping; at
    most one delete call succeeds, nothing is called after it, and the
    result says [deleted] exactly then (and [notFound] otherwise).
    With a target ledger that answers every call: the transaction
    deleted is the first one carrying the derived key in the first
    mapped account that has one, it is the only delete call, and the
    rest of the ledger is untouched, whatever other accounts hold the
    key; when no mapped account has one, no delete call is issued and
    the result is [{deleted: false, notFound: true}]. *)
Theorem delete_first_match_then_stop :
  (forall (W : Type) (api : Api W) accountMapping upTransactionId (w : W),
      let x := deleteFromYNAB api accountMapping upTransactionId w in
      (exists res,
          result_of x = inr res
          /\ notFound res = negb (deleted res)
          /\ (deleted res = true <-> countTrue (deleteCalls (events_of x)) = 1))
      /\ (countTrue (deleteCalls (events_of x)) <= 1)%nat
      /\ (forall pre e post,
             events_of x = pre ++ e :: post ->
             successfulDelete e = true -> post = [])
      /\ (exists rest,
             map snd accountMapping = listingCalls (events_of x) ++ rest))
  /\ (forall accountMapping upTransactionId (w : Ref.World),
         Ref.failing w = [] ->
         let x := deleteFromYNAB Ref.api accountMapping upTransactionId w in
         match firstMatch (Ref.ledger w) (importIdOf upTransactionId)
                 (map snd accountMapping) with
         | Some t =>
             result_of x = inr {| deleted := true; notFound := false |}
             /\ deleteCalls (events_of x) = [(td_id t, true)]
             /\ Ref.ledger (world_of x)
                = map (Ref.softDelete (td_id t)) (Ref.ledger w)
         | None =>
             result_of x = inr {| deleted := false; notFound := true |}
             /\ deleteCalls (events_of x) = []
             /\ Ref.ledger (world_of x) = Ref.ledger w
         end).
Proof.
  split.
  - intros W api accountMapping upTransactionId w. cbv zeta.
    unfold deleteFromYNAB.
    pose proof (searchAccounts_shape api (importIdOf upTransactionId)
                  (map snd accountMapping) w) as S.
    cbv zeta in S.
    destruct S as [[R E]|[R [init [id [E F]]]]].
    + pose proof (no_successful_delete_count _ E) as C.
      split; [|split; [|split]].
      * eexists. split; [exact R|]. split; [reflexivity|].
        cbn [deleted]. rewrite C. split; discriminate.
      * rewrite C. lia.
      * intros pre e post Hev Hs.
        rewrite (no_successful_delete_in _ E pre e post Hev) in Hs. discriminate.
      * apply searchAccounts_listing_prefix.
    + assert (C : countTrue (deleteCalls
                    (events_of (searchAccounts api (importIdOf upTransactionId)
                                  (map snd accountMapping) w))) = 1).
      { rewrite E, deleteCalls_app. unfold countTrue.
        rewrite filter_app, length_app.
        pose proof (no_successful_delete_count _ F) as C0.
        unfold countTrue in C0. rewrite C0. reflexivity. }
      split; [|split; [|split]].
      * eexists. split; [exact R|]. split; [reflexivity|].
        cbn [deleted]. rewrite C. split; reflexivity.
      * rewrite C. lia.
      * intros pre e post Hev Hs. rewrite E in Hev.
        exact (stops_after_last init _ F pre e post Hev Hs).
      * apply searchAccounts_listing_prefix.
  - intros accountMapping upTransactionId w F. unfold deleteFromYNAB.
    apply searchAccounts_ref. exact F.
Qed.

Lemma delete_first_match_then_stop_witness :
  Ref.failing (Samples.heldTwice []) = []
  /\ result_of (deleteFromYNAB Ref.api Samples.mapping2 "a" (Samples.heldTwice []))
     = inr {| deleted := true; notFound := false |}
  /\ deleteCalls
       (events_of (deleteFromYNAB Ref.api Samples.mapping2 "a" (Samples.heldTwice [])))
     = [("y1", true)]
  /\ Ref.ledger
       (world_of (deleteFromYNAB Ref.api Samples.mapping2 "a" (Samples.heldTwice [])))
     = [Ref.ynabTx "y1" "Y1" "UPBANK:a" Cleared true;
        Ref.ynabTx "y2" "Y2" "UPBANK:a" Cleared false].
Proof.
  split; [reflexivity|].
  exact (proj2 delete_first_match_then_stop Samples.mapping2 "a"
           (Samples.heldTwice []) eq_refl).
Defined.

(** *** The phases of [performResyncAll] *)

Lemma forOf_cons {W A B : Type} (f : B -> A -> M W B) (a : A) (l : list A)
    (b : B) (w : W) :
  forOf f (a :: l) b w =
  match f b a w with
  | (inl e, w1, t1) => (inl e, w1, t1)
  | (inr b1, w1, t1) => after t1 (forOf f l b1 w1)
  end.
Proof.
  cbn [forOf]. unfold bind.
  destruct (f b a w) as [[[e|b1] w1] t1]; [reflexivity|].
  destruct (forOf f l b1 w1) as [[r w2] t2]. reflexivity.
Qed.

Lemma createCalls_app (a b : list Event) :
  createCalls (a ++ b) = createCalls a ++ createCalls b.
Proof. unfold createCalls. apply flat_map_app. Qed.

Lemma updateCalls_app (a b : list Event) :
  updateCalls (a ++ b) = updateCalls a ++ updateCalls b.
Proof. unfold updateCalls. apply flat_map_app. Qed.

Lemma failedListings_app (a b : list Event) :
  failedListings (a ++ b) = failedListings a ++ failedListings b.
Proof. unfold failedListings. apply flat_map_app. Qed.

Lemma noMutation_app (a b : list Event) :
  noMutation (a ++ b) <-> noMutation a /\ noMutation b.
Proof.
  unfold noMutation. rewrite forallb_app. apply andb_true_iff.
Qed.

Lemma noMutation_calls (evs : list Event) :
  noMutation evs ->
  createCalls evs = [] /\ updateCalls evs = [] /\ deleteCalls evs = [].
Proof.
  induction evs as [|e evs IH]; [repeat split|].
  unfold noMutation. cbn [forallb]. intros H.
  apply andb_true_iff in H. destruct H as [H1 H2].
  destruct (IH H2) as [C [U D]].
  change (e :: evs) with ([e] ++ evs).
  rewrite createCalls_app, updateCalls_app, deleteCalls_app, C, U, D.
  destruct e as [[] ok|]; try discriminate; repeat split.
Qed.

(** One iteration of the deletion loop. *)
Lemma deleteOrphan_unfold {W : Type} (api : Api W) (n : nat)
    (orphan : OrphanedTransaction) (w : W) :
  deleteOrphan api n orphan w
  = (inr (if isOk (fst (deleteTransaction api (ynabId orphan) w)) then S n else n),
     snd (deleteTransaction api (ynabId orphan) w),
     [Called (DeleteTransaction (ynabId orphan))
        (isOk (fst (deleteTransaction api (ynabId orphan) w)))]).
Proof.
  unfold deleteOrphan, try_catch, bind, call, ret.
  destruct (deleteTransaction api (ynabId orphan) w) as [[e|u] w1]; reflexivity.
Qed.

Lemma deleteOrphans_from {W : Type} (api : Api W)
    (orphans : list OrphanedTransaction) :
  forall (n : nat) (w : W),
    let x := forOf (deleteOrphan api) orphans n w in
    result_of x = inr (n + countTrue (deleteCalls (events_of x)))
    /\ map fst (deleteCalls (events_of x)) = map ynabId orphans
    /\ createCalls (events_of x) = []
    /\ updateCalls (events_of x) = []
    /\ listingCalls (events_of x) = [].
Proof.
  induction orphans as [|o orphans IH]; intros n w.
  - cbv zeta. cbn. rewrite Nat.add_0_r. repeat split.
  - cbv zeta. rewrite forOf_cons, deleteOrphan_unfold.
    rewrite result_after, events_after.
    rewrite deleteCalls_app, createCalls_app, updateCalls_app, listingCalls_app.
    set (w1 := snd (deleteTransaction api (ynabId o) w)).
    set (ok := isOk (fst (deleteTransaction api (ynabId o) w))).
    specialize (IH (if ok then S n else n) w1). cbv zeta in IH.
    destruct IH as [R [D [C [U L]]]].
    rewrite R, C, U, L. cbn [deleteCalls flat_map app map fst].
    rewrite D. split; [|repeat split].
    unfold countTrue. cbn [filter snd].
    destruct ok; cbn [length]; f_equal; lia.
Qed.

(** Deleting the orphans never throws: every orphan gets its delete
    call, in order, and the count is that of the calls that returned. *)
Lemma deleteOrphans_spec {W : Type} (api : Api W)
    (orphans : list OrphanedTransaction) (w : W) :
  let x := deleteOrphans api orphans w in
  result_of x = inr (countTrue (deleteCalls (events_of x)))
  /\ map fst (deleteCalls (events_of x)) = map ynabId orphans
  /\ createCalls (events_of x) = []
  /\ updateCalls (events_of x) = []
  /\ listingCalls (events_of x) = [].
Proof.
  exact (deleteOrphans_from api orphans 0 w).
Qed.

Lemma forOf_events {W A B : Type} (P : list Event -> Prop)
    (f : B -> A -> M W B) (l : list A) :
  P [] ->
  (forall x y, P x -> P y -> P (x ++ y)) ->
  (forall b a w, P (events_of (f b a w))) ->
  forall b w, P (events_of (forOf f l b w)).
Proof.
  intros P0 Papp Pf. induction l as [|a l IH]; intros b w.
  - exact P0.
  - rewrite forOf_cons. specialize (Pf b a w).
    destruct (f b a w) as [[[e|b1] w1] t1]; [exact Pf|].
    rewrite events_after. apply Papp; [exact Pf|apply IH].
Qed.

Lemma noMutation_append (x y : list Event) :
  noMutation x -> noMutation y -> noMutation (x ++ y).
Proof. intros. apply noMutation_app. split; assumption. Qed.

(** **** Restoration *)

Lemma restoreGroup_unfold {W : Type} (api : Api W) (rc : nat)
    (rt : list RestoredTransaction) (acct : string)
    (upTxs : list TransactionResource) (w : W) :
  restoreGroup api (rc, rt) (acct, upTxs) w
  = let batch := map (toRestoredYnabTransaction acct (toISOString api w)) upTxs in
    let ok := isOk (fst (createTransactions api batch w)) in
    (inr (if ok
          then (rc + length batch, rt ++ map restoredRecord upTxs)
          else (rc, rt)),
     snd (createTransactions api batch w),
     [Called (CreateTransactions batch) ok]).
Proof.
  unfold restoreGroup, bind at 1, now. cbv zeta.
  unfold try_catch, bind, call, ret.
  destruct (createTransactions api _ w) as [[e|u] w1]; reflexivity.
Qed.

Lemma submittedOk_cons (c : list SaveTransaction * bool)
    (l : list (list SaveTransaction * bool)) :
  submittedOk (c :: l) = (if snd c then length (fst c) else 0) + submittedOk l.
Proof. reflexivity. Qed.

Lemma restoreGroups_from {W : Type} (api : Api W)
    (groups : list (string * list TransactionResource)) :
  forall rc rt (w : W),
    let x := forOf (restoreGroup api) groups (rc, rt) w in
    exists rt',
      result_of x = inr (rc + submittedOk (createCalls (events_of x)), rt')
      /\ length rt' = length rt + submittedOk (createCalls (events_of x))
      /\ Forall2 isRestoreBatchOf groups (createCalls (events_of x))
      /\ deleteCalls (events_of x) = []
      /\ updateCalls (events_of x) = []
      /\ listingCalls (events_of x) = [].
Proof.
  induction groups as [|[acct upTxs] groups IH]; intros rc rt w.
  - cbv zeta. exists rt. cbn. rewrite !Nat.add_0_r. repeat split. constructor.
  - cbv zeta. rewrite forOf_cons, restoreGroup_unfold. cbv beta iota zeta.
    set (batch := map (toRestoredYnabTransaction acct (toISOString api w)) upTxs).
    set (ok := isOk (fst (createTransactions api batch w))).
    set (w1 := snd (createTransactions api batch w)).
    rewrite result_after, events_after.
    rewrite deleteCalls_app, createCalls_app, updateCalls_app, listingCalls_app.
    cbn [createCalls deleteCalls updateCalls listingCalls flat_map app].
    assert (B : isRestoreBatchOf (acct, upTxs) (batch, ok)).
    { exists (toISOString api w). reflexivity. }
    assert (Lb : length batch = length upTxs) by (unfold batch; apply length_map).
    destruct ok.
    + destruct (IH (rc + length batch) (rt ++ map restoredRecord upTxs) w1)
        as [rt' [R [Lr [F [D [U L]]]]]].
      exists rt'. rewrite R, D, U, L. split; [|split; [|split]].
      * rewrite submittedOk_cons. cbn [snd fst]. f_equal. f_equal. lia.
      * rewrite Lr, length_app, length_map, submittedOk_cons. cbn [snd fst]. lia.
      * constructor; assumption.
      * repeat split.
    + destruct (IH rc rt w1) as [rt' [R [Lr [F [D [U L]]]]]].
      exists rt'. rewrite R, D, U, L. split; [|split; [|split]].
      * reflexivity.
      * rewrite Lr. reflexivity.
      * constructor; assumption.
      * repeat split.
Qed.

(** **** Grouping by account *)

Lemma get_set_same {V : Type} (m : JS.Map V) (k : string) (v : V) :
  JS.get (JS.set m k v) k = Some v.
Proof.
  induction m as [|[k' v'] m IH]; cbn [JS.set JS.get].
  - rewrite String.eqb_refl. reflexivity.
  - destruct (String.eqb_spec k' k) as [E|N]; cbn [JS.get].
    + rewrite E, String.eqb_refl. reflexivity.
    + destruct (String.eqb_spec k' k); [contradiction|]. exact IH.
Qed.

Lemma get_set_other {V : Type} (m : JS.Map V) (k k0 : string) (v : V) :
  k <> k0 -> JS.get (JS.set m k v) k0 = JS.get m k0.
Proof.
  intros N. induction m as [|[k' v'] m IH]; cbn [JS.set JS.get].
  - destruct (String.eqb_spec k k0); [contradiction|]. reflexivity.
  - destruct (String.eqb_spec k' k) as [E|N']; cbn [JS.get].
    + subst k'. destruct (String.eqb_spec k k0); [contradiction|]. reflexivity.
    + rewrite IH. reflexivity.
Qed.

Lemma get_In {V : Type} (m : JS.Map V) (k : string) (v : V) :
  JS.get m k = Some v -> In (k, v) m.
Proof.
  induction m as [|[k' v'] m IH]; cbn [JS.get]; [discriminate|].
  destruct (String.eqb_spec k' k) as [E|N].
  - intros H. injection H as ->. subst k'. left. reflexivity.
  - intros H. right. apply IH. exact H.
Qed.

Lemma set_In {V : Type} (m : JS.Map V) (k a : string) (v x : V) :
  In (a, x) (JS.set m k v) -> (a = k /\ x = v) \/ In (a, x) m.
Proof.
  induction m as [|[k' v'] m IH]; cbn [JS.set].
  - intros [H|[]]. injection H as <- <-. left. split; reflexivity.
  - destruct (String.eqb_spec k' k) as [E|N].
    + intros [H|H].
      * injection H as <- <-. left. split; [exact E|reflexivity].
      * right. right. exact H.
    + intros [H|H].
      * right. left. exact H.
      * destruct (IH H) as [L|R]; [left; exact L|right; right; exact R].
Qed.

Lemma set_keys_NoDup {V : Type} (m : JS.Map V) (k : string) (v : V) :
  NoDup (map fst m) -> NoDup (map fst (JS.set m k v)).
Proof.
  induction m as [|[k' v'] m IH]; cbn [JS.set map fst]; intros H.
  - constructor; [intros []|constructor].
  - inversion H as [|? ? Hn Hd]; subst.
    destruct (String.eqb_spec k' k) as [E|N]; cbn [map fst].
    + constructor; assumption.
    + constructor; [|apply IH; exact Hd].
      intros Hin. apply in_map_iff in Hin. destruct Hin as [[a x] [Ha Hx]].
      cbn [fst] in Ha. subst a.
      destruct (set_In _ _ _ _ _ Hx) as [[E _]|Hm]; [contradiction|].
      apply Hn. apply in_map_iff. exists (k', x). split; [reflexivity|exact Hm].
Qed.

Lemma In_get {V : Type} (m : JS.Map V) (k : string) (v : V) :
  NoDup (map fst m) -> In (k, v) m -> JS.get m k = Some v.
Proof.
  induction m as [|[k' v'] m IH]; cbn [map fst JS.get]; intros Hd Hin; [contradiction|].
  inversion Hd as [|? ? Hn Hd']; subst.
  destruct Hin as [H|H].
  - injection H as -> ->. rewrite String.eqb_refl. reflexivity.
  - destruct (String.eqb_spec k' k) as [E|N].
    + subst k'. exfalso. apply Hn. apply in_map_iff. exists (k, v).
      split; [reflexivity|exact H].
    + apply IH; assumption.
Qed.

(** One step of the grouping loop adds [upTx] at the end of the group
    of [ynabAccountId]. *)
Lemma groupStep_groupOf (m : JS.Map (list TransactionResource))
    (upTx : TransactionResource) (ynabAccountId k : string) :
  let m0 :=
    if negb (JS.mapHas m ynabAccountId) then JS.set m ynabAccountId [] else m in
  let m1 :=
    match JS.get m0 ynabAccountId with
    | Some upTxs => JS.set m0 ynabAccountId (upTxs ++ [upTx])
    | None => m0
    end in
  groupOf m1 k
  = groupOf m k ++ (if (ynabAccountId =? k)%string then [upTx] else [])
  /\ (NoDup (map fst m) -> NoDup (map fst m1)).
Proof.
  cbv zeta. unfold JS.mapHas, groupOf.
  destruct (JS.get m ynabAccountId) as [l|] eqn:G; cbn [negb].
  - rewrite G. split; [|apply set_keys_NoDup].
    destruct (String.eqb_spec ynabAccountId k) as [E|N].
    + subst k. rewrite get_set_same, G. reflexivity.
    + rewrite get_set_other by exact N. rewrite app_nil_r. reflexivity.
  - rewrite get_set_same. split.
    + destruct (String.eqb_spec ynabAccountId k) as [E|N].
      * subst k. rewrite get_set_same, G. reflexivity.
      * rewrite !get_set_other by exact N. rewrite app_nil_r. reflexivity.
    + intros H. apply set_keys_NoDup, set_keys_NoDup, H.
Qed.

Lemma groupByAccount_from (l : list (TransactionResource * string)) :
  forall (m : JS.Map (list TransactionResource)) (k : string),
    let g :=
      fold_left
        (fun byAccount '(upTx, ynabAccountId) =>
           let byAccount' :=
             if negb (JS.mapHas byAccount ynabAccountId)
             then JS.set byAccount ynabAccountId []
             else byAccount in
           match JS.get byAccount' ynabAccountId with
           | Some upTxs => JS.set byAccount' ynabAccountId (upTxs ++ [upTx])
           | None => byAccount'
           end)
        l m in
    groupOf g k
    = groupOf m k ++ map fst (filter (fun e => (snd e =? k)%string) l)
    /\ (NoDup (map fst m) -> NoDup (map fst g)).
Proof.
  induction l as [|[upTx acct] l IH]; intros m k.
  - cbv zeta. cbn. rewrite app_nil_r. split; [reflexivity|exact (fun H => H)].
  - cbv zeta. cbn [fold_left filter snd].
    destruct (groupStep_groupOf m upTx acct k) as [G1 N1]. cbv zeta in G1, N1.
    specialize (IH
      (match
          JS.get (if negb (JS.mapHas m acct) then JS.set m acct [] else m) acct
        with
        | Some upTxs =>
            JS.set (if negb (JS.mapHas m acct) then JS.set m acct [] else m)
              acct (upTxs ++ [upTx])
        | None => if negb (JS.mapHas m acct) then JS.set m acct [] else m
        end) k).
    cbv zeta in IH. destruct IH as [G2 N2].
    split.
    + rewrite G2, G1, <- app_assoc. f_equal.
      destruct (acct =? k)%string; reflexivity.
    + intros H. apply N2, N1, H.
Qed.

(** The groups of the restoration: a candidate is in the group of its
    mapped target account, the groups hold nothing else, and there is
    one group per account. *)
Lemma groupByAccount_spec (l : list (TransactionResource * string)) :
  NoDup (map fst (groupByAccount l))
  /\ (forall upTx acct,
         In (upTx, acct) l <->
         exists upTxs, In (acct, upTxs) (groupByAccount l) /\ In upTx upTxs)
  /\ (forall acct upTxs,
         In (acct, upTxs) (groupByAccount l) ->
         upTxs = map fst (filter (fun e => (snd e =? acct)%string) l)).
Proof.
  assert (K : forall k,
             groupOf (groupByAccount l) k
             = map fst (filter (fun e => (snd e =? k)%string) l)).
  { intros k. exact (proj1 (groupByAccount_from l [] k)). }
  assert (N : NoDup (map fst (groupByAccount l))).
  { apply (proj2 (groupByAccount_from l [] "")). constructor. }
  assert (G : forall acct upTxs,
             In (acct, upTxs) (groupByAccount l) ->
             upTxs = map fst (filter (fun e => (snd e =? acct)%string) l)).
  { intros acct upTxs Hin. rewrite <- K. unfold groupOf.
    rewrite (In_get _ _ _ N Hin). reflexivity. }
  split; [exact N|]. split; [|exact G].
  intros upTx acct. split.
  - intros Hin.
    assert (Hg : In upTx (groupOf (groupByAccount l) acct)).
    { rewrite K. apply in_map_iff. exists (upTx, acct). split; [reflexivity|].
      apply filter_In. split; [exact Hin|]. cbn. apply String.eqb_refl. }
    unfold groupOf in Hg.
    destruct (JS.get (groupByAccount l) acct) as [upTxs|] eqn:E; [|contradiction].
    exists upTxs. split; [apply get_In; exact E|exact Hg].
  - intros [upTxs [Hin Htx]]. rewrite (G _ _ Hin) in Htx.
    apply in_map_iff in Htx. destruct Htx as [[t a] [Ht Hf]].
    cbn [fst] in Ht. subst t. apply filter_In in Hf. destruct Hf as [Hl He].
    cbn [snd] in He. apply String.eqb_eq in He. subst a. exact Hl.
Qed.

(** **** A pass is its plan, then its application *)

Lemma bind_run {W A B : Type} (m m' : M W A) (f : A -> M W B) (w : W) :
  m w = m' w -> bind m f w = bind m' f w.
Proof. intros H. unfold bind. rewrite H. reflexivity. Qed.

Lemma performResyncAll_plan {W : Type} (api : Api W)
    (accountMapping : list (string * string)) (dryRun : bool) (w : W) :
  performResyncAll api accountMapping dryRun w
  = bind (resyncPlan api accountMapping)
      (fun plan =>
         match plan with
         | None => ret (nothingReport dryRun)
         | Some p =>
             if dryRun then ret (dryReport p)
             else applyPlan api accountMapping p
         end) w.
Proof.
  unfold performResyncAll, resyncPlan. rewrite bind_assoc.
  apply bind_ext. intros [byAccount earliestDate] w1. cbv beta iota.
  destruct (negb (JS.truthy earliestDate)).
  { rewrite bind_ret_l. reflexivity. }
  rewrite bind_assoc. apply bind_ext. intros restorable w2.
  rewrite bind_assoc. apply bind_ext. intros [upBankIds toRestore] w3.
  cbv beta iota zeta. rewrite bind_ret_l.
  destruct dryRun; cbn [negb andb].
  - rewrite bind_ret_l. unfold dryReport, plan_orphans. cbn [plan_toRestore
      plan_byAccount plan_upBankIds plan_earliestDate].
    destruct toRestore as [|[t a] l].
    + cbn [length Nat.ltb Nat.leb]. rewrite !bind_ret_l. reflexivity.
    + cbn [length Nat.ltb Nat.leb]. rewrite !bind_ret_l. reflexivity.
  - unfold applyPlan, plan_orphans. cbn [plan_toRestore plan_byAccount
      plan_upBankIds plan_earliestDate].
    set (orphaned := findOrphans byAccount upBankIds).
    assert (D : (if (0 <? length orphaned)%nat
                 then deleteOrphans api orphaned else ret 0) w3
                = deleteOrphans api orphaned w3).
    { destruct orphaned; reflexivity. }
    rewrite (bind_run _ _ _ _ D). apply bind_ext. intros n w4.
    assert (R : (if (0 <? length toRestore)%nat
                 then restoreDeleted api toRestore
                 else if (0 <? length toRestore)%nat
                      then ret (0, map (fun '(upTx, _) => restoredRecord upTx)
                                     toRestore)
                      else ret (0, [])) w4
                = restoreDeleted api toRestore w4).
    { destruct toRestore; reflexivity. }
    rewrite (bind_run _ _ _ _ R). apply bind_ext. intros [rc rt] w5.
    cbv beta iota. apply bind_ext. intros [accs [[ti td] tt]] w6.
    reflexivity.
Qed.

(** **** What each phase calls *)

Lemma followPages_events (accountId sinceDate : string) (chain : PageChain) :
  forall page acc,
    noMutation (snd (followPages accountId sinceDate page chain acc))
    /\ failedListings (snd (followPages accountId sinceDate page chain acc)) = [].
Proof.
  induction chain as [data|data next IH|st txt|e]; intros page acc;
    try (split; reflexivity).
  cbn [followPages]. specialize (IH (S page) (acc ++ data)).
  destruct (followPages accountId sinceDate (S page) next (acc ++ data)) as [r evs].
  cbn [snd] in *. destruct IH as [N F]. split.
  - unfold noMutation in *. cbn [forallb isMutation negb andb]. exact N.
  - change (Called (UpGet accountId sinceDate page) true :: evs)
      with ([Called (UpGet accountId sinceDate page) true] ++ evs).
    rewrite failedListings_app, F. reflexivity.
Qed.

Lemma fetch_events {W : Type} (api : Api W) (accountId sinceDate : string) (w : W) :
  noMutation (events_of (fetchUpTransactionsByAccount api accountId sinceDate w))
  /\ failedListings
       (events_of (fetchUpTransactionsByAccount api accountId sinceDate w)) = [].
Proof.
  rewrite fetch_unfold. unfold events_of. cbn [snd]. apply followPages_events.
Qed.

Lemma collectAccount_unfold {W : Type} (api : Api W)
    (m : JS.Map (list UpBankTransaction)) (earliestDate : option string)
    (a : string) (w : W) :
  collectAccount api (m, earliestDate) a w
  = match getTransactionsByAccount api a w with
    | (inl e, w1) => (inl e, w1, [Called (GetTransactionsByAccount a) false])
    | (inr transactions, w1) =>
        (inr (JS.set m a (upBankTransactionsOf transactions),
              fold_left updateEarliest transactions earliestDate),
         w1, [Called (GetTransactionsByAccount a) true])
    end.
Proof.
  unfold collectAccount, bind, call, ret.
  destruct (getTransactionsByAccount api a w) as [[e|txs] w1]; reflexivity.
Qed.

(** The first loop throws exactly when one of its listings threw, and
    then nothing is called after it. *)
Lemma collect_from {W : Type} (api : Api W) (accounts : list string) :
  forall acc (w : W),
    let x := forOf (collectAccount api) accounts acc w in
    noMutation (events_of x)
    /\ (isOk (result_of x) = true <-> failedListings (events_of x) = [])
    /\ (isOk (result_of x) = false ->
        exists init a,
          events_of x = init ++ [Called (GetTransactionsByAccount a) false]).
Proof.
  induction accounts as [|a accounts IH]; intros [m earliestDate] w.
  - cbv zeta. cbn. repeat split; discriminate.
  - cbv zeta. rewrite forOf_cons, collectAccount_unfold.
    destruct (getTransactionsByAccount api a w) as [[e|txs] w1].
    + cbn. split; [reflexivity|]. split; [split; discriminate|].
      intros _. exists [], a. reflexivity.
    + rewrite result_after, events_after, failedListings_app.
      specialize (IH (JS.set m a (upBankTransactionsOf txs),
                      fold_left updateEarliest txs earliestDate) w1).
      cbv zeta in IH. destruct IH as [N [R S]].
      split; [|split].
      * apply noMutation_append; [reflexivity|exact N].
      * cbn [failedListings flat_map app]. exact R.
      * intros H. destruct (S H) as [init [b E]].
        exists (Called (GetTransactionsByAccount a) true :: init), b.
        rewrite E. reflexivity.
Qed.

Lemma findRestorable_events {W : Type} (api : Api W) (w : W) :
  noMutation (events_of (findRestorableImportIds api w)).
Proof.
  unfold findRestorableImportIds, bind, call, ret.
  destruct (getTransactions api w) as [[e|txs] w1]; reflexivity.
Qed.

Lemma noteAccount_events {W : Type} (api : Api W) (earliestDate : string)
    (restorable : JS.StrSet) acc (entry : string * string) (w : W) :
  noMutation (events_of (noteAccount api earliestDate restorable acc entry w)).
Proof.
  destruct entry as [up yn]. unfold noteAccount, bind.
  pose proof (proj1 (fetch_events api up earliestDate w)) as N.
  destruct (fetchUpTransactionsByAccount api up earliestDate w) as [[[e|txs] w1] evs].
  - exact N.
  - unfold ret. unfold events_of in *. cbn [snd] in *. rewrite app_nil_r. exact N.
Qed.

Lemma resyncPlan_events {W : Type} (api : Api W)
    (accountMapping : list (string * string)) (w : W) :
  noMutation (events_of (resyncPlan api accountMapping w)).
Proof.
  unfold resyncPlan, bind at 1.
  pose proof (collect_from api (map snd accountMapping) ([], None) w) as C.
  cbv zeta in C. destruct C as [N _].
  fold (collectYnabTransactions api (map snd accountMapping)) in N.
  destruct (collectYnabTransactions api (map snd accountMapping) w)
    as [[[e|[byAccount earliestDate]] w1] evs1]; [exact N|].
  unfold events_of in N. cbn [snd] in N.
  destruct (negb (JS.truthy earliestDate)).
  { unfold ret, events_of. cbn [snd]. rewrite app_nil_r. exact N. }
  unfold bind at 1.
  pose proof (findRestorable_events api w1) as N2.
  destruct (findRestorableImportIds api w1) as [[[e|restorable] w2] evs2];
    unfold events_of in *; cbn [snd] in *.
  { apply noMutation_append; assumption. }
  unfold bind at 1.
  pose proof (forOf_events noMutation
                (noteAccount api (JS.or_str earliestDate "") restorable)
                accountMapping eq_refl noMutation_append
                (noteAccount_events api _ _) ([], []) w2) as N3.
  fold (collectUpBankIds api accountMapping (JS.or_str earliestDate "") restorable)
    in N3.
  destruct (collectUpBankIds api accountMapping (JS.or_str earliestDate "")
              restorable w2) as [[[e|[ids toRestore]] w3] evs3];
    unfold events_of in *; cbn [snd] in *.
  { apply noMutation_append; [exact N|apply noMutation_append; assumption]. }
  unfold ret. rewrite app_nil_r.
  apply noMutation_append; [exact N|apply noMutation_append; assumption].
Qed.

Lemma statusWarnings_noMutation (l : list TransactionResource) :
  noMutation (statusWarnings l).
Proof.
  induction l as [|t l IH]; [reflexivity|].
  unfold statusWarnings. cbn [flat_map]. apply noMutation_append; [|exact IH].
  destruct (unexpectedStatus (attr status t)); reflexivity.
Qed.

Lemma syncCallsOnly_nil : syncCallsOnly [].
Proof. split; [constructor|reflexivity]. Qed.

Lemma syncCallsOnly_app (x y : list Event) :
  syncCallsOnly x -> syncCallsOnly y -> syncCallsOnly (x ++ y).
Proof.
  intros [K1 D1] [K2 D2]. split.
  - rewrite createCalls_app. apply Forall_app. split; assumption.
  - rewrite deleteCalls_app, D1, D2. reflexivity.
Qed.

Lemma noMutation_syncCallsOnly (evs : list Event) :
  noMutation evs -> syncCallsOnly evs.
Proof.
  intros N. destruct (noMutation_calls evs N) as [C [_ D]].
  split; [unfold allKeyed; rewrite C; constructor|exact D].
Qed.

Lemma reconcileDuplicates_events {W : Type} (api : Api W) (accountId : string)
    (result : SaveTransactionsResponse) (ts : list SaveTransaction) (w : W) :
  createCalls (events_of (reconcileDuplicates api accountId result ts w)) = []
  /\ deleteCalls (events_of (reconcileDuplicates api accountId result ts w)) = [].
Proof.
  unfold reconcileDuplicates.
  destruct (duplicate_import_ids result) as [dups|]; [|split; reflexivity].
  destruct (0 <? duplicateCountOf result)%nat; [|split; reflexivity].
  unfold try_catch. rewrite updateDuplicates_unfold.
  destruct (getTransactionsByAccount api accountId w) as [[e|existing] w1];
    [split; reflexivity|].
  cbv zeta.
  destruct (0 <? length _)%nat; [|split; reflexivity].
  destruct (updateTransactions api _ w1) as [[e|r] w2]; split; reflexivity.
Qed.

Lemma toYnab_carriesKey (accountId isoNow : string)
    (l : list TransactionResource) :
  Forall carriesKey (map (toYnabTransaction accountId isoNow) l).
Proof.
  apply Forall_forall. intros t Hin. apply in_map_iff in Hin.
  destruct Hin as [u [<- _]]. exists (tx_id u). reflexivity.
Qed.

(** Every create of the sync path carries idempotency keys. *)
Lemma syncToYNAB_events {W : Type} (api : Api W) (accountId : string)
    (upTxs : list TransactionResource) (w : W) :
  syncCallsOnly (events_of (syncToYNAB api accountId upTxs w)).
Proof.
  rewrite syncToYNAB_unfold. cbv zeta.
  pose proof (noMutation_syncCallsOnly _ (statusWarnings_noMutation upTxs)) as Wn.
  destruct upTxs as [|u us]; [exact Wn|].
  set (ts := map _ (u :: us)).
  assert (K : Forall carriesKey ts) by apply toYnab_carriesKey.
  destruct (createTransactions api ts w) as [[e|result] w1].
  - unfold events_of. cbn [snd]. apply syncCallsOnly_app; [exact Wn|].
    split; [constructor; [exact K|constructor]|reflexivity].
  - unfold events_of at 1. cbn [snd]. apply syncCallsOnly_app; [exact Wn|].
    destruct (reconcileDuplicates_events api accountId result ts w1) as [C D].
    change (Called (CreateTransactions ts) true
              :: events_of (reconcileDuplicates api accountId result ts w1))
      with ([Called (CreateTransactions ts) true]
              ++ events_of (reconcileDuplicates api accountId result ts w1)).
    apply syncCallsOnly_app.
    + split; [constructor; [exact K|constructor]|reflexivity].
    + split; [unfold allKeyed; rewrite C; constructor|exact D].
Qed.

Lemma syncAccount_events {W : Type} (api : Api W)
    (upAccountId ynabAccountId sinceDate : string) (w : W) :
  syncCallsOnly (events_of (syncAccount api upAccountId ynabAccountId sinceDate w)).
Proof.
  unfold syncAccount, bind.
  pose proof (proj1 (fetch_events api upAccountId sinceDate w)) as N.
  destruct (fetchUpTransactionsByAccount api upAccountId sinceDate w)
    as [[[e|txs] w1] evs]; unfold events_of in N; cbn [snd] in N.
  - apply noMutation_syncCallsOnly. exact N.
  - pose proof (syncToYNAB_events api ynabAccountId txs w1) as S.
    destruct (syncToYNAB api ynabAccountId txs w1) as [[r w2] evs2].
    unfold events_of in *. cbn [snd] in *.
    apply syncCallsOnly_app; [apply noMutation_syncCallsOnly; exact N|exact S].
Qed.

Lemma syncAllAccounts_events {W : Type} (api : Api W)
    (accountMapping : list (string * string)) (earliestDate : string) (w : W) :
  syncCallsOnly (events_of (syncAllAccounts api accountMapping earliestDate w)).
Proof.
  unfold syncAllAccounts.
  apply (forOf_events syncCallsOnly); [exact syncCallsOnly_nil|exact syncCallsOnly_app|].
  intros [accs [[ti td] tt]] [up yn] w0. unfold syncMapping, bind.
  pose proof (syncAccount_events api up yn earliestDate w0) as S.
  destruct (syncAccount api up yn earliestDate w0) as [[[e|r] w1] evs];
    unfold events_of in *; cbn [snd] in *; [exact S|].
  unfold ret. rewrite app_nil_r. exact S.
Qed.

(** **** The events of a live pass, phase by phase *)

Lemma applyPlan_run {W : Type} (api : Api W)
    (accountMapping : list (string * string)) (p : ResyncPlan) (w : W) :
  let d := deleteOrphans api (plan_orphans p) w in
  let r := restoreDeleted api (plan_toRestore p) (world_of d) in
  let s := syncAllAccounts api accountMapping (plan_earliestDate p) (world_of r) in
  exists n rr,
    result_of d = inr n /\ result_of r = inr rr
    /\ applyPlan api accountMapping p w
       = (match result_of s with
          | inl e => inl e
          | inr ss => inr (liveReport p n rr ss)
          end,
          world_of s,
          events_of d ++ events_of r ++ events_of s).
Proof.
  cbv zeta.
  destruct (deleteOrphans_spec api (plan_orphans p) w) as [Rd _].
  cbv zeta in Rd.
  destruct (restoreGroups_from api (groupByAccount (plan_toRestore p)) 0 []
              (world_of (deleteOrphans api (plan_orphans p) w)))
    as [rt' [Rr _]].
  fold (restoreDeleted api (plan_toRestore p)) in Rr.
  eexists. eexists. split; [exact Rd|]. split; [exact Rr|].
  unfold applyPlan, bind.
  destruct (deleteOrphans api (plan_orphans p) w) as [[rd wd] ed].
  unfold result_of, world_of, events_of in *. cbn [fst snd] in *. subst rd.
  destruct (restoreDeleted api (plan_toRestore p) wd) as [[rr wr] er].
  cbn [fst snd] in *. subst rr.
  destruct (syncAllAccounts api accountMapping (plan_earliestDate p) wr)
    as [[[e|ss] ws] es]; cbn [fst snd].
  - reflexivity.
  - unfold ret. rewrite app_nil_r. reflexivity.
Qed.

(** **** Sets and the notes of step 3 *)

Lemma has_In (s : JS.StrSet) (x : string) : JS.has s x = true <-> In x s.
Proof.
  unfold JS.has. rewrite existsb_exists. split.
  - intros [y [Hin E]]. apply String.eqb_eq in E. subst y. exact Hin.
  - intros Hin. exists x. split; [exact Hin|apply String.eqb_refl].
Qed.

Lemma includes_In (l : list string) (x : string) :
  JS.includes l x = true <-> In x l.
Proof. exact (has_In l x). Qed.

Lemma has_add (s : JS.StrSet) (x y : string) :
  JS.has (JS.add s x) y = JS.has s y || (y =? x)%string.
Proof.
  unfold JS.add. destruct (JS.has s x) eqn:H.
  - destruct (String.eqb_spec y x) as [->|N].
    + rewrite H. reflexivity.
    + rewrite orb_false_r. reflexivity.
  - unfold JS.has. rewrite existsb_app. cbn [existsb]. rewrite orb_false_r.
    reflexivity.
Qed.

Lemma noteUpTransactions_spec (restorable : JS.StrSet) (yn : string)
    (txs : list TransactionResource) :
  forall acc,
    let acc' := noteUpTransactions restorable yn acc txs in
    (forall x, JS.has (fst acc') x = true <->
               JS.has (fst acc) x = true
               \/ In x (map (fun s => JS.substring (tx_id s) 0 29) txs))
    /\ (forall t a, In (t, a) (snd acc') <->
                    In (t, a) (snd acc)
                    \/ (a = yn /\ In t txs
                        /\ JS.has restorable (importIdOf (tx_id t)) = true)).
Proof.
  induction txs as [|tx txs IH]; intros [ids toRestore].
  - cbv zeta. cbn. split; intros; tauto.
  - cbv zeta. unfold noteUpTransactions. cbn [fold_left].
    fold (noteUpTransactions restorable yn
            (JS.add ids (JS.substring (tx_id tx) 0 29),
             if JS.has restorable (importIdOf (tx_id tx))
             then toRestore ++ [(tx, yn)] else toRestore) txs).
    specialize (IH (JS.add ids (JS.substring (tx_id tx) 0 29),
                    if JS.has restorable (importIdOf (tx_id tx))
                    then toRestore ++ [(tx, yn)] else toRestore)).
    cbv zeta in IH. destruct IH as [I1 I2]. cbn [fst snd] in *. split.
    + intros x. rewrite I1, has_add, orb_true_iff, String.eqb_eq.
      cbn [map In]. split; intros H.
      * destruct H as [[H|H]|H]; auto.
      * destruct H as [H|[H|H]]; auto.
    + intros t a. rewrite I2. cbn [In].
      destruct (JS.has restorable (importIdOf (tx_id tx))) eqn:Hr.
      * rewrite in_app_iff. cbn [In]. split; intros H.
        -- destruct H as [[H|[H|[]]]|[Ha [Ht Hk]]]; auto.
           injection H as <- <-. right. auto.
        -- destruct H as [H|[Ha [[Ht|Ht] Hk]]]; auto.
           subst. left. right. left. reflexivity.
      * split; intros H.
        -- destruct H as [H|[Ha [Ht Hk]]]; auto.
        -- destruct H as [H|[Ha [[Ht|Ht] Hk]]]; auto.
           subst. congruence.
Qed.

Lemma notedOf_spec (restorable : JS.StrSet)
    (fetched : list (string * list TransactionResource)) :
  forall acc,
    let acc' := notedOf restorable fetched acc in
    (forall x, JS.has (fst acc') x = true <->
               JS.has (fst acc) x = true \/ In x (truncatedIdsOf fetched))
    /\ (forall t a, In (t, a) (snd acc') <->
                    In (t, a) (snd acc)
                    \/ (exists txs, In (a, txs) fetched /\ In t txs
                        /\ JS.has restorable (importIdOf (tx_id t)) = true)).
Proof.
  induction fetched as [|[yn txs] fetched IH]; intros acc.
  - cbv zeta. cbn. split; intros.
    + tauto.
    + split; [tauto|]. intros [H|[txs [[] _]]]. exact H.
  - cbv zeta. unfold notedOf. cbn [fold_left fst snd].
    fold (notedOf restorable fetched (noteUpTransactions restorable yn acc txs)).
    specialize (IH (noteUpTransactions restorable yn acc txs)).
    cbv zeta in IH. destruct IH as [I1 I2].
    destruct (noteUpTransactions_spec restorable yn txs acc) as [N1 N2].
    cbv zeta in N1, N2. split.
    + intros x. rewrite I1, N1. unfold truncatedIdsOf.
      cbn [map concat snd]. rewrite map_app, in_app_iff. tauto.
    + intros t a. rewrite I2, N2. cbn [In]. split; intros H.
      * destruct H as [[H|[Ha [Ht Hk]]]|[l [Hl [Ht Hk]]]]; auto.
        -- right. exists txs. subst a. auto.
        -- right. exists l. auto.
      * destruct H as [H|[l [[Hl|Hl] [Ht Hk]]]]; auto.
        -- injection Hl as <- <-. left. right. auto.
        -- right. exists l. auto.
Qed.

Lemma bind_ret_unfold {W A B : Type} (m : M W A) (g : A -> B) (w : W) :
  bind m (fun a => ret (g a)) w
  = match m w with
    | (inl e, w1, evs) => (inl e, w1, evs)
    | (inr a, w1, evs) => (inr (g a), w1, evs)
    end.
Proof.
  unfold bind, ret. destruct (m w) as [[[e|a] w1] evs]; [reflexivity|].
  rewrite app_nil_r. reflexivity.
Qed.

(** The loop of step 3 is its fetches, then its notes. *)
Lemma collectUpBankIds_from {W : Type} (api : Api W) (earliestDate : string)
    (restorable : JS.StrSet) (accountMapping : list (string * string)) :
  forall acc pre (w : W),
    forOf (noteAccount api earliestDate restorable) accountMapping acc w
    = match forOf (fetchAccount api earliestDate) accountMapping pre w with
      | (inl e, w1, evs) => (inl e, w1, evs)
      | (inr fetched, w1, evs) =>
          (inr (notedOf restorable (skipn (length pre) fetched) acc), w1, evs)
      end
    /\ (forall fetched w1 evs,
           forOf (fetchAccount api earliestDate) accountMapping pre w
           = (inr fetched, w1, evs) ->
           firstn (length pre) fetched = pre).
Proof.
  induction accountMapping as [|[up yn] rest IH]; intros acc pre w.
  - cbn [forOf]. unfold ret. split.
    + rewrite skipn_all. reflexivity.
    + intros fetched w1 evs H. injection H as <- _ _. apply firstn_all.
  - rewrite !forOf_cons. unfold noteAccount at 1, fetchAccount at 1 3.
    rewrite !bind_ret_unfold.
    destruct (fetchUpTransactionsByAccount api up earliestDate w)
      as [[[e|txs] w1] evs1].
    + split; [reflexivity|discriminate].
    + destruct (IH (noteUpTransactions restorable yn acc txs)
                  (pre ++ [(yn, txs)]) w1) as [E F].
      rewrite E.
      destruct (forOf (fetchAccount api earliestDate) rest (pre ++ [(yn, txs)]) w1)
        as [[[e|fetched] w2] evs2] eqn:G.
      * split; [reflexivity|]. unfold after. cbn. discriminate.
      * specialize (F fetched w2 evs2 eq_refl).
        rewrite length_app in F. cbn [length] in F.
        assert (Hf : fetched
                     = pre ++ (yn, txs) :: skipn (length pre + 1) fetched).
        { rewrite <- (firstn_skipn (length pre + 1) fetched) at 1.
          rewrite F, <- app_assoc. reflexivity. }
        split.
        -- unfold after, result_of, world_of, events_of. cbn [fst snd].
           f_equal. f_equal. f_equal.
           assert (S1 : skipn (length pre) fetched
                        = (yn, txs) :: skipn (length pre + 1) fetched).
           { rewrite Hf at 1. rewrite skipn_app, skipn_all, Nat.sub_diag.
             reflexivity. }
           rewrite S1, length_app. reflexivity.
        -- intros f' w' evs' H. unfold after in H.
           unfold result_of, world_of, events_of in H. cbn [fst snd] in H.
           injection H as <- _ _.
           rewrite Hf, firstn_app, firstn_all, Nat.sub_diag. cbn [firstn].
           apply app_nil_r.
Qed.

Lemma collectUpBankIds_fetched {W : Type} (api : Api W)
    (accountMapping : list (string * string)) (earliestDate : string)
    (restorable : JS.StrSet) (w : W) :
  collectUpBankIds api accountMapping earliestDate restorable w
  = match fetchAccounts api accountMapping earliestDate w with
    | (inl e, w1, evs) => (inl e, w1, evs)
    | (inr fetched, w1, evs) =>
        (inr (notedOf restorable fetched ([], [])), w1, evs)
    end.
Proof.
  unfold collectUpBankIds, fetchAccounts.
  rewrite (proj1 (collectUpBankIds_from api earliestDate restorable
                    accountMapping ([], []) [] w)).
  destruct (forOf _ accountMapping [] w) as [[[e|fetched] w1] evs]; reflexivity.
Qed.

(** **** Orphans *)

Lemma replace_prefix (s : string) :
  JS.startsWith s "UPBANK:" = true -> JS.replace s "UPBANK:" "" = JS.drop 7 s.
Proof.
  unfold JS.startsWith. intros H. destruct s as [|c s]; [discriminate|].
  cbn [JS.replace]. rewrite H. reflexivity.
Qed.

Lemma drop_importIdOf (id : string) :
  JS.drop 7 (importIdOf id) = JS.substring id 0 29.
Proof. rewrite importIdOf_prefix. reflexivity. Qed.

Lemma upBankTransactionsOf_prefixed (transactions : list TransactionDetail)
    (ub : UpBankTransaction) :
  In ub (upBankTransactionsOf transactions) ->
  JS.startsWith (ub_import_id ub) "UPBANK:" = true.
Proof.
  unfold upBankTransactionsOf. intros H. apply in_map_iff in H.
  destruct H as [tx [<- Hf]]. apply filter_In in Hf. destruct Hf as [_ Hp].
  apply andb_true_iff in Hp. destruct Hp as [Hp _].
  unfold isUpBank in Hp. cbn [ub_import_id].
  destruct (td_import_id tx) as [k|]; [|discriminate].
  destruct k as [|c k]; [discriminate|]. exact Hp.
Qed.

Lemma forOf_invariant {W A B : Type} (I : B -> Prop) (f : B -> A -> M W B)
    (l : list A) :
  (forall b a w b' w' evs, I b -> f b a w = (inr b', w', evs) -> I b') ->
  forall b w b' w' evs,
    I b -> forOf f l b w = (inr b', w', evs) -> I b'.
Proof.
  intros Hf. induction l as [|a l IH]; intros b w b' w' evs Hb H.
  - cbn in H. unfold ret in H. injection H as <- _ _. exact Hb.
  - rewrite forOf_cons in H.
    destruct (f b a w) as [[[e|b1] w1] t1] eqn:E; [discriminate|].
    destruct (forOf f l b1 w1) as [[[e|b2] w2] t2] eqn:E2;
      unfold after, result_of, world_of, events_of in H; cbn [fst snd] in H;
      [discriminate|].
    injection H as <- _ _.
    eapply IH; [|exact E2]. eapply Hf; [exact Hb|exact E].
Qed.

Lemma collect_prefixed {W : Type} (api : Api W) (accounts : list string)
    (w : W) byAccount earliestDate w1 e1 :
  collectYnabTransactions api accounts w = (inr (byAccount, earliestDate), w1, e1) ->
  forall tx, In tx (concat (map snd byAccount)) ->
             JS.startsWith (ub_import_id tx) "UPBANK:" = true.
Proof.
  intros H.
  assert (I : forall a ubs ub, In (a, ubs) (fst (byAccount, earliestDate)) ->
                               In ub ubs ->
                               JS.startsWith (ub_import_id ub) "UPBANK:" = true).
  { unfold collectYnabTransactions in H.
    refine (forOf_invariant
              (fun acc => forall a ubs ub, In (a, ubs) (fst acc) -> In ub ubs ->
                          JS.startsWith (ub_import_id ub) "UPBANK:" = true)
              (collectAccount api) accounts _ _ _ _ _ _ _ H).
    - intros [m ed] a w0 b' w' evs Hb E. rewrite collectAccount_unfold in E.
      destruct (getTransactionsByAccount api a w0) as [[e|txs] w2]; [discriminate|].
      injection E as <- _ _. cbn [fst] in *.
      intros a0 ubs ub Hin Hub.
      destruct (set_In _ _ _ _ _ Hin) as [[_ ->]|Hm].
      + eapply upBankTransactionsOf_prefixed. exact Hub.
      + eapply Hb; eassumption.
    - intros a ubs ub []. }
  cbn [fst] in I. intros tx Hin. apply in_concat in Hin.
  destruct Hin as [ubs [Hubs Htx]]. apply in_map_iff in Hubs.
  destruct Hubs as [[a ubs'] [E Hin]]. cbn [snd] in E. subst ubs'.
  eapply I; eassumption.
Qed.

Lemma flat_map_if {A B : Type} (p : A -> bool) (f : A -> B) (l : list A) :
  flat_map (fun x => if p x then [f x] else []) l = map f (filter p l).
Proof.
  induction l as [|a l IH]; [reflexivity|].
  cbn [flat_map filter]. destruct (p a); cbn [app map]; rewrite IH; reflexivity.
Qed.

(** Step 4 marks exactly the collected transactions whose key
    fragment is the truncated id of no transaction fetched. *)
Lemma findOrphans_spec (byAccount : JS.Map (list UpBankTransaction))
    (upBankIds : JS.StrSet) (truncatedIds : list string) :
  (forall tx, In tx (concat (map snd byAccount)) ->
              JS.startsWith (ub_import_id tx) "UPBANK:" = true) ->
  (forall x, JS.has upBankIds x = true <-> In x truncatedIds) ->
  findOrphans byAccount upBankIds
  = map orphanOf (orphansAmong (concat (map snd byAccount)) truncatedIds).
Proof.
  intros Hp Hids. unfold findOrphans, orphansAmong.
  induction byAccount as [|[a ubs] m IH]; [reflexivity|].
  cbn [flat_map map snd concat]. rewrite filter_app, map_app.
  rewrite IH.
  2:{ intros tx Hin. apply Hp. cbn [map snd concat]. apply in_or_app.
      right. exact Hin. }
  f_equal.
  assert (Hu : forall tx, In tx ubs ->
                          JS.startsWith (ub_import_id tx) "UPBANK:" = true).
  { intros tx Hin. apply Hp. cbn [map snd concat]. apply in_or_app.
    left. exact Hin. }
  clear IH Hp. induction ubs as [|tx ubs IH]; [reflexivity|].
  cbn [flat_map filter].
  rewrite (replace_prefix _ (Hu tx (or_introl eq_refl))).
  assert (E : JS.has upBankIds (JS.drop 7 (ub_import_id tx))
              = JS.includes truncatedIds (JS.drop 7 (ub_import_id tx))).
  { apply eq_true_iff_eq. rewrite Hids, includes_In. reflexivity. }
  rewrite E, IH by (intros t Ht; apply Hu; right; exact Ht).
  destruct (JS.includes truncatedIds (JS.drop 7 (ub_import_id tx)));
    reflexivity.
Qed.

(** **** From the runs of the steps to the plan, and to the pass *)

Lemma resyncPlan_of_runs {W : Type} (api : Api W)
    (accountMapping : list (string * string)) (w : W)
    byAccount earliestDate wc ec allTransactions wr fetched wf ef :
  collectYnabTransactions api (map snd accountMapping) w
  = (inr (byAccount, earliestDate), wc, ec) ->
  JS.truthy earliestDate = true ->
  getTransactions api wc = (inr allTransactions, wr) ->
  fetchAccounts api accountMapping (JS.or_str earliestDate "") wr
  = (inr fetched, wf, ef) ->
  resyncPlan api accountMapping w
  = (inr (Some
       {| plan_byAccount := byAccount;
          plan_earliestDate := JS.or_str earliestDate "";
          plan_restorable := restorableOf (partitionImportIds allTransactions);
          plan_upBankIds :=
            fst (notedOf (restorableOf (partitionImportIds allTransactions))
                   fetched ([], []));
          plan_toRestore :=
            snd (notedOf (restorableOf (partitionImportIds allTransactions))
                   fetched ([], [])) |}),
     wf, ec ++ Called GetTransactions true :: ef).
Proof.
  intros Hc Ht Hg Hf. unfold resyncPlan, bind at 1. rewrite Hc. cbv beta iota.
  rewrite Ht. cbn [negb].
  unfold bind at 1, findRestorableImportIds, bind at 1, call. rewrite Hg.
  cbn [isOk]. unfold ret at 1. cbv beta iota.
  unfold bind at 1. rewrite collectUpBankIds_fetched, Hf. cbv beta iota.
  destruct (notedOf _ fetched ([], [])) as [ids toRestore]. unfold ret.
  cbn [fst snd app]. rewrite !app_nil_r. reflexivity.
Qed.

Lemma pass_of_plan {W : Type} (api : Api W)
    (accountMapping : list (string * string)) (w : W) p w1 e1 :
  resyncPlan api accountMapping w = (inr (Some p), w1, e1) ->
  performResyncAll api accountMapping true w = (inr (dryReport p), w1, e1)
  /\ performResyncAll api accountMapping false w
     = after e1 (applyPlan api accountMapping p w1).
Proof.
  intros H. rewrite !performResyncAll_plan. split.
  - unfold bind at 1. rewrite H. unfold ret. rewrite app_nil_r. reflexivity.
  - unfold bind at 1. rewrite H.
    destruct (applyPlan api accountMapping p w1) as [[r w2] t2]. reflexivity.
Qed.

Lemma pass_without_plan {W : Type} (api : Api W)
    (accountMapping : list (string * string)) (dryRun : bool) (w : W) :
  (forall e w1 e1,
      resyncPlan api accountMapping w = (inl e, w1, e1) ->
      performResyncAll api accountMapping dryRun w = (inl e, w1, e1))
  /\ (forall w1 e1,
         resyncPlan api accountMapping w = (inr None, w1, e1) ->
         performResyncAll api accountMapping dryRun w
         = (inr (nothingReport dryRun), w1, e1)).
Proof.
  split; intros; rewrite performResyncAll_plan; unfold bind; rewrite H.
  - reflexivity.
  - unfold ret. rewrite app_nil_r. reflexivity.
Qed.

(** What a live pass calls and reports, given its plan. *)
Lemma live_pass_calls {W : Type} (api : Api W)
    (accountMapping : list (string * string)) (w : W) p w1 e1 :
  resyncPlan api accountMapping w = (inr (Some p), w1, e1) ->
  let live := performResyncAll api accountMapping false w in
  let d := deleteOrphans api (plan_orphans p) w1 in
  let r := restoreDeleted api (plan_toRestore p) (world_of d) in
  let s := syncAllAccounts api accountMapping (plan_earliestDate p) (world_of r) in
  events_of live = e1 ++ events_of d ++ events_of r ++ events_of s
  /\ deleteCalls (events_of live) = deleteCalls (events_of d)
  /\ map fst (deleteCalls (events_of live)) = map ynabId (plan_orphans p)
  /\ createCalls (events_of live)
     = createCalls (events_of r) ++ createCalls (events_of s)
  /\ Forall2 isRestoreBatchOf (groupByAccount (plan_toRestore p))
       (createCalls (events_of r))
  /\ allKeyed (createCalls (events_of s))
  /\ (isOk (result_of live) = isOk (result_of s))
  /\ (forall rl,
         result_of live = inr rl ->
         orphanedTransactions rl = plan_orphans p
         /\ orphanedDeleted rl = countTrue (deleteCalls (events_of d))
         /\ restoredCount rl = submittedOk (createCalls (events_of r))
         /\ resync_dryRun rl = false).
Proof.
  intros H live d r s.
  destruct (pass_of_plan api accountMapping w p w1 e1 H) as [_ L].
  destruct (applyPlan_run api accountMapping p w1) as [n [rr [Rd [Rr A]]]].
  cbv zeta in Rd, Rr, A. fold d in Rd, Rr, A. fold r in Rr, A. fold s in A.
  assert (E : events_of live = e1 ++ events_of d ++ events_of r ++ events_of s).
  { unfold live. rewrite L, A. reflexivity. }
  assert (R : result_of live
              = match result_of s with
                | inl e => inl e
                | inr ss => inr (liveReport p n rr ss)
                end).
  { unfold live. rewrite L, A. reflexivity. }
  pose proof (resyncPlan_events api accountMapping w) as N1.
  rewrite H in N1. unfold events_of in N1. cbn [snd] in N1.
  destruct (noMutation_calls e1 N1) as [C1 [_ D1]].
  destruct (deleteOrphans_spec api (plan_orphans p) w1) as [Rd' [Dd [Cd _]]].
  cbv zeta in Rd', Dd, Cd. fold d in Rd', Dd, Cd.
  destruct (restoreGroups_from api (groupByAccount (plan_toRestore p)) 0 []
              (world_of d))
    as [rt' [Rr' [_ [Fr [Dr _]]]]].
  fold (restoreDeleted api (plan_toRestore p)) in Rr', Fr, Dr.
  fold r in Rr', Fr, Dr.
  pose proof (syncAllAccounts_events api accountMapping (plan_earliestDate p)
                (world_of r)) as [Ks Ds].
  fold s in Ks, Ds.
  assert (DL : deleteCalls (events_of live) = deleteCalls (events_of d)).
  { rewrite E, !deleteCalls_app, D1, Dr, Ds, !app_nil_r. reflexivity. }
  split; [exact E|]. split; [exact DL|]. split; [rewrite DL; exact Dd|].
  split.
  { rewrite E, !createCalls_app, C1, Cd. reflexivity. }
  split; [exact Fr|]. split; [exact Ks|].
  split.
  { rewrite R. destruct (result_of s); reflexivity. }
  intros rl Hrl. rewrite R in Hrl.
  destruct (result_of s) as [e|ss]; [discriminate|].
  injection Hrl as <-. cbn [orphanedTransactions orphanedDeleted restoredCount
    resync_dryRun liveReport].
  rewrite Rd' in Rd. injection Rd as <-.
  rewrite Rr' in Rr. injection Rr as <-.
  repeat split.
Qed.

Lemma run_eta {W A : Type} (x : Result A * W * list Event) :
  x = (result_of x, world_of x, events_of x).
Proof. destruct x as [[r w] evs]. reflexivity. Qed.

Lemma plan_of_result {W : Type} (api : Api W)
    (accountMapping : list (string * string)) (w : W) (p : ResyncPlan) :
  result_of (resyncPlan api accountMapping w) = inr (Some p) ->
  resyncPlan api accountMapping w
  = (inr (Some p), world_of (resyncPlan api accountMapping w),
     events_of (resyncPlan api accountMapping w)).
Proof.
  intros H. rewrite (run_eta (resyncPlan api accountMapping w)) at 1.
  rewrite H. reflexivity.
Qed.

(** *** C8 *)

(** C8. A listing of a mapped account that throws aborts the pass: the
    error is thrown, there is no report, and nothing is called after
    the failed listing.  A delete or a restoring create that throws
    is skipped: each orphan still gets its delete call and each
    account its batch, neither phase throws, the pass goes on to the
    sync and returns its report when the sync does, with
    [orphanedDeleted] and [restoredCount] counting what succeeded. *)
Theorem reconciliation_failure_semantics :
  forall (W : Type) (api : Api W) (accountMapping : list (string * string))
         (w : W),
    (let c := collectYnabTransactions api (map snd accountMapping) w in
     (failedListings (events_of c) <> [] <-> isOk (result_of c) = false)
     /\ (forall dryRun e,
            result_of c = inl e ->
            performResyncAll api accountMapping dryRun w
            = (inl e, world_of c, events_of c)
            /\ exists init a,
                events_of c = init ++ [Called (GetTransactionsByAccount a) false]))
    /\ (forall orphans w',
           let d := deleteOrphans api orphans w' in
           result_of d = inr (countTrue (deleteCalls (events_of d)))
           /\ map fst (deleteCalls (events_of d)) = map ynabId orphans)
    /\ (forall toRestore w',
           let r := restoreDeleted api toRestore w' in
           (exists restored,
               result_of r = inr (submittedOk (createCalls (events_of r)), restored)
               /\ length restored = submittedOk (createCalls (events_of r)))
           /\ Forall2 isRestoreBatchOf (groupByAccount toRestore)
                (createCalls (events_of r)))
    /\ (forall p,
           result_of (resyncPlan api accountMapping w) = inr (Some p) ->
           let live := performResyncAll api accountMapping false w in
           let d :=
             deleteOrphans api (plan_orphans p)
               (world_of (resyncPlan api accountMapping w)) in
           let r := restoreDeleted api (plan_toRestore p) (world_of d) in
           let s :=
             syncAllAccounts api accountMapping (plan_earliestDate p)
               (world_of r) in
           isOk (result_of live) = isOk (result_of s)
           /\ map fst (deleteCalls (events_of live)) = map ynabId (plan_orphans p)
           /\ (forall rl,
                  result_of live = inr rl ->
                  orphanedTransactions rl = plan_orphans p
                  /\ orphanedDeleted rl = countTrue (deleteCalls (events_of d))
                  /\ restoredCount rl = submittedOk (createCalls (events_of r)))).
Proof.
  intros W api accountMapping w. split; [|split; [|split]].
  - cbv zeta.
    destruct (collect_from api (map snd accountMapping) ([], None) w)
      as [_ [R S]].
    cbv zeta in R, S.
    fold (collectYnabTransactions api (map snd accountMapping)) in R, S.
    split.
    + rewrite <- R. destruct (isOk _); split; congruence.
    + intros dryRun e He. split.
      * apply (proj1 (pass_without_plan api accountMapping dryRun w)).
        unfold resyncPlan, bind at 1.
        rewrite (run_eta (collectYnabTransactions api (map snd accountMapping) w)).
        rewrite He. reflexivity.
      * apply S. rewrite He. reflexivity.
  - intros orphans w'. cbv zeta.
    destruct (deleteOrphans_spec api orphans w') as [R [D _]].
    split; assumption.
  - intros toRestore w'. cbv zeta.
    destruct (restoreGroups_from api (groupByAccount toRestore) 0 [] w')
      as [rt' [R [L [F _]]]].
    fold (restoreDeleted api toRestore) in R, L, F.
    split; [exists rt'; split; assumption|exact F].
  - intros p Hp. cbv zeta.
    pose proof (live_pass_calls api accountMapping w p _ _
                  (plan_of_result api accountMapping w p Hp)) as L.
    cbv zeta in L.
    destruct L as [_ [_ [D [_ [_ [_ [O R]]]]]]].
    split; [exact O|]. split; [exact D|].
    intros rl Hrl. destruct (R rl Hrl) as [R1 [R2 [R3 _]]].
    repeat split; assumption.
Qed.

Lemma reconciliation_failure_semantics_witness :
  result_of (resyncPlan Ref.api Samples.mapping2 (Samples.drifted [5; 6]))
  = inr (Some driftedPlan)
  /\ isOk (result_of (performResyncAll Ref.api Samples.mapping2 false
                        (Samples.drifted [5; 6]))) = true
  /\ map fst (deleteCalls
                (events_of (performResyncAll Ref.api Samples.mapping2 false
                              (Samples.drifted [5; 6]))))
     = ["y2"]
  /\ isOk (result_of (performResyncAll Ref.api Samples.mapping2 false
                        (Samples.drifted [1]))) = false.
Proof.
  assert (P : result_of (resyncPlan Ref.api Samples.mapping2
                           (Samples.drifted [5; 6]))
              = inr (Some driftedPlan)) by (vm_compute; reflexivity).
  destruct (reconciliation_failure_semantics Ref.World Ref.api Samples.mapping2
              (Samples.drifted [5; 6])) as [_ [_ [_ H]]].
  destruct (H driftedPlan P) as [H1 [H2 _]].
  split; [exact P|]. split; [|split].
  - rewrite H1. vm_compute. reflexivity.
  - rewrite H2. vm_compute. reflexivity.
  - destruct (reconciliation_failure_semantics Ref.World Ref.api Samples.mapping2
                (Samples.drifted [1])) as [[_ H0] _].
    cbv zeta in H0.
    destruct (H0 false "YNAB API error") as [E _]; [vm_compute; reflexivity|].
    rewrite E. reflexivity.
Defined.

(** *** C3 *)

Lemma groupsSize_cons {V : Type} (k : string) (v : list V) (m : JS.Map (list V)) :
  groupsSize ((k, v) :: m) = length v + groupsSize m.
Proof. reflexivity. Qed.

Lemma groupsSize_set {V : Type} (m : JS.Map (list V)) (k : string) (v : list V) :
  groupsSize (JS.set m k v) + length (groupOf m k) = groupsSize m + length v.
Proof.
  unfold groupOf.
  induction m as [|[k' v'] m IH]; cbn [JS.set JS.get].
  - rewrite groupsSize_cons. cbn [length]. unfold groupsSize. cbn. lia.
  - destruct (String.eqb_spec k' k) as [E|N].
    + rewrite !groupsSize_cons. lia.
    + rewrite !groupsSize_cons. lia.
Qed.

Lemma groupByAccount_size_from (l : list (TransactionResource * string)) :
  forall (m : JS.Map (list TransactionResource)),
    groupsSize
      (fold_left
         (fun byAccount '(upTx, ynabAccountId) =>
            let byAccount' :=
              if negb (JS.mapHas byAccount ynabAccountId)
              then JS.set byAccount ynabAccountId []
              else byAccount in
            match JS.get byAccount' ynabAccountId with
            | Some upTxs => JS.set byAccount' ynabAccountId (upTxs ++ [upTx])
            | None => byAccount'
            end)
         l m)
    = groupsSize m + length l.
Proof.
  induction l as [|[upTx acct] l IH]; intros m.
  - cbn [fold_left length]. lia.
  - cbn [fold_left length]. rewrite IH. cbv zeta. unfold JS.mapHas.
    destruct (JS.get m acct) as [g|] eqn:G; cbn [negb].
    + rewrite G. pose proof (groupsSize_set m acct (g ++ [upTx])) as S.
      unfold groupOf in S. rewrite G, length_app in S. cbn [length] in S. lia.
    + rewrite get_set_same.
      pose proof (groupsSize_set m acct (@nil TransactionResource)) as S0.
      pose proof (groupsSize_set (JS.set m acct []) acct ([] ++ [upTx])) as S1.
      unfold groupOf in S0, S1. rewrite G in S0. rewrite get_set_same in S1.
      cbn [length app] in S0, S1. cbn [app]. lia.
Qed.

Lemma groupByAccount_size (l : list (TransactionResource * string)) :
  groupsSize (groupByAccount l) = length l.
Proof. exact (groupByAccount_size_from l []). Qed.

Lemma restoreBatches_size (groups : list (string * list TransactionResource))
    (calls : list (list SaveTransaction * bool)) :
  Forall2 isRestoreBatchOf groups calls -> batchesSize calls = groupsSize groups.
Proof.
  induction 1 as [|g c groups calls [isoNow E] _ IH]; [reflexivity|].
  destruct g as [a txs].
  change (batchesSize (c :: calls)) with (length (fst c) + batchesSize calls).
  rewrite groupsSize_cons, IH, E, length_map. reflexivity.
Qed.

Lemma dry_run_is_the_plan {W : Type} (api : Api W)
    (accountMapping : list (string * string)) (w : W) :
  performResyncAll api accountMapping true w
  = (match result_of (resyncPlan api accountMapping w) with
     | inl e => inl e
     | inr None => inr (nothingReport true)
     | inr (Some p) => inr (dryReport p)
     end,
     world_of (resyncPlan api accountMapping w),
     events_of (resyncPlan api accountMapping w)).
Proof.
  rewrite performResyncAll_plan. unfold bind.
  destruct (resyncPlan api accountMapping w) as [[[e|[p|]] w1] e1];
    unfold ret, result_of, world_of, events_of; cbn [fst snd];
    rewrite ?app_nil_r; reflexivity.
Qed.

(** C3 (as the code has it). A dry run issues no create, update or
    delete call, whatever the ledgers answer.  Its report counts
    nothing as deleted, restored or synced ([imported], [duplicates]
    and [total] are 0 and no account result is listed: a dry run does
    not compute what a sync would do); it lists as orphaned exactly the
    transactions a live run on the same data issues its delete calls
    for, and as restored as many transactions as the restoring batches
    of the live run hold. *)
Theorem dry_run_issues_no_mutation :
  forall (W : Type) (api : Api W) (accountMapping : list (string * string))
         (w : W),
    let dry := performResyncAll api accountMapping true w in
    let live := performResyncAll api accountMapping false w in
    noMutation (events_of dry)
    /\ (forall rd,
           result_of dry = inr rd ->
           resync_imported rd = 0%Z /\ resync_duplicates rd = 0%Z
           /\ resync_total rd = 0%Z /\ resync_accounts rd = []
           /\ orphanedDeleted rd = 0 /\ restoredCount rd = 0)
    /\ (forall p,
           result_of (resyncPlan api accountMapping w) = inr (Some p) ->
           exists rd,
             result_of dry = inr rd
             /\ orphanedTransactions rd = plan_orphans p
             /\ length (restoredTransactions rd) = length (plan_toRestore p)
             /\ map fst (deleteCalls (events_of live))
                = map ynabId (orphanedTransactions rd)
             /\ (exists restoreCalls syncCalls,
                    createCalls (events_of live) = restoreCalls ++ syncCalls
                    /\ Forall2 isRestoreBatchOf
                         (groupByAccount (plan_toRestore p)) restoreCalls
                    /\ allKeyed syncCalls
                    /\ batchesSize restoreCalls
                       = length (restoredTransactions rd))
             /\ (forall rl,
                    result_of live = inr rl ->
                    orphanedTransactions rl = orphanedTransactions rd)).
Proof.
  intros W api accountMapping w dry live.
  assert (D : dry
              = (match result_of (resyncPlan api accountMapping w) with
                 | inl e => inl e
                 | inr None => inr (nothingReport true)
                 | inr (Some p) => inr (dryReport p)
                 end,
                 world_of (resyncPlan api accountMapping w),
                 events_of (resyncPlan api accountMapping w)))
    by apply dry_run_is_the_plan.
  split; [|split].
  - rewrite D. apply resyncPlan_events.
  - intros rd Hrd. rewrite D in Hrd. unfold result_of at 1 in Hrd.
    cbn [fst] in Hrd.
    destruct (result_of (resyncPlan api accountMapping w)) as [e|[p|]];
      [discriminate| |]; injection Hrd as <-; repeat split.
  - intros p Hp. exists (dryReport p).
    pose proof (live_pass_calls api accountMapping w p _ _
                  (plan_of_result api accountMapping w p Hp)) as L.
    cbv zeta in L. fold live in L.
    destruct L as [_ [_ [Dl [Cl [Fr [Ks [_ R]]]]]]].
    split; [rewrite D, Hp; reflexivity|].
    split; [reflexivity|].
    split; [cbn [restoredTransactions dryReport]; apply length_map|].
    split; [exact Dl|]. split.
    + eexists. eexists. split; [exact Cl|]. split; [exact Fr|].
      split; [exact Ks|].
      rewrite (restoreBatches_size _ _ Fr), groupByAccount_size.
      cbn [restoredTransactions dryReport]. symmetry. apply length_map.
    + intros rl Hrl. destruct (R rl Hrl) as [R1 _]. exact R1.
Qed.

Lemma dry_run_issues_no_mutation_witness :
  result_of (resyncPlan Ref.api Samples.mapping2 (Samples.drifted []))
  = inr (Some driftedPlan)
  /\ map fst (deleteCalls
                (events_of (performResyncAll Ref.api Samples.mapping2 false
                              (Samples.drifted []))))
     = ["y2"]
  /\ createCalls
       (events_of (performResyncAll Ref.api Samples.mapping2 true
                     (Samples.drifted []))) = [].
Proof.
  assert (P : result_of (resyncPlan Ref.api Samples.mapping2 (Samples.drifted []))
              = inr (Some driftedPlan)) by (vm_compute; reflexivity).
  destruct (dry_run_issues_no_mutation Ref.World Ref.api Samples.mapping2
              (Samples.drifted [])) as [N [_ H]].
  destruct (H driftedPlan P) as [rd [_ [Ho [_ [Hd _]]]]].
  split; [exact P|]. split.
  - rewrite Hd, Ho. vm_compute. reflexivity.
  - exact (proj1 (noMutation_calls _ N)).
Defined.

(** C3, as stated, fails on the sync counts: on a ledger with one
    transaction whose source has settled, a live run syncs one
    transaction (a duplicate) while the dry run reports none. *)
Lemma dry_run_reports_no_sync_counts :
  exists rd rl,
    result_of (performResyncAll Ref.api Samples.mapping1 true
                 (Samples.settledSince [])) = inr rd
    /\ result_of (performResyncAll Ref.api Samples.mapping1 false
                    (Samples.settledSince [])) = inr rl
    /\ resync_total rd = 0%Z /\ resync_total rl = 1%Z
    /\ resync_duplicates rd = 0%Z /\ resync_duplicates rl = 1%Z
    /\ resync_accounts rd = [] /\ length (resync_accounts rl) = 1
    /\ resync_total rd <> resync_total rl.
Proof.
  eexists. eexists.
  split; [vm_compute; reflexivity|].
  split; [vm_compute; reflexivity|].
  repeat split. discriminate.
Qed.

(** *** C2 *)

Lemma plan_of_runs {W : Type} (api : Api W)
    (accountMapping : list (string * string)) (w : W)
    byAccount earliestDate allTransactions fetched :
  let c := collectYnabTransactions api (map snd accountMapping) w in
  let g := getTransactions api (world_of c) in
  let f := fetchAccounts api accountMapping (JS.or_str earliestDate "") (snd g) in
  result_of c = inr (byAccount, earliestDate) ->
  JS.truthy earliestDate = true ->
  fst g = inr allTransactions ->
  result_of f = inr fetched ->
  result_of (resyncPlan api accountMapping w)
  = inr (Some
      {| plan_byAccount := byAccount;
         plan_earliestDate := JS.or_str earliestDate "";
         plan_restorable := restorableOf (partitionImportIds allTransactions);
         plan_upBankIds :=
           fst (notedOf (restorableOf (partitionImportIds allTransactions))
                  fetched ([], []));
         plan_toRestore :=
           snd (notedOf (restorableOf (partitionImportIds allTransactions))
                  fetched ([], [])) |}).
Proof.
  intros c g f Hc Ht Hg Hf.
  erewrite resyncPlan_of_runs; [reflexivity| |exact Ht| |].
  - rewrite (run_eta (collectYnabTransactions api (map snd accountMapping) w)).
    fold c. rewrite Hc. reflexivity.
  - fold c. rewrite (surjective_pairing (getTransactions api (world_of c))).
    fold g. rewrite Hg. reflexivity.
  - rewrite (run_eta (fetchAccounts api accountMapping (JS.or_str earliestDate "")
                        (snd g))).
    fold f. rewrite Hf. reflexivity.
Qed.

(** The orphans of a pass, whatever the ledgers answer. *)
Lemma orphans_of_a_pass :
  forall (W : Type) (api : Api W) (accountMapping : list (string * string))
         (w : W) byAccount earliestDate allTransactions fetched,
    let c := collectYnabTransactions api (map snd accountMapping) w in
    let g := getTransactions api (world_of c) in
    let f := fetchAccounts api accountMapping (JS.or_str earliestDate "") (snd g) in
    result_of c = inr (byAccount, earliestDate) ->
    JS.truthy earliestDate = true ->
    fst g = inr allTransactions ->
    result_of f = inr fetched ->
    let collected := concat (map snd byAccount) in
    let orphans := orphansAmong collected (truncatedIdsOf fetched) in
    (forall tx, In tx collected ->
                JS.startsWith (ub_import_id tx) "UPBANK:" = true)
    /\ (forall id, JS.drop 7 (importIdOf id) = JS.substring id 0 29)
    /\ (forall tx,
           In tx orphans <->
           In tx collected
           /\ ~ In (JS.drop 7 (ub_import_id tx)) (truncatedIdsOf fetched))
    /\ (forall dryRun r,
           result_of (performResyncAll api accountMapping dryRun w) = inr r ->
           orphanedTransactions r = map orphanOf orphans)
    /\ map fst (deleteCalls
                  (events_of (performResyncAll api accountMapping false w)))
       = map ub_id orphans
    /\ deleteCalls (events_of (performResyncAll api accountMapping true w)) = [].
Proof.
  intros W api accountMapping w byAccount earliestDate allTransactions fetched
         c g f Hc Ht Hg Hf collected orphans.
  pose proof (plan_of_runs api accountMapping w byAccount earliestDate
                allTransactions fetched Hc Ht Hg Hf) as P.
  set (p := {| plan_byAccount := byAccount;
               plan_earliestDate := JS.or_str earliestDate "";
               plan_restorable := restorableOf (partitionImportIds allTransactions);
               plan_upBankIds :=
                 fst (notedOf (restorableOf (partitionImportIds allTransactions))
                        fetched ([], []));
               plan_toRestore :=
                 snd (notedOf (restorableOf (partitionImportIds allTransactions))
                        fetched ([], [])) |}) in P.
  assert (Hpre : forall tx, In tx collected ->
                            JS.startsWith (ub_import_id tx) "UPBANK:" = true).
  { apply (collect_prefixed api (map snd accountMapping) w byAccount earliestDate
             (world_of c) (events_of c)).
    rewrite (run_eta (collectYnabTransactions api (map snd accountMapping) w)).
    fold c. rewrite Hc. reflexivity. }
  assert (O : plan_orphans p = map orphanOf orphans).
  { unfold plan_orphans, p. cbn [plan_byAccount plan_upBankIds].
    apply findOrphans_spec; [exact Hpre|].
    intros x.
    destruct (notedOf_spec (restorableOf (partitionImportIds allTransactions))
                fetched ([], [])) as [N _].
    cbv zeta in N. rewrite N. cbn [fst JS.has existsb]. split.
    - intros [H|H]; [discriminate|exact H].
    - intros H. right. exact H. }
  pose proof (live_pass_calls api accountMapping w p _ _
                (plan_of_result api accountMapping w p P)) as L.
  cbv zeta in L. destruct L as [_ [_ [Dl [_ [_ [_ [_ R]]]]]]].
  split; [exact Hpre|]. split; [exact drop_importIdOf|]. split; [|split; [|split]].
  - intros tx. unfold orphans, orphansAmong. rewrite filter_In.
    rewrite negb_true_iff, <- not_true_iff_false, includes_In. reflexivity.
  - intros [|] r Hr.
    + rewrite dry_run_is_the_plan, P in Hr. unfold result_of in Hr.
      cbn [fst] in Hr. injection Hr as <-. exact O.
    + destruct (R r Hr) as [R1 _]. rewrite R1. exact O.
  - rewrite Dl, O, map_map. reflexivity.
  - rewrite dry_run_is_the_plan.
    exact (proj2 (proj2 (noMutation_calls _ (resyncPlan_events api accountMapping w)))).
Qed.

(** Deleting the orphans in the reference ledger, when it answers
    every call. *)
Lemma softDeleted_stay (orphans : list OrphanedTransaction) :
  forall (l : list TransactionDetail) (t : TransactionDetail),
    In t (fold_left (fun l o => map (Ref.softDelete (ynabId o)) l) orphans l) ->
    exists t0, In t0 l /\ td_id t0 = td_id t
               /\ (td_deleted t0 = true -> td_deleted t = true).
Proof.
  induction orphans as [|o orphans IH]; intros l t Hin.
  - exists t. repeat split; auto.
  - cbn [fold_left] in Hin. destruct (IH _ _ Hin) as [t1 [H1 [E1 D1]]].
    apply in_map_iff in H1. destruct H1 as [t0 [<- H0]].
    exists t0. split; [exact H0|]. unfold Ref.softDelete in *.
    destruct (td_id t0 =? ynabId o)%string; cbn [td_id td_deleted] in *.
    + split; [exact E1|]. intros _. apply D1. reflexivity.
    + split; assumption.
Qed.

Lemma softDeleted_all (orphans : list OrphanedTransaction) :
  forall (l : list TransactionDetail) (t : TransactionDetail),
    In t (fold_left (fun l o => map (Ref.softDelete (ynabId o)) l) orphans l) ->
    In (td_id t) (map ynabId orphans) ->
    td_deleted t = true.
Proof.
  induction orphans as [|o orphans IH]; intros l t Hin Hid; [contradiction|].
  cbn [fold_left] in Hin. cbn [map] in Hid.
  destruct (in_dec string_dec (td_id t) (map ynabId orphans)) as [Hi|Hn].
  - exact (IH _ _ Hin Hi).
  - destruct Hid as [E|Hi]; [|contradiction].
    destruct (softDeleted_stay _ _ _ Hin) as [t1 [H1 [E1 D1]]].
    apply D1. apply in_map_iff in H1. destruct H1 as [t0 [<- H0]].
    unfold Ref.softDelete in *.
    destruct (String.eqb_spec (td_id t0) (ynabId o)) as [E0|N0];
      cbn [td_id td_deleted] in *; [reflexivity|].
    congruence.
Qed.

Lemma deleteOrphans_ref_from (orphans : list OrphanedTransaction) :
  forall (n : nat) (w : Ref.World),
    Ref.failing w = [] ->
    let d := forOf (deleteOrphan Ref.api) orphans n w in
    result_of d = inr (n + length orphans)
    /\ deleteCalls (events_of d) = map (fun o => (ynabId o, true)) orphans
    /\ Ref.ledger (world_of d)
       = fold_left (fun l o => map (Ref.softDelete (ynabId o)) l) orphans
           (Ref.ledger w).
Proof.
  induction orphans as [|o orphans IH]; intros n w F.
  - cbv zeta. cbn. rewrite Nat.add_0_r. repeat split.
  - cbv zeta. rewrite forOf_cons, deleteOrphan_unfold.
    rewrite (ref_delete_ok (ynabId o) w F). cbn [fst snd isOk].
    rewrite result_after, events_after, world_after, deleteCalls_app.
    destruct (IH (S n)
                (Ref.tick (Ref.withLedger w
                   (map (Ref.softDelete (ynabId o)) (Ref.ledger w)))) F)
      as [R [D L]].
    cbv zeta in R, D, L. rewrite R, D, L. cbn [length map fold_left].
    split; [f_equal; lia|]. split; reflexivity.
Qed.

(** C2. The orphans of a pass are exactly the prefixed target
    transactions collected in step 1 whose import id with its prefix
    stripped is the 29-character truncation of the id of no source
    transaction fetched since [earliestDate], whatever the mapping it
    was fetched for; the key of a source transaction, stripped, is
    that same truncation.  A dry run reports them and deletes nothing;
    a live run issues one delete call for each, in order; and in a
    target ledger that answers every call, every one of these calls
    succeeds and every transaction so marked ends soft-deleted. *)
Theorem orphan_detection_uses_truncated_ids :
  (forall (W : Type) (api : Api W) (accountMapping : list (string * string))
          (w : W) byAccount earliestDate allTransactions fetched,
      let c := collectYnabTransactions api (map snd accountMapping) w in
      let g := getTransactions api (world_of c) in
      let f :=
        fetchAccounts api accountMapping (JS.or_str earliestDate "") (snd g) in
      result_of c = inr (byAccount, earliestDate) ->
      JS.truthy earliestDate = true ->
      fst g = inr allTransactions ->
      result_of f = inr fetched ->
      let collected := concat (map snd byAccount) in
      let orphans := orphansAmong collected (truncatedIdsOf fetched) in
      (forall tx, In tx collected ->
                  JS.startsWith (ub_import_id tx) "UPBANK:" = true)
      /\ (forall id, JS.drop 7 (importIdOf id) = JS.substring id 0 29)
      /\ (forall tx,
             In tx orphans <->
             In tx collected
             /\ ~ In (JS.drop 7 (ub_import_id tx)) (truncatedIdsOf fetched))
      /\ (forall dryRun r,
             result_of (performResyncAll api accountMapping dryRun w) = inr r ->
             orphanedTransactions r = map orphanOf orphans)
      /\ map fst (deleteCalls
                    (events_of (performResyncAll api accountMapping false w)))
         = map ub_id orphans
      /\ deleteCalls (events_of (performResyncAll api accountMapping true w))
         = [])
  /\ (forall (orphans : list OrphanedTransaction) (w : Ref.World),
         Ref.failing w = [] ->
         let d := deleteOrphans Ref.api orphans w in
         result_of d = inr (length orphans)
         /\ deleteCalls (events_of d) = map (fun o => (ynabId o, true)) orphans
         /\ (forall t, In t (Ref.ledger (world_of d)) ->
                       In (td_id t) (map ynabId orphans) ->
                       td_deleted t = true)).
Proof.
  split.
  - exact orphans_of_a_pass.
  - intros orphans w F. cbv zeta.
    destruct (deleteOrphans_ref_from orphans 0 w F) as [R [D L]].
    cbv zeta in R, D, L. fold (deleteOrphans Ref.api orphans) in R, D, L.
    split; [exact R|]. split; [exact D|].
    intros t Hin Hid. rewrite L in Hin. exact (softDeleted_all _ _ _ Hin Hid).
Qed.

Lemma orphan_detection_uses_truncated_ids_witness :
  map fst (deleteCalls
             (events_of (performResyncAll Ref.api Samples.mapping2 false
                           (Samples.drifted []))))
  = ["y2"]
  /\ orphansAmong (concat (map snd (plan_byAccount driftedPlan)))
       (truncatedIdsOf [("Y1", [Ref.upTx "a" "SETTLED"]);
                        ("Y2", [Ref.upTx "b" "SETTLED"])])
     = [Samples.collected "y2" "UPBANK:gone"]
  /\ Ref.failing (Samples.drifted []) = []
  /\ result_of (deleteOrphans Ref.api (plan_orphans driftedPlan)
                  (Samples.drifted []))
     = inr 1.
Proof.
  pose proof (proj1 orphan_detection_uses_truncated_ids Ref.World Ref.api
                Samples.mapping2 (Samples.drifted [])
                (plan_byAccount driftedPlan) (Some "2024-03-01")
                (Ref.ledger (Samples.drifted []))
                [("Y1", [Ref.upTx "a" "SETTLED"]);
                 ("Y2", [Ref.upTx "b" "SETTLED"])]) as H.
  cbv zeta in H.
  destruct H as [_ [_ [_ [_ [H _]]]]];
    [vm_compute; reflexivity|reflexivity|vm_compute; reflexivity
    |vm_compute; reflexivity|].
  split; [rewrite H; vm_compute; reflexivity|].
  split; [vm_compute; reflexivity|].
  split; [reflexivity|].
  exact (proj1 (proj2 orphan_detection_uses_truncated_ids
                  (plan_orphans driftedPlan) (Samples.drifted []) eq_refl)).
Defined.

(** *** C4 *)

Lemma partitionImportIds_from (transactions : list TransactionDetail) :
  forall (acc : JS.StrSet * JS.StrSet),
    let sets := fold_left partitionStep transactions acc in
    forall (k : string) (del : bool),
      JS.has (if del then fst sets else snd sets) k = true <->
      JS.has (if del then fst acc else snd acc) k = true
      \/ exists t, In t transactions /\ isUpBank t = true
                   /\ td_deleted t = del /\ td_import_id t = Some k.
Proof.
  induction transactions as [|tx txs IH]; intros [d a].
  - cbv zeta. cbn [fold_left]. intros k del. split; [tauto|].
    intros [H|[t [[] _]]]. exact H.
  - cbv zeta. cbn [fold_left]. intros k del.
    assert (K : isUpBank tx = true ->
                JS.or_str (td_import_id tx) "" = k <-> td_import_id tx = Some k).
    { unfold isUpBank. destruct (td_import_id tx) as [[|ch s]|];
        try discriminate. intros _. cbn [JS.or_str]. split; congruence. }
    rewrite (IH (partitionStep (d, a) tx) k del). unfold partitionStep.
    destruct (isUpBank tx) eqn:U.
    + destruct (td_deleted tx) eqn:Dt.
      * cbn [fst snd]. destruct del.
        -- rewrite has_add, orb_true_iff, String.eqb_eq. split.
           ++ intros [[H|H]|[t [Hin Ht]]]; auto.
              ** right. exists tx. repeat split; auto. left. reflexivity.
                 apply K; auto.
              ** right. exists t. split; [right; exact Hin|exact Ht].
           ++ intros [H|[t [[E|Hin] [Hu [Hd Hk]]]]]; auto.
              ** subst t. left. right. symmetry. apply K; auto.
              ** right. exists t. auto.
        -- split.
           ++ intros [H|[t [Hin Ht]]]; auto.
              right. exists t. split; [right; exact Hin|exact Ht].
           ++ intros [H|[t [[E|Hin] [Hu [Hd Hk]]]]]; auto.
              ** subst t. congruence.
              ** right. exists t. auto.
      * cbn [fst snd]. destruct del.
        -- split.
           ++ intros [H|[t [Hin Ht]]]; auto.
              right. exists t. split; [right; exact Hin|exact Ht].
           ++ intros [H|[t [[E|Hin] [Hu [Hd Hk]]]]]; auto.
              ** subst t. congruence.
              ** right. exists t. auto.
        -- rewrite has_add, orb_true_iff, String.eqb_eq. split.
           ++ intros [[H|H]|[t [Hin Ht]]]; auto.
              ** right. exists tx. repeat split; auto. left. reflexivity.
                 apply K; auto.
              ** right. exists t. split; [right; exact Hin|exact Ht].
           ++ intros [H|[t [[E|Hin] [Hu [Hd Hk]]]]]; auto.
              ** subst t. left. right. symmetry. apply K; auto.
              ** right. exists t. auto.
    + cbn [fst snd]. split.
      * intros [H|[t [Hin Ht]]]; auto.
        right. exists t. split; [right; exact Hin|exact Ht].
      * intros [H|[t [[E|Hin] [Hu [Hd Hk]]]]]; auto.
        -- subst t. congruence.
        -- right. exists t. auto.
Qed.

(** An import id is restorable exactly when a soft-deleted prefixed
    transaction holds it and no active one does. *)
Lemma restorableOf_spec (allTransactions : list TransactionDetail) (k : string) :
  JS.has (restorableOf (partitionImportIds allTransactions)) k = true <->
  (exists t, In t allTransactions /\ isUpBank t = true
             /\ td_deleted t = true /\ td_import_id t = Some k)
  /\ ~ (exists t, In t allTransactions /\ isUpBank t = true
                  /\ td_deleted t = false /\ td_import_id t = Some k).
Proof.
  pose proof (partitionImportIds_from allTransactions ([], [])) as P.
  cbv zeta in P. fold (partitionImportIds allTransactions) in P.
  pose proof (P k true) as Pd. pose proof (P k false) as Pa.
  cbn [fst snd JS.has existsb] in Pd, Pa.
  unfold restorableOf.
  destruct (partitionImportIds allTransactions) as [d a]. cbn [fst snd] in *.
  rewrite has_In, filter_In, <- has_In, negb_true_iff, <- not_true_iff_false.
  rewrite Pd, Pa. split.
  - intros [[H|H] N]; [discriminate|]. split; [exact H|].
    intros H'. apply N. right. exact H'.
  - intros [H N]. split; [right; exact H|].
    intros [H'|H']; [discriminate|]. apply N. exact H'.
Qed.

Lemma Forall2_In_left {A B : Type} (R : A -> B -> Prop) (l1 : list A)
    (l2 : list B) (a : A) :
  Forall2 R l1 l2 -> In a l1 -> exists b, In b l2 /\ R a b.
Proof.
  induction 1 as [|x y l1 l2 Hxy _ IH]; intros Hin; [contradiction|].
  destruct Hin as [<-|Hin].
  - exists y. split; [left; reflexivity|exact Hxy].
  - destruct (IH Hin) as [b [Hb Rb]]. exists b. split; [right; exact Hb|exact Rb].
Qed.

Lemma Forall2_In_right {A B : Type} (R : A -> B -> Prop) (l1 : list A)
    (l2 : list B) (b : B) :
  Forall2 R l1 l2 -> In b l2 -> exists a, In a l1 /\ R a b.
Proof.
  induction 1 as [|x y l1 l2 Hxy _ IH]; intros Hin; [contradiction|].
  destruct Hin as [<-|Hin].
  - exists x. split; [left; reflexivity|exact Hxy].
  - destruct (IH Hin) as [a [Ha Ra]]. exists a. split; [right; exact Ha|exact Ra].
Qed.

Lemma restoreBatch_no_key (group : string * list TransactionResource)
    (c : list SaveTransaction * bool) :
  isRestoreBatchOf group c ->
  Forall (fun t => sv_account_id t = fst group /\ sv_import_id t = None) (fst c).
Proof.
  intros [isoNow E]. rewrite E. apply Forall_forall. intros t Hin.
  apply in_map_iff in Hin. destruct Hin as [u [<- _]]. split; reflexivity.
Qed.

(** C4. In a live pass, the restoration candidates are the source
    transactions fetched whose full idempotency key is restorable
    (held by a soft-deleted target transaction and by no active one);
    they are created in one batch per mapped target account, each
    candidate in the batch of its account, and no transaction of these
    batches has an [import_id]; every other create of the pass, like
    every create of [syncToYNAB], carries one. *)
Theorem restoration_omits_import_id :
  forall (W : Type) (api : Api W) (accountMapping : list (string * string))
         (w : W) byAccount earliestDate allTransactions fetched,
    let c := collectYnabTransactions api (map snd accountMapping) w in
    let g := getTransactions api (world_of c) in
    let f := fetchAccounts api accountMapping (JS.or_str earliestDate "") (snd g) in
    result_of c = inr (byAccount, earliestDate) ->
    JS.truthy earliestDate = true ->
    fst g = inr allTransactions ->
    result_of f = inr fetched ->
    let restorable := restorableOf (partitionImportIds allTransactions) in
    let live := performResyncAll api accountMapping false w in
    (forall k,
        JS.has restorable k = true <->
        (exists t, In t allTransactions /\ isUpBank t = true
                   /\ td_deleted t = true /\ td_import_id t = Some k)
        /\ ~ (exists t, In t allTransactions /\ isUpBank t = true
                        /\ td_deleted t = false /\ td_import_id t = Some k))
    /\ (exists candidates restoreCalls syncCalls,
           (forall upTx acct,
               In (upTx, acct) candidates <->
               exists txs, In (acct, txs) fetched /\ In upTx txs
                           /\ JS.has restorable (importIdOf (tx_id upTx)) = true)
           /\ createCalls (events_of live) = restoreCalls ++ syncCalls
           /\ Forall2 isRestoreBatchOf (groupByAccount candidates) restoreCalls
           /\ NoDup (map fst (groupByAccount candidates))
           /\ (forall upTx acct,
                  In (upTx, acct) candidates ->
                  exists batch ok isoNow,
                    In (batch, ok) restoreCalls
                    /\ In (toRestoredYnabTransaction acct isoNow upTx) batch
                    /\ Forall (fun t => sv_account_id t = acct
                                        /\ sv_import_id t = None) batch)
           /\ (forall batch ok,
                  In (batch, ok) restoreCalls ->
                  Forall (fun t => sv_import_id t = None) batch)
           /\ allKeyed syncCalls)
    /\ (forall accountId upTxs w',
           allKeyed (createCalls (events_of (syncToYNAB api accountId upTxs w')))).
Proof.
  intros W api accountMapping w byAccount earliestDate allTransactions fetched
         c g f Hc Ht Hg Hf restorable live.
  pose proof (plan_of_runs api accountMapping w byAccount earliestDate
                allTransactions fetched Hc Ht Hg Hf) as P.
  fold restorable in P.
  set (p := {| plan_byAccount := byAccount;
               plan_earliestDate := JS.or_str earliestDate "";
               plan_restorable := restorable;
               plan_upBankIds := fst (notedOf restorable fetched ([], []));
               plan_toRestore := snd (notedOf restorable fetched ([], [])) |})
    in P.
  pose proof (live_pass_calls api accountMapping w p _ _
                (plan_of_result api accountMapping w p P)) as L.
  cbv zeta in L. fold live in L.
  destruct L as [_ [_ [_ [Cl [Fr [Ks _]]]]]].
  cbn [plan_toRestore p] in Fr.
  split; [intros k; apply restorableOf_spec|]. split.
  - eexists. eexists. eexists.
    split; [|split; [exact Cl|split; [exact Fr|split; [|split; [|split]]]]].
    + intros upTx acct.
      destruct (notedOf_spec restorable fetched ([], [])) as [_ N].
      cbv zeta in N. rewrite N. cbn [snd In]. split.
      * intros [[]|H]. exact H.
      * intros H. right. exact H.
    + apply groupByAccount_spec.
    + intros upTx acct Hin.
      destruct (groupByAccount_spec (snd (notedOf restorable fetched ([], []))))
        as [_ [G _]].
      apply G in Hin. destruct Hin as [upTxs [Hg' Htx]].
      destruct (Forall2_In_left _ _ _ _ Fr Hg') as [[batch ok] [Hb Rb]].
      pose proof (restoreBatch_no_key _ _ Rb) as Nk.
      destruct Rb as [isoNow E]. cbn [fst snd] in E, Nk.
      exists batch, ok, isoNow. split; [exact Hb|]. split; [|exact Nk].
      rewrite E. apply in_map. exact Htx.
    + intros batch ok Hb.
      destruct (Forall2_In_right _ _ _ _ Fr Hb) as [grp [_ Rb]].
      pose proof (restoreBatch_no_key _ _ Rb) as Nk. cbn [fst] in Nk.
      eapply Forall_impl; [|exact Nk]. intros t [_ H]. exact H.
    + exact Ks.
  - intros accountId upTxs w'. apply syncToYNAB_events.
Qed.

Lemma restoration_omits_import_id_witness :
  createCalls
    (events_of (restoreDeleted Ref.api (plan_toRestore driftedPlan)
                  (Samples.drifted [])))
  = [([toRestoredYnabTransaction "Y2" "2024-03-05T00:00:00.000Z"
         (Ref.upTx "b" "SETTLED")], true)]
  /\ JS.has (restorableOf (partitionImportIds (Ref.ledger (Samples.drifted []))))
       "UPBANK:b" = true.
Proof.
  pose proof (restoration_omits_import_id Ref.World Ref.api
                Samples.mapping2 (Samples.drifted [])
                (plan_byAccount driftedPlan) (Some "2024-03-01")
                (Ref.ledger (Samples.drifted []))
                [("Y1", [Ref.upTx "a" "SETTLED"]);
                 ("Y2", [Ref.upTx "b" "SETTLED"])]) as H.
  cbv zeta in H.
  destruct H as [H _];
    [vm_compute; reflexivity|reflexivity|vm_compute; reflexivity
    |vm_compute; reflexivity|].
  split; [vm_compute; reflexivity|].
  apply H. split.
  - exists (Ref.ynabTx "y3" "Y2" "UPBANK:b" Cleared true).
    split; [right; right; left; reflexivity|]. repeat split.
  - intros [t [Hin [_ [Hd Hk]]]].
    destruct Hin as [<-|[<-|[<-|[]]]]; discriminate.
Defined.

(** *** C1 *)

(** **** The reference ledger: create *)

Lemma longestId_from (l : list TransactionDetail) :
  forall acc,
    let r :=
      fold_left
        (fun acc t =>
           if (String.length acc <? String.length (td_id t))%nat
           then td_id t else acc)
        l acc in
    (String.length acc <= String.length r)%nat
    /\ (forall t, In t l -> (String.length (td_id t) <= String.length r)%nat).
Proof.
  induction l as [|t l IH]; intros acc.
  - cbv zeta. cbn. split; [lia|intros t []].
  - cbv zeta. cbn [fold_left].
    destruct (IH (if (String.length acc <? String.length (td_id t))%nat
                  then td_id t else acc)) as [I1 I2].
    cbv zeta in I1, I2.
    destruct (Nat.ltb_spec (String.length acc) (String.length (td_id t))).
    + split; [lia|]. intros t' [<-|Hin]; [exact I1|apply I2; exact Hin].
    + split; [exact I1|]. intros t' [<-|Hin]; [lia|apply I2; exact Hin].
Qed.

Lemma freshId_fresh (l : list TransactionDetail) :
  ~ In (Ref.freshId l) (map td_id l).
Proof.
  intros Hin. apply in_map_iff in Hin. destruct Hin as [t [E Ht]].
  destruct (longestId_from l "") as [_ L]. cbv zeta in L.
  specialize (L t Ht). fold (Ref.longestId l) in L.
  rewrite E in L. unfold Ref.freshId in L. cbn [String.length] in L. lia.
Qed.

Lemma NoDup_snoc {A : Type} (l : list A) (x : A) :
  NoDup l -> ~ In x l -> NoDup (l ++ [x]).
Proof.
  induction l as [|a l IH]; intros Hn Hx; cbn [app].
  - constructor; [intros []|constructor].
  - inversion Hn as [|? ? Ha Hl]; subst. constructor.
    + intros Hin. apply in_app_or in Hin. destruct Hin as [Hin|[<-|[]]].
      * exact (Ha Hin).
      * apply Hx. left. reflexivity.
    + apply IH; [exact Hl|]. intros Hin. apply Hx. right. exact Hin.
Qed.

Lemma keyTaken_app (l l' : list TransactionDetail) (k : string) :
  Ref.keyTaken (l ++ l') k = Ref.keyTaken l k || Ref.keyTaken l' k.
Proof. unfold Ref.keyTaken. apply existsb_app. Qed.

(** A batch leaves the transactions present in place, adds none under
    a key already taken, reports such a key as duplicate, and keeps
    the ids distinct. *)
Lemma create_from (ts : list SaveTransaction) :
  forall l created dups,
    let r := fold_left Ref.createOne ts (l, created, dups) in
    (exists added,
        fst (fst r) = l ++ added
        /\ (forall k, Ref.keyTaken l k = true ->
                      forall a, In a added -> importIdIs k a = false))
    /\ (forall k, In k dups -> In k (snd r))
    /\ (forall k, Ref.keyTaken l k = true ->
                  (exists t, In t ts /\ sv_import_id t = Some k) ->
                  In k (snd r))
    /\ (NoDup (map td_id l) -> NoDup (map td_id (fst (fst r)))).
Proof.
  induction ts as [|t ts IH]; intros l created dups.
  - cbv zeta. cbn [fold_left fst snd]. split; [|split; [|split]].
    + exists []. rewrite app_nil_r. split; [reflexivity|intros k _ a []].
    + intros k H. exact H.
    + intros k _ [t [[] _]].
    + intros H. exact H.
  - cbv zeta. cbn [fold_left].
    assert (ADD : forall created',
              let r := fold_left Ref.createOne ts
                         (l ++ [Ref.stored l t], created', dups) in
              (forall k, Ref.keyTaken l k = true -> sv_import_id t <> Some k) ->
              (exists added,
                  fst (fst r) = l ++ added
                  /\ (forall k, Ref.keyTaken l k = true ->
                                forall a, In a added -> importIdIs k a = false))
              /\ (forall k, In k dups -> In k (snd r))
              /\ (forall k, Ref.keyTaken l k = true ->
                            (exists t0, In t0 (t :: ts) /\ sv_import_id t0 = Some k) ->
                            In k (snd r))
              /\ (NoDup (map td_id l) -> NoDup (map td_id (fst (fst r))))).
    { intros created' r Hfree.
      destruct (IH (l ++ [Ref.stored l t]) created' dups) as [[added [E A]] [D [K N]]].
      cbv zeta in E, A, D, K, N. fold r in E, A, D, K, N.
      split; [|split; [|split]].
      - exists (Ref.stored l t :: added). split.
        + rewrite E, <- app_assoc. reflexivity.
        + intros k Hk a [<-|Ha].
          * unfold importIdIs. cbn [td_import_id Ref.stored].
            specialize (Hfree k Hk).
            destruct (sv_import_id t) as [k'|]; [|reflexivity].
            apply String.eqb_neq. congruence.
          * apply A; [|exact Ha]. rewrite keyTaken_app, Hk. reflexivity.
      - exact D.
      - intros k Hk [t0 [[<-|Hin] Ht0]].
        + exfalso. exact (Hfree k Hk Ht0).
        + apply K; [rewrite keyTaken_app, Hk; reflexivity|].
          exists t0. split; assumption.
      - intros Hn. apply N. rewrite map_app. cbn [map].
        apply NoDup_snoc; [exact Hn|apply freshId_fresh]. }
    destruct (sv_import_id t) as [k0|] eqn:Ek.
    + destruct (Ref.keyTaken l k0) eqn:Tk.
      * assert (Eq : Ref.createOne (l, created, dups) t
                     = (l, created, dups ++ [k0])).
        { unfold Ref.createOne. rewrite Ek, Tk. reflexivity. }
        rewrite Eq.
        destruct (IH l created (dups ++ [k0])) as [[added [E A]] [D [K N]]].
        cbv zeta in E, A, D, K, N.
        split; [|split; [|split]].
        -- exists added. split; assumption.
        -- intros k Hk. apply D. apply in_or_app. left. exact Hk.
        -- intros k Hk [t0 [[<-|Hin] Ht0]].
           ++ rewrite Ek in Ht0. injection Ht0 as ->. apply D.
              apply in_or_app. right. left. reflexivity.
           ++ apply K; [exact Hk|]. exists t0. split; assumption.
        -- exact N.
      * assert (Eq : Ref.createOne (l, created, dups) t
                     = (l ++ [Ref.stored l t], created ++ [Ref.stored l t], dups)).
        { unfold Ref.createOne. rewrite Ek, Tk. reflexivity. }
        rewrite Eq.
        apply ADD. intros k Hk E. injection E as ->. congruence.
    + assert (Eq : Ref.createOne (l, created, dups) t
                   = (l ++ [Ref.stored l t], created ++ [Ref.stored l t], dups)).
      { unfold Ref.createOne. rewrite Ek. reflexivity. }
      rewrite Eq.
      apply ADD. intros k _. discriminate.
Qed.

(** **** The reference ledger: update *)

Lemma applyUpdates_map (us : list UpdateTransaction) :
  forall l,
    Ref.applyUpdates us l
    = map (fun t => fold_left (fun t u => Ref.setCleared u t) us t) l.
Proof.
  induction us as [|u us IH]; intros l.
  - cbn. symmetry. apply map_id.
  - unfold Ref.applyUpdates in *. cbn [fold_left]. rewrite IH, map_map.
    reflexivity.
Qed.

Lemma setCleared_keeps (u : UpdateTransaction) (t : TransactionDetail) :
  td_id (Ref.setCleared u t) = td_id t
  /\ td_import_id (Ref.setCleared u t) = td_import_id t.
Proof.
  unfold Ref.setCleared. destruct (ut_cleared u) as [c|]; [|split; reflexivity].
  destruct (td_id t =? ut_id u)%string; split; reflexivity.
Qed.

Lemma updates_keep (us : list UpdateTransaction) :
  forall t,
    td_id (fold_left (fun t u => Ref.setCleared u t) us t) = td_id t
    /\ td_import_id (fold_left (fun t u => Ref.setCleared u t) us t)
       = td_import_id t.
Proof.
  induction us as [|u us IH]; intros t; [split; reflexivity|].
  cbn [fold_left]. destruct (IH (Ref.setCleared u t)) as [I1 I2].
  destruct (setCleared_keeps u t) as [S1 S2].
  rewrite I1, I2, S1, S2. split; reflexivity.
Qed.

Lemma updates_miss (us : list UpdateTransaction) :
  forall t,
    ~ In (td_id t) (map ut_id us) ->
    fold_left (fun t u => Ref.setCleared u t) us t = t.
Proof.
  induction us as [|u us IH]; intros t Hn; [reflexivity|].
  cbn [fold_left map In] in *.
  assert (E : Ref.setCleared u t = t).
  { unfold Ref.setCleared. destruct (ut_cleared u) as [c|]; [|reflexivity].
    destruct (String.eqb_spec (td_id t) (ut_id u)) as [E|N]; [|reflexivity].
    exfalso. apply Hn. left. symmetry. exact E. }
  rewrite E. apply IH. intros Hin. apply Hn. right. exact Hin.
Qed.

Lemma updates_hit (us : list UpdateTransaction) (c : TransactionClearedStatus) :
  forall t,
    NoDup (map ut_id us) ->
    In {| ut_id := td_id t; ut_cleared := Some c |} us ->
    fold_left (fun t u => Ref.setCleared u t) us t = Ref.withCleared t c.
Proof.
  induction us as [|u us IH]; intros t Hn Hin; [contradiction|].
  cbn [map] in Hn. inversion Hn as [|? ? Hu Hn']; subst.
  cbn [fold_left]. destruct Hin as [->|Hin].
  - unfold Ref.setCleared. cbn [ut_cleared ut_id]. rewrite String.eqb_refl.
    apply updates_miss. cbn [Ref.withCleared td_id]. exact Hu.
  - assert (E : Ref.setCleared u t = t).
    { unfold Ref.setCleared. destruct (ut_cleared u) as [c'|]; [|reflexivity].
      destruct (String.eqb_spec (td_id t) (ut_id u)) as [E|N]; [|reflexivity].
      exfalso. apply Hu. rewrite <- E.
      apply in_map_iff. eexists. split; [|exact Hin]. reflexivity. }
    rewrite E. apply IH; assumption.
Qed.

Lemma updates_keep_keys (us : list UpdateTransaction) (k : string)
    (l : list TransactionDetail) :
  map td_id (filter (importIdIs k) (Ref.applyUpdates us l))
  = map td_id (filter (importIdIs k) l).
Proof.
  rewrite applyUpdates_map. induction l as [|t l IH]; [reflexivity|].
  cbn [map filter]. destruct (updates_keep us t) as [K1 K2].
  unfold importIdIs at 1 3. rewrite K2.
  fold (importIdIs k t). destruct (importIdIs k t); cbn [map].
  - rewrite K1. f_equal. exact IH.
  - exact IH.
Qed.

Lemma filter_keeps_distinct {X Y : Type} (image : X -> Y) (keep : X -> bool) :
  forall xs : list X,
    NoDup (map image xs) -> NoDup (map image (filter keep xs)).
Proof.
  intros xs. induction xs as [|x xs IH]; intros H; [constructor|].
  cbn [map] in H. inversion H as [|? ? Hx Hxs]; subst.
  cbn [filter]. destruct (keep x); [|apply IH; exact Hxs].
  cbn [map]. constructor; [|apply IH; exact Hxs].
  intros Hin. apply Hx. apply in_map_iff in Hin. destruct Hin as [y [E Hy]].
  apply filter_In in Hy. apply in_map_iff. exists y. split; [exact E|apply Hy].
Qed.

(** **** [new Map(entries)]: the last entry of a key wins *)

Lemma newMap_get_absent {V : Type} (entries : list (string * V)) (k : string) :
  forall m,
    (forall e, In e entries -> fst e <> k) ->
    JS.get (fold_left (fun m kv => JS.set m (fst kv) (snd kv)) entries m) k
    = JS.get m k.
Proof.
  induction entries as [|e entries IH]; intros m H; [reflexivity|].
  cbn [fold_left]. rewrite IH.
  - apply get_set_other. apply H. left. reflexivity.
  - intros e' He'. apply H. right. exact He'.
Qed.

Lemma newMap_get_agreed {V : Type} (entries : list (string * V)) (k : string)
    (v : V) :
  forall m,
    (forall e, In e entries -> fst e = k -> snd e = v) ->
    (exists e, In e entries /\ fst e = k) ->
    JS.get (fold_left (fun m kv => JS.set m (fst kv) (snd kv)) entries m) k
    = Some v.
Proof.
  induction entries as [|e entries IH]; intros m Hall [e0 [Hin Hk]];
    [contradiction|].
  cbn [fold_left].
  destruct (existsb (fun e' => (fst e' =? k)%string) entries) eqn:Ex.
  - apply existsb_exists in Ex. destruct Ex as [e' [He' Hk']].
    apply String.eqb_eq in Hk'. apply IH.
    + intros e1 H1. apply Hall. right. exact H1.
    + exists e'. split; assumption.
  - rewrite newMap_get_absent.
    + destruct Hin as [->|Hin].
      * rewrite Hk, <- (Hall e0 (or_introl eq_refl) Hk). apply get_set_same.
      * exfalso. assert (X : existsb (fun e' => (fst e' =? k)%string) entries = true).
        { apply existsb_exists. exists e0. split; [exact Hin|].
          apply String.eqb_eq. exact Hk. }
        congruence.
    + intros e1 H1 E1.
      assert (X : existsb (fun e' => (fst e' =? k)%string) entries = true).
      { apply existsb_exists. exists e1. split; [exact H1|].
        apply String.eqb_eq. exact E1. }
      congruence.
Qed.

(** **** The reference ledger answers *)

Lemma ref_create_ok (ts : list SaveTransaction) (w : Ref.World) :
  Ref.failing w = [] ->
  createTransactions Ref.api ts w
  = (inr (fst (Ref.create ts w)), Ref.tick (snd (Ref.create ts w))).
Proof.
  intros F. cbn [createTransactions Ref.api]. unfold Ref.attempt, Ref.fails.
  rewrite F. cbn [existsb]. destruct (Ref.create ts w). reflexivity.
Qed.

Lemma ref_update_ok (us : list UpdateTransaction) (w : Ref.World) :
  Ref.failing w = [] ->
  exists r,
    updateTransactions Ref.api us w
    = (inr r,
       Ref.tick (Ref.withLedger w (Ref.applyUpdates us (Ref.ledger w)))).
Proof.
  intros F. cbn [updateTransactions Ref.api]. unfold Ref.attempt, Ref.fails.
  rewrite F. cbn [existsb]. unfold Ref.update. eexists. reflexivity.
Qed.

Lemma or_str_importIdOf (id : string) :
  JS.or_str (Some (importIdOf id)) "" = importIdOf id.
Proof. rewrite importIdOf_prefix. reflexivity. Qed.

Lemma syncToYNAB_nonempty {W : Type} (api : Api W) (accountId : string)
    (upTxs : list TransactionResource) (w : W) :
  upTxs <> [] ->
  syncToYNAB api accountId upTxs w =
  let ts := map (toYnabTransaction accountId (toISOString api w)) upTxs in
  match createTransactions api ts w with
  | (inl e, w1) =>
      (inl e, w1, statusWarnings upTxs ++ [Called (CreateTransactions ts) false])
  | (inr result, w1) =>
      let x := reconcileDuplicates api accountId result ts w1 in
      (inr {| imported :=
                (Z.of_nat (length ts) - Z.of_nat (duplicateCountOf result))%Z;
              duplicates := Z.of_nat (duplicateCountOf result);
              total := Z.of_nat (length ts) |},
       world_of x,
       statusWarnings upTxs ++ Called (CreateTransactions ts) true :: events_of x)
  end.
Proof.
  intros H. rewrite syncToYNAB_unfold. destruct upTxs; [congruence|reflexivity].
Qed.

(** The update of duplicates against the reference ledger, when no
    call fails and duplicates were reported. *)
Lemma ref_reconcile (accountId : string) (created : option (list TransactionDetail))
    (dups : list string) (ts : list SaveTransaction) (w : Ref.World) :
  Ref.failing w = [] ->
  dups <> [] ->
  let us :=
    transactionsToUpdateOf (desiredClearedStatusOf dups ts)
      (Ref.accountTransactions accountId (Ref.ledger w)) in
  us <> [] ->
  let x :=
    reconcileDuplicates Ref.api accountId
      {| created_transactions := created; duplicate_import_ids := Some dups |}
      ts w in
  Ref.ledger (world_of x) = Ref.applyUpdates us (Ref.ledger w)
  /\ events_of x
     = [Called (GetTransactionsByAccount accountId) true;
        Called (UpdateTransactions us) true].
Proof.
  intros F Hd us Hu x. unfold x, reconcileDuplicates.
  cbn [duplicate_import_ids]. unfold duplicateCountOf.
  cbn [duplicate_import_ids].
  destruct dups as [|d0 dups']; [congruence|]. cbn [length Nat.ltb Nat.leb].
  unfold try_catch. rewrite updateDuplicates_unfold.
  rewrite (ref_list_ok accountId w F). cbv zeta.
  change (Ref.ledger (Ref.tick w)) with (Ref.ledger w).
  fold us. destruct us as [|u0 us'] eqn:Eu; [congruence|].
  cbn [length Nat.ltb Nat.leb].
  destruct (ref_update_ok (u0 :: us') (Ref.tick w) F) as [r Hr].
  rewrite Hr. split; reflexivity.
Qed.

(** The convergence against the reference ledger, when it answers
    every call. *)
Lemma convergence_on_reference_ledger :
  forall (w : Ref.World) (accountId : string)
         (upTxs : list TransactionResource)
         (t : TransactionDetail) (s : TransactionResource),
    Ref.failing w = [] ->
    NoDup (map td_id (Ref.ledger w)) ->
    In t (Ref.ledger w) ->
    td_deleted t = false ->
    td_account_id t = accountId ->
    td_import_id t = Some (importIdOf (tx_id s)) ->
    td_cleared t = Uncleared ->
    In s upTxs ->
    (forall s', In s' upTxs ->
                importIdOf (tx_id s') = importIdOf (tx_id s) ->
                attr status s' = Some "SETTLED") ->
    let x := syncToYNAB Ref.api accountId upTxs w in
    let key := importIdOf (tx_id s) in
    let batch := map (toYnabTransaction accountId (Ref.clock w)) upTxs in
    (exists res, result_of x = inr res /\ (0 < duplicates res)%Z)
    /\ createCalls (events_of x) = [(batch, true)]
    /\ (exists dups,
           duplicate_import_ids (fst (Ref.create batch w)) = Some dups
           /\ In key dups)
    /\ (exists updates,
           updateCalls (events_of x) = [(updates, true)]
           /\ In {| ut_id := td_id t; ut_cleared := Some Cleared |} updates)
    /\ In (Ref.withCleared t Cleared) (Ref.ledger (world_of x))
    /\ map td_id (filter (importIdIs key) (Ref.ledger (world_of x)))
       = map td_id (filter (importIdIs key) (Ref.ledger w)).
Proof.
  intros w accountId upTxs t s F Hnd Ht Hdel Hacc Hkey Hcl Hs Hall x key batch.
  assert (Hne : upTxs <> []) by (intros E; rewrite E in Hs; contradiction).
  (* the batched create *)
  assert (Tk : Ref.keyTaken (Ref.ledger w) key = true).
  { unfold Ref.keyTaken. apply existsb_exists. exists t. split; [exact Ht|].
    unfold importIdIs. rewrite Hkey. apply String.eqb_refl. }
  destruct (create_from batch (Ref.ledger w) [] [])
    as [[added [El Ha]] [_ [Kd Nd]]].
  cbv zeta in El, Ha, Kd, Nd.
  assert (Cr : Ref.create batch w
               = ({| created_transactions :=
                       Some (snd (fst (fold_left Ref.createOne batch
                                         (Ref.ledger w, [], []))));
                     duplicate_import_ids :=
                       Some (snd (fold_left Ref.createOne batch
                                    (Ref.ledger w, [], []))) |},
                  Ref.withLedger w (Ref.ledger w ++ added))).
  { unfold Ref.create. rewrite <- El.
    destruct (fold_left Ref.createOne batch (Ref.ledger w, [], []))
      as [[l' cr] dp]. reflexivity. }
  set (dups := snd (fold_left Ref.createOne batch (Ref.ledger w, [], []))) in *.
  set (cre := snd (fst (fold_left Ref.createOne batch (Ref.ledger w, [], []))))
    in *.
  assert (Kin : In key dups).
  { apply Kd; [exact Tk|]. exists (toYnabTransaction accountId (Ref.clock w) s).
    split; [apply in_map; exact Hs|reflexivity]. }
  assert (Hdn : dups <> []) by (intros E; rewrite E in Kin; contradiction).
  (* the transaction is listed and needs the update *)
  set (w1 := Ref.tick (Ref.withLedger w (Ref.ledger w ++ added))).
  assert (F1 : Ref.failing w1 = []) by exact F.
  set (us := transactionsToUpdateOf (desiredClearedStatusOf dups batch)
               (Ref.accountTransactions accountId (Ref.ledger w1))).
  assert (Gd : JS.get (desiredClearedStatusOf dups batch) key = Some Cleared).
  { unfold desiredClearedStatusOf, JS.newMap. apply newMap_get_agreed.
    - intros e He Hk. apply in_map_iff in He. destruct He as [tx [<- Htx]].
      apply filter_In in Htx. destruct Htx as [Htx _].
      apply in_map_iff in Htx. destruct Htx as [s' [<- Hs']].
      cbn [fst snd sv_import_id sv_cleared toYnabTransaction] in *.
      rewrite or_str_importIdOf in Hk.
      rewrite (Hall s' Hs' Hk). reflexivity.
    - exists (key, Cleared). split; [|reflexivity].
      apply in_map_iff. exists (toYnabTransaction accountId (Ref.clock w) s).
      split.
      + cbn [fst snd sv_import_id sv_cleared toYnabTransaction].
        rewrite or_str_importIdOf, (Hall s Hs eq_refl). reflexivity.
      + apply filter_In. split; [apply in_map; exact Hs|].
        cbn [sv_import_id toYnabTransaction]. apply includes_In. exact Kin. }
  assert (Uin : In {| ut_id := td_id t; ut_cleared := Some Cleared |} us).
  { unfold us, transactionsToUpdateOf. apply in_map_iff. exists t. split.
    - rewrite Hkey, or_str_importIdOf. fold key. rewrite Gd. reflexivity.
    - apply filter_In. split.
      + unfold Ref.accountTransactions. apply filter_In. split.
        * cbn. apply in_or_app. left. exact Ht.
        * rewrite Hacc, String.eqb_refl, Hdel. reflexivity.
      + rewrite Hkey, or_str_importIdOf. fold key. rewrite Gd, Hcl. reflexivity. }
  assert (Hun : us <> []) by (intros E; rewrite E in Uin; contradiction).
  destruct (ref_reconcile accountId (Some cre) dups batch w1 F1 Hdn Hun)
    as [Lx Ex].
  fold us in Lx, Ex.
  (* the run *)
  assert (X : x
              = (inr {| imported :=
                          (Z.of_nat (length batch) - Z.of_nat (length dups))%Z;
                        duplicates := Z.of_nat (length dups);
                        total := Z.of_nat (length batch) |},
                 world_of (reconcileDuplicates Ref.api accountId
                             {| created_transactions := Some cre;
                                duplicate_import_ids := Some dups |} batch w1),
                 statusWarnings upTxs
                 ++ Called (CreateTransactions batch) true
                    :: events_of (reconcileDuplicates Ref.api accountId
                                    {| created_transactions := Some cre;
                                       duplicate_import_ids := Some dups |}
                                    batch w1))).
  { unfold x. rewrite (syncToYNAB_nonempty Ref.api accountId upTxs w Hne).
    cbv zeta. change (toISOString Ref.api w) with (Ref.clock w). fold batch.
    rewrite (ref_create_ok batch w F), Cr. reflexivity. }
  destruct (noMutation_calls _ (statusWarnings_noMutation upTxs)) as [Cw [Uw _]].
  split; [|split; [|split; [|split; [|split]]]].
  - eexists. split; [rewrite X; reflexivity|]. cbn [duplicates].
    destruct dups; [congruence|]. cbn [length]. lia.
  - rewrite X. unfold events_of at 1. cbn [snd].
    rewrite createCalls_app, Cw, Ex. reflexivity.
  - exists dups. rewrite Cr. split; [reflexivity|exact Kin].
  - exists us. split; [|exact Uin].
    rewrite X. unfold events_of at 1. cbn [snd].
    rewrite updateCalls_app, Uw, Ex. reflexivity.
  - rewrite X. unfold world_of at 1. cbn [fst snd]. rewrite Lx.
    rewrite applyUpdates_map. apply in_map_iff. exists t. split.
    + apply updates_hit; [|exact Uin].
      unfold us, transactionsToUpdateOf. rewrite map_map. cbn [ut_id].
      apply filter_keeps_distinct. unfold Ref.accountTransactions.
      apply filter_keeps_distinct. cbn. rewrite <- El. apply Nd. exact Hnd.
    + change (Ref.ledger w1) with (Ref.ledger w ++ added).
      apply in_or_app. left. exact Ht.
  - rewrite X. unfold world_of at 1. cbn [fst snd]. rewrite Lx.
    rewrite updates_keep_keys.
    change (Ref.ledger w1) with (Ref.ledger w ++ added).
    assert (Fa : filter (importIdIs key) added = []).
    { clear - Ha Tk. induction added as [|a added IH]; [reflexivity|].
      cbn [filter]. rewrite (Ha key Tk a (or_introl eq_refl)).
      apply IH. intros k Hk a' Ha'. apply Ha; [exact Hk|right; exact Ha']. }
    rewrite filter_app, Fa, app_nil_r. reflexivity.
Qed.

Lemma desired_status_of_settled (dups : list string)
    (accountId isoNow : string) (upTxs : list TransactionResource)
    (s : TransactionResource) :
  In s upTxs ->
  In (importIdOf (tx_id s)) dups ->
  (forall s', In s' upTxs ->
              importIdOf (tx_id s') = importIdOf (tx_id s) ->
              attr status s' = Some "SETTLED") ->
  JS.get
    (desiredClearedStatusOf dups (map (toYnabTransaction accountId isoNow) upTxs))
    (importIdOf (tx_id s))
  = Some Cleared.
Proof.
  intros Hs Kin Hall. unfold desiredClearedStatusOf, JS.newMap.
  apply newMap_get_agreed.
  - intros e He Hk. apply in_map_iff in He. destruct He as [tx [<- Htx]].
    apply filter_In in Htx. destruct Htx as [Htx _].
    apply in_map_iff in Htx. destruct Htx as [s' [<- Hs']].
    cbn [fst snd sv_import_id sv_cleared toYnabTransaction] in *.
    rewrite or_str_importIdOf in Hk.
    rewrite (Hall s' Hs' Hk). reflexivity.
  - exists (importIdOf (tx_id s), Cleared). split; [|reflexivity].
    apply in_map_iff. exists (toYnabTransaction accountId isoNow s).
    split.
    + cbn [fst snd sv_import_id sv_cleared toYnabTransaction].
      rewrite or_str_importIdOf, (Hall s Hs eq_refl). reflexivity.
    + apply filter_In. split; [apply in_map; exact Hs|].
      cbn [sv_import_id toYnabTransaction]. apply includes_In. exact Kin.
Qed.

(** Whatever the ledger is: when the batched create reports the key as
    duplicate and the listing shows its holder [Uncleared], the sync
    submits the update of that holder to [Cleared], and its only create
    call is the batch. *)
Lemma reported_duplicate_is_updated {W : Type} (api : Api W)
    (accountId : string) (upTxs : list TransactionResource) (w : W)
    result w1 dups existing w2 (t : TransactionDetail)
    (s : TransactionResource) :
  createTransactions api
    (map (toYnabTransaction accountId (toISOString api w)) upTxs) w
  = (inr result, w1) ->
  duplicate_import_ids result = Some dups ->
  In (importIdOf (tx_id s)) dups ->
  getTransactionsByAccount api accountId w1 = (inr existing, w2) ->
  In t existing ->
  td_import_id t = Some (importIdOf (tx_id s)) ->
  td_cleared t = Uncleared ->
  In s upTxs ->
  (forall s', In s' upTxs ->
              importIdOf (tx_id s') = importIdOf (tx_id s) ->
              attr status s' = Some "SETTLED") ->
  let x := syncToYNAB api accountId upTxs w in
  let batch := map (toYnabTransaction accountId (toISOString api w)) upTxs in
  result_of x
  = inr {| imported := (Z.of_nat (length batch) - Z.of_nat (length dups))%Z;
           duplicates := Z.of_nat (length dups);
           total := Z.of_nat (length batch) |}
  /\ createCalls (events_of x) = [(batch, true)]
  /\ exists updates ok,
       updateCalls (events_of x) = [(updates, ok)]
       /\ In {| ut_id := td_id t; ut_cleared := Some Cleared |} updates.
Proof.
  intros Hc Hd Kin Hl Ht Hkey Hcl Hs Hall x batch.
  assert (Hne : upTxs <> []) by (intros E; rewrite E in Hs; contradiction).
  pose proof (desired_status_of_settled dups accountId (toISOString api w)
                upTxs s Hs Kin Hall) as Gd.
  fold batch in Gd, Hc.
  set (us := transactionsToUpdateOf (desiredClearedStatusOf dups batch) existing).
  assert (Uin : In {| ut_id := td_id t; ut_cleared := Some Cleared |} us).
  { unfold us, transactionsToUpdateOf. apply in_map_iff. exists t. split.
    - rewrite Hkey, or_str_importIdOf, Gd. reflexivity.
    - apply filter_In. split; [exact Ht|].
      rewrite Hkey, or_str_importIdOf, Gd, Hcl. reflexivity. }
  assert (R : exists wx ok,
             reconcileDuplicates api accountId result batch w1
             = (inr tt, wx,
                [Called (GetTransactionsByAccount accountId) true;
                 Called (UpdateTransactions us) ok])).
  { unfold reconcileDuplicates, duplicateCountOf. rewrite Hd.
    destruct dups as [|d0 dups']; [contradiction|]. cbn [length Nat.ltb Nat.leb].
    unfold try_catch. rewrite updateDuplicates_unfold, Hl. cbv zeta. fold us.
    destruct us as [|u0 us'] eqn:Eu; [contradiction|].
    cbn [length Nat.ltb Nat.leb].
    destruct (updateTransactions api (u0 :: us') w2) as [[e|r] w3];
      eexists; eexists; reflexivity. }
  destruct R as [wx [ok R]].
  destruct (noMutation_calls _ (statusWarnings_noMutation upTxs)) as [Cw [Uw _]].
  unfold x. rewrite (syncToYNAB_nonempty api accountId upTxs w Hne).
  cbv zeta. fold batch. rewrite Hc, R.
  unfold duplicateCountOf. rewrite Hd.
  unfold result_of, events_of. cbn [fst snd].
  split; [reflexivity|]. split.
  - rewrite createCalls_app, Cw. reflexivity.
  - exists us, ok. split; [|exact Uin].
    rewrite updateCalls_app, Uw. reflexivity.
Qed.

(** C1. Let a target transaction carry the key of a source
    transaction and be [Uncleared], as sync left it while the source
    was held, and let sync run over a window in which that source
    (every fetched transaction carrying that key) is now [SETTLED].
    Whatever the ledger is, once its batched create reports the key as
    a duplicate and its listing of the account shows the transaction,
    the sync submits the update of that very transaction to [Cleared]
    and creates nothing but the batch.  Against the reference ledger,
    when it answers every call: the key is reported as a duplicate,
    the update is submitted, the ledger then holds the transaction as
    [Cleared], and the transactions carrying the key are the same as
    before: none was created for it. *)
Theorem cleared_state_convergence :
  (forall (W : Type) (api : Api W) (accountId : string)
          (upTxs : list TransactionResource) (w : W)
          result w1 dups existing w2 (t : TransactionDetail)
          (s : TransactionResource),
      createTransactions api
        (map (toYnabTransaction accountId (toISOString api w)) upTxs) w
      = (inr result, w1) ->
      duplicate_import_ids result = Some dups ->
      In (importIdOf (tx_id s)) dups ->
      getTransactionsByAccount api accountId w1 = (inr existing, w2) ->
      In t existing ->
      td_import_id t = Some (importIdOf (tx_id s)) ->
      td_cleared t = Uncleared ->
      In s upTxs ->
      (forall s', In s' upTxs ->
                  importIdOf (tx_id s') = importIdOf (tx_id s) ->
                  attr status s' = Some "SETTLED") ->
      let x := syncToYNAB api accountId upTxs w in
      let batch := map (toYnabTransaction accountId (toISOString api w)) upTxs in
      result_of x
      = inr {| imported := (Z.of_nat (length batch) - Z.of_nat (length dups))%Z;
               duplicates := Z.of_nat (length dups);
               total := Z.of_nat (length batch) |}
      /\ createCalls (events_of x) = [(batch, true)]
      /\ exists updates ok,
           updateCalls (events_of x) = [(updates, ok)]
           /\ In {| ut_id := td_id t; ut_cleared := Some Cleared |} updates)
  /\ (forall (w : Ref.World) (accountId : string)
             (upTxs : list TransactionResource)
             (t : TransactionDetail) (s : TransactionResource),
         Ref.failing w = [] ->
         NoDup (map td_id (Ref.ledger w)) ->
         In t (Ref.ledger w) ->
         td_deleted t = false ->
         td_account_id t = accountId ->
         td_import_id t = Some (importIdOf (tx_id s)) ->
         td_cleared t = Uncleared ->
         In s upTxs ->
         (forall s', In s' upTxs ->
                     importIdOf (tx_id s') = importIdOf (tx_id s) ->
                     attr status s' = Some "SETTLED") ->
         let x := syncToYNAB Ref.api accountId upTxs w in
         let key := importIdOf (tx_id s) in
         let batch := map (toYnabTransaction accountId (Ref.clock w)) upTxs in
         (exists res, result_of x = inr res /\ (0 < duplicates res)%Z)
         /\ createCalls (events_of x) = [(batch, true)]
         /\ (exists dups,
                duplicate_import_ids (fst (Ref.create batch w)) = Some dups
                /\ In key dups)
         /\ (exists updates,
                updateCalls (events_of x) = [(updates, true)]
                /\ In {| ut_id := td_id t; ut_cleared := Some Cleared |} updates)
         /\ In (Ref.withCleared t Cleared) (Ref.ledger (world_of x))
         /\ map td_id (filter (importIdIs key) (Ref.ledger (world_of x)))
            = map td_id (filter (importIdIs key) (Ref.ledger w))).
Proof.
  split.
  - intros W api. exact (reported_duplicate_is_updated api).
  - exact convergence_on_reference_ledger.
Qed.

Lemma cleared_state_convergence_witness :
  Ref.failing (Samples.settledSince []) = []
  /\ In (Ref.ynabTx "y1" "Y1" "UPBANK:a" Uncleared false)
        (Ref.ledger (Samples.settledSince []))
  /\ In (Ref.ynabTx "y1" "Y1" "UPBANK:a" Cleared false)
        (Ref.ledger
           (world_of (syncToYNAB Ref.api "Y1" [Ref.upTx "a" "SETTLED"]
                        (Samples.settledSince []))))
  /\ map td_id
       (filter (importIdIs "UPBANK:a")
          (Ref.ledger
             (world_of (syncToYNAB Ref.api "Y1" [Ref.upTx "a" "SETTLED"]
                          (Samples.settledSince [])))))
     = ["y1"]
  /\ createCalls
       (events_of (syncToYNAB Ref.api "Y1" [Ref.upTx "a" "SETTLED"]
                     (Samples.settledSince [])))
     = [([toYnabTransaction "Y1" "2024-03-05T00:00:00.000Z"
            (Ref.upTx "a" "SETTLED")], true)].
Proof.
  assert (H : In (Ref.ynabTx "y1" "Y1" "UPBANK:a" Uncleared false)
                 (Ref.ledger (Samples.settledSince [])))
    by (left; reflexivity).
  pose proof (proj2 cleared_state_convergence (Samples.settledSince []) "Y1"
                [Ref.upTx "a" "SETTLED"]
                (Ref.ynabTx "y1" "Y1" "UPBANK:a" Uncleared false)
                (Ref.upTx "a" "SETTLED")
                eq_refl) as C.
  cbv zeta in C.
  destruct C as [_ [_ [_ [_ [C1 C2]]]]].
  - constructor; [intros []|constructor].
  - exact H.
  - reflexivity.
  - reflexivity.
  - reflexivity.
  - reflexivity.
  - left. reflexivity.
  - intros s' [<-|[]] _. reflexivity.
  - split; [reflexivity|]. split; [exact H|]. split; [exact C1|].
    split; [exact C2|].
    pose (batch := [toYnabTransaction "Y1" "2024-03-05T00:00:00.000Z"
                      (Ref.upTx "a" "SETTLED")]).
    pose (w1 := Ref.tick (snd (Ref.create batch (Samples.settledSince [])))).
    destruct (proj1 cleared_state_convergence Ref.World Ref.api "Y1"
                [Ref.upTx "a" "SETTLED"] (Samples.settledSince [])
                (fst (Ref.create batch (Samples.settledSince [])))
                w1 ["UPBANK:a"]
                (Ref.accountTransactions "Y1" (Ref.ledger w1)) (Ref.tick w1)
                (Ref.ynabTx "y1" "Y1" "UPBANK:a" Uncleared false)
                (Ref.upTx "a" "SETTLED"))
      as [_ [G _]].
    + vm_compute. reflexivity.
    + vm_compute. reflexivity.
    + left. reflexivity.
    + vm_compute. reflexivity.
    + left. reflexivity.
    + reflexivity.
    + reflexivity.
    + left. reflexivity.
    + intros s' [<-|[]] _. reflexivity.
    + exact G.
Defined.

(** *** Outside the hypotheses of C1 and of C10 *)

(** Two source transactions whose ids agree on their first 29
    characters carry one key; when the later one in the batch is still
    held, the desired status of the key is [Uncleared] and the target
    transaction is not updated, though the earlier one has settled. *)
Lemma colliding_keys_keep_uncleared :
  importIdOf "0123456789012345678901234567-A"
  = importIdOf "0123456789012345678901234567-B"
  /\ updateCalls
       (events_of
          (syncToYNAB Ref.api "Y1"
             [Ref.upTx "0123456789012345678901234567-A" "SETTLED";
              Ref.upTx "0123456789012345678901234567-B" "HELD"]
             (Ref.world
                [Ref.ynabTx "y1" "Y1" "UPBANK:0123456789012345678901234567-"
                   Uncleared false]
                [] [])))
     = [].
Proof. split; vm_compute; reflexivity. Qed.

(** A delete call that throws is caught like a listing that throws:
    the search goes on, and the match of the next account is deleted. *)
Lemma failed_delete_continues_search :
  deleteCalls
    (events_of (deleteFromYNAB Ref.api Samples.mapping2 "a"
                  (Samples.heldTwice [1])))
  = [("y1", false); ("y2", true)]
  /\ result_of (deleteFromYNAB Ref.api Samples.mapping2 "a"
                  (Samples.heldTwice [1]))
     = inr {| deleted := true; notFound := false |}.
Proof. split; vm_compute; reflexivity. Qed.

(* ================================================================== *)
(** ** Beyond the claims: the rest of the worker *)
(* ================================================================== *)

(** *** [checkAuth] *)

Lemma substring_skip (p r : string) (n : nat) :
  String.substring (String.length p) n (p ++ r)%string = String.substring 0 n r.
Proof.
  induction p as [|c p IH]; [reflexivity|]. simpl. exact IH.
Qed.

Lemma substring_all (s : string) :
  String.substring 0 (String.length s) s = s.
Proof.
  induction s as [|c s IH]; [reflexivity|]. simpl. rewrite IH. reflexivity.
Qed.

Lemma length_append (p r : string) :
  String.length (p ++ r)%string = String.length p + String.length r.
Proof.
  induction p as [|c p IH]; [reflexivity|]. simpl. rewrite IH. reflexivity.
Qed.

Lemma substringFrom_append (p r : string) :
  Web.substringFrom (p ++ r)%string (String.length p) = r.
Proof.
  unfold Web.substringFrom, JS.substring.
  rewrite length_append.
  rewrite Nat.min_l, Nat.max_r by lia.
  replace (String.length p + String.length r - String.length p)
    with (String.length r) by lia.
  rewrite substring_skip. apply substring_all.
Qed.

Lemma checkAuth_spec (request : Request) (env : Env) :
  checkAuth request env = None
  <-> req_authorization request = Some ("Bearer " ++ API_KEY env)%string.
Proof.
  unfold checkAuth.
  destruct (req_authorization request) as [h|]; [|split; discriminate].
  destruct (JS.truthy (Some h)) eqn:T; cbn [negb orb].
  - destruct (JS.startsWith h "Bearer ") eqn:P; cbn [negb].
    + unfold JS.startsWith in P. apply prefix_app in P. destruct P as [r ->].
      change 7 with (String.length "Bearer ").
      rewrite substringFrom_append.
      destruct (String.eqb_spec r (API_KEY env)) as [->|N]; cbn [negb].
      * split; reflexivity.
      * split; [discriminate|]. intros E. inversion E. congruence.
    + split; [discriminate|]. intros E. inversion E as [E1]. subst h.
      unfold JS.startsWith in P.
      assert (Q : String.prefix "Bearer " ("Bearer " ++ API_KEY env)%string = true).
      { apply prefix_app. exists (API_KEY env). reflexivity. }
      congruence.
  - split; [discriminate|]. intros E. inversion E as [E1]. subst h.
    discriminate.
Qed.

Lemma checkAuth_message (request : Request) (env : Env) (message : string) :
  checkAuth request env = Some message -> JS.truthy (Some message) = true.
Proof.
  unfold checkAuth.
  destruct (req_authorization request) as [h|];
    [|intros E; inversion E; reflexivity].
  destruct (negb (JS.truthy (Some h)) || negb (JS.startsWith h "Bearer "));
    [intros E; inversion E; reflexivity|].
  destruct (negb (Web.substringFrom h 7 =? API_KEY env)%string);
    [intros E; inversion E; reflexivity|discriminate].
Qed.

(** X1. [checkAuth] lets a request through exactly when its
    Authorization header is ["Bearer "] followed by the configured API
    key: a missing or empty header, another scheme and any other key
    are refused, each with a message that is not empty. *)
Theorem checkAuth_accepts_exactly_the_bearer_key :
  forall (request : Request) (env : Env),
    (checkAuth request env = None
     <-> req_authorization request = Some ("Bearer " ++ API_KEY env)%string)
    /\ (forall message,
           checkAuth request env = Some message ->
           message = "Missing Authorization header"
           \/ message = "Invalid API key").
Proof.
  intros request env. split; [apply checkAuth_spec|].
  intros message. unfold checkAuth.
  destruct (req_authorization request) as [h|];
    [|intros E; inversion E; left; reflexivity].
  destruct (negb (JS.truthy (Some h)) || negb (JS.startsWith h "Bearer "));
    [intros E; inversion E; left; reflexivity|].
  destruct (negb (Web.substringFrom h 7 =? API_KEY env)%string);
    [intros E; inversion E; right; reflexivity|discriminate].
Qed.

Lemma checkAuth_accepts_exactly_the_bearer_key_witness :
  checkAuth (RefWeb.call "POST" "/sync" "{}") RefWeb.env = None
  /\ checkAuth (RefWeb.delivery "PING" "00") RefWeb.env
     = Some "Missing Authorization header".
Proof.
  split.
  - apply (proj1 (checkAuth_accepts_exactly_the_bearer_key
                    (RefWeb.call "POST" "/sync" "{}") RefWeb.env)).
    reflexivity.
  - destruct (proj2 (checkAuth_accepts_exactly_the_bearer_key
                       (RefWeb.delivery "PING" "00") RefWeb.env)
                _ eq_refl) as [E|E]; [reflexivity|reflexivity].
Defined.

(** *** [verifyWebhookSignature] *)

Lemma byte_hex_shape (b : Byte.byte) :
  exists c1 c2,
    Web.padStart (Web.toString16 b) 2 "0" = String c1 (String c2 EmptyString)
    /\ isLowerHex c1 = true /\ isLowerHex c2 = true
    /\ Byte.of_N (16 * hexValue c1 + hexValue c2) = Some b.
Proof.
  destruct b;
    (eexists; eexists; split; [reflexivity|];
     split; [reflexivity|]; split; reflexivity).
Qed.

Lemma join_cons (s : string) (l : list string) :
  Web.join (s :: l) = (s ++ Web.join l)%string.
Proof.
  unfold Web.join. destruct l as [|x l]; simpl.
  - induction s as [|c s IH]; [reflexivity|]. simpl. rewrite <- IH. reflexivity.
  - reflexivity.
Qed.

Lemma computedSignatureOf_cons (b : Byte.byte) (bs : list Byte.byte) :
  computedSignatureOf (b :: bs)
  = (Web.padStart (Web.toString16 b) 2 "0" ++ computedSignatureOf bs)%string.
Proof.
  unfold computedSignatureOf. cbn [map]. apply join_cons.
Qed.

Lemma computedSignature_spec (mac : list Byte.byte) :
  String.length (computedSignatureOf mac) = 2 * length mac
  /\ forallb isLowerHex (list_ascii_of_string (computedSignatureOf mac)) = true
  /\ bytesOfHex (computedSignatureOf mac) = Some mac.
Proof.
  induction mac as [|b bs [IH1 [IH2 IH3]]]; [repeat split|].
  rewrite computedSignatureOf_cons.
  destruct (byte_hex_shape b) as [c1 [c2 [E [H1 [H2 D]]]]].
  rewrite E. cbn [append String.length list_ascii_of_string forallb bytesOfHex].
  rewrite IH1, IH2, IH3, H1, H2, D. cbn [length andb].
  repeat split. lia.
Qed.

(** X2. A signature that [verifyWebhookSignature] accepts is the MAC
    of the body under the secret, written as two lowercase hexadecimal
    digits a byte: it is twice as long as the MAC, holds no other
    character (so the same digits in upper case are refused), and it
    determines the MAC, so that one signature vouches for one MAC
    only. *)
Theorem accepted_signature_is_the_hex_mac :
  forall (platform : Platform) (body signature secret : string),
    verifyWebhookSignature platform body signature secret = true ->
    String.length signature = 2 * length (hmacSha256 platform secret body)
    /\ forallb isLowerHex (list_ascii_of_string signature) = true
    /\ bytesOfHex signature = Some (hmacSha256 platform secret body)
    /\ (forall body' secret',
           verifyWebhookSignature platform body' signature secret' = true ->
           hmacSha256 platform secret' body' = hmacSha256 platform secret body).
Proof.
  intros platform body signature secret V.
  unfold verifyWebhookSignature in V. apply String.eqb_eq in V.
  destruct (computedSignature_spec (hmacSha256 platform secret body))
    as [L [X D]].
  rewrite V in L, X, D.
  repeat split; try assumption.
  intros body' secret' V'.
  unfold verifyWebhookSignature in V'. apply String.eqb_eq in V'.
  destruct (computedSignature_spec (hmacSha256 platform secret' body'))
    as [_ [_ D']].
  rewrite V' in D'. congruence.
Qed.

Lemma accepted_signature_is_the_hex_mac_witness :
  verifyWebhookSignature RefWeb.platform "PING" "7350494e47" "s" = true
  /\ bytesOfHex "7350494e47" = Some (hmacSha256 RefWeb.platform "s" "PING").
Proof.
  split; [reflexivity|].
  exact (proj1 (proj2 (proj2
           (accepted_signature_is_the_hex_mac RefWeb.platform
              "PING" "7350494e47" "s" eq_refl)))).
Defined.

(** *** The idempotency key *)

Lemma substring0_short (n : nat) (s : string) :
  String.length s <= n -> String.substring 0 n s = s.
Proof.
  revert s. induction n as [|n IH]; intros s L.
  - destruct s; [reflexivity|simpl in L; lia].
  - destruct s as [|c s]; [reflexivity|]. simpl in *. rewrite IH by lia.
    reflexivity.
Qed.

Lemma append_injective (p a b : string) :
  (p ++ a)%string = (p ++ b)%string -> a = b.
Proof.
  induction p as [|c p IH]; simpl; [trivial|].
  intros E. inversion E. auto.
Qed.

(** X3. Two source transactions get the same idempotency key exactly
    when their ids agree on their first 29 characters: ids of at most
    29 characters never share a key, and longer ids (a UUID has 36)
    are told apart by their first 29 characters only. *)
Theorem importId_collides_on_29_characters :
  forall a b : string,
    (importIdOf a = importIdOf b
     <-> JS.substring a 0 29 = JS.substring b 0 29)
    /\ (String.length a <= 29 -> String.length b <= 29 ->
        importIdOf a = importIdOf b -> a = b)
    /\ (forall x y : string,
           String.length a = 29 ->
           importIdOf (a ++ x) = importIdOf (a ++ y)).
Proof.
  intros a b.
  assert (K : importIdOf a = importIdOf b
              <-> JS.substring a 0 29 = JS.substring b 0 29).
  { rewrite !importIdOf_prefix. split.
    - apply append_injective.
    - intros ->. reflexivity. }
  split; [exact K|]. split.
  - intros La Lb E. apply K in E. rewrite !js_substring0 in E.
    rewrite !substring0_short in E by assumption. exact E.
  - intros x y La. rewrite !importIdOf_prefix, !js_substring0.
    f_equal.
    assert (P : forall z, String.substring 0 29 (a ++ z) = a).
    { intros z. rewrite <- La. clear. induction a as [|c a IH]; simpl.
      - destruct z; reflexivity.
      - rewrite IH. reflexivity. }
    rewrite !P. reflexivity.
Qed.

Lemma importId_collides_on_29_characters_witness :
  importIdOf "0123456789abcdef0123456789abcXXXXXXX"
  = importIdOf "0123456789abcdef0123456789abcYYYYYYY"
  /\ (importIdOf "a" = importIdOf "a" -> "a" = "a").
Proof.
  split.
  - exact (proj2 (proj2 (importId_collides_on_29_characters
                           "0123456789abcdef0123456789abc" ""))
             "XXXXXXX" "YYYYYYY" eq_refl).
  - apply (proj1 (proj2 (importId_collides_on_29_characters "a" "a")));
      simpl; lia.
Defined.

(** *** [fetchUpTransactionsByAccount] *)

Lemma pageRequests_cons (accountId sinceDate : string) (first count : nat)
    (ok : bool) :
  pageRequests accountId sinceDate first (S count) ok
  = Called (UpGet accountId sinceDate first) ok
    :: pageRequests accountId sinceDate (S first) count ok.
Proof. reflexivity. Qed.

Lemma pageCount_pos (chain : PageChain) : 1 <= pageCount chain.
Proof. destruct chain; simpl; lia. Qed.

Lemma followPages_requests (accountId sinceDate : string) (chain : PageChain) :
  forall page acc,
    snd (followPages accountId sinceDate page chain acc)
    = match chainError chain with
      | None => pageRequests accountId sinceDate page (pageCount chain) true
      | Some _ =>
          pageRequests accountId sinceDate page (pageCount chain - 1) true
          ++ [Called (UpGet accountId sinceDate (page + (pageCount chain - 1)))
                false]
      end.
Proof.
  induction chain as [data|data next IH|st txt|e]; intros page acc.
  - reflexivity.
  - cbn [followPages chainError pageCount].
    specialize (IH (S page) (acc ++ data)).
    destruct (followPages accountId sinceDate (S page) next (acc ++ data))
      as [r evs].
    cbn [snd] in *. rewrite IH.
    pose proof (pageCount_pos next) as P.
    destruct (chainError next) as [e|].
    + replace (S (pageCount next) - 1) with (S (pageCount next - 1)) by lia.
      rewrite pageRequests_cons. cbn [app].
      replace (page + S (pageCount next - 1))
        with (S page + (pageCount next - 1)) by lia.
      reflexivity.
    + rewrite pageRequests_cons. reflexivity.
  - cbn. rewrite Nat.add_0_r. reflexivity.
  - cbn. rewrite Nat.add_0_r. reflexivity.
Qed.

(** X4. [fetchUpTransactionsByAccount] asks for the pages one after
    the other, numbered from 0, and for nothing else.  When every page
    is answered it returns the transactions of all the pages, in
    order; when a page is answered by an error, the pages before it
    were all asked for, nothing is asked after it, and the error is
    thrown, the transactions of the earlier pages being lost. *)
Theorem fetch_follows_every_page :
  forall (W : Type) (api : Api W) (accountId sinceDate : string) (w : W),
    let chain := fst (upTransactions api accountId sinceDate w) in
    let x := fetchUpTransactionsByAccount api accountId sinceDate w in
    (chainError chain = None ->
     result_of x = inr (chainData chain)
     /\ events_of x = pageRequests accountId sinceDate 0 (pageCount chain) true)
    /\ (forall e,
           chainError chain = Some e ->
           result_of x = inl e
           /\ events_of x
              = pageRequests accountId sinceDate 0 (pageCount chain - 1) true
                ++ [Called (UpGet accountId sinceDate (pageCount chain - 1))
                      false]).
Proof.
  intros W api accountId sinceDate w chain x.
  subst x. rewrite fetch_unfold. fold chain.
  unfold result_of, events_of. cbn [fst snd].
  rewrite followPages_requests.
  split.
  - intros E. rewrite E. split; reflexivity.
  - intros e E. rewrite E. split; reflexivity.
Qed.

Lemma fetch_follows_every_page_witness :
  result_of
    (fetchUpTransactionsByAccount Ref.api "U1" "2024-03-01" (Samples.drifted []))
  = inr [Ref.upTx "a" "SETTLED"]
  /\ events_of
       (fetchUpTransactionsByAccount Ref.api "U1" "2024-03-01"
          (Samples.drifted [0]))
     = [Called (UpGet "U1" "2024-03-01" 0) false].
Proof.
  split.
  - exact (proj1 (proj1 (fetch_follows_every_page Ref.World Ref.api
                           "U1" "2024-03-01" (Samples.drifted []))
                    eq_refl)).
  - exact (proj2 (proj2 (fetch_follows_every_page Ref.World Ref.api
                           "U1" "2024-03-01" (Samples.drifted [0]))
                    _ eq_refl)).
Defined.

(** *** The HTTP handler *)

Lemma lift_run {W A : Type} (m : M W A) (w : W) :
  lift m w = (result_of (m w), world_of (m w), map Ledger (events_of (m w))).
Proof.
  unfold lift. destruct (m w) as [[r w1] evs]. reflexivity.
Qed.

Lemma hbind_evaluated {W A B : Type} (r : Result A) (f : A -> Entry W B)
    (w : W) :
  hbind (evaluated r) f w
  = match r with
    | inl e => (inl e, w, [])
    | inr a => f a w
    end.
Proof.
  unfold hbind, evaluated. destruct r as [e|a]; [reflexivity|].
  destruct (f a w) as [[r w2] t2]. reflexivity.
Qed.

Lemma hbind_run {W A B : Type} (m : Entry W A) (f : A -> Entry W B) (w : W) :
  hbind m f w
  = match m w with
    | (inl e, w1, t1) => (inl e, w1, t1)
    | (inr a, w1, t1) =>
        (hresult_of (f a w1), hworld_of (f a w1), t1 ++ activity_of (f a w1))
    end.
Proof.
  unfold hbind. destruct (m w) as [[[e|a] w1] t1]; [reflexivity|].
  destruct (f a w1) as [[r w2] t2]. reflexivity.
Qed.

Lemma hcatch_run {W : Type} (m : Entry W Response) (w : W) :
  hcatch m (internalError (W := W)) w
  = (inr match hresult_of (m w) with
         | inl error => jsonError error 500
         | inr response => response
         end,
     hworld_of (m w), activity_of (m w)).
Proof.
  unfold hcatch, internalError, hret.
  destruct (m w) as [[[e|a] w1] t1]; cbn; rewrite ?app_nil_r; reflexivity.
Qed.



Lemma route_fields (request : Request) (method pathname : string) :
  routeOf request = (method, pathname) ->
  req_method request = method /\ req_pathname request = pathname.
Proof. unfold routeOf. intros E. inversion E. split; reflexivity. Qed.

Section Routes.

Context {W : Type} (platform : Platform) (services : Services W).
Variables (request : Request) (env : Env).

Let handle := fetchHandler platform services request env.

Lemma route_upAccounts :
  routeOf request = ("GET", "/up/accounts") ->
  handle = authorized request env (upAccountsRoute services).
Proof.
  intros R. apply route_fields in R. destruct R as [Rm Rp].
  unfold handle, fetchHandler. rewrite Rm, Rp. reflexivity.
Qed.

Lemma route_createWebhook :
  routeOf request = ("POST", "/webhook/create") ->
  handle = authorized request env (createWebhookRoute services env).
Proof.
  intros R. apply route_fields in R. destruct R as [Rm Rp].
  unfold handle, fetchHandler. rewrite Rm, Rp. reflexivity.
Qed.

Lemma route_webhook :
  routeOf request = ("POST", "/webhook") ->
  handle = webhookRoute platform services request env.
Proof.
  intros R. apply route_fields in R. destruct R as [Rm Rp].
  unfold handle, fetchHandler. rewrite Rm, Rp. reflexivity.
Qed.

Lemma route_ynabInfo :
  routeOf request = ("GET", "/ynab/info") ->
  handle = authorized request env (ynabInfoRoute services env).
Proof.
  intros R. apply route_fields in R. destruct R as [Rm Rp].
  unfold handle, fetchHandler. rewrite Rm, Rp. reflexivity.
Qed.

Lemma route_resyncDryRun :
  routeOf request = ("POST", "/resync-all-dryrun") ->
  handle = authorized request env (resyncRoute platform services env true).
Proof.
  intros R. apply route_fields in R. destruct R as [Rm Rp].
  unfold handle, fetchHandler. rewrite Rm, Rp. reflexivity.
Qed.

Lemma route_resync :
  routeOf request = ("POST", "/resync-all") ->
  handle = authorized request env (resyncRoute platform services env false).
Proof.
  intros R. apply route_fields in R. destruct R as [Rm Rp].
  unfold handle, fetchHandler. rewrite Rm, Rp. reflexivity.
Qed.

Lemma route_sync :
  routeOf request = ("POST", "/sync") ->
  handle = authorized request env (syncRoute platform services request env).
Proof.
  intros R. apply route_fields in R. destruct R as [Rm Rp].
  unfold handle, fetchHandler. rewrite Rm, Rp. reflexivity.
Qed.

Lemma route_test (method pathname : string) :
  ((req_method request =? method) && (req_pathname request =? pathname))%string
  = true
  <-> routeOf request = (method, pathname).
Proof.
  unfold routeOf. rewrite andb_true_iff, !String.eqb_eq.
  split; [intros [-> ->]; reflexivity|intros E; inversion E; split; reflexivity].
Qed.

Lemma route_unknown :
  ~ In (routeOf request) (("POST", "/webhook") :: protectedRoutes) ->
  handle
  = hret {| res_status := 404; res_body := TextBody "Up Bank to YNAB Sync Worker" |}.
Proof.
  intros N. unfold handle, fetchHandler.
  repeat
    match goal with
    | |- context [((req_method request =? ?m) && (req_pathname request =? ?p))%string] =>
        let T := fresh "T" in
        destruct ((req_method request =? m) && (req_pathname request =? p))%string
          eqn:T;
        [exfalso; apply N; apply route_test in T; rewrite T;
         unfold protectedRoutes; simpl; tauto|]
    end.
  reflexivity.
Qed.

Lemma authorized_refused (route : Entry W Response) (message : string) :
  checkAuth request env = Some message ->
  authorized request env route = hret (jsonError message 401).
Proof.
  intros C. unfold authorized. rewrite C.
  rewrite (checkAuth_message _ _ _ C). reflexivity.
Qed.

Lemma authorized_passed (route : Entry W Response) :
  checkAuth request env = None -> authorized request env route = route.
Proof. intros C. unfold authorized. rewrite C. reflexivity. Qed.

Lemma protected_route (w : W) :
  In (routeOf request) protectedRoutes ->
  exists route, handle = authorized request env route.
Proof.
  unfold protectedRoutes. simpl.
  intros [R|[R|[R|[R|[R|[R|[]]]]]]]; symmetry in R.
  - eexists. apply route_upAccounts; exact R.
  - eexists. apply route_createWebhook; exact R.
  - eexists. apply route_ynabInfo; exact R.
  - eexists. apply route_resyncDryRun; exact R.
  - eexists. apply route_resync; exact R.
  - eexists. apply route_sync; exact R.
Qed.

End Routes.

(** X5. On every route behind [checkAuth] (the Up Bank accounts, the
    webhook registration, the YNAB information, both resyncs and the
    manual sync) a request whose Authorization header is not
    ["Bearer "] followed by the API key is answered 401, the outside
    world is left as it was and no remote call is made. *)
Theorem protected_routes_refuse_without_the_key :
  forall (W : Type) (platform : Platform) (services : Services W)
         (request : Request) (env : Env) (w : W),
    In (routeOf request) protectedRoutes ->
    req_authorization request <> Some ("Bearer " ++ API_KEY env)%string ->
    exists message,
      fetchHandler platform services request env w
      = (inr (jsonError message 401), w, []).
Proof.
  intros W platform services request env w R A.
  destruct (protected_route platform services request env w R) as [route E].
  destruct (checkAuth request env) as [message|] eqn:C.
  - exists message. rewrite E, (authorized_refused _ _ _ _ C). reflexivity.
  - apply checkAuth_spec in C. contradiction.
Qed.

Lemma protected_routes_refuse_without_the_key_witness :
  exists message,
    fetchHandler RefWeb.platform RefWeb.services
      {| req_method := "POST"; req_pathname := "/resync-all";
         req_authorization := Some "Bearer guess"; req_signature := None;
         req_body := "" |}
      RefWeb.env (Samples.drifted [])
    = (inr (jsonError message 401), Samples.drifted [], []).
Proof.
  apply protected_routes_refuse_without_the_key.
  - unfold protectedRoutes, routeOf. simpl. tauto.
  - discriminate.
Defined.

(** X6. A request for anything but the seven routes of the handler (a
    route is a method with a path: a GET of /sync is none) is answered
    404 with the name of the worker, and no remote call is made. *)
Theorem unknown_routes_are_not_found :
  forall (W : Type) (platform : Platform) (services : Services W)
         (request : Request) (env : Env) (w : W),
    ~ In (routeOf request) (("POST", "/webhook") :: protectedRoutes) ->
    fetchHandler platform services request env w
    = (inr {| res_status := 404;
              res_body := TextBody "Up Bank to YNAB Sync Worker" |},
       w, []).
Proof.
  intros W platform services request env w N.
  rewrite (route_unknown platform services request env N). reflexivity.
Qed.

Lemma unknown_routes_are_not_found_witness :
  fetchHandler RefWeb.platform RefWeb.services
    (RefWeb.call "GET" "/sync" "{}") RefWeb.env (Samples.drifted [])
  = (inr {| res_status := 404;
            res_body := TextBody "Up Bank to YNAB Sync Worker" |},
     Samples.drifted [], []).
Proof.
  apply unknown_routes_are_not_found.
  unfold protectedRoutes, routeOf. simpl.
  intros [E|[E|[E|[E|[E|[E|[E|[]]]]]]]]; discriminate.
Defined.

(** *** POST /webhook *)

Lemma or_undefined_truthy (o : option string) (s : string) :
  JS.or_undefined o = Some s -> o = Some s /\ JS.truthy o = true /\ s <> "".
Proof.
  destruct o as [[|c r]|]; simpl; try discriminate.
  intros E. inversion E. repeat split. discriminate.
Qed.

Lemma or_undefined_falsy (o : option string) :
  JS.or_undefined o = None -> JS.truthy o = false.
Proof. destruct o as [[|c r]|]; simpl; congruence. Qed.

Section Webhook.

Context {W : Type} (platform : Platform) (services : Services W).
Variables (request : Request) (env : Env).

(** What the webhook route does once the signature is accepted. *)
Lemma webhook_accepted (w : W) :
  signatureAccepted platform request env = true ->
  webhookRoute platform services request env w
  = hcatch
      (hbind (evaluated (eventTypeOf platform (req_body request)))
         (fun eventType =>
            if isTransactionEvent eventType
            then transactionEvent platform services request env
            else if isDeletionEvent eventType
            then deletionEvent platform services request env
            else hret (jsonResponse (EventReceivedBody eventType) 200)))
      (internalError (W := W)) w.
Proof.
  unfold signatureAccepted, webhookRoute, hcatch.
  destruct (JS.or_undefined (req_signature request)) as [signature|];
    [|discriminate].
  intros A.
  destruct (JS.truthy (UP_WEBHOOK_SECRET env)); cbn [negb orb andb] in *.
  - rewrite A. reflexivity.
  - reflexivity.
Qed.

Lemma webhook_refused (w : W) :
  signatureAccepted platform request env = false ->
  exists message,
    webhookRoute platform services request env w
    = (inr (jsonError message 401), w, []).
Proof.
  unfold signatureAccepted, webhookRoute, hcatch.
  destruct (JS.or_undefined (req_signature request)) as [signature|].
  - intros A. apply orb_false_iff in A. destruct A as [A1 A2].
    apply negb_false_iff in A1. rewrite A1, A2.
    eexists. reflexivity.
  - intros _. eexists. reflexivity.
Qed.

End Webhook.

(** X7. A webhook delivery without a signature header (or with an
    empty one) is answered 401 ['Missing signature header']; when a
    webhook secret is configured, a delivery whose signature is not
    the hexadecimal MAC of its body under that secret is answered 401
    ['Invalid signature'].  Neither makes a remote call: the body is
    not even parsed. *)
Theorem webhook_refuses_bad_signatures :
  forall (W : Type) (platform : Platform) (services : Services W)
         (request : Request) (env : Env) (w : W),
    routeOf request = ("POST", "/webhook") ->
    (JS.or_undefined (req_signature request) = None ->
     fetchHandler platform services request env w
     = (inr (jsonError "Missing signature header" 401), w, []))
    /\ (forall signature secret,
           JS.or_undefined (req_signature request) = Some signature ->
           JS.or_undefined (UP_WEBHOOK_SECRET env) = Some secret ->
           computedSignatureOf (hmacSha256 platform secret (req_body request))
           <> signature ->
           fetchHandler platform services request env w
           = (inr (jsonError "Invalid signature" 401), w, [])).
Proof.
  intros W platform services request env w R.
  rewrite (route_webhook platform services request env R).
  unfold webhookRoute, hcatch. split.
  - intros S. rewrite S. reflexivity.
  - intros signature secret S K N. rewrite S.
    apply or_undefined_truthy in K. destruct K as [K [T Ne]].
    rewrite T, K. destruct secret as [|c r]; [congruence|].
    cbn [JS.or_str andb].
    assert (V : verifyWebhookSignature platform (req_body request) signature
                  (String c r) = false).
    { unfold verifyWebhookSignature. apply String.eqb_neq. assumption. }
    rewrite V. reflexivity.
Qed.

Lemma webhook_refuses_bad_signatures_witness :
  fetchHandler RefWeb.platform RefWeb.services
    (RefWeb.delivery "PING" "7350494E47") RefWeb.env (Samples.drifted [])
  = (inr (jsonError "Invalid signature" 401), Samples.drifted [], []).
Proof.
  apply (proj2 (webhook_refuses_bad_signatures Ref.World RefWeb.platform
                  RefWeb.services (RefWeb.delivery "PING" "7350494E47")
                  RefWeb.env (Samples.drifted []) eq_refl)
           "7350494E47" "s");
    [reflexivity|reflexivity|discriminate].
Defined.

(** X8. When no webhook secret is configured (the variable is unset
    or empty) the signature is not verified: a delivery only needs
    some signature header that is not empty, and two deliveries of the
    same body are handled alike whatever their signatures are. *)
Theorem webhook_without_secret_skips_verification :
  forall (W : Type) (platform : Platform) (services : Services W)
         (request1 request2 : Request) (env : Env) (w : W),
    routeOf request1 = ("POST", "/webhook") ->
    routeOf request2 = ("POST", "/webhook") ->
    JS.truthy (UP_WEBHOOK_SECRET env) = false ->
    JS.truthy (req_signature request1) = true ->
    JS.truthy (req_signature request2) = true ->
    req_body request1 = req_body request2 ->
    signatureAccepted platform request1 env = true
    /\ fetchHandler platform services request1 env w
       = fetchHandler platform services request2 env w.
Proof.
  intros W platform services request1 request2 env w R1 R2 K S1 S2 B.
  rewrite (route_webhook platform services request1 env R1).
  rewrite (route_webhook platform services request2 env R2).
  unfold signatureAccepted, webhookRoute, hcatch, transactionEvent,
    deletionEvent.
  rewrite K, B. cbn [negb orb andb].
  destruct (req_signature request1) as [[|c1 s1]|]; try discriminate.
  destruct (req_signature request2) as [[|c2 s2]|]; try discriminate.
  split; reflexivity.
Qed.

Lemma webhook_without_secret_skips_verification_witness :
  fetchHandler RefWeb.platform RefWeb.services
    (RefWeb.delivery "TRANSACTION_DELETED a" "00")
    {| API_KEY := "key"; UP_WEBHOOK_SECRET := None; ACCOUNT_MAPPING := "two";
       SYNC_START_DATE := "2024-01-01"; BASE_URL := "https://worker.example";
       YNAB_BUDGET_ID := "B1" |}
    (Samples.drifted [])
  = fetchHandler RefWeb.platform RefWeb.services
      (RefWeb.delivery "TRANSACTION_DELETED a" "anything")
      {| API_KEY := "key"; UP_WEBHOOK_SECRET := None; ACCOUNT_MAPPING := "two";
         SYNC_START_DATE := "2024-01-01"; BASE_URL := "https://worker.example";
         YNAB_BUDGET_ID := "B1" |}
      (Samples.drifted []).
Proof.
  apply webhook_without_secret_skips_verification; reflexivity.
Defined.

(** X9. An accepted delivery whose event type is none of
    TRANSACTION_CREATED, TRANSACTION_SETTLED and TRANSACTION_DELETED
    (a PING, say) is acknowledged with 200 and its type, and one whose
    body cannot be parsed, or holds no event type to read, is answered
    500 with the message of the error; neither makes a remote call. *)
Theorem webhook_acknowledges_other_events :
  forall (W : Type) (platform : Platform) (services : Services W)
         (request : Request) (env : Env) (w : W),
    routeOf request = ("POST", "/webhook") ->
    signatureAccepted platform request env = true ->
    (forall eventType,
        eventTypeOf platform (req_body request) = inr eventType ->
        isTransactionEvent eventType = false ->
        isDeletionEvent eventType = false ->
        fetchHandler platform services request env w
        = (inr (jsonResponse (EventReceivedBody eventType) 200), w, []))
    /\ (forall error,
           eventTypeOf platform (req_body request) = inl error ->
           fetchHandler platform services request env w
           = (inr (jsonError error 500), w, [])).
Proof.
  intros W platform services request env w R A.
  rewrite (route_webhook platform services request env R).
  rewrite (webhook_accepted platform services request env w A).
  unfold hcatch, hbind, evaluated. split.
  - intros eventType E T D. rewrite E, T, D. reflexivity.
  - intros error E. rewrite E. reflexivity.
Qed.

Lemma webhook_acknowledges_other_events_witness :
  fetchHandler RefWeb.platform RefWeb.services
    (RefWeb.delivery "PING" "7350494e47") RefWeb.env (Samples.drifted [])
  = (inr (jsonResponse (EventReceivedBody (Some "PING")) 200),
     Samples.drifted [], []).
Proof.
  apply (proj1 (webhook_acknowledges_other_events Ref.World RefWeb.platform
                  RefWeb.services (RefWeb.delivery "PING" "7350494e47")
                  RefWeb.env (Samples.drifted []) eq_refl eq_refl));
    reflexivity.
Defined.






Lemma syncToYNAB_one_create {W : Type} (api : Api W) (accountId : string)
    (upTxs : list TransactionResource) (w : W) :
  upTxs <> [] ->
  let x := syncToYNAB api accountId upTxs w in
  createCalls (events_of x)
  = [(map (toYnabTransaction accountId (toISOString api w)) upTxs,
      isOk (result_of x))]
  /\ deleteCalls (events_of x) = [].
Proof.
  intros Ne x. subst x. rewrite (syncToYNAB_nonempty api accountId upTxs w Ne).
  cbv zeta.
  destruct (noMutation_calls _ (statusWarnings_noMutation upTxs)) as [Wc [_ Wd]].
  destruct (createTransactions api _ w) as [[e|result] w1].
  - unfold events_of, result_of. cbn [fst snd].
    rewrite createCalls_app, deleteCalls_app, Wc, Wd. split; reflexivity.
  - destruct (reconcileDuplicates_events api accountId result
                (map (toYnabTransaction accountId (toISOString api w)) upTxs) w1)
      as [Rc Rd].
    unfold events_of, result_of in *. cbn [fst snd].
    rewrite createCalls_app, deleteCalls_app, Wc, Wd.
    change (Called (CreateTransactions ?ts) true :: ?r)
      with ([Called (CreateTransactions ts) true] ++ r).
    rewrite createCalls_app, deleteCalls_app, Rc, Rd. split; reflexivity.
Qed.

(** X11. An accepted TRANSACTION_CREATED or TRANSACTION_SETTLED
    delivery fetches the transaction of the event from Up Bank.  A
    response that is not ok, or one without [data], is answered 500
    and nothing is sent to YNAB; so is a mapping that does not parse
    or of which no property can be read.  The account is the property
    that the parsed mapping has under the id of the Up Bank account,
    its own or one it inherits: when there is none, or it is falsy,
    the answer is 200 ['Account not mapped, skipped'], again with
    nothing sent to YNAB.  Otherwise exactly that one transaction is
    synced into the account read: one create call, with the mapped
    transaction alone, and no delete; the answer is 200 with the
    counts of the sync, or 500 with the error of the create. *)
Theorem webhook_transaction_event :
  forall (W : Type) (platform : Platform) (services : Services W)
         (request : Request) (env : Env) (w : W)
         (eventType : option string) (id : string),
    routeOf request = ("POST", "/webhook") ->
    signatureAccepted platform request env = true ->
    eventTypeOf platform (req_body request) = inr eventType ->
    isTransactionEvent eventType = true ->
    transactionIdOf platform (req_body request) = inr id ->
    let reply := getUpTransaction services id w in
    let handled := fetchHandler platform services request env w in
    (forall httpStatus detail,
        fst reply = NotOk httpStatus detail ->
        handled
        = (inr (jsonError ("Failed to fetch transaction: " ++ httpStatus) 500),
           snd reply, [Service (GetUpTransaction id) false]))
    /\ (fst reply = Replied None ->
        handled
        = (inr (jsonError "Invalid transaction response: missing data field" 500),
           snd reply, [Service (GetUpTransaction id) true]))
    /\ (forall transaction upAccountId,
           fst reply = Replied (Some (transaction, upAccountId)) ->
           (forall error,
               mappedAccountOf platform env upAccountId = inl error ->
               handled
               = (inr (jsonError error 500),
                  snd reply, [Service (GetUpTransaction id) true]))
           /\ (forall read,
                  mappedAccountOf platform env upAccountId = inr read ->
                  JS.or_undefined read = None ->
                  handled
                  = (inr (jsonResponse
                            (MessageBody "Account not mapped, skipped") 200),
                     snd reply, [Service (GetUpTransaction id) true]))
           /\ (forall read ynabAccountId,
                  mappedAccountOf platform env upAccountId = inr read ->
                  JS.or_undefined read = Some ynabAccountId ->
                  let x :=
                    syncToYNAB (ledgers services) ynabAccountId [transaction]
                      (snd reply) in
                  handled
                  = (inr match result_of x with
                         | inr result =>
                             jsonResponse
                               (ProcessedBody (imported result)
                                  (0 <? duplicates result)%Z)
                               200
                         | inl error => jsonError error 500
                         end,
                     world_of x,
                     Service (GetUpTransaction id) true
                     :: map Ledger (events_of x))
                  /\ createCalls (events_of x)
                     = [([toYnabTransaction ynabAccountId
                            (toISOString (ledgers services) (snd reply))
                            transaction],
                         isOk (result_of x))]
                  /\ deleteCalls (events_of x) = [])).
Proof.
  intros W platform services request env w eventType id R A T E I reply handled.
  subst handled reply.
  rewrite (route_webhook platform services request env R).
  rewrite (webhook_accepted platform services request env w A).
  rewrite hcatch_run, T, hbind_evaluated, E.
  unfold transactionEvent. rewrite I, hbind_evaluated, hbind_run.
  unfold upFetch.
  destruct (getUpTransaction services id w) as [rep w1]. cbn [fst snd].
  split; [|split].
  - intros httpStatus detail ->. reflexivity.
  - intros ->. reflexivity.
  - intros transaction upAccountId ->. unfold mappedAccountOf.
    rewrite hbind_evaluated.
    destruct (jsonParse platform (ACCOUNT_MAPPING env)) as [e|accountMapping].
    { split; [|split].
      - intros error Er. inversion Er. reflexivity.
      - intros read Er. discriminate.
      - intros read ynabAccountId Er. discriminate. }
    rewrite hbind_evaluated.
    destruct (propertyOf platform accountMapping upAccountId) as [e|read'].
    { split; [|split].
      - intros error Er. inversion Er. reflexivity.
      - intros read Er. discriminate.
      - intros read ynabAccountId Er. discriminate. }
    split; [|split].
    + intros error Er. discriminate.
    + intros read Er L. inversion Er. subst read'. rewrite L. reflexivity.
    + intros read ynabAccountId Er L. inversion Er. subst read'.
      rewrite L. cbv zeta. split.
      * rewrite hbind_run, lift_run.
        destruct (result_of (syncToYNAB (ledgers services) ynabAccountId
                               [transaction] w1)) as [error|result];
          unfold hret, hresult_of, hworld_of, activity_of; cbn [fst snd app];
          rewrite ?app_nil_r; reflexivity.
      * apply (syncToYNAB_one_create (ledgers services) ynabAccountId
                 [transaction] w1).
        discriminate.
Qed.

Lemma webhook_transaction_event_witness :
  fetchHandler RefWeb.platform RefWeb.services
    (RefWeb.delivery "TRANSACTION_SETTLED a"
       "735452414e53414354494f4e5f534554544c45442061")
    RefWeb.env (Samples.drifted [])
  = (inr (jsonResponse (ProcessedBody 0 true) 200),
     world_of
       (syncToYNAB Ref.api "Y1" [Ref.upTx "a" "SETTLED"]
          (Ref.tick (Samples.drifted []))),
     Service (GetUpTransaction "a") true
     :: map Ledger
          (events_of
             (syncToYNAB Ref.api "Y1" [Ref.upTx "a" "SETTLED"]
                (Ref.tick (Samples.drifted []))))).
Proof.
  exact (proj1
           (proj2
              (proj2 (proj2 (proj2
                 (webhook_transaction_event Ref.World RefWeb.platform
                    RefWeb.services
                    (RefWeb.delivery "TRANSACTION_SETTLED a"
                       "735452414e53414354494f4e5f534554544c45442061")
                    RefWeb.env (Samples.drifted [])
                    (Some "TRANSACTION_SETTLED") "a"
                    eq_refl eq_refl eq_refl eq_refl eq_refl))
                 (Ref.upTx "a" "SETTLED") "U1" eq_refl))
              (Some "Y1") "Y1" eq_refl eq_refl)).
Defined.

(** *** POST /sync and the sync loop *)

Lemma syncToYNAB_counts {W : Type} (api : Api W) (accountId : string)
    (upTxs : list TransactionResource) (w : W) (r : AccountSyncResult) :
  result_of (syncToYNAB api accountId upTxs w) = inr r ->
  (imported r + duplicates r = total r)%Z
  /\ total r = Z.of_nat (length upTxs)
  /\ (0 <= duplicates r)%Z.
Proof.
  rewrite syncToYNAB_unfold. cbv zeta.
  remember (Z.of_nat (length (map (toYnabTransaction accountId
                                     (toISOString api w)) upTxs))) as n eqn:N.
  rewrite length_map in N.
  destruct upTxs as [|u us].
  - unfold result_of. cbn [fst]. intros E. injection E as <-.
    cbn. lia.
  - destruct (createTransactions api _ w) as [[e|result] w1];
      unfold result_of; cbn [fst]; intros E; [discriminate|].
    injection E as <-.
    cbn [imported duplicates total]. lia.
Qed.

Lemma syncMapping_run {W : Type} (api : Api W) (sinceDate : string)
    (accs : list AccountResult) (i d t : Z) (up yn : string) (w : W) :
  syncMapping api sinceDate (accs, (i, d, t)) (up, yn) w
  = match syncAccount api up yn sinceDate w with
    | (inl e, w1, t1) => (inl e, w1, t1)
    | (inr result, w1, t1) =>
        (inr (accs ++ [{| upAccountId := up; ynabAccountId := yn;
                          acc_imported := imported result;
                          acc_duplicates := duplicates result |}],
              ((i + imported result)%Z, (d + duplicates result)%Z,
               (t + total result)%Z)),
         w1, t1)
    end.
Proof.
  unfold syncMapping, bind.
  destruct (syncAccount api up yn sinceDate w) as [[[e|result] w1] t1];
    [reflexivity|].
  unfold ret. rewrite app_nil_r. reflexivity.
Qed.

Lemma syncAccount_counts {W : Type} (api : Api W) (up yn sinceDate : string)
    (w : W) (r : AccountSyncResult) :
  result_of (syncAccount api up yn sinceDate w) = inr r ->
  (imported r + duplicates r = total r)%Z /\ (0 <= duplicates r)%Z.
Proof.
  unfold syncAccount, bind.
  destruct (fetchUpTransactionsByAccount api up sinceDate w)
    as [[[e|txs] w1] t1]; [discriminate|].
  pose proof (syncToYNAB_counts api yn txs w1 r) as C.
  destruct (syncToYNAB api yn txs w1) as [[r' w2] t2].
  unfold result_of in *. cbn [fst] in *. intros E.
  destruct (C E) as [C1 [_ C3]]. split; assumption.
Qed.

Lemma sumOf_app (count : AccountResult -> Z) (x y : list AccountResult) :
  sumOf count (x ++ y) = (sumOf count x + sumOf count y)%Z.
Proof.
  unfold sumOf.
  induction x as [|a x IH]; cbn [app fold_right]; [lia|].
  rewrite IH. lia.
Qed.

Lemma syncLoop_totals {W : Type} (api : Api W) (sinceDate : string)
    (accountMapping : list (string * string)) :
  forall accs i d t (w : W) accs' i' d' t' w' evs,
    forOf (syncMapping api sinceDate) accountMapping (accs, (i, d, t)) w
    = (inr (accs', (i', d', t')), w', evs) ->
    exists added,
      accs' = accs ++ added
      /\ map entryOf added = accountMapping
      /\ i' = (i + sumOf acc_imported added)%Z
      /\ d' = (d + sumOf acc_duplicates added)%Z
      /\ t' = (t + sumOf acc_imported added + sumOf acc_duplicates added)%Z
      /\ Forall (fun a => (0 <= acc_duplicates a)%Z) added.
Proof.
  induction accountMapping as [|[up yn] rest IH];
    intros accs i d t w accs' i' d' t' w' evs.
  - cbn [forOf]. unfold ret. intros E. inversion E. subst.
    exists []. rewrite app_nil_r. cbn. repeat split; try lia. constructor.
  - rewrite forOf_cons, syncMapping_run.
    pose proof (syncAccount_counts api up yn sinceDate w) as C.
    destruct (syncAccount api up yn sinceDate w) as [[[e|result] w1] t1];
      [discriminate|].
    unfold result_of in C. cbn [fst] in C.
    destruct (C result eq_refl) as [C1 C2].
    unfold after, result_of, world_of, events_of.
    destruct (forOf (syncMapping api sinceDate) rest _ w1)
      as [[r2 w2] t2] eqn:F.
    cbn [fst snd]. intros E. inversion E. subst.
    destruct (IH _ _ _ _ _ _ _ _ _ _ _ F) as [added [A1 [A2 [A3 [A4 [A5 A6]]]]]].
    exists ({| upAccountId := up; ynabAccountId := yn;
               acc_imported := imported result;
               acc_duplicates := duplicates result |} :: added).
    rewrite A1, <- app_assoc. cbn [app map entryOf upAccountId ynabAccountId].
    rewrite A2. cbn [sumOf fold_right acc_imported acc_duplicates].
    fold (sumOf acc_imported added). fold (sumOf acc_duplicates added).
    repeat split; try lia.
    constructor; [exact C2|exact A6].
Qed.

(** X12. The loop that syncs every mapped account (in the manual
    sync, the cron trigger and the live resync) reports one result per
    entry of the account mapping, in the order of the mapping; the
    totals it reports are the sums of the per-account counts, and
    [total] is [imported] plus [duplicates].  No count of duplicates is
    negative. *)
Theorem sync_totals_add_up :
  forall (W : Type) (api : Api W) (accountMapping : list (string * string))
         (sinceDate : string) (w : W) accounts totalImported totalDuplicates
         totalTransactions,
    result_of (syncAllAccounts api accountMapping sinceDate w)
    = inr (accounts, (totalImported, totalDuplicates, totalTransactions)) ->
    map entryOf accounts = accountMapping
    /\ totalImported = sumOf acc_imported accounts
    /\ totalDuplicates = sumOf acc_duplicates accounts
    /\ totalTransactions = (totalImported + totalDuplicates)%Z
    /\ Forall (fun a => (0 <= acc_duplicates a)%Z) accounts.
Proof.
  intros W api accountMapping sinceDate w accounts i d t R.
  unfold syncAllAccounts in R.
  destruct (forOf (syncMapping api sinceDate) accountMapping
              ([], (0%Z, 0%Z, 0%Z)) w) as [[r w'] evs] eqn:F.
  unfold result_of in R. cbn [fst] in R. subst r.
  destruct (syncLoop_totals api sinceDate accountMapping _ _ _ _ _ _ _ _ _ _ _ F)
    as [added [A1 [A2 [A3 [A4 [A5 A6]]]]]].
  cbn [app] in A1. subst added.
  repeat split; try assumption; lia.
Qed.

Lemma sync_totals_add_up_witness :
  map entryOf
    [{| upAccountId := "U1"; ynabAccountId := "Y1";
        acc_imported := 0; acc_duplicates := 1 |};
     {| upAccountId := "U2"; ynabAccountId := "Y2";
        acc_imported := 0; acc_duplicates := 1 |}]
  = Samples.mapping2.
Proof.
  exact (proj1 (sync_totals_add_up Ref.World Ref.api Samples.mapping2
                  "2024-03-01" (Samples.drifted []) _ _ _ _ eq_refl)).
Defined.

Lemma dateRegexTest_length (s : string) :
  dateRegexTest s = true -> String.length s = 10.
Proof.
  unfold dateRegexTest.
  do 11 (destruct s as [|? s]; cbn [list_ascii_of_string]; try discriminate).
  reflexivity.
Qed.

(** X13. The manual sync, once authorized, starts no sync without a
    well-formed start date: a body that is not JSON is answered 400
    ['Invalid JSON body'], a missing or empty [startDate] 400
    ['Missing required field: startDate'], and a [startDate] that is
    not four digits, a dash, two digits, a dash and two digits 400
    ['startDate must be in YYYY-MM-DD format'], all without a remote
    call; a body that is the JSON [null] makes the handler throw.
    Only a start date of that shape, ten characters long, reaches the
    sync, so whenever this route makes a remote call the start date
    has it. *)
Theorem manual_sync_validates_its_start_date :
  forall (W : Type) (platform : Platform) (services : Services W)
         (request : Request) (env : Env) (w : W),
    routeOf request = ("POST", "/sync") ->
    req_authorization request = Some ("Bearer " ++ API_KEY env)%string ->
    let handled := fetchHandler platform services request env w in
    let parsed := syncRequestOf platform (req_body request) in
    (isOk parsed = false ->
     handled = (inr (jsonError "Invalid JSON body" 400), w, []))
    /\ (parsed = inr None -> exists error, handled = (inl error, w, []))
    /\ (forall startDate,
           parsed = inr (Some startDate) ->
           JS.or_undefined startDate = None ->
           handled
           = (inr (jsonError "Missing required field: startDate" 400), w, []))
    /\ (forall startDate date,
           parsed = inr (Some startDate) ->
           JS.or_undefined startDate = Some date ->
           dateRegexTest date = false ->
           handled
           = (inr (jsonError "startDate must be in YYYY-MM-DD format" 400),
              w, []))
    /\ (forall startDate date,
           parsed = inr (Some startDate) ->
           JS.or_undefined startDate = Some date ->
           dateRegexTest date = true ->
           String.length date = 10
           /\ handled = syncFrom platform services env date w)
    /\ (activity_of handled <> [] ->
        exists date,
          parsed = inr (Some (Some date))
          /\ dateRegexTest date = true /\ String.length date = 10).
Proof.
  intros W platform services request env w R A handled parsed.
  subst handled. apply checkAuth_spec in A.
  rewrite (route_sync platform services request env R).
  rewrite (authorized_passed request env _ A).
  unfold syncRoute. fold parsed.
  destruct parsed as [e|[startDate|]] eqn:P.
  - repeat split; try discriminate.
    intros N. exfalso. apply N. reflexivity.
  - split; [discriminate|]. split; [discriminate|].
    assert (Same : forall s, inr (A := Error) (Some startDate) = inr (Some s) ->
                             s = startDate).
    { intros s E. inversion E. reflexivity. }
    destruct (JS.or_undefined startDate) as [date|] eqn:S.
    + destruct (dateRegexTest date) eqn:D; cbn [negb].
      * split; [intros s E S'; apply Same in E; subst s; congruence|].
        split; [intros s d E S' D'; apply Same in E; subst s; congruence|].
        split.
        { intros s d E S' D'. apply Same in E. subst s.
          assert (d = date) by congruence. subst d.
          split; [apply dateRegexTest_length; exact D|reflexivity]. }
        { intros _. exists date.
          apply or_undefined_truthy in S. destruct S as [-> _].
          split; [reflexivity|]. split; [exact D|].
          apply dateRegexTest_length. exact D. }
      * split; [intros s E S'; apply Same in E; subst s; congruence|].
        split; [intros s d E S' D'; reflexivity|].
        split; [intros s d E S' D'; apply Same in E; subst s; congruence|].
        intros N. exfalso. apply N. reflexivity.
    + split; [intros s E S'; reflexivity|].
      split; [intros s d E S' D'; apply Same in E; subst s; congruence|].
      split; [intros s d E S' D'; apply Same in E; subst s; congruence|].
      intros N. exfalso. apply N. reflexivity.
  - repeat split; try discriminate.
    + eexists. reflexivity.
    + intros N. exfalso. apply N. reflexivity.
Qed.

Lemma manual_sync_validates_its_start_date_witness :
  fetchHandler RefWeb.platform RefWeb.services
    (RefWeb.call "POST" "/sync" "startDate 1 March 2024") RefWeb.env
    (Samples.drifted [])
  = (inr (jsonError "startDate must be in YYYY-MM-DD format" 400),
     Samples.drifted [], []).
Proof.
  exact (proj1 (proj2 (proj2 (proj2
           (manual_sync_validates_its_start_date Ref.World RefWeb.platform
              RefWeb.services
              (RefWeb.call "POST" "/sync" "startDate 1 March 2024") RefWeb.env
              (Samples.drifted []) eq_refl eq_refl))))
           (Some "1 March 2024") "1 March 2024" eq_refl eq_refl eq_refl).
Defined.

(** *** The handler as a whole *)

Lemma route_cases (request : Request) :
  In (routeOf request) (("POST", "/webhook") :: protectedRoutes)
  \/ ~ In (routeOf request) (("POST", "/webhook") :: protectedRoutes).
Proof.
  assert (D : forall x y : string * string, {x = y} + {x <> y}).
  { decide equality; apply string_dec. }
  destruct (in_dec D (routeOf request) (("POST", "/webhook") :: protectedRoutes));
    [left|right]; assumption.
Qed.

Section Answers.

Context {W : Type}.
Variable P : Response -> Prop.

Lemma answers_hret (r : Response) : P r -> answers P (hret (W := W) r).
Proof.
  intros Pr w r' E. unfold hret, hresult_of in E. cbn in E.
  inversion E. subst. exact Pr.
Qed.

Lemma answers_hthrow (e : Error) : answers P (hthrow (W := W) e).
Proof. intros w r E. discriminate. Qed.

Lemma answers_hbind {A : Type} (m : Entry W A) (f : A -> Entry W Response) :
  (forall a, answers P (f a)) -> answers P (hbind m f).
Proof.
  intros F w r. rewrite hbind_run.
  destruct (m w) as [[[e|a] w1] t1]; [discriminate|].
  unfold hresult_of at 1. cbn [fst]. apply F.
Qed.

Lemma answers_hcatch (m : Entry W Response) :
  (forall e, P (jsonError e 500)) ->
  answers P m -> answers P (hcatch m (internalError (W := W))).
Proof.
  intros P500 M w r. rewrite hcatch_run. unfold hresult_of at 1. cbn [fst].
  intros E. inversion E. subst r.
  destruct (hresult_of (m w)) as [e|r] eqn:R; [apply P500|].
  exact (M w r R).
Qed.

End Answers.

Lemma hcatch_returns {W : Type} (m : Entry W Response) (w : W) :
  exists r, hresult_of (hcatch m (internalError (W := W)) w) = inr r.
Proof. rewrite hcatch_run. eexists. reflexivity. Qed.

Section Totality.

Context {W : Type} (platform : Platform) (services : Services W).
Variables (request : Request) (env : Env).

Lemma answers_more (P Q : Response -> Prop) (m : Entry W Response) :
  (forall r, P r -> Q r) -> answers P m -> answers Q m.
Proof. intros PQ A w r E. apply PQ. exact (A w r E). Qed.

Lemma upAccountsRoute_within :
  answers (within [200; 500]) (upAccountsRoute services).
Proof.
  apply answers_hcatch; [intros e; unfold within; cbn; tauto|].
  apply answers_hbind. intros data. apply answers_hret.
  unfold within. cbn. tauto.
Qed.

Lemma createWebhookRoute_within :
  answers (within [201; 500]) (createWebhookRoute services env).
Proof.
  apply answers_hcatch; [intros e; unfold within; cbn; tauto|].
  apply answers_hbind. intros data. apply answers_hret.
  unfold within. cbn. tauto.
Qed.

Lemma ynabInfoRoute_within :
  answers (within [200; 500]) (ynabInfoRoute services env).
Proof.
  apply answers_hcatch; [intros e; unfold within; cbn; tauto|].
  apply answers_hbind. intros budgets.
  apply answers_hbind. intros accounts. apply answers_hret.
  unfold within. cbn. tauto.
Qed.

Lemma resyncRoute_within (dryRun : bool) :
  answers (within [200; 500]) (resyncRoute platform services env dryRun).
Proof.
  apply answers_hcatch; [intros e; unfold within; cbn; tauto|].
  apply answers_hbind. intros accountMapping.
  apply answers_hbind. intros result. apply answers_hret.
  unfold within. cbn. tauto.
Qed.

Lemma syncFrom_within (startDate : string) :
  answers (within [200; 400; 500]) (syncFrom platform services env startDate).
Proof.
  apply answers_hcatch; [intros e; unfold within; cbn; tauto|].
  apply answers_hbind. intros accountMapping.
  apply answers_hbind. intros [accountResults [[i d] t]]. apply answers_hret.
  unfold within. cbn. tauto.
Qed.

Lemma syncRoute_within :
  answers (within [200; 400; 500]) (syncRoute platform services request env).
Proof.
  unfold syncRoute.
  destruct (syncRequestOf platform (req_body request)) as [e|[startDate|]].
  - apply answers_hret. unfold within. cbn. tauto.
  - destruct (JS.or_undefined startDate) as [date|].
    + destruct (negb (dateRegexTest date)).
      * apply answers_hret. unfold within. cbn. tauto.
      * apply syncFrom_within.
    + apply answers_hret. unfold within. cbn. tauto.
  - apply answers_hthrow.
Qed.

Lemma transactionEvent_within :
  answers (within [200; 500]) (transactionEvent platform services request env).
Proof.
  unfold transactionEvent.
  apply answers_hbind. intros transactionId.
  apply answers_hbind. intros [[transaction upAccountId]|].
  - apply answers_hbind. intros accountMapping.
    apply answers_hbind. intros read.
    destruct (JS.or_undefined read).
    + apply answers_hbind. intros result. apply answers_hret.
      unfold within. cbn. tauto.
    + apply answers_hret. unfold within. cbn. tauto.
  - apply answers_hthrow.
Qed.

Lemma deletionEvent_within :
  answers (within [200; 500]) (deletionEvent platform services request env).
Proof.
  unfold deletionEvent.
  apply answers_hbind. intros transactionId.
  apply answers_hbind. intros accountMapping.
  apply answers_hbind. intros result. apply answers_hret.
  unfold within. cbn. tauto.
Qed.

Lemma webhookRoute_within :
  answers (within [200; 401; 500]) (webhookRoute platform services request env).
Proof.
  unfold webhookRoute.
  apply answers_hcatch; [intros e; unfold within; cbn; tauto|].
  destruct (JS.or_undefined (req_signature request)) as [signature|].
  - destruct (JS.truthy (UP_WEBHOOK_SECRET env)
              && negb (verifyWebhookSignature platform (req_body request)
                         signature (JS.or_str (UP_WEBHOOK_SECRET env) ""))).
    + apply answers_hret. unfold within. cbn. tauto.
    + apply answers_hbind. intros eventType.
      destruct (eventTypeIs eventType "TRANSACTION_CREATED"
                || eventTypeIs eventType "TRANSACTION_SETTLED").
      { apply (answers_more (within [200; 500]));
          [unfold within; cbn; tauto|apply transactionEvent_within]. }
      destruct (eventTypeIs eventType "TRANSACTION_DELETED").
      { apply (answers_more (within [200; 500]));
          [unfold within; cbn; tauto|apply deletionEvent_within]. }
      apply answers_hret. unfold within. cbn. tauto.
  - apply answers_hret. unfold within. cbn. tauto.
Qed.

Lemma webhookRoute_accepted_within (w : W) (r : Response) :
  signatureAccepted platform request env = true ->
  hresult_of (webhookRoute platform services request env w) = inr r ->
  within [200; 500] r.
Proof.
  intros A. rewrite (webhook_accepted platform services request env w A).
  revert w r. change (answers (within [200; 500])
    (hcatch
       (hbind (evaluated (eventTypeOf platform (req_body request)))
          (fun eventType =>
             if isTransactionEvent eventType
             then transactionEvent platform services request env
             else if isDeletionEvent eventType
             then deletionEvent platform services request env
             else hret (jsonResponse (EventReceivedBody eventType) 200)))
       (internalError (W := W)))).
  apply answers_hcatch; [intros e; unfold within; cbn; tauto|].
  apply answers_hbind. intros eventType.
  destruct (isTransactionEvent eventType); [apply transactionEvent_within|].
  destruct (isDeletionEvent eventType); [apply deletionEvent_within|].
  apply answers_hret. unfold within. cbn. tauto.
Qed.

Lemma authorized_within (among : list nat) (route : Entry W Response) :
  answers (within among) route ->
  answers (within (401 :: among)) (authorized request env route).
Proof.
  intros K. unfold authorized.
  assert (K' : answers (within (401 :: among)) route).
  { apply (answers_more (within among)); [|exact K].
    unfold within. intros r I. right. exact I. }
  destruct (checkAuth request env) as [message|]; [|exact K'].
  destruct (JS.truthy (Some message)); [|exact K'].
  apply answers_hret. unfold within. cbn. tauto.
Qed.

Ltac narrower :=
  unfold within, statuses; intros ? ?; cbn in *; tauto.

Lemma fetchHandler_known :
  answers known (fetchHandler platform services request env).
Proof.
  unfold fetchHandler.
  repeat
    match goal with
    | |- context [if ?c then _ else _] => destruct c
    end.
  - apply (answers_more (within [401; 200; 500])); [narrower|].
    apply authorized_within, upAccountsRoute_within.
  - apply (answers_more (within [401; 201; 500])); [narrower|].
    apply authorized_within, createWebhookRoute_within.
  - apply (answers_more (within [200; 401; 500])); [narrower|].
    apply webhookRoute_within.
  - apply (answers_more (within [401; 200; 500])); [narrower|].
    apply authorized_within, ynabInfoRoute_within.
  - apply (answers_more (within [401; 200; 500])); [narrower|].
    apply authorized_within, resyncRoute_within.
  - apply (answers_more (within [401; 200; 500])); [narrower|].
    apply authorized_within, resyncRoute_within.
  - apply (answers_more (within [401; 200; 400; 500])); [narrower|].
    apply authorized_within, syncRoute_within.
  - apply answers_hret. unfold known, within, statuses. cbn. tauto.
Qed.

Lemma caught_never_throws (m : Entry W Response) (w : W) (e : Error) :
  hresult_of (hcatch m (internalError (W := W)) w) <> inl e.
Proof. rewrite hcatch_run. discriminate. Qed.

Lemma authorized_throws (route : Entry W Response) (w : W) (e : Error) :
  hresult_of (authorized request env route w) = inl e ->
  checkAuth request env = None /\ hresult_of (route w) = inl e.
Proof.
  unfold authorized.
  destruct (checkAuth request env) as [message|] eqn:C.
  - rewrite (checkAuth_message _ _ _ C). discriminate.
  - intros E. split; [reflexivity|exact E].
Qed.

Lemma syncRoute_throws (w : W) (e : Error) :
  hresult_of (syncRoute platform services request env w) = inl e ->
  syncRequestOf platform (req_body request) = inr None.
Proof.
  unfold syncRoute.
  destruct (syncRequestOf platform (req_body request)) as [e'|[startDate|]];
    [discriminate| |reflexivity].
  destruct (JS.or_undefined startDate) as [date|]; [|discriminate].
  destruct (negb (dateRegexTest date)); [discriminate|].
  intros E. exfalso. exact (caught_never_throws _ _ _ E).
Qed.

Lemma fetchHandler_throws (w : W) (e : Error) :
  hresult_of (fetchHandler platform services request env w) = inl e ->
  routeOf request = ("POST", "/sync")
  /\ checkAuth request env = None
  /\ syncRequestOf platform (req_body request) = inr None.
Proof.
  destruct (route_cases request) as [I|N].
  - unfold protectedRoutes in I. simpl in I.
    destruct I as [R|[R|[R|[R|[R|[R|[R|[]]]]]]]]; symmetry in R.
    + rewrite (route_webhook platform services request env R).
      intros E. exfalso. exact (caught_never_throws _ _ _ E).
    + rewrite (route_upAccounts platform services request env R).
      intros E. apply authorized_throws in E. destruct E as [_ E].
      exfalso. exact (caught_never_throws _ _ _ E).
    + rewrite (route_createWebhook platform services request env R).
      intros E. apply authorized_throws in E. destruct E as [_ E].
      exfalso. exact (caught_never_throws _ _ _ E).
    + rewrite (route_ynabInfo platform services request env R).
      intros E. apply authorized_throws in E. destruct E as [_ E].
      exfalso. exact (caught_never_throws _ _ _ E).
    + rewrite (route_resyncDryRun platform services request env R).
      intros E. apply authorized_throws in E. destruct E as [_ E].
      exfalso. exact (caught_never_throws _ _ _ E).
    + rewrite (route_resync platform services request env R).
      intros E. apply authorized_throws in E. destruct E as [_ E].
      exfalso. exact (caught_never_throws _ _ _ E).
    + rewrite (route_sync platform services request env R).
      intros E. apply authorized_throws in E. destruct E as [C E].
      apply syncRoute_throws in E. repeat split; assumption.
  - rewrite (route_unknown platform services request env N). discriminate.
Qed.

Lemma authorized_status (among : list nat) (route : Entry W Response)
    (w : W) (r : Response) :
  answers (within among) route ->
  hresult_of (authorized request env route w) = inr r ->
  (checkAuth request env <> None /\ res_status r = 401)
  \/ (checkAuth request env = None /\ within among r).
Proof.
  intros K E. destruct (checkAuth request env) as [message|] eqn:C.
  - left. split; [discriminate|].
    rewrite (authorized_refused request env route message C) in E.
    unfold hret, hresult_of in E. cbn in E. inversion E. reflexivity.
  - right. split; [reflexivity|].
    rewrite (authorized_passed request env route C) in E.
    exact (K w r E).
Qed.

Lemma webhookRoute_status (w : W) (r : Response) :
  hresult_of (webhookRoute platform services request env w) = inr r ->
  (signatureAccepted platform request env = false /\ res_status r = 401)
  \/ (signatureAccepted platform request env = true /\ within [200; 500] r).
Proof.
  intros E. destruct (signatureAccepted platform request env) eqn:A.
  - right. split; [reflexivity|].
    exact (webhookRoute_accepted_within w r A E).
  - left. split; [reflexivity|].
    destruct (webhook_refused platform services request env w A) as [message R].
    rewrite R in E. unfold hresult_of in E. cbn in E. inversion E. reflexivity.
Qed.

End Totality.

(** X14. Whatever the services do, the handler answers with one of
    the statuses 200, 201, 400, 401, 404 and 500: every error of a
    remote call, of a parse or of a missing field is caught and turned
    into a 500 response.  The one request on which the handler throws
    instead of answering is an authorized POST /sync whose body is the
    JSON [null]. *)
Theorem handler_answers_or_throws_on_null :
  forall (W : Type) (platform : Platform) (services : Services W)
         (request : Request) (env : Env) (w : W),
    let handled := fetchHandler platform services request env w in
    (forall response,
        hresult_of handled = inr response ->
        In (res_status response) statuses)
    /\ (forall error,
           hresult_of handled = inl error ->
           routeOf request = ("POST", "/sync")
           /\ req_authorization request = Some ("Bearer " ++ API_KEY env)%string
           /\ syncRequestOf platform (req_body request) = inr None).
Proof.
  intros W platform services request env w handled. subst handled. split.
  - intros response E.
    exact (fetchHandler_known platform services request env w response E).
  - intros error E.
    destruct (fetchHandler_throws platform services request env w error E)
      as [R [C S]].
    apply checkAuth_spec in C. repeat split; assumption.
Qed.

Lemma handler_answers_or_throws_on_null_witness :
  routeOf (RefWeb.call "POST" "/sync" "null") = ("POST", "/sync")
  /\ In 200 statuses.
Proof.
  split.
  - exact (proj1 (proj2 (handler_answers_or_throws_on_null Ref.World
                           RefWeb.platform RefWeb.services
                           (RefWeb.call "POST" "/sync" "null") RefWeb.env
                           (Samples.drifted []))
                    _ eq_refl)).
  - exact (proj1 (handler_answers_or_throws_on_null Ref.World
                    RefWeb.platform RefWeb.services
                    (RefWeb.call "GET" "/ynab/info" "") RefWeb.env
                    (Samples.drifted []))
             (jsonResponse
                (YnabInfoBody [{| budget_id := "B1"; budget_name := "Home" |}]
                   "B1"
                   [{| info_id := "Y1"; info_name := "Up";
                       info_type := "checking"; on_budget := true;
                       closed := false |}])
                200)
             eq_refl).
Defined.

Ltac settle_status :=
  repeat split; intros;
  repeat match goal with
         | H : _ /\ _ |- _ => destruct H
         | H : _ \/ _ |- _ => destruct H
         | H : False |- _ => destruct H
         end;
  try tauto; try congruence; try discriminate; try lia.

(** X15. Each status of an answer other than 200 and 500 names one
    cause.  404 is answered exactly for a method and path that is no
    route; 401 exactly when a protected route is called without the
    exact bearer key, or the webhook route with a signature it does not
    accept: a failure of Up or of YNAB is never reported as 401.  201 is
    only answered by POST /webhook/create and 400 only by POST /sync. *)
Theorem a_status_names_its_cause :
  forall (W : Type) (platform : Platform) (services : Services W)
         (request : Request) (env : Env) (w : W) (response : Response),
    hresult_of (fetchHandler platform services request env w) = inr response ->
    (res_status response = 404
     <-> ~ In (routeOf request) (("POST", "/webhook") :: protectedRoutes))
    /\ (res_status response = 401
        <-> (In (routeOf request) protectedRoutes
             /\ req_authorization request
                <> Some ("Bearer " ++ API_KEY env)%string)
            \/ (routeOf request = ("POST", "/webhook")
                /\ signatureAccepted platform request env = false))
    /\ (res_status response = 201 ->
        routeOf request = ("POST", "/webhook/create"))
    /\ (res_status response = 400 -> routeOf request = ("POST", "/sync")).
Proof.
  intros W platform services request env w response E.
  assert (key : checkAuth request env = None
                <-> req_authorization request
                    = Some ("Bearer " ++ API_KEY env)%string)
    by apply checkAuth_spec.
  destruct (route_cases request) as [I|N].
  - unfold protectedRoutes in *. simpl in I.
    destruct I as [R|[R|[R|[R|[R|[R|[R|[]]]]]]]]; symmetry in R.
    + rewrite (route_webhook platform services request env R) in E.
      apply webhookRoute_status in E. rewrite R.
      destruct E as [[A S]|[A S]]; rewrite A;
        unfold within in S; simpl in *; settle_status.
    + rewrite (route_upAccounts platform services request env R) in E.
      apply (authorized_status request env [200; 500]) in E;
        [|apply upAccountsRoute_within].
      rewrite R.
      destruct E as [[A S]|[A S]];
        unfold within in S; simpl in *; settle_status.
    + rewrite (route_createWebhook platform services request env R) in E.
      apply (authorized_status request env [201; 500]) in E;
        [|apply createWebhookRoute_within].
      rewrite R.
      destruct E as [[A S]|[A S]];
        unfold within in S; simpl in *; settle_status.
    + rewrite (route_ynabInfo platform services request env R) in E.
      apply (authorized_status request env [200; 500]) in E;
        [|apply ynabInfoRoute_within].
      rewrite R.
      destruct E as [[A S]|[A S]];
        unfold within in S; simpl in *; settle_status.
    + rewrite (route_resyncDryRun platform services request env R) in E.
      apply (authorized_status request env [200; 500]) in E;
        [|apply resyncRoute_within].
      rewrite R.
      destruct E as [[A S]|[A S]];
        unfold within in S; simpl in *; settle_status.
    + rewrite (route_resync platform services request env R) in E.
      apply (authorized_status request env [200; 500]) in E;
        [|apply resyncRoute_within].
      rewrite R.
      destruct E as [[A S]|[A S]];
        unfold within in S; simpl in *; settle_status.
    + rewrite (route_sync platform services request env R) in E.
      apply (authorized_status request env [200; 400; 500]) in E;
        [|apply syncRoute_within].
      rewrite R.
      destruct E as [[A S]|[A S]];
        unfold within in S; simpl in *; settle_status.
  - rewrite (route_unknown platform services request env N) in E.
    unfold hret, hresult_of in E. cbn in E. inversion E. subst response.
    cbn [res_status]. unfold protectedRoutes in *. simpl in *.
    settle_status.
    exfalso. apply N. left. symmetry. assumption.
Qed.


Lemma a_status_names_its_cause_witness :
  routeOf (RefWeb.delivery "created T1" "00") = ("POST", "/webhook")
  /\ signatureAccepted RefWeb.platform (RefWeb.delivery "created T1" "00")
       RefWeb.env
     = false.
Proof.
  destruct (proj1 (proj1 (proj2
              (a_status_names_its_cause Ref.World RefWeb.platform
                 RefWeb.services (RefWeb.delivery "created T1" "00")
                 RefWeb.env (Samples.drifted [])
                 (jsonError "Invalid signature" 401) eq_refl)))
              eq_refl) as [[I _]|A].
  - exfalso. unfold protectedRoutes, routeOf in I. simpl in I.
    repeat (destruct I as [I|I]; [discriminate|]). exact I.
  - exact A.
Defined.

Section Keeping.

Context {W : Type}.
Variable Q : list Event -> Prop.
Hypothesis Q_nil : Q [].
Hypothesis Q_app : forall x y, Q x -> Q y -> Q (x ++ y).


Lemma keeps_hthrow {A : Type} (e : Error) : keeps Q (hthrow (W := W) (A := A) e).
Proof. intros w. exact Q_nil. Qed.







End Keeping.

Section ReadOnly.

Context {W : Type} (platform : Platform) (services : Services W).
Variables (request : Request) (env : Env).
Variable Q : list Event -> Prop.
Hypothesis Q_nil : Q [].
Hypothesis Q_app : forall x y, Q x -> Q y -> Q (x ++ y).






End ReadOnly.




(** *** The cron trigger *)

(** X17. The cron trigger syncs every mapped account from thirty days
    before now, or from [SYNC_START_DATE] when that is a valid date
    and later.  An account mapping that [JSON.parse] refuses makes it
    throw before any remote call; otherwise it never throws: a parsed
    mapping that has no entries to take ([null]) ends the run with no
    remote call, and whether the loop over the accounts returns or
    fails, the run ends normally with what the loop did.  It deletes
    nothing, and every transaction it creates carries an import id. *)
Theorem cron_syncs_the_last_thirty_days :
  forall (W : Type) (platform : Platform) (services : Services W)
         (env : Env) (w : W),
    let now := dateNow services w in
    let thirtyDaysAgo := (now - 30 * 86400000)%Z in
    let parsed := jsonParse platform (ACCOUNT_MAPPING env) in
    (forall error,
        parsed = inl error ->
        scheduled platform services env w = (inl error, w, []))
    /\ (forall accountMapping error,
           parsed = inr accountMapping ->
           entriesOf platform accountMapping = inl error ->
           scheduled platform services env w = (inr tt, w, []))
    /\ (forall accountMapping entries,
           parsed = inr accountMapping ->
           entriesOf platform accountMapping = inr entries ->
           let x :=
             syncAllAccounts (ledgers services) entries
               (cronStartDate platform env now) w in
           scheduled platform services env w
           = (inr tt, world_of x, map Ledger (events_of x))
           /\ deleteCalls (events_of x) = []
           /\ allKeyed (createCalls (events_of x)))
    /\ (forall t,
           dateOfString platform (SYNC_START_DATE env) = Some t ->
           cronStartDate platform env now
           = isoDateOf platform (Z.max t thirtyDaysAgo))
    /\ (dateOfString platform (SYNC_START_DATE env) = None ->
        cronStartDate platform env now = isoDateOf platform thirtyDaysAgo).
Proof.
  intros W platform services env w now thirtyDaysAgo parsed.
  unfold scheduled. fold parsed. rewrite hbind_evaluated.
  split; [|split; [|split; [|split]]].
  - intros error ->. reflexivity.
  - intros accountMapping error -> E. cbv zeta.
    unfold hcatch. rewrite hbind_evaluated, E. reflexivity.
  - intros accountMapping entries -> E. cbv zeta. fold now.
    split.
    + unfold hcatch. rewrite hbind_evaluated, E, hbind_run, lift_run.
      destruct (syncAllAccounts (ledgers services) entries
                  (cronStartDate platform env now) w) as [[[e|r] w1] t1];
        unfold hret, hresult_of, hworld_of, activity_of, result_of, world_of,
          events_of; cbn [fst snd app]; rewrite ?app_nil_r; reflexivity.
    + destruct (syncAllAccounts_events (ledgers services) entries
                  (cronStartDate platform env now) w) as [K D].
      split; assumption.
  - intros t D. unfold cronStartDate. rewrite D. fold thirtyDaysAgo.
    destruct (Z.ltb_spec thirtyDaysAgo t) as [L|L]; f_equal; lia.
  - intros D. unfold cronStartDate. rewrite D. reflexivity.
Qed.

Lemma cron_syncs_the_last_thirty_days_witness :
  cronStartDate RefWeb.platform RefWeb.env
    (dateNow RefWeb.services (Samples.drifted []))
  = "2024-02-04"
  /\ hresult_of (scheduled RefWeb.platform RefWeb.services RefWeb.env
                   (Samples.drifted [2]))
     = inr tt
  /\ scheduled RefWeb.platform RefWeb.services RefWeb.nullEnv
       (Samples.drifted [])
     = (inr tt, Samples.drifted [], []).
Proof.
  split; [|split].
  - rewrite (proj1 (proj2 (proj2 (proj2
               (cron_syncs_the_last_thirty_days Ref.World RefWeb.platform
                  RefWeb.services RefWeb.env (Samples.drifted [])))))
               1704067200000%Z eq_refl).
    reflexivity.
  - rewrite (proj1 (proj1 (proj2 (proj2
               (cron_syncs_the_last_thirty_days Ref.World RefWeb.platform
                  RefWeb.services RefWeb.env (Samples.drifted [2]))))
               (Some Samples.mapping2) Samples.mapping2 eq_refl eq_refl)).
    reflexivity.
  - exact (proj1 (proj2
             (cron_syncs_the_last_thirty_days Ref.World RefWeb.platform
                RefWeb.services RefWeb.nullEnv (Samples.drifted [])))
             None "Cannot convert undefined or null to object"
             eq_refl eq_refl).
Defined.

(** *** The handler of [index.ts] *)

Lemma index_webhook_accepted {W : Type} (platform : Platform)
    (services : Services W) (request : Request) (env : Env) (w : W) :
  signatureAccepted platform request env = true ->
  webhookRoute_index platform services request env w
  = hcatch
      (hbind (evaluated (eventTypeOf platform (req_body request)))
         (fun eventType =>
            if isTransactionEvent eventType
            then transactionEvent platform services request env
            else hret (jsonResponse (EventReceivedBody eventType) 200)))
      (internalError (W := W)) w.
Proof.
  unfold signatureAccepted, webhookRoute_index, hcatch.
  destruct (JS.or_undefined (req_signature request)) as [signature|];
    [|discriminate].
  intros A.
  destruct (JS.truthy (UP_WEBHOOK_SECRET env)); cbn [negb orb andb] in *.
  - rewrite A. reflexivity.
  - reflexivity.
Qed.

Lemma index_route_test (request : Request) (method pathname : string) :
  routeOf request <> (method, pathname) ->
  ((req_method request =? method) && (req_pathname request =? pathname))%string
  = false.
Proof.
  intros N.
  destruct ((req_method request =? method)
            && (req_pathname request =? pathname))%string eqn:T;
    [|reflexivity].
  exfalso. apply N. apply route_test. exact T.
Qed.

(** X18. The handler of [index.ts] is the handler of the later
    revision without deletion: POST /resync-all and POST
    /resync-all-dryrun are unknown routes, answered 404, and an
    accepted TRANSACTION_DELETED delivery is only acknowledged, with
    no remote call, so that nothing is deleted in YNAB.  On every
    other request the two handlers do the same. *)
Theorem index_handler_never_deletes :
  forall (W : Type) (platform : Platform) (services : Services W)
         (request : Request) (env : Env) (w : W),
    let handled := fetchHandler_index platform services request env w in
    (In (routeOf request)
        [("POST", "/resync-all"); ("POST", "/resync-all-dryrun")] ->
     handled
     = (inr {| res_status := 404;
               res_body := TextBody "Up Bank to YNAB Sync Worker" |}, w, []))
    /\ (routeOf request = ("POST", "/webhook") ->
        signatureAccepted platform request env = true ->
        eventTypeOf platform (req_body request)
        = inr (Some "TRANSACTION_DELETED") ->
        handled
        = (inr (jsonResponse
                  (EventReceivedBody (Some "TRANSACTION_DELETED")) 200),
           w, []))
    /\ (~ In (routeOf request)
            [("POST", "/resync-all"); ("POST", "/resync-all-dryrun")] ->
        ~ (routeOf request = ("POST", "/webhook")
           /\ signatureAccepted platform request env = true
           /\ eventTypeOf platform (req_body request)
              = inr (Some "TRANSACTION_DELETED")) ->
        handled = fetchHandler platform services request env w).
Proof.
  intros W platform services request env w handled. subst handled.
  split; [|split].
  - intros I. unfold fetchHandler_index.
    assert (R : routeOf request = ("POST", "/resync-all")
                \/ routeOf request = ("POST", "/resync-all-dryrun")).
    { simpl in I. destruct I as [I|[I|[]]]; [left|right]; symmetry; exact I. }
    rewrite !index_route_test; [reflexivity|..];
      destruct R as [R|R]; rewrite R; discriminate.
  - intros R A T. unfold fetchHandler_index.
    rewrite !index_route_test by (rewrite R; discriminate).
    apply route_fields in R. destruct R as [Rm Rp]. rewrite Rm, Rp.
    change (("POST" =? "POST") && ("/webhook" =? "/webhook"))%string with true.
    cbv iota.
    rewrite (index_webhook_accepted platform services request env w A).
    rewrite hcatch_run, T, hbind_evaluated. reflexivity.
  - intros N1 N2. unfold fetchHandler_index, fetchHandler.
    rewrite (index_route_test request "POST" "/resync-all-dryrun")
      by (intros E; apply N1; rewrite E; simpl; tauto).
    rewrite (index_route_test request "POST" "/resync-all")
      by (intros E; apply N1; rewrite E; simpl; tauto).
    destruct ((req_method request =? "GET")
              && (req_pathname request =? "/up/accounts"))%string;
      [reflexivity|].
    destruct ((req_method request =? "POST")
              && (req_pathname request =? "/webhook/create"))%string;
      [reflexivity|].
    destruct ((req_method request =? "POST")
              && (req_pathname request =? "/webhook"))%string eqn:T;
      [|reflexivity].
    apply route_test in T.
    destruct (signatureAccepted platform request env) eqn:A.
    + rewrite (index_webhook_accepted platform services request env w A).
      rewrite (webhook_accepted platform services request env w A).
      rewrite !hcatch_run.
      destruct (eventTypeOf platform (req_body request)) as [e|eventType] eqn:E;
        rewrite !hbind_evaluated; [reflexivity|].
      destruct (isTransactionEvent eventType) eqn:Tr; [reflexivity|].
      destruct (isDeletionEvent eventType) eqn:De; [|reflexivity].
      exfalso. apply N2. repeat split; try assumption.
      unfold isDeletionEvent, eventTypeIs in De.
      destruct eventType as [s|]; [|discriminate].
      apply String.eqb_eq in De. subst s. reflexivity.
    + unfold signatureAccepted in A.
      unfold webhookRoute_index, webhookRoute, hcatch.
      destruct (JS.or_undefined (req_signature request)) as [signature|];
        [|reflexivity].
      apply orb_false_iff in A. destruct A as [A1 A2].
      apply negb_false_iff in A1. rewrite A1, A2. reflexivity.
Qed.

Lemma index_handler_never_deletes_witness :
  fetchHandler_index RefWeb.platform RefWeb.services
    (RefWeb.delivery "TRANSACTION_DELETED a"
       "735452414e53414354494f4e5f44454c455445442061")
    RefWeb.env (Samples.drifted [])
  = (inr (jsonResponse (EventReceivedBody (Some "TRANSACTION_DELETED")) 200),
     Samples.drifted [], []).
Proof.
  exact (proj1 (proj2
           (index_handler_never_deletes Ref.World RefWeb.platform
              RefWeb.services
              (RefWeb.delivery "TRANSACTION_DELETED a"
                 "735452414e53414354494f4e5f44454c455445442061")
              RefWeb.env (Samples.drifted [])))
           eq_refl eq_refl eq_refl).
Defined.

(** *** [syncToYNAB], call by call *)

Lemma reconcileDuplicates_calls {W : Type} (api : Api W) (accountId : string)
    (result : SaveTransactionsResponse) (ts : list SaveTransaction) (w : W) :
  let evs := events_of (reconcileDuplicates api accountId result ts w) in
  (evs = [] /\ world_of (reconcileDuplicates api accountId result ts w) = w)
  \/ (exists ok, evs = [Called (GetTransactionsByAccount accountId) ok])
  \/ (exists updates ok,
         updates <> []
         /\ evs = [Called (GetTransactionsByAccount accountId) true;
                   Called (UpdateTransactions updates) ok]).
Proof.
  unfold reconcileDuplicates.
  destruct (duplicate_import_ids result) as [dups|] eqn:D;
    [|left; split; reflexivity].
  destruct (0 <? duplicateCountOf result)%nat; [|left; split; reflexivity].
  right. unfold try_catch. rewrite updateDuplicates_unfold.
  destruct (getTransactionsByAccount api accountId w) as [[e|existing] w1].
  - left. exists false. reflexivity.
  - cbv zeta.
    destruct (transactionsToUpdateOf (desiredClearedStatusOf dups ts) existing)
      as [|u us] eqn:U.
    + left. exists true. reflexivity.
    + cbn [length Nat.ltb Nat.leb].
      destruct (updateTransactions api (u :: us) w1) as [[e|r] w2];
        right; eexists; eexists; (split; [|reflexivity]); discriminate.
Qed.

(** X19. One [syncToYNAB] makes at most three remote calls, in this
    order: the batched create, then the listing of the target account,
    then one update.  An empty batch makes no call and leaves the
    outside world as it was; the listing is made only after a create
    that returned, and not at all when the create reported no
    duplicate; the update is made only after a listing that returned,
    and is never empty.  Before the calls come the warnings about
    unexpected statuses, and nothing is ever deleted. *)
Theorem sync_calls_in_order :
  forall (W : Type) (api : Api W) (accountId : string)
         (upTxs : list TransactionResource) (w : W),
    let batch := map (toYnabTransaction accountId (toISOString api w)) upTxs in
    let x := syncToYNAB api accountId upTxs w in
    (exists calls,
        events_of x = statusWarnings upTxs ++ calls
        /\ SyncCalls accountId batch calls)
    /\ (upTxs = [] ->
        x = (inr {| imported := 0; duplicates := 0; total := 0 |}, w, []))
    /\ (forall result w1,
           upTxs <> [] ->
           createTransactions api batch w = (inr result, w1) ->
           duplicateCountOf result = 0 ->
           events_of x
           = statusWarnings upTxs ++ [Called (CreateTransactions batch) true]
           /\ world_of x = w1).
Proof.
  intros W api accountId upTxs w batch x. subst x.
  rewrite syncToYNAB_unfold. cbv zeta. fold batch.
  destruct upTxs as [|u us].
  - split; [|split].
    + exists []. split; [reflexivity|]. apply NothingToSend. reflexivity.
    + intros _. reflexivity.
    + intros result w1 Ne. congruence.
  - assert (Nb : batch <> []) by (subst batch; discriminate).
    split; [|split; [discriminate|]].
    + destruct (createTransactions api batch w) as [[e|result] w1].
      * eexists. split; [reflexivity|]. apply CreateOnly. exact Nb.
      * destruct (reconcileDuplicates_calls api accountId result batch w1)
          as [[E _]|[[ok E]|[updates [ok [Nu E]]]]];
          unfold events_of in *; cbn [snd] in *; rewrite E;
          eexists; (split; [reflexivity|]).
        -- apply CreateOnly. exact Nb.
        -- apply CreateThenList. exact Nb.
        -- apply CreateListUpdate; assumption.
    + intros result w1 _ C Z. rewrite C.
      unfold reconcileDuplicates, duplicateCountOf in *.
      destruct (duplicate_import_ids result) as [dups|].
      * rewrite Z. split; reflexivity.
      * split; reflexivity.
Qed.

Lemma sync_calls_in_order_witness :
  syncToYNAB Ref.api "Y1" [] (Samples.drifted [])
  = (inr {| imported := 0; duplicates := 0; total := 0 |},
     Samples.drifted [], []).
Proof.
  exact (proj1 (proj2 (sync_calls_in_order Ref.World Ref.api "Y1" []
                         (Samples.drifted [])))
           eq_refl).
Defined.

(** *** The cleared-status update *)

Lemma newMap_get_from {V : Type} (entries : list (string * V)) (k : string)
    (v : V) :
  forall m,
    JS.get (fold_left (fun m kv => JS.set m (fst kv) (snd kv)) entries m) k
    = Some v ->
    In (k, v) entries \/ JS.get m k = Some v.
Proof.
  induction entries as [|[k0 v0] rest IH]; intros m G; [right; exact G|].
  cbn [fold_left fst snd] in G. destruct (IH _ G) as [I|G'].
  - left. right. exact I.
  - destruct (String.eqb_spec k0 k) as [->|N].
    + rewrite get_set_same in G'. inversion G'. left. left. reflexivity.
    + rewrite (get_set_other _ _ _ _ N) in G'. right. exact G'.
Qed.

Lemma newMap_get_some {V : Type} (entries : list (string * V)) (k : string) :
  (exists v, In (k, v) entries) ->
  exists v, JS.get (JS.newMap entries) k = Some v /\ In (k, v) entries.
Proof.
  intros [v0 I].
  assert (G : forall m,
             (exists v, JS.get m k = Some v) \/ (exists v, In (k, v) entries) ->
             exists v,
               JS.get (fold_left (fun m kv => JS.set m (fst kv) (snd kv))
                         entries m) k = Some v).
  { clear. induction entries as [|[k0 v0] rest IH]; intros m [[v G]|[v I]].
    - exists v. exact G.
    - destruct I.
    - cbn [fold_left fst snd]. apply IH. left.
      destruct (String.eqb_spec k0 k) as [->|N].
      + exists v0. apply get_set_same.
      + exists v. rewrite (get_set_other _ _ _ _ N). exact G.
    - cbn [fold_left fst snd]. apply IH. destruct I as [E|I].
      + inversion E. subst. left. exists v. apply get_set_same.
      + right. exists v. exact I. }
  destruct (G [] (or_intror (ex_intro _ v0 I))) as [v Gv].
  exists v. split; [exact Gv|].
  destruct (newMap_get_from entries k v [] Gv) as [I'|C]; [exact I'|discriminate].
Qed.

Lemma desired_entry (dups : list string) (accountId isoNow : string)
    (upTxs : list TransactionResource) (k : string)
    (c : TransactionClearedStatus) :
  In (k, c)
     (map (fun tx => (JS.or_str (sv_import_id tx) "", sv_cleared tx))
        (filter
           (fun tx =>
              match sv_import_id tx with
              | Some k => JS.includes dups k
              | None => false
              end)
           (map (toYnabTransaction accountId isoNow) upTxs)))
  <-> exists upTx,
        In upTx upTxs
        /\ k = importIdOf (tx_id upTx)
        /\ c = clearedStatusOf (attr status upTx)
        /\ In k dups.
Proof.
  rewrite in_map_iff. split.
  - intros [t [E I]]. apply filter_In in I. destruct I as [I F].
    apply in_map_iff in I. destruct I as [upTx [<- I]].
    cbn [toYnabTransaction sv_import_id sv_cleared] in *.
    rewrite or_str_importIdOf in E. inversion E. subst.
    exists upTx. repeat split; try assumption.
    apply includes_In. exact F.
  - intros [upTx [I [-> [-> Dk]]]].
    exists (toYnabTransaction accountId isoNow upTx). split.
    + cbn [toYnabTransaction sv_import_id sv_cleared].
      rewrite or_str_importIdOf. reflexivity.
    + apply filter_In. split; [apply in_map; exact I|].
      cbn [toYnabTransaction sv_import_id]. apply includes_In. exact Dk.
Qed.

Lemma cleared_eqb_spec (a b : TransactionClearedStatus) :
  cleared_eqb a b = true <-> a = b.
Proof. destruct a, b; cbn; split; congruence. Qed.

Lemma importIdOf_not_empty (id : string) : importIdOf id <> "".
Proof. rewrite importIdOf_prefix. discriminate. Qed.

Lemma or_str_key (o : option string) (id : string) :
  JS.or_str o "" = importIdOf id -> o = Some (importIdOf id).
Proof.
  destruct o as [[|c s]|]; cbn [JS.or_str]; intros E.
  - exfalso. exact (importIdOf_not_empty id (eq_sym E)).
  - rewrite E. reflexivity.
  - exfalso. exact (importIdOf_not_empty id (eq_sym E)).
Qed.

(** X20. The update of step 5 touches reported duplicates only.
    Every transaction it updates is one that the listing shows, whose
    import id is the key of a transaction of the batch and was
    reported as duplicate by the create, and whose cleared status
    differs from the one the batch wants; the status it sets is the
    wanted one, which is Cleared or Uncleared, never Reconciled.  A
    transaction without an import id, or with one that is not of the
    batch, is never updated.  Conversely a listed duplicate that is
    Reconciled is always updated, and so loses its reconciled
    status. *)
Theorem updates_touch_only_reported_duplicates :
  forall (accountId isoNow : string) (upTxs : list TransactionResource)
         (dups : list string) (existing : list TransactionDetail),
    let desired :=
      desiredClearedStatusOf dups
        (map (toYnabTransaction accountId isoNow) upTxs) in
    let updates := transactionsToUpdateOf desired existing in
    (forall u,
        In u updates ->
        exists tx upTx,
          In tx existing /\ In upTx upTxs
          /\ ut_id u = td_id tx
          /\ td_import_id tx = Some (importIdOf (tx_id upTx))
          /\ In (importIdOf (tx_id upTx)) dups
          /\ ut_cleared u = Some (clearedStatusOf (attr status upTx))
          /\ td_cleared tx <> clearedStatusOf (attr status upTx)
          /\ ut_cleared u <> Some Reconciled)
    /\ (forall tx upTx,
           In tx existing -> In upTx upTxs ->
           td_import_id tx = Some (importIdOf (tx_id upTx)) ->
           In (importIdOf (tx_id upTx)) dups ->
           td_cleared tx = Reconciled ->
           exists u,
             In u updates /\ ut_id u = td_id tx
             /\ (ut_cleared u = Some Cleared \/ ut_cleared u = Some Uncleared)).
Proof.
  intros accountId isoNow upTxs dups existing desired updates.
  assert (Known : forall k c,
             JS.get desired k = Some c ->
             exists upTx,
               In upTx upTxs /\ k = importIdOf (tx_id upTx)
               /\ c = clearedStatusOf (attr status upTx) /\ In k dups).
  { intros k c G. subst desired. unfold desiredClearedStatusOf, JS.newMap in G.
    destruct (newMap_get_from _ _ _ _ G) as [I|C]; [|discriminate].
    apply desired_entry in I. exact I. }
  assert (NotReconciled : forall s, clearedStatusOf s <> Reconciled).
  { intros s. unfold clearedStatusOf.
    destruct (statusIs s "HELD"); [discriminate|].
    destruct (statusIs s "SETTLED"); discriminate. }
  split.
  - intros u I. subst updates. unfold transactionsToUpdateOf in I.
    apply in_map_iff in I. destruct I as [tx [<- I]].
    apply filter_In in I. destruct I as [I F].
    destruct (JS.get desired (JS.or_str (td_import_id tx) "")) as [c|] eqn:G;
      [|discriminate].
    destruct (Known _ _ G) as [upTx [Iu [K [C Dk]]]].
    exists tx, upTx. cbn [ut_id ut_cleared].
    assert (Kd : In (importIdOf (tx_id upTx)) dups)
      by (rewrite <- K; exact Dk).
    apply or_str_key in K.
    repeat split; try assumption.
    + rewrite C. reflexivity.
    + intros E. apply negb_true_iff in F.
      assert (T : cleared_eqb (td_cleared tx) c = true)
        by (apply cleared_eqb_spec; congruence).
      congruence.
    + rewrite C. intros E. inversion E as [E1].
      exact (NotReconciled _ E1).
  - intros tx upTx It Iu K Dk R.
    assert (S : exists c, JS.get desired (importIdOf (tx_id upTx)) = Some c).
    { subst desired. unfold desiredClearedStatusOf.
      destruct (newMap_get_some
                  (map (fun tx => (JS.or_str (sv_import_id tx) "", sv_cleared tx))
                     (filter
                        (fun tx =>
                           match sv_import_id tx with
                           | Some k => JS.includes dups k
                           | None => false
                           end)
                        (map (toYnabTransaction accountId isoNow) upTxs)))
                  (importIdOf (tx_id upTx))) as [c [G _]].
      - exists (clearedStatusOf (attr status upTx)). apply desired_entry.
        exists upTx. repeat split; assumption.
      - exists c. exact G. }
    destruct S as [c G].
    destruct (Known _ _ G) as [upTx' [_ [_ [C _]]]].
    exists {| ut_id := td_id tx; ut_cleared := Some c |}.
    split; [|split; [reflexivity|]].
    + subst updates. unfold transactionsToUpdateOf. apply in_map_iff.
      exists tx. rewrite K, or_str_importIdOf, G. split; [reflexivity|].
      apply filter_In. split; [exact It|].
      rewrite K, or_str_importIdOf, G, R.
      destruct c; [reflexivity|reflexivity|].
      exfalso. exact (NotReconciled _ (eq_sym C)).
    + cbn [ut_cleared]. destruct c; [left|right|]; try reflexivity.
      exfalso. exact (NotReconciled _ (eq_sym C)).
Qed.

Lemma updates_touch_only_reported_duplicates_witness :
  exists u,
    In u
       (transactionsToUpdateOf
          (desiredClearedStatusOf ["UPBANK:a"]
             (map (toYnabTransaction "Y1" "2024-03-05T00:00:00.000Z")
                [Ref.upTx "a" "SETTLED"]))
          [Ref.ynabTx "y1" "Y1" "UPBANK:a" Reconciled false])
    /\ ut_id u = "y1"
    /\ (ut_cleared u = Some Cleared \/ ut_cleared u = Some Uncleared).
Proof.
  apply (proj2 (updates_touch_only_reported_duplicates "Y1"
                  "2024-03-05T00:00:00.000Z" [Ref.upTx "a" "SETTLED"]
                  ["UPBANK:a"]
                  [Ref.ynabTx "y1" "Y1" "UPBANK:a" Reconciled false])
           (Ref.ynabTx "y1" "Y1" "UPBANK:a" Reconciled false)
           (Ref.upTx "a" "SETTLED"));
    first [reflexivity | simpl; tauto].
Defined.

(** *** Where a resync starts *)

Lemma lt_transitive (a b c : string) :
  JS.lt a b = true -> JS.lt b c = true -> JS.lt a c = true.
Proof.
  unfold JS.lt, String.ltb.
  destruct (a ?= b)%string eqn:AB; try discriminate.
  destruct (b ?= c)%string eqn:BC; try discriminate.
  intros _ _.
  apply OrderedTypeEx.String_as_OT.cmp_lt in AB, BC.
  assert (AC : (a ?= c)%string = Lt).
  { apply OrderedTypeEx.String_as_OT.cmp_lt.
    exact (OrderedTypeEx.String_as_OT.lt_trans _ _ _ AB BC). }
  rewrite AC. reflexivity.
Qed.

Lemma lt_between (a b c : string) :
  JS.lt a c = true -> JS.lt a b = true \/ JS.lt b c = true.
Proof.
  intros AC.
  destruct (a ?= b)%string eqn:AB.
  - apply String.compare_eq_iff in AB. subst b. right. exact AC.
  - left. unfold JS.lt, String.ltb. rewrite AB. reflexivity.
  - right. apply (lt_transitive b a c); [|exact AC].
    unfold JS.lt, String.ltb. rewrite String.compare_antisym, AB. reflexivity.
Qed.

Lemma earliest_fold (txs : list TransactionDetail) :
  (forall tx, In tx txs -> td_deleted tx = false -> td_date tx <> "") ->
  forall e0,
    (forall d0, e0 = Some d0 -> d0 <> "") ->
    match fold_left updateEarliest txs e0 with
    | None => e0 = None /\ forall tx, In tx txs -> td_deleted tx = true
    | Some d =>
        d <> ""
        /\ (e0 = Some d
            \/ exists tx, In tx txs /\ td_deleted tx = false /\ td_date tx = d)
        /\ (forall tx, In tx txs -> td_deleted tx = false ->
                       JS.lt (td_date tx) d = false)
        /\ (forall d0, e0 = Some d0 -> JS.lt d0 d = false)
    end.
Proof.
  induction txs as [|tx rest IH]; intros Dates e0 E0.
  - cbn [fold_left]. destruct e0 as [d|].
    + split; [apply E0; reflexivity|]. split; [left; reflexivity|].
      split; [intros tx []|].
      intros d0 E. inversion E. subst d0. unfold JS.lt, String.ltb.
      destruct (d ?= d)%string eqn:C; try reflexivity.
      pose proof (String.compare_antisym d d) as A. rewrite C in A. discriminate.
    + split; [reflexivity|intros tx []].
  - cbn [fold_left].
    assert (Dr : forall t, In t rest -> td_deleted t = false -> td_date t <> "")
      by (intros t I; apply Dates; right; exact I).
    assert (S : updateEarliest e0 tx = e0 /\
                (td_deleted tx = false ->
                 exists d0, e0 = Some d0 /\ JS.lt (td_date tx) d0 = false)
                \/ updateEarliest e0 tx = Some (td_date tx)
                   /\ td_deleted tx = false
                   /\ (forall d0, e0 = Some d0 ->
                                  JS.lt (td_date tx) d0 = true)).
    { unfold updateEarliest. destruct (td_deleted tx) eqn:Del; cbn [negb andb].
      - left. split; [reflexivity|discriminate].
      - destruct e0 as [d0|].
        + pose proof (E0 d0 eq_refl) as N0.
          destruct d0 as [|c0 r0]; [congruence|].
          cbn [JS.truthy negb orb JS.or_str].
          destruct (JS.lt (td_date tx) (String c0 r0)) eqn:L.
          * right. repeat split. intros d E. inversion E. subst. exact L.
          * left. split; [reflexivity|]. intros _. eexists. split; [reflexivity|exact L].
        + right. cbn. repeat split. discriminate. }
    destruct S as [[Keep Old]|[New [Del Less]]].
    + rewrite Keep. specialize (IH Dr e0 E0).
      destruct (fold_left updateEarliest rest e0) as [d|].
      * destruct IH as [Nd [From [Min Min0]]].
        split; [exact Nd|]. split.
        { destruct From as [F|[t [I [Dt Et]]]]; [left; exact F|].
          right. exists t. repeat split; try assumption. right. exact I. }
        split; [|exact Min0].
        intros t [<-|I] Dt; [|apply Min; assumption].
        destruct (Old Dt) as [d0 [E L]].
        destruct (JS.lt (td_date tx) d) eqn:C; [|reflexivity].
        destruct (lt_between _ d0 _ C) as [C1|C2]; [congruence|].
        rewrite (Min0 d0 E) in C2. discriminate.
      * destruct IH as [E None']. split; [exact E|].
        intros t [<-|I]; [|apply None'; exact I].
        destruct (td_deleted tx) eqn:Dt; [reflexivity|].
        destruct (Old eq_refl) as [d0 [E' _]]. congruence.
    + rewrite New.
      assert (E1 : forall d0, Some (td_date tx) = Some d0 -> d0 <> "").
      { intros d0 E. inversion E. subst d0. apply Dates; [left; reflexivity|exact Del]. }
      specialize (IH Dr (Some (td_date tx)) E1).
      destruct (fold_left updateEarliest rest (Some (td_date tx))) as [d|].
      * destruct IH as [Nd [From [Min Min0]]].
        split; [exact Nd|]. split.
        { right. destruct From as [F|[t [I [Dt Et]]]].
          - inversion F. exists tx. repeat split; try assumption. left. reflexivity.
          - exists t. repeat split; try assumption. right. exact I. }
        split.
        { intros t [<-|I] Dt; [apply Min0; reflexivity|apply Min; assumption]. }
        intros d0 E.
        destruct (JS.lt d0 d) eqn:C; [|reflexivity].
        pose proof (lt_transitive _ _ _ (Less d0 E) C) as C'.
        rewrite (Min0 _ eq_refl) in C'. discriminate.
      * destruct IH as [E _]. discriminate.
Qed.

Lemma fetchesSince_app (d : string) (x y : list Event) :
  fetchesSince d x -> fetchesSince d y -> fetchesSince d (x ++ y).
Proof. unfold fetchesSince. intros X Y. apply Forall_app. split; assumption. Qed.

Lemma fetchesSince_nil (d : string) : fetchesSince d [].
Proof. constructor. Qed.

Lemma bind_events {W A B : Type} (P : list Event -> Prop)
    (m : M W A) (f : A -> M W B) (w : W) :
  (forall x y, P x -> P y -> P (x ++ y)) ->
  P (events_of (m w)) ->
  (forall a w1 t1, m w = (inr a, w1, t1) -> P (events_of (f a w1))) ->
  P (events_of (bind m f w)).
Proof.
  intros Papp Pm Pf. unfold bind.
  destruct (m w) as [[[e|a] w1] t1] eqn:E; [exact Pm|].
  specialize (Pf a w1 t1 eq_refl).
  destruct (f a w1) as [[r w2] t2].
  unfold events_of in *. cbn [snd] in *. apply Papp; assumption.
Qed.

Lemma since_fetch {W : Type} (api : Api W) (accountId sinceDate : string)
    (w : W) :
  fetchesSince sinceDate
    (events_of (fetchUpTransactionsByAccount api accountId sinceDate w)).
Proof.
  rewrite fetch_unfold. unfold events_of. cbn [snd].
  rewrite followPages_requests.
  assert (R : forall first count ok,
             fetchesSince sinceDate
               (pageRequests accountId sinceDate first count ok)).
  { intros first count ok. unfold pageRequests, fetchesSince.
    apply Forall_forall. intros e I. apply in_map_iff in I.
    destruct I as [page [<- _]]. reflexivity. }
  destruct (chainError _); [|apply R].
  apply fetchesSince_app; [apply R|].
  constructor; [reflexivity|constructor].
Qed.

Lemma since_sync {W : Type} (api : Api W) (d accountId : string)
    (upTxs : list TransactionResource) (w : W) :
  fetchesSince d (events_of (syncToYNAB api accountId upTxs w)).
Proof.
  rewrite syncToYNAB_unfold. cbv zeta.
  assert (Ws : fetchesSince d (statusWarnings upTxs)).
  { unfold statusWarnings, fetchesSince. apply Forall_forall. intros e I.
    apply in_flat_map in I. destruct I as [t [_ I]].
    destruct (unexpectedStatus (attr status t)); [|destruct I].
    destruct I as [<-|[]]. exact Logic.I. }
  destruct upTxs as [|u us]; [exact Ws|].
  destruct (createTransactions api _ w) as [[e|result] w1];
    unfold events_of at 1; cbn [snd].
  - apply fetchesSince_app; [exact Ws|]. constructor; [exact Logic.I|constructor].
  - apply fetchesSince_app; [exact Ws|]. constructor; [exact Logic.I|].
    destruct (reconcileDuplicates_calls api accountId result
                (map (toYnabTransaction accountId (toISOString api w)) (u :: us))
                w1)
      as [[E _]|[[ok E]|[updates [ok [_ E]]]]]; rewrite E;
      repeat constructor.
Qed.

Lemma since_syncAll {W : Type} (api : Api W) (d : string)
    (accountMapping : list (string * string)) (w : W) :
  fetchesSince d (events_of (syncAllAccounts api accountMapping d w)).
Proof.
  unfold syncAllAccounts.
  apply forOf_events;
    [apply fetchesSince_nil|apply fetchesSince_app|].
  intros [accs [[i dd] t]] [up yn] w0. rewrite syncMapping_run.
  assert (S : fetchesSince d (events_of (syncAccount api up yn d w0))).
  { unfold syncAccount. apply bind_events.
    - apply fetchesSince_app.
    - apply since_fetch.
    - intros txs w1 t1 _. apply since_sync. }
  destruct (syncAccount api up yn d w0) as [[[e|r] w1] t1]; exact S.
Qed.

Lemma since_delete {W : Type} (api : Api W) (d : string)
    (orphans : list OrphanedTransaction) (w : W) :
  fetchesSince d (events_of (deleteOrphans api orphans w)).
Proof.
  unfold deleteOrphans.
  apply forOf_events;
    [apply fetchesSince_nil|apply fetchesSince_app|].
  intros n orphan w0. rewrite deleteOrphan_unfold.
  constructor; [exact Logic.I|constructor].
Qed.

Lemma since_restore {W : Type} (api : Api W) (d : string)
    (toRestore : list (TransactionResource * string)) (w : W) :
  fetchesSince d (events_of (restoreDeleted api toRestore w)).
Proof.
  unfold restoreDeleted.
  apply forOf_events;
    [apply fetchesSince_nil|apply fetchesSince_app|].
  intros [rc rt] [acct upTxs] w0. rewrite restoreGroup_unfold.
  constructor; [exact Logic.I|constructor].
Qed.

Lemma since_collect {W : Type} (api : Api W) (d : string)
    (accounts : list string) (w : W) :
  fetchesSince d (events_of (collectYnabTransactions api accounts w)).
Proof.
  unfold collectYnabTransactions.
  apply forOf_events;
    [apply fetchesSince_nil|apply fetchesSince_app|].
  intros [m e] a w0. rewrite collectAccount_unfold.
  destruct (getTransactionsByAccount api a w0) as [[err|txs] w1];
    (constructor; [exact Logic.I|constructor]).
Qed.

Lemma since_plan {W : Type} (api : Api W)
    (accountMapping : list (string * string)) (w : W) byAccount earliestDate
    w1 t1 r w' evs :
  collectYnabTransactions api (map snd accountMapping) w
  = (inr (byAccount, earliestDate), w1, t1) ->
  resyncPlan api accountMapping w = (r, w', evs) ->
  fetchesSince (JS.or_str earliestDate "") evs
  /\ forall p, r = inr (Some p) ->
               plan_earliestDate p = JS.or_str earliestDate "".
Proof.
  intros C R.
  pose proof (since_collect api (JS.or_str earliestDate "")
                (map snd accountMapping) w) as Sc.
  rewrite C in Sc. unfold events_of in Sc. cbn [snd] in Sc.
  unfold resyncPlan, bind at 1 in R. rewrite C in R.
  set (d := JS.or_str earliestDate "") in *.
  destruct (negb (JS.truthy earliestDate)).
  { unfold ret in R. inversion R. subst. rewrite app_nil_r.
    split; [exact Sc|discriminate]. }
  unfold bind at 1 in R.
  destruct (findRestorableImportIds api w1) as [[[e|restorable] w2] t2] eqn:F.
  { inversion R. subst. split; [|discriminate].
    apply fetchesSince_app; [exact Sc|].
    unfold findRestorableImportIds, bind, call in F.
    destruct (getTransactions api w1) as [[e'|txs] w2']; inversion F;
      repeat constructor. }
  assert (F2 : fetchesSince d t2).
  { unfold findRestorableImportIds, bind, call, ret in F.
    destruct (getTransactions api w1) as [[e'|txs] w2']; inversion F;
      repeat constructor. }
  assert (N : fetchesSince d
                (events_of (collectUpBankIds api accountMapping d restorable w2))).
  { unfold collectUpBankIds.
    apply forOf_events;
      [apply fetchesSince_nil|apply fetchesSince_app|].
    intros acc [up yn] w0. unfold noteAccount. apply bind_events.
    - apply fetchesSince_app.
    - apply since_fetch.
    - intros txs w3 t3 _. apply fetchesSince_nil. }
  unfold bind in R.
  destruct (collectUpBankIds api accountMapping d restorable w2)
    as [[[e|[ids toRestore]] w3] t3];
    unfold events_of in N; cbn [snd] in N.
  - inversion R. subst. split; [|discriminate].
    apply fetchesSince_app; [exact Sc|apply fetchesSince_app; assumption].
  - unfold ret in R. inversion R. subst. rewrite app_nil_r. split.
    + apply fetchesSince_app; [exact Sc|apply fetchesSince_app; assumption].
    + intros p E. inversion E. reflexivity.
Qed.

Lemma plan_when_truthy {W : Type} (api : Api W)
    (accountMapping : list (string * string)) (w : W) byAccount earliestDate
    w1 t1 w' evs :
  collectYnabTransactions api (map snd accountMapping) w
  = (inr (byAccount, earliestDate), w1, t1) ->
  JS.truthy earliestDate = true ->
  resyncPlan api accountMapping w <> (inr None, w', evs).
Proof.
  intros C T R. unfold resyncPlan, bind at 1 in R. rewrite C, T in R.
  cbn [negb] in R. unfold bind in R.
  destruct (findRestorableImportIds api w1) as [[[e|restorable] w2] t2];
    [discriminate|].
  destruct (collectUpBankIds api accountMapping (JS.or_str earliestDate "")
              restorable w2) as [[[e|[ids toRestore]] w3] t3];
    discriminate.
Qed.

Lemma since_pass {W : Type} (api : Api W)
    (accountMapping : list (string * string)) (dryRun : bool) (w : W)
    byAccount (d : string) :
  result_of (collectYnabTransactions api (map snd accountMapping) w)
  = inr (byAccount, Some d) ->
  d <> "" ->
  let pass := performResyncAll api accountMapping dryRun w in
  fetchesSince d (events_of pass)
  /\ forall r, result_of pass = inr r -> resync_earliestDate r = Some d.
Proof.
  intros C Nd pass. subst pass.
  destruct (collectYnabTransactions api (map snd accountMapping) w)
    as [[rc wc] tc] eqn:Ec.
  unfold result_of in C. cbn [fst] in C. subst rc.
  assert (Ed : JS.or_str (Some d) "" = d)
    by (destruct d; [congruence|reflexivity]).
  assert (T : JS.truthy (Some d) = true)
    by (destruct d; [congruence|reflexivity]).
  rewrite performResyncAll_plan.
  destruct (resyncPlan api accountMapping w) as [[rp w1] t1] eqn:R.
  destruct (since_plan api accountMapping w _ _ _ _ _ _ _ Ec R) as [S P].
  rewrite Ed in S, P.
  unfold bind. rewrite R.
  destruct rp as [e|[p|]].
  - split; [exact S|discriminate].
  - specialize (P p eq_refl).
    destruct dryRun.
    + unfold ret, events_of, result_of. cbn [fst snd]. rewrite app_nil_r.
      split; [exact S|]. intros r E. inversion E. cbn. rewrite P. reflexivity.
    + destruct (applyPlan_run api accountMapping p w1) as [n [rr [_ [_ A]]]].
      rewrite A. unfold events_of at 1, result_of at 1. cbn [fst snd].
      split.
      * apply fetchesSince_app; [exact S|].
        apply fetchesSince_app; [apply since_delete|].
        apply fetchesSince_app; [apply since_restore|].
        rewrite P. apply since_syncAll.
      * intros r E.
        destruct (result_of (syncAllAccounts api accountMapping
                               (plan_earliestDate p) _)) as [e|ss];
          inversion E. cbn. rewrite P. reflexivity.
  - exfalso. exact (plan_when_truthy api accountMapping w _ _ _ _ _ _ Ec T R).
Qed.

Lemma listAccount_unfold {W : Type} (api : Api W)
    (listed : list (list TransactionDetail)) (a : string) (w : W) :
  listAccount api listed a w
  = match getTransactionsByAccount api a w with
    | (inl e, w1) => (inl e, w1, [Called (GetTransactionsByAccount a) false])
    | (inr transactions, w1) =>
        (inr (listed ++ [transactions]), w1,
         [Called (GetTransactionsByAccount a) true])
    end.
Proof.
  unfold listAccount, bind, call, ret.
  destruct (getTransactionsByAccount api a w) as [[e|txs] w1]; reflexivity.
Qed.

Lemma collect_listed {W : Type} (api : Api W) (accounts : list string) :
  forall m e listed (w : W),
    match forOf (listAccount api) accounts listed w with
    | (inl err, w1, t1) =>
        forOf (collectAccount api) accounts (m, e) w = (inl err, w1, t1)
    | (inr listed', w1, t1) =>
        exists m' added,
          listed' = listed ++ added
          /\ forOf (collectAccount api) accounts (m, e) w
             = (inr (m', fold_left updateEarliest (concat added) e), w1, t1)
          /\ t1 = map (fun a => Called (GetTransactionsByAccount a) true)
                    accounts
    end.
Proof.
  induction accounts as [|a rest IH]; intros m e listed w.
  - cbn [forOf]. unfold ret. exists m, []. rewrite app_nil_r.
    repeat split; reflexivity.
  - rewrite !forOf_cons, listAccount_unfold, collectAccount_unfold.
    destruct (getTransactionsByAccount api a w) as [[err|txs] w1];
      [reflexivity|].
    specialize (IH (JS.set m a (upBankTransactionsOf txs))
                  (fold_left updateEarliest txs e) (listed ++ [txs]) w1).
    destruct (forOf (listAccount api) rest (listed ++ [txs]) w1)
      as [[[err|listed'] w2] t2].
    + rewrite IH. reflexivity.
    + destruct IH as [m' [added [L [C T]]]].
      exists m', (txs :: added). rewrite C.
      unfold after, result_of, world_of, events_of. cbn [fst snd app].
      repeat split.
      * rewrite L, <- app_assoc. reflexivity.
      * cbn [concat]. rewrite fold_left_app. reflexivity.
      * rewrite T. reflexivity.
Qed.

Lemma active_In (listings : list (list TransactionDetail))
    (tx : TransactionDetail) :
  In tx (activeOf listings)
  <-> In tx (concat listings) /\ td_deleted tx = false.
Proof.
  unfold activeOf. rewrite filter_In, negb_true_iff. reflexivity.
Qed.

(** X21. A resync starts from the earliest date among the
    transactions of the mapped YNAB accounts that are not deleted,
    whether they came from Up Bank or not: every fetch from Up Bank
    that the pass makes, in its detection and in its final sync, asks
    for the transactions since that date, and the report carries it.
    When the mapped accounts list no transaction that is not deleted,
    the pass reports that there is nothing to resync and has made no
    call but the listings. *)
Theorem resync_starts_from_the_earliest_active_date :
  forall (W : Type) (api : Api W) (accountMapping : list (string * string))
         (dryRun : bool) (w : W) (listings : list (list TransactionDetail)),
    result_of (listAccounts api (map snd accountMapping) w) = inr listings ->
    (forall tx, In tx (activeOf listings) -> td_date tx <> "") ->
    let pass := performResyncAll api accountMapping dryRun w in
    (activeOf listings = [] ->
     pass
     = (inr (nothingReport dryRun),
        world_of (listAccounts api (map snd accountMapping) w),
        map (fun a => Called (GetTransactionsByAccount a) true)
          (map snd accountMapping)))
    /\ (activeOf listings <> [] ->
        exists d,
          In d (map td_date (activeOf listings))
          /\ (forall tx, In tx (activeOf listings) ->
                         JS.lt (td_date tx) d = false)
          /\ fetchesSince d (events_of pass)
          /\ (forall r, result_of pass = inr r ->
                        resync_earliestDate r = Some d)).
Proof.
  intros W api accountMapping dryRun w listings L Dates pass.
  pose proof (collect_listed api (map snd accountMapping) [] None [] w) as C.
  unfold listAccounts in L.
  destruct (forOf (listAccount api) (map snd accountMapping) [] w)
    as [[rl wl] tl] eqn:El.
  unfold result_of in L. cbn [fst] in L. subst rl.
  destruct C as [m' [added [La [C T]]]]. cbn [app] in La. subst added.
  change (forOf (collectAccount api) (map snd accountMapping) ([], None) w)
    with (collectYnabTransactions api (map snd accountMapping) w) in C.
  assert (Dall : forall tx, In tx (concat listings) -> td_deleted tx = false ->
                            td_date tx <> "").
  { intros tx I D. apply Dates. apply active_In. split; assumption. }
  pose proof (earliest_fold (concat listings) Dall None
                ltac:(intros d0 E; discriminate)) as F.
  destruct (fold_left updateEarliest (concat listings) None) as [d|] eqn:Ef.
  - destruct F as [Nd [[F|[tx [I [Del Et]]]] [Min _]]]; [discriminate|].
    split.
    + intros A. exfalso.
      assert (Ia : In tx (activeOf listings)) by (apply active_In; split; assumption).
      rewrite A in Ia. destruct Ia.
    + intros _. exists d. split; [|split].
      * apply in_map_iff. exists tx. split; [exact Et|].
        apply active_In. split; assumption.
      * intros t It. apply active_In in It. destruct It as [It Dt].
        apply Min; assumption.
      * apply (since_pass api accountMapping dryRun w m' d); [|exact Nd].
        rewrite C. reflexivity.
  - destruct F as [_ AllDeleted]. split.
    + intros _. subst pass.
      unfold listAccounts. rewrite El. unfold world_of. cbn [fst snd].
      unfold performResyncAll, bind. rewrite C. cbn [JS.truthy negb].
      unfold ret. rewrite app_nil_r, T. reflexivity.
    + intros A. exfalso. destruct (activeOf listings) as [|tx rest] eqn:Ea;
        [congruence|].
      assert (Ia : In tx (activeOf listings)) by (rewrite Ea; left; reflexivity).
      apply active_In in Ia. destruct Ia as [I D].
      rewrite (AllDeleted tx I) in D. discriminate.
Qed.

Lemma resync_starts_from_the_earliest_active_date_witness :
  exists d,
    In d (map td_date
            (activeOf
               [[Ref.ynabTx "y1" "Y1" "UPBANK:a" Uncleared false;
                 Ref.ynabTx "y2" "Y1" "UPBANK:gone" Cleared false]; []]))
    /\ fetchesSince d
         (events_of
            (performResyncAll Ref.api Samples.mapping2 false (Samples.drifted []))).
Proof.
  destruct (proj2 (resync_starts_from_the_earliest_active_date Ref.World
                     Ref.api Samples.mapping2 false (Samples.drifted [])
                     [[Ref.ynabTx "y1" "Y1" "UPBANK:a" Uncleared false;
                       Ref.ynabTx "y2" "Y1" "UPBANK:gone" Cleared false]; []]
                     eq_refl
                     ltac:(intros tx [<-|[<-|[]]]; discriminate))
              ltac:(discriminate))
    as [d [I [_ [S _]]]].
  exists d. split; assumption.
Defined.

(** *** Reads before writes *)

Lemma forOf_returned {W A B : Type} (f : B -> A -> M W B) (l : list A) :
  (forall b a w b' w' evs,
      f b a w = (inr b', w', evs) -> forallb returned evs = true) ->
  forall b (w : W) b' w' evs,
    forOf f l b w = (inr b', w', evs) -> forallb returned evs = true.
Proof.
  intros F. induction l as [|a l IH]; intros b w b' w' evs.
  - cbn [forOf]. unfold ret. intros E. inversion E. reflexivity.
  - rewrite forOf_cons.
    destruct (f b a w) as [[[e|b1] w1] t1] eqn:Ef; [discriminate|].
    unfold after, result_of, world_of, events_of.
    destruct (forOf f l b1 w1) as [[r2 w2] t2] eqn:E2. cbn [fst snd].
    intros E. inversion E. subst.
    rewrite forallb_app, (F _ _ _ _ _ _ Ef), (IH _ _ _ _ _ E2). reflexivity.
Qed.

Lemma fetch_returned {W : Type} (api : Api W) (accountId sinceDate : string)
    (w : W) txs w' evs :
  fetchUpTransactionsByAccount api accountId sinceDate w = (inr txs, w', evs) ->
  forallb returned evs = true.
Proof.
  rewrite fetch_unfold, followPages_requests.
  destruct (chainError _); [discriminate|].
  intros E. inversion E. unfold pageRequests.
  apply forallb_forall. intros e I. apply in_map_iff in I.
  destruct I as [page [<- _]]. reflexivity.
Qed.

Lemma plan_returned {W : Type} (api : Api W)
    (accountMapping : list (string * string)) (w : W) plan w' evs :
  resyncPlan api accountMapping w = (inr plan, w', evs) ->
  forallb returned evs = true.
Proof.
  unfold resyncPlan, bind at 1.
  destruct (collectYnabTransactions api (map snd accountMapping) w)
    as [[[e|[byAccount earliestDate]] w1] t1] eqn:C; [discriminate|].
  assert (R1 : forallb returned t1 = true).
  { unfold collectYnabTransactions in C.
    refine (forOf_returned (collectAccount api) _ _ _ _ _ _ _ C).
    intros [m e] a w0 b' w0' evs0. rewrite collectAccount_unfold.
    destruct (getTransactionsByAccount api a w0) as [[err|txs] w2];
      [discriminate|].
    intros E. inversion E. reflexivity. }
  destruct (negb (JS.truthy earliestDate)).
  { unfold ret. intros E. inversion E. rewrite app_nil_r. exact R1. }
  unfold bind at 1.
  destruct (findRestorableImportIds api w1) as [[[e|restorable] w2] t2] eqn:F;
    [discriminate|].
  assert (R2 : forallb returned t2 = true).
  { unfold findRestorableImportIds, bind, call, ret in F.
    destruct (getTransactions api w1) as [[e'|txs] w2']; inversion F.
    reflexivity. }
  unfold bind.
  destruct (collectUpBankIds api accountMapping (JS.or_str earliestDate "")
              restorable w2) as [[[e|[ids toRestore]] w3] t3] eqn:N;
    [discriminate|].
  assert (R3 : forallb returned t3 = true).
  { unfold collectUpBankIds in N.
    refine (forOf_returned (noteAccount api _ _) _ _ _ _ _ _ _ N).
    intros acc [up yn] w0 b' w0' evs0. unfold noteAccount, bind.
    destruct (fetchUpTransactionsByAccount api up (JS.or_str earliestDate "") w0)
      as [[[err|txs] w4] t4] eqn:Ff; [discriminate|].
    unfold ret. intros E. inversion E. rewrite app_nil_r.
    exact (fetch_returned api _ _ _ _ _ _ Ff). }
  unfold ret. intros E. inversion E.
  rewrite app_nil_r, !forallb_app, R1, R2, R3. reflexivity.
Qed.

(** X22. A resync writes to YNAB only after all its reads have
    succeeded.  If a pass issues any create, update or delete call,
    then it is a live pass, and before the first such call every
    mapped account was listed, the full history was listed and every
    page of every mapped Up Bank account was fetched, each of these
    calls having returned: an outage of either service during the
    detection stops the pass before anything is deleted or restored. *)
Theorem resync_writes_only_after_all_reads :
  forall (W : Type) (api : Api W) (accountMapping : list (string * string))
         (dryRun : bool) (w : W),
    let pass := performResyncAll api accountMapping dryRun w in
    ~ noMutation (events_of pass) ->
    dryRun = false
    /\ exists p w1 reads,
         resyncPlan api accountMapping w = (inr (Some p), w1, reads)
         /\ noMutation reads
         /\ forallb returned reads = true
         /\ events_of pass
            = reads ++ events_of (applyPlan api accountMapping p w1).
Proof.
  intros W api accountMapping dryRun w pass. subst pass.
  pose proof (resyncPlan_events api accountMapping w) as Np.
  rewrite performResyncAll_plan. unfold bind.
  destruct (resyncPlan api accountMapping w) as [[[e|[p|]] w1] t1] eqn:R;
    unfold events_of in Np; cbn [snd] in Np.
  - intros N. exfalso. apply N. exact Np.
  - destruct dryRun.
    + unfold ret, events_of. cbn [snd]. rewrite app_nil_r.
      intros N. exfalso. apply N. exact Np.
    + intros _. split; [reflexivity|].
      exists p, w1, t1. split; [reflexivity|]. split; [exact Np|].
      split; [exact (plan_returned api accountMapping w _ _ _ R)|].
      destruct (applyPlan api accountMapping p w1) as [[r w2] t2]. reflexivity.
  - unfold ret, events_of. cbn [snd]. rewrite app_nil_r.
    intros N. exfalso. apply N. exact Np.
Qed.

Lemma resync_writes_only_after_all_reads_witness :
  exists p w1 reads,
    resyncPlan Ref.api Samples.mapping2 (Samples.drifted [])
    = (inr (Some p), w1, reads)
    /\ forallb returned reads = true.
Proof.
  destruct (resync_writes_only_after_all_reads Ref.World Ref.api
              Samples.mapping2 false (Samples.drifted [])
              ltac:(vm_compute; discriminate))
    as [_ [p [w1 [reads [R [_ [A _]]]]]]].
  exists p, w1, reads. split; assumption.
Defined.

(** *** The sync loop and failures *)

Lemma fetchedAccounts_app (x y : list Event) :
  fetchedAccounts (x ++ y) = fetchedAccounts x ++ fetchedAccounts y.
Proof. unfold fetchedAccounts. apply flat_map_app. Qed.

Lemma later_pages_fetch_nothing (a d : string) (first count : nat) (ok : bool) :
  fetchedAccounts (pageRequests a d (S first) count ok) = [].
Proof.
  revert first. induction count as [|n IH]; intros first; [reflexivity|].
  rewrite pageRequests_cons.
  change (fetchedAccounts (?e :: ?r)) with (fetchedAccounts [e] ++ fetchedAccounts r).
  rewrite IH. reflexivity.
Qed.

Lemma fetch_asks_once {W : Type} (api : Api W) (a d : string) (w : W) :
  fetchedAccounts (events_of (fetchUpTransactionsByAccount api a d w)) = [a].
Proof.
  rewrite fetch_unfold. unfold events_of. cbn [snd].
  rewrite followPages_requests.
  pose proof (pageCount_pos (fst (upTransactions api a d w))) as P.
  destruct (pageCount (fst (upTransactions api a d w))) as [|n]; [lia|].
  destruct (chainError _).
  - cbn [Nat.sub]. rewrite Nat.sub_0_r, fetchedAccounts_app.
    destruct n as [|n]; [reflexivity|].
    rewrite pageRequests_cons.
    change (fetchedAccounts (?e :: ?r))
      with (fetchedAccounts [e] ++ fetchedAccounts r).
    rewrite later_pages_fetch_nothing. reflexivity.
  - rewrite pageRequests_cons.
    change (fetchedAccounts (?e :: ?r))
      with (fetchedAccounts [e] ++ fetchedAccounts r).
    rewrite later_pages_fetch_nothing. reflexivity.
Qed.

Lemma sync_asks_nothing {W : Type} (api : Api W) (accountId : string)
    (upTxs : list TransactionResource) (w : W) :
  fetchedAccounts (events_of (syncToYNAB api accountId upTxs w)) = [].
Proof.
  rewrite syncToYNAB_unfold. cbv zeta.
  assert (Ws : fetchedAccounts (statusWarnings upTxs) = []).
  { unfold statusWarnings. induction upTxs as [|t l IH]; [reflexivity|].
    cbn [flat_map]. rewrite fetchedAccounts_app.
    fold (statusWarnings l) in IH |- *. rewrite IH.
    destruct (unexpectedStatus (attr status t)); reflexivity. }
  destruct upTxs as [|u us]; [exact Ws|].
  destruct (createTransactions api _ w) as [[e|result] w1];
    unfold events_of at 1; cbn [snd]; rewrite fetchedAccounts_app, Ws.
  - reflexivity.
  - destruct (reconcileDuplicates_calls api accountId result
                (map (toYnabTransaction accountId (toISOString api w)) (u :: us))
                w1)
      as [[E _]|[[ok E]|[updates [ok [_ E]]]]]; rewrite E; reflexivity.
Qed.

Lemma syncAccount_asks_once {W : Type} (api : Api W) (up yn d : string) (w : W) :
  fetchedAccounts (events_of (syncAccount api up yn d w)) = [up].
Proof.
  unfold syncAccount, bind.
  pose proof (fetch_asks_once api up d w) as F.
  destruct (fetchUpTransactionsByAccount api up d w) as [[[e|txs] w1] t1];
    [exact F|].
  pose proof (sync_asks_nothing api yn txs w1) as S.
  destruct (syncToYNAB api yn txs w1) as [[r w2] t2].
  unfold events_of in *. cbn [snd] in *.
  rewrite fetchedAccounts_app, F, S. reflexivity.
Qed.

Lemma syncLoop_stops {W : Type} (api : Api W) (d : string)
    (accountMapping : list (string * string)) :
  forall acc (w : W),
    let x := forOf (syncMapping api d) accountMapping acc w in
    match result_of x with
    | inr _ => fetchedAccounts (events_of x) = map fst accountMapping
    | inl _ =>
        exists synced failing rest,
          accountMapping = synced ++ failing :: rest
          /\ fetchedAccounts (events_of x) = map fst (synced ++ [failing])
    end.
Proof.
  induction accountMapping as [|[up yn] rest IH]; intros [accs [[i dd] t]] w.
  - reflexivity.
  - cbv zeta. rewrite forOf_cons, syncMapping_run.
    pose proof (syncAccount_asks_once api up yn d w) as A.
    destruct (syncAccount api up yn d w) as [[[e|result] w1] t1];
      unfold events_of in A; cbn [snd] in A.
    + unfold result_of, events_of. cbn [fst snd].
      exists [], (up, yn), rest. split; [reflexivity|exact A].
    + rewrite result_after, events_after, fetchedAccounts_app, A.
      specialize (IH (accs ++ [{| upAccountId := up; ynabAccountId := yn;
                                  acc_imported := imported result;
                                  acc_duplicates := duplicates result |}],
                      ((i + imported result)%Z, (dd + duplicates result)%Z,
                       (t + total result)%Z)) w1).
      cbv zeta in IH.
      destruct (result_of (forOf (syncMapping api d) rest _ w1)) as [e|r].
      * destruct IH as [synced [failing [rest' [E F]]]].
        exists ((up, yn) :: synced), failing, rest'.
        split; [rewrite E; reflexivity|rewrite F; reflexivity].
      * rewrite IH. reflexivity.
Qed.

(** X23. The loop that syncs every mapped account takes the accounts
    in the order of the mapping and asks Up Bank for the first page of
    each once.  When the loop returns, every mapped account was
    fetched; when it throws, the accounts fetched are those of the
    mapping up to one of them, the failing one, and no account after
    it is fetched at all. *)
Theorem sync_loop_stops_at_the_first_failure :
  forall (W : Type) (api : Api W) (accountMapping : list (string * string))
         (sinceDate : string) (w : W),
    let x := syncAllAccounts api accountMapping sinceDate w in
    (isOk (result_of x) = true ->
     fetchedAccounts (events_of x) = map fst accountMapping)
    /\ (isOk (result_of x) = false ->
        exists synced failing rest,
          accountMapping = synced ++ failing :: rest
          /\ fetchedAccounts (events_of x) = map fst (synced ++ [failing])).
Proof.
  intros W api accountMapping sinceDate w x. subst x. unfold syncAllAccounts.
  pose proof (syncLoop_stops api sinceDate accountMapping
                ([], (0%Z, 0%Z, 0%Z)) w) as S.
  cbv zeta in S.
  destruct (result_of (forOf (syncMapping api sinceDate) accountMapping _ w))
    as [e|r]; cbn [isOk]; split; try discriminate; intros _; exact S.
Qed.

Lemma sync_loop_stops_at_the_first_failure_witness :
  exists synced failing rest,
    Samples.mapping2 = synced ++ failing :: rest
    /\ fetchedAccounts
         (events_of
            (syncAllAccounts Ref.api Samples.mapping2 "2024-03-01"
               (Samples.drifted [0])))
       = map fst (synced ++ [failing]).
Proof.
  apply (proj2 (sync_loop_stops_at_the_first_failure Ref.World Ref.api
                  Samples.mapping2 "2024-03-01" (Samples.drifted [0]))).
  reflexivity.
Defined.

(** *** The earlier revision of [syncToYNAB] *)

Lemma syncToYNAB_v1_unfold {W : Type} (api : Api W) (accountId : string)
    (upTxs : list TransactionResource) (w : W) :
  syncToYNAB_v1 api accountId upTxs w =
  let ts := map (toYnabTransaction_v1 accountId (toISOString api w)) upTxs in
  match upTxs with
  | [] => (inr {| imported := 0; duplicates := 0; total := 0 |}, w, [])
  | _ :: _ =>
      match createTransactions api ts w with
      | (inl e, w1) => (inl e, w1, [Called (CreateTransactions ts) false])
      | (inr result, w1) =>
          (inr {| imported :=
                    (Z.of_nat (length ts) - Z.of_nat (duplicateCountOf result))%Z;
                  duplicates := Z.of_nat (duplicateCountOf result);
                  total := Z.of_nat (length ts) |},
           w1, [Called (CreateTransactions ts) true])
      end
  end.
Proof.
  unfold syncToYNAB_v1, bind at 1, now. cbv zeta.
  destruct upTxs as [|u us]; [reflexivity|].
  cbn [map length Nat.eqb]. unfold bind, call, ret.
  destruct (createTransactions api _ w) as [[e|result] w1]; reflexivity.
Qed.

Lemma mapper_v1_agrees (accountId isoNow : string) (upTx : TransactionResource) :
  toYnabTransaction_v1 accountId isoNow upTx
  = toYnabTransaction accountId isoNow upTx
  <-> unexpectedStatus (attr status upTx) = false.
Proof.
  unfold toYnabTransaction_v1, toYnabTransaction, clearedStatusOf,
    unexpectedStatus.
  destruct (statusIs (attr status upTx) "HELD"); cbn [negb andb].
  - split; reflexivity.
  - destruct (statusIs (attr status upTx) "SETTLED"); cbn [negb].
    + split; reflexivity.
    + split; [intros E; inversion E|discriminate].
Qed.

(** X24. The earlier revision of [syncToYNAB] only creates: it makes
    no call but the batched create (none for an empty batch), so a
    transaction reported as duplicate keeps the cleared status it
    has, and it warns of nothing.  Its mapper agrees with the present
    one exactly on the transactions whose status is HELD or SETTLED,
    any other status being mapped to Cleared, as the restoration still
    does; when every status of the batch is HELD or SETTLED the two
    revisions submit the same batch, and the present one returns
    what the earlier one returned. *)
Theorem earlier_sync_only_creates :
  forall (W : Type) (api : Api W) (accountId : string)
         (upTxs : list TransactionResource) (w : W),
    let old := syncToYNAB_v1 api accountId upTxs w in
    let new := syncToYNAB api accountId upTxs w in
    (events_of old = []
     \/ exists ok,
          events_of old
          = [Called
               (CreateTransactions
                  (map (toYnabTransaction_v1 accountId (toISOString api w))
                     upTxs))
               ok])
    /\ (forall isoNow upTx,
           (toYnabTransaction_v1 accountId isoNow upTx
            = toYnabTransaction accountId isoNow upTx
            <-> unexpectedStatus (attr status upTx) = false)
           /\ sv_cleared (toYnabTransaction_v1 accountId isoNow upTx)
              = sv_cleared (toRestoredYnabTransaction accountId isoNow upTx))
    /\ (Forall (fun upTx => unexpectedStatus (attr status upTx) = false) upTxs ->
        result_of new = result_of old
        /\ createCalls (events_of new) = createCalls (events_of old)).
Proof.
  intros W api accountId upTxs w old new. subst old new.
  rewrite syncToYNAB_v1_unfold. cbv zeta.
  split; [|split].
  - destruct upTxs as [|u us]; [left; reflexivity|].
    right. destruct (createTransactions api _ w) as [[e|result] w1];
      eexists; reflexivity.
  - intros isoNow upTx. split; [apply mapper_v1_agrees|reflexivity].
  - intros F.
    assert (Same : map (toYnabTransaction_v1 accountId (toISOString api w)) upTxs
                   = map (toYnabTransaction accountId (toISOString api w)) upTxs).
    { apply map_ext_in. intros t I. apply mapper_v1_agrees.
      rewrite Forall_forall in F. apply F. exact I. }
    rewrite Same.
    destruct upTxs as [|u us].
    + rewrite syncToYNAB_unfold. split; reflexivity.
    + destruct (syncToYNAB_one_create api accountId (u :: us) w
                  ltac:(discriminate)) as [C _].
      rewrite C. rewrite syncToYNAB_unfold. cbv zeta.
      destruct (createTransactions api _ w) as [[e|result] w1];
        split; reflexivity.
Qed.

Lemma earlier_sync_only_creates_witness :
  result_of (syncToYNAB Ref.api "Y1" [Ref.upTx "a" "SETTLED"]
               (Samples.settledSince []))
  = result_of (syncToYNAB_v1 Ref.api "Y1" [Ref.upTx "a" "SETTLED"]
                 (Samples.settledSince [])).
Proof.
  apply (proj2 (proj2 (earlier_sync_only_creates Ref.World Ref.api "Y1"
                         [Ref.upTx "a" "SETTLED"] (Samples.settledSince [])))).
  repeat constructor.
Defined.

(** *** Amounts *)

Lemma digitOf_digitChar (d : nat) :
  d < 10 -> JS.digitOf (digitChar d) = Some (Z.of_nat d).
Proof.
  intros L. do 10 (destruct d as [|d]; [reflexivity|]). lia.
Qed.

Lemma digits_of_string (ds : list nat) (rest : string) :
  Forall (fun d => d < 10) ds ->
  (forall c r, rest = String c r -> JS.digitOf c = None) ->
  forall acc,
    JS.digits (digitsString ds ++ rest) acc
    = (length ds, valueOfDigits ds acc, rest).
Proof.
  intros F R. induction F as [|d ds Hd F IH]; intros acc.
  - cbn [digitsString append length valueOfDigits fold_left].
    destruct rest as [|c r]; [reflexivity|].
    cbn [JS.digits]. rewrite (R c r eq_refl). reflexivity.
  - cbn [digitsString append JS.digits]. rewrite (digitOf_digitChar d Hd).
    rewrite IH. reflexivity.
Qed.

(** Rounding to the nearest integer is off by half at most. *)
Lemma nearestEven_spec (num den : Z) :
  (0 < den)%Z ->
  (- den <= 2 * (JS.nearestEven num den * den - num) <= den)%Z.
Proof.
  intros D. unfold JS.nearestEven.
  pose proof (Z.div_mod num den ltac:(lia)) as E.
  pose proof (Z.mod_pos_bound num den D) as B.
  destruct (Z.compare_spec (2 * (num mod den)) den) as [C|C|C];
    [destruct (Z.even (num / den))| |]; nia.
Qed.

Lemma log2_bounds (a : Z) :
  (0 < a)%Z -> (2 ^ Z.log2 a <= a < 2 ^ (Z.log2 a + 1))%Z.
Proof.
  intros A. pose proof (Z.log2_spec a A) as S.
  replace (Z.log2 a + 1)%Z with (Z.succ (Z.log2 a)) by lia. exact S.
Qed.

(** Between [2^-10] and [2^51] a double has its 53 bits: it is
    [m / 2^s] where [m] is the integer nearest to [q * 2^s], and
    [q * 2^s] lies between [2^52] and [2^53]. *)
Lemma toDouble_mid (q : Q) :
  let a := Z.abs (Qnum q) in
  let d := Zpos (Qden q) in
  (d <= 1024 * a)%Z -> (a < 2 ^ 51 * d)%Z ->
  exists s m : Z,
    (1 <= s <= 63)%Z
    /\ (2 ^ 52 * d <= a * 2 ^ s < 2 ^ 53 * d)%Z
    /\ (- d <= 2 * (m * d - a * 2 ^ s) <= d)%Z
    /\ JS.toDouble q
       = JS.Num (Qred (Qmake (if (Qnum q <? 0)%Z then (- m)%Z else m)
                         (Z.to_pos (2 ^ s)))).
Proof.
  intros a d Lo Hi.
  assert (Dp : (0 < d)%Z) by (unfold d; lia).
  assert (Ap : (0 < a)%Z) by lia.
  destruct (log2_bounds a Ap) as [La1 La2].
  destruct (log2_bounds d Dp) as [Ld1 Ld2].
  pose proof (Z.log2_nonneg a) as La0.
  pose proof (Z.log2_nonneg d) as Ld0.
  set (la := Z.log2 a) in *. set (ld := Z.log2 d) in *.
  assert (E0hi : (la < ld + 52)%Z).
  { apply (Z.pow_lt_mono_r_iff 2); [lia|lia|].
    replace (ld + 52)%Z with (51 + (ld + 1))%Z by lia.
    rewrite Z.pow_add_r by lia. nia. }
  assert (E0lo : (ld < la + 11)%Z).
  { apply (Z.pow_lt_mono_r_iff 2); [lia|lia|].
    replace (la + 11)%Z with (10 + (la + 1))%Z by lia.
    rewrite Z.pow_add_r by lia. change (2 ^ 10)%Z with 1024%Z. nia. }
  unfold JS.toDouble. fold a. fold d.
  destruct (Z.eqb_spec a 0) as [Z0|_]; [lia|].
  fold la. fold ld.
  set (e0 := (la - ld - 52)%Z).
  assert (R0 : (-62 <= e0 <= -1)%Z) by (unfold e0; lia).
  replace (Z.max 0 e0) with 0%Z by lia.
  replace (Z.max 0 (- e0)) with (- e0)%Z by lia.
  change (2 ^ 0)%Z with 1%Z. rewrite Z.mul_1_r.
  assert (Up : (a * 2 ^ (- e0) < 2 ^ 53 * d)%Z).
  { unfold e0. replace (- (la - ld - 52))%Z with (ld + 52 - la)%Z by lia.
    assert (P : (2 ^ (la + 1) * 2 ^ (ld + 52 - la) = 2 ^ 53 * 2 ^ ld)%Z).
    { rewrite <- !Z.pow_add_r by lia. f_equal. lia. }
    assert (Q0 : (0 < 2 ^ (ld + 52 - la))%Z) by (apply Z.pow_pos_nonneg; lia).
    nia. }
  assert (Lw : (2 ^ 52 * d < a * 2 ^ (- e0 + 1))%Z).
  { unfold e0. replace (- (la - ld - 52) + 1)%Z with (ld + 53 - la)%Z by lia.
    assert (P : (2 ^ la * 2 ^ (ld + 53 - la) = 2 ^ 52 * 2 ^ (ld + 1))%Z).
    { rewrite <- !Z.pow_add_r by lia. f_equal. lia. }
    assert (Q0 : (0 < 2 ^ (ld + 53 - la))%Z) by (apply Z.pow_pos_nonneg; lia).
    nia. }
  assert (Dbl : (2 ^ (- e0 + 1) = 2 * 2 ^ (- e0))%Z).
  { rewrite Z.pow_add_r by lia. lia. }
  set (e1 := if (2 ^ 52 * d <=? a * 2 ^ (- e0))%Z then e0 else (e0 - 1)%Z).
  assert (R1 : (-63 <= e1 <= -1)%Z
               /\ (2 ^ 52 * d <= a * 2 ^ (- e1) < 2 ^ 53 * d)%Z).
  { unfold e1. destruct (Z.leb_spec (2 ^ 52 * d) (a * 2 ^ (- e0))) as [T|T].
    - split; [lia|]. split; assumption.
    - split; [lia|]. replace (- (e0 - 1))%Z with (- e0 + 1)%Z by lia.
      split; [lia|]. rewrite Dbl. lia. }
  destruct R1 as [R1 B1].
  replace (Z.max e1 (-1074)) with e1 by lia.
  replace (Z.max 0 e1) with 0%Z by lia.
  replace (Z.max 0 (- e1)) with (- e1)%Z by lia.
  change (2 ^ 0)%Z with 1%Z. rewrite !Z.mul_1_r.
  set (m := JS.nearestEven (a * 2 ^ (- e1)) d).
  assert (P0 : (2 ^ e1 = 0)%Z) by (apply Z.pow_neg_r; lia).
  rewrite P0, Z.mul_0_r.
  change (2 ^ 1024 <=? 0)%Z with false. cbv iota.
  exists (- e1)%Z, m. split; [lia|]. split; [exact B1|].
  split; [apply nearestEven_spec; exact Dp|]. reflexivity.
Qed.

Section Doubles.

Local Open Scope Q_scope.

(** So the double nearest to [q] is within [|q| / 2^53] of it. *)
Lemma toDouble_close (q : Q) :
  (1 # 1024) <= Qabs q -> Qabs q < 2251799813685248 ->
  exists p : Q,
    JS.toDouble q = JS.Num p
    /\ (p - q) * 9007199254740992 <= Qabs q
    /\ - Qabs q <= (p - q) * 9007199254740992.
Proof.
  intros Lo Hi.
  destruct q as [n d].
  assert (Lo' : (Zpos d <= 1024 * Z.abs n)%Z).
  { unfold Qle, Qabs in Lo. cbn [Qnum Qden] in Lo. lia. }
  assert (Hi' : (Z.abs n < 2 ^ 51 * Zpos d)%Z).
  { unfold Qlt, Qabs in Hi. cbn [Qnum Qden] in Hi.
    change (2 ^ 51)%Z with 2251799813685248%Z. lia. }
  destruct (toDouble_mid (n # d) Lo' Hi') as [s [m [S [B [M E]]]]].
  cbn [Qnum Qden] in B, M, E.
  eexists. split; [exact E|].
  assert (P : (0 < 2 ^ s)%Z) by (apply Z.pow_pos_nonneg; lia).
  change (2 ^ 52)%Z with 4503599627370496%Z in B.
  change (2 ^ 53)%Z with 9007199254740992%Z in B.
  rewrite Qred_correct.
  unfold Qle, Qabs, Qminus, Qplus, Qopp, Qmult. cbn [Qnum Qden].
  rewrite !Pos2Z.inj_mul, !Z2Pos.id by exact P.
  destruct (Z.ltb_spec n 0) as [Ng|Ng].
  - rewrite (Z.abs_neq n) in * by lia. split; nia.
  - rewrite (Z.abs_eq n) in * by lia. split; nia.
Qed.

Lemma Qfloor_unique (x : Q) (z : Z) :
  inject_Z z <= x -> x < inject_Z (z + 1) -> Qfloor x = z.
Proof.
  intros L U.
  pose proof (Qfloor_le x) as F1. pose proof (Qlt_floor x) as F2.
  assert (A : (z < Qfloor x + 1)%Z).
  { rewrite Zlt_Qlt. eapply Qle_lt_trans; eassumption. }
  assert (B : (Qfloor x < z + 1)%Z).
  { rewrite Zlt_Qlt. eapply Qle_lt_trans; eassumption. }
  lia.
Qed.

(** Two roundings, of [x] and of the product by 1000, move a number
    of thousandths below [2^50] by less than a half. *)
Lemma milliunits_exact (x : Q) (N : Z) :
  x * 1000 == inject_Z N ->
  (Z.abs N < 2 ^ 50)%Z ->
  JS.round (JS.times (JS.toDouble x) 1000) = JS.Num (inject_Z N).
Proof.
  intros X B. change (2 ^ 50)%Z with 1125899906842624%Z in B.
  destruct (Z.eq_dec N 0) as [->|Nz].
  - assert (Z0 : Qnum x = 0%Z).
    { unfold Qeq, Qmult in X. cbn [Qnum Qden inject_Z] in X. lia. }
    unfold JS.toDouble at 1. rewrite Z0. reflexivity.
  - assert (Bq : inject_Z N < 1125899906842624 /\ -1125899906842624 < inject_Z N).
    { split.
      - change 1125899906842624 with (inject_Z 1125899906842624).
        rewrite <- Zlt_Qlt. lia.
      - change (-1125899906842624) with (inject_Z (-1125899906842624)).
        rewrite <- Zlt_Qlt. lia. }
    destruct Bq as [Bq1 Bq2].
    assert (Sg : 1 <= inject_Z N \/ inject_Z N <= -1).
    { destruct (Z_lt_le_dec N 0) as [G|G].
      - right. change (-1) with (inject_Z (-1)). rewrite <- Zle_Qle. lia.
      - left. change 1 with (inject_Z 1). rewrite <- Zle_Qle. lia. }
    destruct Sg as [Sg|Sg].
    + assert (Ax : Qabs x == x) by (apply Qabs_pos; lra).
      destruct (toDouble_close x) as [p1 [E1 [U1 L1]]];
        [rewrite Ax; lra|rewrite Ax; lra|].
      rewrite Ax in U1, L1.
      rewrite E1. cbn [JS.times].
      change (inject_Z 1000) with 1000.
      assert (Ay : Qabs (p1 * 1000) == p1 * 1000) by (apply Qabs_pos; lra).
      destruct (toDouble_close (p1 * 1000)) as [p2 [E2 [U2 L2]]];
        [rewrite Ay; lra|rewrite Ay; lra|].
      rewrite Ay in U2, L2.
      rewrite E2. cbn [JS.round]. f_equal. f_equal.
      apply Qfloor_unique.
      * lra.
      * rewrite inject_Z_plus. change (inject_Z 1) with 1. lra.
    + assert (Ax : Qabs x == - x) by (apply Qabs_neg; lra).
      destruct (toDouble_close x) as [p1 [E1 [U1 L1]]];
        [rewrite Ax; lra|rewrite Ax; lra|].
      rewrite Ax in U1, L1.
      rewrite E1. cbn [JS.times].
      change (inject_Z 1000) with 1000.
      assert (Ay : Qabs (p1 * 1000) == - (p1 * 1000)) by (apply Qabs_neg; lra).
      destruct (toDouble_close (p1 * 1000)) as [p2 [E2 [U2 L2]]];
        [rewrite Ay; lra|rewrite Ay; lra|].
      rewrite Ay in U2, L2.
      rewrite E2. cbn [JS.round]. f_equal. f_equal.
      apply Qfloor_unique.
      * lra.
      * rewrite inject_Z_plus. change (inject_Z 1) with 1. lra.
Qed.

End Doubles.

Lemma scale_thousandths (m : Z) (k : nat) :
  k <= 3 ->
  (JS.scale m (0 - Z.of_nat k) * 1000 == inject_Z (m * 10 ^ (3 - Z.of_nat k)))%Q.
Proof.
  intros L. unfold JS.scale.
  assert (K : k = 0 \/ k = 1 \/ k = 2 \/ k = 3) by lia.
  destruct K as [-> | [-> | [-> | ->]]].
  - change (0 - Z.of_nat 0)%Z with 0%Z. change (3 - Z.of_nat 0)%Z with 3%Z.
    change (0 <=? 0)%Z with true. cbv iota.
    change (10 ^ 0)%Z with 1%Z. change (10 ^ 3)%Z with 1000%Z.
    unfold Qeq, Qmult, inject_Z. cbn [Qnum Qden]. lia.
  - change (0 - Z.of_nat 1)%Z with (-1)%Z. change (3 - Z.of_nat 1)%Z with 2%Z.
    change (0 <=? -1)%Z with false. cbv iota.
    change (Z.to_pos (10 ^ (- (-1)))) with 10%positive.
    change (10 ^ 2)%Z with 100%Z.
    rewrite Qred_correct. unfold Qeq, Qmult, inject_Z. cbn [Qnum Qden]. lia.
  - change (0 - Z.of_nat 2)%Z with (-2)%Z. change (3 - Z.of_nat 2)%Z with 1%Z.
    change (0 <=? -2)%Z with false. cbv iota.
    change (Z.to_pos (10 ^ (- (-2)))) with 100%positive.
    change (10 ^ 1)%Z with 10%Z.
    rewrite Qred_correct. unfold Qeq, Qmult, inject_Z. cbn [Qnum Qden]. lia.
  - change (0 - Z.of_nat 3)%Z with (-3)%Z. change (3 - Z.of_nat 3)%Z with 0%Z.
    change (0 <=? -3)%Z with false. cbv iota.
    change (Z.to_pos (10 ^ (- (-3)))) with 1000%positive.
    change (10 ^ 0)%Z with 1%Z.
    rewrite Qred_correct. unfold Qeq, Qmult, inject_Z. cbn [Qnum Qden]. lia.
Qed.

Lemma append_empty (s : string) : (s ++ "")%string = s.
Proof. induction s as [|c s IH]; [reflexivity|]. simpl. rewrite IH. reflexivity. Qed.

Lemma digit_starts (d : nat) (rest : string) :
  d < 10 ->
  JS.trimStart (String (digitChar d) rest) = String (digitChar d) rest
  /\ JS.sign (String (digitChar d) rest) = (false, String (digitChar d) rest)
  /\ String.prefix "Infinity" (String (digitChar d) rest) = false.
Proof.
  intros L. do 10 (destruct d as [|d]; [repeat split|]). lia.
Qed.

Lemma parseFloat_decimal (negative : bool) (integer fraction : list nat) :
  integer <> [] ->
  Forall (fun d => d < 10) integer ->
  Forall (fun d => d < 10) fraction ->
  JS.parseFloat (amountString negative integer fraction)
  = JS.toDouble
      (JS.scale
         (if negative
          then (- valueOfDigits (integer ++ fraction) 0)%Z
          else valueOfDigits (integer ++ fraction) 0)
         (0 - Z.of_nat (length fraction))).
Proof.
  intros Ne Fi Ff.
  assert (Body : forall s,
             s = (digitsString integer ++ "." ++ digitsString fraction)%string ->
             String.prefix "Infinity" s = false
             /\ JS.digits s 0%Z
                = (length integer, valueOfDigits integer 0,
                   String "." (digitsString fraction))).
  { intros s ->. split.
    - destruct integer as [|d ds]; [congruence|].
      inversion Fi. subst. cbn [digitsString append].
      apply (digit_starts d); assumption.
    - apply digits_of_string; [exact Fi|].
      intros c r E. inversion E. reflexivity. }
  destruct (Body _ eq_refl) as [NoInf Dg].
  assert (Frac : JS.digits (digitsString fraction) (valueOfDigits integer 0)
                 = (length fraction, valueOfDigits (integer ++ fraction) 0, "")).
  { rewrite <- (append_empty (digitsString fraction)).
    rewrite digits_of_string; [|exact Ff|discriminate].
    unfold valueOfDigits. rewrite fold_left_app. reflexivity. }
  assert (Sg : JS.sign (JS.trimStart (amountString negative integer fraction))
               = (negative,
                  (digitsString integer ++ "." ++ digitsString fraction)%string)).
  { unfold amountString. destruct negative.
    - reflexivity.
    - destruct integer as [|d ds]; [congruence|].
      inversion Fi. subst.
      destruct (digit_starts d (digitsString ds ++ "." ++ digitsString fraction)
                  ltac:(assumption)) as [T [S _]].
      change (JS.sign
                (JS.trimStart
                   (String (digitChar d)
                      (digitsString ds ++ "." ++ digitsString fraction)))
              = (false,
                 String (digitChar d)
                   (digitsString ds ++ "." ++ digitsString fraction))).
      rewrite T. exact S. }
  unfold JS.parseFloat. rewrite Sg, NoInf, Dg, Frac.
  destruct integer as [|d ds]; [congruence|].
  cbn [length JS.exponent]. reflexivity.
Qed.

(** X25. An amount written as Up Bank writes it (an optional minus
    sign, digits, a point and at most three digits of fraction) and
    below [2^50] thousandths, about 1.1e12, is converted to milliunits
    without loss, in the sync and in the restoration alike: although
    neither the double that [parseFloat] gives nor its product by 1000
    need be the number written, [Math.round] of the product is the
    number written, times 1000. *)
Theorem decimal_amounts_convert_exactly :
  forall (negative : bool) (integer fraction : list nat)
         (id accountId isoNow : string),
    integer <> [] ->
    Forall (fun d => d < 10) integer ->
    Forall (fun d => d < 10) fraction ->
    length fraction <= 3 ->
    let written := valueOfDigits (integer ++ fraction) 0 in
    let milliunits :=
      ((if negative then - written else written)
       * 10 ^ (3 - Z.of_nat (length fraction)))%Z in
    (Z.abs milliunits < 2 ^ 50)%Z ->
    let upTx := withAmount id (amountString negative integer fraction) in
    sv_amount (toYnabTransaction accountId isoNow upTx) = JS.ofZ milliunits
    /\ sv_amount (toRestoredYnabTransaction accountId isoNow upTx)
       = JS.ofZ milliunits.
Proof.
  intros negative integer fraction id accountId isoNow Ne Fi Ff L
    written milliunits B upTx.
  assert (A : amountInMilliunits upTx = JS.ofZ milliunits).
  { unfold amountInMilliunits, upTx, withAmount, amountValue, attr.
    cbn [attributes amount value].
    assert (V : JS.or_str (Some (amountString negative integer fraction)) "0"
                = amountString negative integer fraction).
    { unfold amountString. destruct negative; [reflexivity|].
      destruct integer as [|d ds]; [congruence|]. reflexivity. }
    rewrite V, (parseFloat_decimal negative integer fraction Ne Fi Ff).
    apply milliunits_exact; [|exact B].
    apply scale_thousandths. exact L. }
  split; exact A.
Qed.

Lemma decimal_amounts_convert_exactly_witness :
  sv_amount (toYnabTransaction "Y1" "2024-03-05T00:00:00.000Z"
               (withAmount "a" "-4.0005"))
  = JS.ofZ (-4000)
  /\ sv_amount (toYnabTransaction "Y1" "2024-03-05T00:00:00.000Z"
                  (withAmount "a" "-1.005"))
     = JS.ofZ (-1005).
Proof.
  split; [reflexivity|].
  apply (proj1 (decimal_amounts_convert_exactly true [1] [0; 0; 5] "a" "Y1"
                  "2024-03-05T00:00:00.000Z" ltac:(discriminate)
                  ltac:(repeat constructor) ltac:(repeat constructor)
                  ltac:(simpl; lia) ltac:(vm_compute; reflexivity))).
Defined.
